(* ===== verification/_CoqProject ===== *)
-Q . S2P
Prelude.v
GoStr.v
Utf8.v
Protocol.v
StoreIface.v
Limiter.v
LimiterProps.v
Logic.v
LogicFacts.v
Worker.v
WorkerSteps.v
Storage.v
MemDB.v
Cache.v
GoJson.v
GoJsonFacts.v
JsonProps.v
Dao.v
Store.v
Group.v
StoreSteps.v
StoreInv.v
StoreFacts.v
StoreSpec.v
StoreImpl.v
WorkerFacts.v
Hub.v
SessionSteps.v
Server.v
Session.v
Commands.v
Conn.v
ReadProps.v
Config.v
SessionFacts.v
Program.v
Demo.v
OnlineProps.v
SessionProps.v
ConnSteps.v
ConfigProps.v
AccountProps.v
Races.v
AccountsKept.v
StoreProps.v
ChatFacts.v
ChatProps.v
JsonChat.v
Reentry.v
LogicProps.v
LogicSteps.v
WorkerProps.v
StoreDB.v
StoreDBProps.v
Stored.v
Pending.v
DaoProps.v
