(* ===== verification/Prelude.v ===== *)
(** * 8H-Go, an instant-messaging server: its verification

    The program (Go, src/) is one process. Clients connect over TCP and type lines, text
    commands or JSON messages. Each connection has a session; a logic service gives
    messages their ids and sequence numbers and saves them; a worker delivers them to the
    sessions of the users online and retries until they are acknowledged; the store keeps
    messages and deliveries in memory, over a MySQL database (gorm) with a Redis cache in
    front. This library translates all of the program's own code into definitions and proves
    what its parts promise.

    ** Parts and files

    - [Prelude]: 64-bit arithmetic, errors, the state monad [M S A] ([exec], [eval]), the
      reasoning about what a computation can change ([moves], [hoare] and their tactics), the
      runtime's choices ([GoEnv]: clock readings, the order of a map iteration and of what a
      sort finds equal). [GoStr],
      [Utf8]: the string functions of Go's library the program uses. [GoJson], [GoJsonFacts]:
      encoding/json for the three types that are marshalled.
    - [Protocol]: internal/protocol, utils/helpers.go.
    - [StoreIface]: store/iface.go as a class with the laws its clients rely on; [Store]: the
      methods of [InMemoryStore] (store/*.go); [StoreSpec]: what each of them promises about
      the memory, a contract written without them, and that they keep it; [StoreImpl]: they
      satisfy the laws; [StoreDB], [Stored]: their effect on the rows, of one call and of any
      number of calls; [StoreSteps], [StoreInv], [StoreFacts]: the lemmas for these.
    - [Storage] (storage/model.go): the rows, and gorm as a class with laws; [MemDB]: a
      concrete database that satisfies them. [Cache] (cache/redis.go): keys, settings, the
      Redis client as a class with laws, the state outside the process. [Dao]: dao/*.go.
    - [Limiter] (server/conn_security.go), [Group] (server/group.go).
    - [Logic] (server/logic.go, id.go), over the interface of the store; [LogicSteps]:
      [ProcessSend], run by many goroutines at once, action by action.
    - [Worker] (delivery/worker.go), over store and network; [WorkerSteps]: its queue, taken
      apart into the atomic actions of goroutines.
    - [Hub]: the state of server.go and of the sessions, [SendMsg] and [Close]; [SessionSteps]:
      these two calls, taken apart into atomic actions. The state of the program is a [DW]:
      worker, store ([SW]: memory and the world outside), [Hub].
    - [Server] (server/api.go, broadcast.go, messages.go, stats.go), [Session]
      (session/session.go, auth.go), [Commands] (session/commands.go, dispatch.go), [Conn]
      (server/conn.go, accept.go), [Config] (main.go, server/bootstrap.go, start.go,
      storage/db.go, utils/env.go). [ConnSteps]: the two goroutines of a connection and the
      channel between them, in the running program.
    - [Program]: the running program as a step relation ([prog_step], [reachable]), and the
      changes every step is made of; what a property needs of the steps is proved once, for
      the changes ([step_respects], [reachable_store]). [SessionFacts], [ChatFacts], [LogicFacts],
      [WorkerFacts]: executions of one part.

    Names follow the source. A method becomes a computation of the same name; where two
    packages use a name, the file tells them apart ([Group.Join]), or a prefix does
    ([dao_SaveMessage], [srv_NextSeq], [SUser]). [nil] is [None], a Go error an [option error],
    a result with an error a sum.

    ** Results

    - Messages arrive ([ChatProps], [JsonChat], [WorkerProps], [Pending]): a chat or group line,
      or a JSON message, sent on one connection ends in the channels of its recipients; a
      login hands over everything pending, from memory, and from the database after a restart;
      what is due in the database goes out at the next retry tick; an id is in flight once at
      a time, and each copy is attempted once.
    - Messages are kept ([LogicProps], [LogicSteps], [StoreProps], [StoreDBProps]): one call
      after the other, resending gives the first message back; ids are unique, numbers of a
      chat increase, also when sends interleave; saving is all or nothing and survives a
      restart; in memory deliveries only move forward, an acknowledged one is never pending,
      the last attempt makes a dead letter; every method keeps its contract.
    - Sessions ([SessionProps], [SessionSteps], [OnlineProps], [ConnSteps]): nothing before the
      login, one logout, no send ever waits for a reader, calls atomic under any scheduling,
      without panic or deadlock; connections end, and are torn down in order; the online map
      leads to sessions of that name.
    - Accounts and groups ([AccountProps], [DaoProps], [AccountsKept], [SessionProps],
      [Group]): every outcome of login and registration; accounts are permanent, and only the
      password of one logs in, through the cache too; groups change only in the turn of a
      session, by the rights of the name that session has.
    - What goes wrong when things race or come late ([Races], [LogicSteps], [Reentry],
      [ConnSteps]): two logins, or two sends of one request, both succeed; a session that was
      logged out returns to the online map; a reader is stuck for ever.
    - Input and start ([JsonProps], [ReadProps], [LimiterProps], [ConfigProps]): JSON is read back
      as written, on one line; the length limit of a line; the limiter is a sliding window; the
      environment wins over files; what [main] comes to, with every failure on the way.

    ** Conventions and bounds

    - A handler is one step of [prog_step]: it runs without interruption. The interleavings
      inside are studied where the code guards against them or fails to: [WorkerSteps],
      [SessionSteps], [ConnSteps], [LogicSteps], [Races].
    - Recursion runs on fuel in few places: [deliverWorker n] makes at most n turns, and the
      length of the queue is enough; [readRawLine] has one unit for each byte and one more;
      the JSON parser two for each byte and one more, proved enough for every printed value.
    - int, int64 and time.Duration wrap at 64 bits ([wrap64]), uint64 modulo 2^64; times are
      nanoseconds, 0 the zero time.
    - The store has a memory-only mode, for which it is written but which [main] never
      chooses ([main_outcomes]). Theorems that need it say so ([persistent]); the others hold
      in both modes.

    ** Not modelled

    Third-party code and services are parameters: [Gorm], [Redis], [Dial] (opening and migrating
    the database, making and pinging the client), [Bcrypt], [Gb18030]; so are texts that depend
    on the time zone, on floating-point formatting or on error wording ([GoFmt], [GoTime]). The
    laws of [Gorm] and [Redis] allow failures at any call. Sockets, timers and logging are left
    out: a step of [prog_step] stands for each of their events. Not modelled are scripts,
    containers, the unused protobuf schema and the documents. *)
From stdpp Require Export base tactics option list gmap strings pretty fin_maps sets sorting.
From Stdlib Require Export ZArith Lia Ascii.

#[global] Open Scope Z_scope.
#[global] Set Default Goal Selector "!".
#[global] Unset Intuition Negation Unfolding.

(** * Machine integers *)

(** Go's [int], [int64] and [time.Duration] are 64-bit two's complement; [uint64]
    wraps modulo 2^64. *)
Definition wrap64 (z : Z) : Z := (z + 2 ^ 63) mod 2 ^ 64 - 2 ^ 63.
Definition wrapu64 (z : Z) : Z := z mod 2 ^ 64.

Definition in_int64 (z : Z) : Prop := - 2 ^ 63 <= z < 2 ^ 63.
Definition in_uint64 (z : Z) : Prop := 0 <= z < 2 ^ 64.

Lemma wrap64_range z : in_int64 (wrap64 z).
Proof. unfold in_int64, wrap64. pose proof (Z.mod_pos_bound (z + 2 ^ 63) (2 ^ 64)). lia. Qed.

Lemma wrap64_id z : in_int64 z → wrap64 z = z.
Proof. unfold in_int64, wrap64. intros ?. rewrite Z.mod_small; lia. Qed.

Lemma wrapu64_range z : in_uint64 (wrapu64 z).
Proof. unfold in_uint64, wrapu64. apply Z.mod_pos_bound. lia. Qed.

Lemma wrapu64_id z : in_uint64 z → wrapu64 z = z.
Proof. unfold in_uint64, wrapu64. intros ?. by rewrite Z.mod_small. Qed.

(** * Errors *)

(** Go's [error] values: the sentinel the code compares with [errors.Is], and any other
    error by its text ([nil] is [None]). *)
Inductive error :=
  | ErrRecordNotFound
  | Err (text : string).

#[global] Instance error_eq_dec : EqDecision error.
Proof. solve_decision. Defined.

(** [err.Error()]. *)
Definition Error (e : error) : string :=
  match e with ErrRecordNotFound => "record not found" | Err t => t end.

(** * The state monad of the model *)

Definition M (S A : Type) : Type := S → A * S.

#[global] Instance M_ret S : MRet (M S) := λ A a s, (a, s).
#[global] Instance M_bind S : MBind (M S) := λ A B f m s, let (a, s') := m s in f a s'.
#[global] Instance M_fmap S : FMap (M S) := λ A B f m s, let (a, s') := m s in (f a, s').

Definition gets {S A} (f : S → A) : M S A := λ s, (f s, s).
Definition modify {S} (f : S → S) : M S unit := λ s, (tt, f s).

(** Run a computation on a part of the state. *)
Definition zoom {S T A} (get : S → T) (put : T → S → S) (m : M T A) : M S A :=
  λ s, let (a, t) := m (get s) in (a, put t s).

(** [for _, x := range l { body }]: the loop over a slice. *)
Fixpoint forM {S A} (l : list A) (body : A → M S unit) : M S unit :=
  match l with
  | [] => mret tt
  | x :: l' => body x ;; forM l' body
  end.

Definition when {S} (b : bool) (m : M S unit) : M S unit :=
  if b then m else mret tt.

(** Final state and result of a run. *)
Definition exec {S A} (m : M S A) (s : S) : S := snd (m s).
Definition eval {S A} (m : M S A) (s : S) : A := fst (m s).

Lemma exec_bind {S A B} (m : M S A) (f : A → M S B) s :
  exec (m ≫= f) s = exec (f (eval m s)) (exec m s).
Proof. unfold exec, eval, mbind, M_bind. by destruct (m s). Qed.

Lemma eval_bind {S A B} (m : M S A) (f : A → M S B) s :
  eval (m ≫= f) s = eval (f (eval m s)) (exec m s).
Proof. unfold exec, eval, mbind, M_bind. by destruct (m s). Qed.

Lemma eval_ret {S A} (a : A) (s : S) : eval (mret a) s = a.
Proof. done. Qed.

Lemma exec_eval {S A} (m : M S A) s : m s = (eval m s, exec m s).
Proof. unfold exec, eval. by destruct (m s). Qed.

Lemma forM_nil {S A} (body : A → M S unit) s : forM [] body s = (tt, s).
Proof. done. Qed.

Lemma forM_cons {S A} (body : A → M S unit) x l s :
  forM (x :: l) body s = forM l body (snd (body x s)).
Proof. cbn. unfold mbind, M_bind. by destruct (body x s) as [[] ?]. Qed.

Lemma forM_app {S A} (body : A → M S unit) l1 l2 s :
  forM (l1 ++ l2) body s = forM l2 body (snd (forM l1 body s)).
Proof.
  revert s. induction l1 as [|x l1 IH]; intros s; [done|].
  rewrite <- app_comm_cons, !forM_cons. apply IH.
Qed.

(** A state property kept by every turn of a loop is kept by the loop. *)
Lemma forM_inv {S A} (P : S → Prop) (body : A → M S unit) l :
  (∀ x s, x ∈ l → P s → P (exec (body x) s)) →
  ∀ s, P s → P (exec (forM l body) s).
Proof.
  unfold exec. induction l as [|x l IH]; intros Hbody s Hs; [done|].
  rewrite forM_cons. apply IH.
  - intros y t Hy. apply Hbody. by right.
  - apply Hbody; [by left | done].
Qed.

(** The loop, as a fold over the final states. *)
Lemma exec_forM {S A} (body : A → M S unit) l s :
  exec (forM l body) s = foldl (λ t x, exec (body x) t) s l.
Proof.
  unfold exec. revert s. induction l as [|x l IH]; intros s; [done|].
  rewrite forM_cons. apply IH.
Qed.

(** ** What a computation may do to the state *)

(** From every state, the computation ends in a [Rel]-related one. *)
Definition moves {S A} (Rel : relation S) (m : M S A) : Prop := ∀ s, Rel s (exec m s).

Section moves.
Context {S : Type} (Rel : relation S) `{!PreOrder Rel}.

Lemma moves_ret {A} (a : A) : moves Rel (mret a).
Proof. intros s. reflexivity. Qed.

Lemma moves_gets {A} (f : S → A) : moves Rel (gets f).
Proof. intros s. reflexivity. Qed.

Lemma moves_bind {A B} (m : M S A) (f : A → M S B) :
  moves Rel m → (∀ a, moves Rel (f a)) → moves Rel (m ≫= f).
Proof.
  intros Hm Hf s. specialize (Hm s). unfold exec, mbind, M_bind in *.
  destruct (m s) as [a s']. by etrans; [|apply (Hf a s')].
Qed.

(** Reading the state and continuing with what was read. *)
Lemma moves_read {A B} (f : S → A) (k : A → M S B) :
  (∀ s, Rel s (exec (k (f s)) s)) → moves Rel (gets f ≫= k).
Proof. intros Hk s. apply Hk. Qed.

Lemma moves_when b (m : M S unit) : moves Rel m → moves Rel (when b m).
Proof. intros Hm. destruct b; [done|]. apply moves_ret. Qed.

Lemma moves_forM {A} (l : list A) (body : A → M S unit) :
  (∀ x, moves Rel (body x)) → moves Rel (forM l body).
Proof.
  intros Hb. induction l as [|x l IH]; cbn [forM]; [apply moves_ret|].
  apply moves_bind; [apply Hb|auto].
Qed.
End moves.

(** The same, of the part of the state a projection sees. *)
Definition on {S T} (proj : S → T) (Rel : relation T) : relation S :=
  λ s s', Rel (proj s) (proj s').

#[global] Instance on_preorder {S T} (proj : S → T) Rel `{!PreOrder Rel} :
  PreOrder (on proj Rel).
Proof. split; [intros s; unfold on; reflexivity|]. intros s1 s2 s3 H1 H2. unfold on. by etrans. Qed.

(** Decompose a computation along its structure; the leaves are left to [leaf]. *)
Ltac moves_step leaf :=
  lazymatch goal with
  | |- moves _ (mret _) => apply moves_ret; apply _
  | |- moves _ (gets _) => apply moves_gets; apply _
  | |- moves _ (mbind _ _) => apply moves_bind; [apply _| |intros ?]
  | |- moves _ (when _ _) => apply moves_when; [apply _|]
  | |- moves _ (forM _ _) => apply moves_forM; [apply _|intros ?]
  | |- moves _ (match _ with _ => _ end) => case_match
  | |- _ => first [progress leaf | case_match]
  end.

Ltac moves_tac leaf := repeat moves_step leaf.

(** ** Hoare triples *)

Definition hoare {S A} (P : S → Prop) (m : M S A) (Q : A → S → Prop) : Prop :=
  ∀ s, P s → Q (eval m s) (exec m s).

Section hoare.
Context {S : Type}.
Implicit Types P : S → Prop.

Lemma hoare_ret {A} P (a : A) (Q : A → S → Prop) : (∀ s, P s → Q a s) → hoare P (mret a) Q.
Proof. intros HQ s Hs. by apply HQ. Qed.

Lemma hoare_bind {A B} P (m : M S A) (R : A → S → Prop) (f : A → M S B) Q :
  hoare P m R → (∀ a, hoare (R a) (f a) Q) → hoare P (m ≫= f) Q.
Proof.
  intros Hm Hf s Hs. specialize (Hm s Hs). unfold hoare, eval, exec, mbind, M_bind in *.
  destruct (m s) as [a s']. by apply (Hf a s').
Qed.

Lemma hoare_weaken {A} P P' (m : M S A) (Q Q' : A → S → Prop) :
  hoare P m Q → (∀ s, P' s → P s) → (∀ a s, Q a s → Q' a s) → hoare P' m Q'.
Proof. intros Hm HP HQ s Hs. auto. Qed.

Lemma hoare_gets {A} P (f : S → A) : hoare P (gets f) (λ a s, a = f s ∧ P s).
Proof. done. Qed.

(** What only depends on an unchanged part of the state is kept. *)
Lemma hoare_frame {T A} (proj : S → T) (P : T → Prop) (m : M S A) :
  moves (on proj eq) m → hoare (λ s, P (proj s)) m (λ _ s, P (proj s)).
Proof. intros Hm s Hs. specialize (Hm s). unfold on in Hm. by rewrite <- Hm. Qed.

Lemma hoare_frame_bind {T A B} (proj : S → T) (P : T → Prop) (m : M S A) (f : A → M S B) Q :
  moves (on proj eq) m → (∀ a, hoare (λ s, P (proj s)) (f a) Q) →
  hoare (λ s, P (proj s)) (m ≫= f) Q.
Proof. intros Hm Hf. eapply hoare_bind; [by apply hoare_frame|done]. Qed.
End hoare.

(** * The Go runtime: clock and map iteration *)

(** What the program observes of the runtime and cannot choose: the wall clock (the n-th
    reading of [time.Now()], in nanoseconds since the epoch) and the order in which
    [range] visits a map (any permutation, chosen anew at each iteration). The host name is
    read by [cache.GatewayID]. *)
Class GoEnv := {
  go_now : nat → Z;
  go_order : ∀ {A : Type}, nat → list A → list A;
  go_order_perm : ∀ A n (l : list A), go_order n l ≡ₚ l;
  go_hostname : option string
}.

(** [time.Second] and [time.Millisecond] in nanoseconds. *)
Definition Second : Z := 1000000000.
Definition Millisecond : Z := 1000000.

(** [t.Unix()] and [t.UnixMilli()] round towards minus infinity. *)
Definition Unix (t : Z) : Z := t / Second.
Definition UnixMilli (t : Z) : Z := t / Millisecond.
(** [t.UnixNano()] is an [int64]. *)
Definition UnixNano (t : Z) : Z := wrap64 t.

(** A deterministic runtime for concrete evaluations: the clock starts at [t0] and
    advances by [step] at each reading, maps are visited in their canonical order. *)
Definition fixed_env (t0 step : Z) : GoEnv := {|
  go_now n := t0 + step * Z.of_nat n;
  go_order A _ l := l;
  go_order_perm A n l := Permutation_refl l;
  go_hostname := Some "host"
|}.

(** * List lemmas *)

Lemma existsb_exists_stdpp {A} (f : A → bool) l :
  existsb f l = true ↔ ∃ x, x ∈ l ∧ f x = true.
Proof.
  rewrite existsb_exists. by setoid_rewrite <- list_elem_of_In.
Qed.

Lemma existsb_false_stdpp {A} (f : A → bool) l :
  existsb f l = false ↔ ∀ x, x ∈ l → f x = false.
Proof.
  induction l as [|y l IH]; cbn.
  - split; [intros _ x Hx; by apply not_elem_of_nil in Hx | done].
  - rewrite orb_false_iff, IH. setoid_rewrite elem_of_cons. split.
    + intros [Hy Hl] x [->|Hx]; auto.
    + intros H. split; auto.
Qed.

Lemma existsb_permutation {A} (f : A → bool) l1 l2 :
  l1 ≡ₚ l2 → existsb f l1 = existsb f l2.
Proof.
  intros Hp. destruct (existsb f l2) eqn:E.
  - apply existsb_exists_stdpp in E as (x & Hx & Hf).
    apply existsb_exists_stdpp. exists x. by rewrite Hp.
  - rewrite existsb_false_stdpp in E |- *. intros x Hx. apply E. by rewrite <- Hp.
Qed.

Lemma filter_permutation_list {A} (p : A → bool) l1 l2 :
  l1 ≡ₚ l2 → List.filter p l1 ≡ₚ List.filter p l2.
Proof.
  induction 1 as [|x l1 l2 _ IH|x y l|l1 l2 l3 _ IH1 _ IH2]; cbn.
  - done.
  - destruct (p x); by rewrite IH.
  - destruct (p x), (p y); done || apply Permutation_swap.
  - by rewrite IH1.
Qed.

Lemma elem_of_filter_list {A} (p : A → bool) l x :
  x ∈ List.filter p l ↔ x ∈ l ∧ p x = true.
Proof. by rewrite !list_elem_of_In, filter_In. Qed.

Lemma NoDup_filter_list {A} (p : A → bool) l : NoDup l → NoDup (List.filter p l).
Proof. rewrite !NoDup_ListNoDup. apply List.NoDup_filter. Qed.

Lemma concat_permutation {A} (ls1 ls2 : list (list A)) :
  ls1 ≡ₚ ls2 → concat ls1 ≡ₚ concat ls2.
Proof.
  induction 1 as [|l ls1 ls2 _ IH|l1 l2 ls|ls1 ls2 ls3 _ IH1 _ IH2]; cbn.
  - done.
  - by rewrite IH.
  - rewrite !app_assoc. by rewrite (Permutation_app_comm l1 l2).
  - by rewrite IH1.
Qed.

(** * Automation *)

(** Split the innermost [if]/[match] of the goal, then those of the hypotheses. *)
Ltac case_all :=
  repeat (case_match; simplify_eq/=; try done).

(** Unfold the monad's combinators, leaving those of the other monads folded. *)
Ltac munfold :=
  unfold mbind, mret, fmap, M_bind, M_ret, M_fmap, gets, modify, zoom, when in *;
  change list_fmap with (@fmap list list_fmap) in *;
  change option_fmap with (@fmap option option_fmap) in *;
  change option_bind with (@mbind option option_bind) in *;
  change option_ret with (@mret option option_ret) in *.

(** Turn boolean tests into propositions. *)
Ltac bool_to_prop :=
  repeat match goal with
  | H : _ && _ = true |- _ => apply andb_true_iff in H as [? ?]
  | H : _ || _ = false |- _ => apply orb_false_iff in H as [? ?]
  | H : _ || _ = true |- _ => apply orb_true_iff in H
  | H : _ && _ = false |- _ => apply andb_false_iff in H
  | H : negb _ = true |- _ => apply negb_true_iff in H
  | H : negb _ = false |- _ => apply negb_false_iff in H
  | H : String.eqb _ _ = true |- _ => apply String.eqb_eq in H
  | H : String.eqb _ _ = false |- _ => apply String.eqb_neq in H
  | H : (_ =? _) = true |- _ => apply Z.eqb_eq in H
  | H : (_ =? _) = false |- _ => apply Z.eqb_neq in H
  | H : (_ <=? _) = true |- _ => apply Z.leb_le in H
  | H : (_ <=? _) = false |- _ => apply Z.leb_gt in H
  | H : (_ <? _) = true |- _ => apply Z.ltb_lt in H
  | H : (_ <? _) = false |- _ => apply Z.ltb_ge in H
  end.

(** Case analysis on the decisions in the goal, closing the contradictory cases. *)
Ltac dec_cases :=
  repeat case_decide; destruct_and?; subst; try tauto; try done; try congruence.

Create HintDb goim discriminated.
Create Rewrite HintDb goim.
#[export] Hint Resolve wrap64_range wrapu64_range : goim.
