(* ===== verification/GoStr.v ===== *)
(** The operations of Go's [strings] and [strconv] packages the program uses, on Go strings
    as byte strings ([String.string], one [ascii] per byte): [TrimSpace] with every UTF-8
    encoded white-space rune, [Split]/[SplitN] on a one-byte separator, [HasPrefix],
    [ContainsAny], [Join], [Atoi] and the [%d] verb; and the lemmas on them the components
    use (trimming is idempotent, splitting and joining are inverse, ...). *)
From S2P Require Import Prelude.

#[local] Arguments String.append : simpl nomatch.

(** * Bytes *)

Definition byte_of (n : N) : ascii := ascii_of_N n.
Definition code (c : ascii) : N := N_of_ascii c.

(** [asciiSpace] of package [strings]: \t \n \v \f \r and blank. *)
Definition ascii_space (c : ascii) : bool :=
  let n := code c in ((9 <=? n) && (n <=? 13) || (n =? 32))%N.

(** The UTF-8 encodings of the non-ASCII runes with [unicode.IsSpace]: U+0085, U+00A0 on
    two bytes; U+1680, U+2000-U+200A, U+2028, U+2029, U+202F, U+205F, U+3000 on three. *)
Definition space2 (a b : ascii) : bool :=
  ((code a =? 0xC2) && ((code b =? 0x85) || (code b =? 0xA0)))%N.
Definition space3 (a b c : ascii) : bool :=
  ((code a =? 0xE1) && (code b =? 0x9A) && (code c =? 0x80)
   || (code a =? 0xE2) && (code b =? 0x80)
      && ((0x80 <=? code c) && (code c <=? 0x8A)
          || (code c =? 0xA8) || (code c =? 0xA9) || (code c =? 0xAF))
   || (code a =? 0xE2) && (code b =? 0x81) && (code c =? 0x9F)
   || (code a =? 0xE3) && (code b =? 0x80) && (code c =? 0x80))%N.

(** Leading white space of a byte list, rune by rune; [sp2] and [sp3] recognise the two-
    and three-byte runes, so that the same loop serves both ends (the right end reads the
    bytes of a rune backwards). *)
Section trim.
Context (sp2 : ascii → ascii → bool) (sp3 : ascii → ascii → ascii → bool).

Fixpoint trim_front (l : list ascii) : list ascii :=
  match l with
  | [] => []
  | a :: l1 =>
    if ascii_space a then trim_front l1 else
    match l1 with
    | [] => l
    | b :: l2 =>
      if sp2 a b then trim_front l2 else
      match l2 with
      | [] => l
      | c :: l3 => if sp3 a b c then trim_front l3 else l
      end
    end
  end.

(** The list starts with a white-space rune. *)
Definition starts_space (l : list ascii) : bool :=
  match l with
  | [] => false
  | a :: l1 => ascii_space a ||
    match l1 with
    | [] => false
    | b :: l2 => sp2 a b || match l2 with [] => false | c :: _ => sp3 a b c end
    end
  end.

Lemma trim_front_id l : starts_space l = false → trim_front l = l.
Proof.
  destruct l as [|a [|b [|c l]]]; cbn; intros; bool_to_prop; repeat case_match; congruence.
Qed.

(** Strong induction on the length: the loop drops one to three bytes per turn. *)
Lemma trim_front_spec l :
  starts_space (trim_front l) = false ∧ ∃ p, l = p ++ trim_front l.
Proof.
  induction l as [l IH] using (well_founded_induction (well_founded_ltof _ length)).
  destruct l as [|a l1]; [by split; [|exists []]|].
  assert (∀ p l', a :: l1 = p ++ l' → p ≠ [] →
    trim_front (a :: l1) = trim_front l' → starts_space (trim_front (a :: l1)) = false ∧
    ∃ q, a :: l1 = q ++ trim_front (a :: l1)) as Hrec.
  { intros p l' Hl Hp ->. destruct (IH l') as [Hs [q Hq]].
    - unfold ltof. rewrite Hl, length_app. destruct p; cbn; [done|lia].
    - split; [done|]. exists (p ++ q). by rewrite <- app_assoc, <- Hq. }
  destruct (starts_space (a :: l1)) eqn:E.
  - cbn in E. destruct (ascii_space a) eqn:Ea.
    { apply (Hrec [a] l1); [done..|]. cbn. by rewrite Ea. }
    destruct l1 as [|b l2]; [done|]. destruct (sp2 a b) eqn:Eb.
    { apply (Hrec [a; b] l2); [done..|]. cbn. by rewrite Ea, Eb. }
    destruct l2 as [|c l3]; [done|]. cbn in E.
    apply (Hrec [a; b; c] l3); [done..|]. cbn. by rewrite Ea, Eb, E.
  - rewrite trim_front_id by done. split; [done|by exists []].
Qed.

(** A prefix of a list that does not start with white space does not either. *)
Lemma starts_space_prefix p q : starts_space (p ++ q) = false → starts_space p = false.
Proof.
  destruct p as [|a [|b [|c p]]]; cbn; [done| | |done]; destruct q as [|d q]; cbn;
    rewrite ?orb_false_iff; tauto.
Qed.
End trim.

Definition trim_left (l : list ascii) : list ascii := trim_front space2 space3 l.
Definition trim_right (l : list ascii) : list ascii :=
  rev (trim_front (λ a b, space2 b a) (λ a b c, space3 c b a) (rev l)).

(** [strings.TrimSpace]. *)
Definition TrimSpace (s : string) : string :=
  String.string_of_list_ascii (trim_right (trim_left (String.list_ascii_of_string s))).

Lemma trim_right_prefix l : ∃ q, l = trim_right l ++ q.
Proof.
  unfold trim_right.
  destruct (trim_front_spec (λ a b, space2 b a) (λ a b c, space3 c b a) (rev l))
    as [_ [p Hp]].
  exists (rev p). rewrite <- rev_app_distr, <- Hp. by rewrite rev_involutive.
Qed.

Lemma TrimSpace_idemp s : TrimSpace (TrimSpace s) = TrimSpace s.
Proof.
  unfold TrimSpace. rewrite String.list_ascii_of_string_of_list_ascii.
  set (l := String.list_ascii_of_string s).
  assert (trim_left (trim_right (trim_left l)) = trim_right (trim_left l)) as ->.
  { apply trim_front_id. destruct (trim_right_prefix (trim_left l)) as [q Hq].
    eapply (starts_space_prefix space2 space3 _ q). rewrite <- Hq.
    apply trim_front_spec. }
  f_equal. unfold trim_right at 1.
  rewrite trim_front_id; [by rewrite rev_involutive|].
  unfold trim_right. rewrite rev_involutive. apply trim_front_spec.
Qed.

(** * Searching and cutting *)

Definition HasPrefix (s pre : string) : bool := String.prefix pre s.

Fixpoint contains_byte (c : ascii) (s : string) : bool :=
  match s with
  | EmptyString => false
  | String a s' => Ascii.eqb a c || contains_byte c s'
  end.

(** [strings.ContainsAny] for a set of ASCII characters. *)
Definition ContainsAny (s chars : string) : bool :=
  existsb (λ c, contains_byte c s) (String.list_ascii_of_string chars).

(** The text before and after the first [c]. *)
Fixpoint cut (c : ascii) (s : string) : option (string * string) :=
  match s with
  | EmptyString => None
  | String a s' =>
    if Ascii.eqb a c then Some (EmptyString, s')
    else match cut c s' with
         | Some (b, r) => Some (String a b, r)
         | None => None
         end
  end.

(** [strings.SplitN(s, c, n)] for a one-byte separator and [n >= 0]. *)
Fixpoint SplitN (s : string) (c : ascii) (n : nat) : list string :=
  match n with
  | O => []
  | S O => [s]
  | S n' => match cut c s with
            | Some (b, r) => b :: SplitN r c n'
            | None => [s]
            end
  end.

(** [strings.Split(s, c)]. *)
Fixpoint Split (s : string) (c : ascii) : list string :=
  match s with
  | EmptyString => [EmptyString]
  | String a s' =>
    if Ascii.eqb a c then EmptyString :: Split s' c
    else match Split s' c with
         | [] => [String a EmptyString]
         | h :: t => String a h :: t
         end
  end.

(** [strings.Join]. *)
Fixpoint Join (l : list string) (sep : string) : string :=
  match l with
  | [] => ""
  | [s] => s
  | s :: l' => s +:+ sep +:+ Join l' sep
  end.

(** [strings.TrimPrefix]. *)
Definition TrimPrefix (s pre : string) : string :=
  if HasPrefix s pre then String.substring (String.length pre) (String.length s) s else s.

Definition pipe : ascii := "|".
Definition newline : string := String "010" EmptyString.

Lemma cut_Some c s b r :
  cut c s = Some (b, r) ↔ s = b +:+ String c r ∧ contains_byte c b = false.
Proof.
  revert b. induction s as [|a s IH]; intros b; cbn.
  - split; [done|]. intros [H _]. by destruct b.
  - destruct (Ascii.eqb_spec a c) as [->|Hne].
    + split.
      * intros [= <- <-]. done.
      * intros [H Hb]. destruct b as [|x b]; cbn in *; [by injection H as ->|].
        injection H as <- _. by rewrite Ascii.eqb_refl in Hb.
    + destruct (cut c s) as [[b' r']|] eqn:E.
      * split.
        -- intros [= <- <-]. destruct (proj1 (IH b') eq_refl) as [-> Hb]. cbn.
           split; [done|]. rewrite Hb. by destruct (Ascii.eqb_spec a c).
        -- intros [H Hb]. destruct b as [|x b]; cbn in *; [congruence|].
           injection H as <- ->. apply orb_false_iff in Hb as [_ Hb].
           pose proof (proj2 (IH b) (conj eq_refl Hb)). congruence.
      * split; [done|]. intros [H Hb]. destruct b as [|x b]; cbn in *; [congruence|].
        injection H as <- ->. apply orb_false_iff in Hb as [_ Hb].
        pose proof (proj2 (IH b) (conj eq_refl Hb)). congruence.
Qed.

Lemma cut_None c s : cut c s = None ↔ contains_byte c s = false.
Proof.
  induction s as [|a s IH]; cbn; [done|].
  destruct (Ascii.eqb a c); cbn; [done|].
  destruct (cut c s) as [[]|]; [|tauto]. split; [done|]. intros H. by apply IH in H.
Qed.

(** Joining what [SplitN] cut gives the string back. *)
Lemma Join_SplitN c s n : (0 < n)%nat → Join (SplitN s c n) (String c EmptyString) = s.
Proof.
  revert s. induction n as [|[|n] IH]; intros s Hn; [lia|done|].
  change (SplitN s c (S (S n))) with
    (match cut c s with Some (b, r) => b :: SplitN r c (S n) | None => [s] end).
  destruct (cut c s) as [[b r]|] eqn:E; [|done].
  apply cut_Some in E as [-> _].
  transitivity (b +:+ String c EmptyString +:+ Join (SplitN r c (S n)) (String c EmptyString)).
  - cbn [Join]. destruct (SplitN r c (S n)) eqn:E'; [|done].
    exfalso. destruct n; cbn in E'; [done|]. by destruct (cut c r) as [[]|].
  - rewrite IH by lia. done.
Qed.

(** * Numbers *)

(** The [%d] verb. *)
Definition itoa (z : Z) : string := pretty z.

Definition digit (c : ascii) : option Z :=
  let n := Z.of_N (code c) in
  if (48 <=? n) && (n <=? 57) then Some (n - 48) else None.

Fixpoint digits (acc : Z) (s : string) : option Z :=
  match s with
  | EmptyString => Some acc
  | String c s' => d ← digit c; digits (10 * acc + d) s'
  end.

(** The unsigned decimal literal, [None] for the empty string or a non-digit. *)
Definition parse_digits (s : string) : option Z :=
  if String.eqb s "" then None else digits 0 s.

(** [strconv.Atoi]: an optional sign, digits, and the result in [int]; [None] for its two
    errors. *)
Definition Atoi (s : string) : option Z :=
  r ← match s with
      | String "+" s' => parse_digits s'
      | String "-" s' => Z.opp <$> parse_digits s'
      | _ => parse_digits s
      end;
  if (- 2 ^ 63 <=? r) && (r <? 2 ^ 63) then Some r else None.

(** [strconv.ParseUint(s, 10, 64)]. *)
Definition ParseUint (s : string) : option Z :=
  r ← parse_digits s; if r <? 2 ^ 64 then Some r else None.

Lemma itoa_inj x y : itoa x = itoa y → x = y.
Proof. apply (inj pretty). Qed.

Lemma Atoi_range s n : Atoi s = Some n → in_int64 n.
Proof.
  unfold Atoi, in_int64. intros H. apply bind_Some in H as (r & _ & H).
  case_match; simplify_eq. bool_to_prop. lia.
Qed.

(** * String facts *)

Lemma app_cons_string c s t : String c s +:+ t = String c (s +:+ t).
Proof. done. Qed.

Lemma string_app_nil_r s : s +:+ "" = s.
Proof. induction s as [|c s IH]; cbn; [done|]. f_equal. exact IH. Qed.

Lemma string_app_assoc a b c : (a +:+ b) +:+ c = a +:+ (b +:+ c).
Proof. induction a as [|x a IH]; cbn; [done|]. f_equal. exact IH. Qed.

Lemma string_app_inj_l a b c : a +:+ b = a +:+ c → b = c.
Proof. induction a as [|x a IH]; cbn; [done|]. intros [= H]. by apply IH. Qed.

Lemma contains_byte_app c a b :
  contains_byte c (a +:+ b) = contains_byte c a || contains_byte c b.
Proof.
  induction a as [|x a IH]; cbn; [done|]. change (a ++ b)%string with (a +:+ b).
  rewrite IH. by rewrite orb_assoc.
Qed.

(** A separator that occurs in neither first part splits uniquely. *)
Lemma sep_inj_l c a b a' b' :
  contains_byte c a = false → contains_byte c a' = false →
  a +:+ String c b = a' +:+ String c b' → a = a' ∧ b = b'.
Proof.
  intros Ha Ha' H.
  assert (cut c (a +:+ String c b) = Some (a, b)) as E1 by by apply cut_Some.
  assert (cut c (a' +:+ String c b') = Some (a', b')) as E2 by by apply cut_Some.
  rewrite H, E2 in E1. by simplify_eq.
Qed.

(** A separator that occurs in neither last part splits uniquely. *)
Lemma sep_inj_r c a b a' b' :
  contains_byte c b = false → contains_byte c b' = false →
  a +:+ String c b = a' +:+ String c b' → a = a' ∧ b = b'.
Proof.
  intros Hb Hb'. revert a'. induction a as [|x a IH]; intros [|x' a']; cbn.
  - by intros [= ->].
  - intros [= _ ->]. change (a' ++ String c b')%string with (a' +:+ String c b') in Hb.
    rewrite contains_byte_app in Hb. cbn in Hb. rewrite Ascii.eqb_refl in Hb.
    by rewrite orb_true_r in Hb.
  - intros [= _ <-]. change (a ++ String c b)%string with (a +:+ String c b) in Hb'.
    rewrite contains_byte_app in Hb'. cbn in Hb'. rewrite Ascii.eqb_refl in Hb'.
    by rewrite orb_true_r in Hb'.
  - intros [= <- H]. destruct (IH a' H) as [-> ->]. done.
Qed.

(** A number that is not negative prints as digits only. *)
Lemma itoa_digits c n :
  0 <= n → (∀ x, pretty_N_char x ≠ c) → contains_byte c (itoa n) = false.
Proof.
  intros Hn Hc.
  assert (∀ x s, contains_byte c s = false → contains_byte c (pretty_N_go x s) = false) as Hgo.
  { intros x. induction (N.lt_wf_0 x) as [x _ IH]. intros s Hs.
    assert (x = 0 ∨ 0 < x)%N as [->|Hx] by lia; [by rewrite pretty_N_go_0|].
    rewrite pretty_N_go_step by done. apply IH; [by apply N.div_lt|]. cbn. rewrite Hs.
    destruct (Ascii.eqb_spec (pretty_N_char (x mod 10)) c) as [E|]; [|done].
    by apply Hc in E. }
  assert (contains_byte c "0" = false) as H0.
  { cbn [contains_byte]. destruct (Ascii.eqb_spec "0" c) as [E|]; [|done].
    by destruct (Hc 0%N E). }
  unfold itoa, pretty, pretty_Z. destruct n as [|p|p]; [done| |lia].
  unfold pretty, pretty_positive, pretty, pretty_N. case_decide; [done|]. by apply Hgo.
Qed.

Lemma itoa_no_dash n : 0 <= n → contains_byte "-" (itoa n) = false.
Proof. intros Hn. apply itoa_digits; [done|]. intros x. unfold pretty_N_char. by repeat case_match. Qed.

#[export] Hint Rewrite TrimSpace_idemp : goim.
#[global] Arguments TrimSpace : simpl never.
#[global] Arguments SplitN : simpl never.
#[global] Arguments itoa : simpl never.
#[global] Arguments Atoi : simpl never.
