(* ===== verification/Utf8.v ===== *)
(** Package [unicode/utf8]: the encodings of the runes on one to four bytes, validity, and
    the encoding of a code point; with an induction principle for valid strings, rune by
    rune. *)
From S2P Require Import Prelude GoStr.

(** * Runes as bytes *)

Definition between (a b : N) (c : ascii) : bool := (a <=? code c)%N && (code c <=? b)%N.

(** The well-formed sequences of more than one byte. *)
Definition rune2 (c0 c1 : ascii) : bool := between 194 223 c0 && between 128 191 c1.
Definition rune3 (c0 c1 c2 : ascii) : bool :=
  between 224 239 c0 &&
  (if between 224 224 c0 then between 160 191 c1
   else if between 237 237 c0 then between 128 159 c1 else between 128 191 c1) &&
  between 128 191 c2.
Definition rune4 (c0 c1 c2 c3 : ascii) : bool :=
  between 240 244 c0 &&
  (if between 240 240 c0 then between 144 191 c1
   else if between 244 244 c0 then between 128 143 c1 else between 128 191 c1) &&
  between 128 191 c2 && between 128 191 c3.

(** [utf8.Valid]. *)
Fixpoint utf8_valid (s : string) : bool :=
  match s with
  | EmptyString => true
  | String c0 s1 =>
    if between 0 127 c0 then utf8_valid s1
    else match s1 with
    | EmptyString => false
    | String c1 s2 =>
      if rune2 c0 c1 then utf8_valid s2
      else match s2 with
      | EmptyString => false
      | String c2 s3 =>
        if rune3 c0 c1 c2 then utf8_valid s3
        else match s3 with
        | EmptyString => false
        | String c3 s4 => rune4 c0 c1 c2 c3 && utf8_valid s4
        end
      end
    end
  end.

(** The bytes of a string, replaced by [f] where they are ASCII and by [g] where they start a
    longer rune; [bad] stands for a byte that starts no rune. The loop of both directions of
    the JSON string codec, and of every other that goes rune by rune. *)
Section runes.
Context (f : ascii → string) (g3 : ascii → ascii → ascii → string) (bad : string).

Fixpoint map_runes (s : string) : string :=
  match s with
  | EmptyString => EmptyString
  | String c0 s1 =>
    if between 0 127 c0 then f c0 +:+ map_runes s1
    else match s1 with
    | EmptyString => bad
    | String c1 s2 =>
      if rune2 c0 c1 then String c0 (String c1 (map_runes s2))
      else match s2 with
      | EmptyString => bad +:+ map_runes s1
      | String c2 s3 =>
        if rune3 c0 c1 c2 then g3 c0 c1 c2 +:+ map_runes s3
        else match s3 with
        | EmptyString => bad +:+ map_runes s1
        | String c3 s4 =>
          if rune4 c0 c1 c2 c3
          then String c0 (String c1 (String c2 (String c3 (map_runes s4))))
          else bad +:+ map_runes s1
        end
      end
    end
  end.
End runes.

(** [utf8.EncodeRune] of a code point that is no surrogate and at most U+10FFFF. *)
Definition encode_rune (r : N) : string :=
  (if r <? 0x80 then String (byte_of r) ""
   else if r <? 0x800 then
     String (byte_of (0xC0 + N.shiftr r 6)) (String (byte_of (0x80 + N.land r 63)) "")
   else if r <? 0x10000 then
     String (byte_of (0xE0 + N.shiftr r 12))
       (String (byte_of (0x80 + N.land (N.shiftr r 6) 63)) (String (byte_of (0x80 + N.land r 63)) ""))
   else
     String (byte_of (0xF0 + N.shiftr r 18))
       (String (byte_of (0x80 + N.land (N.shiftr r 12) 63))
         (String (byte_of (0x80 + N.land (N.shiftr r 6) 63))
           (String (byte_of (0x80 + N.land r 63)) ""))))%N.

(** The replacement character U+FFFD. *)
Definition rune_error : string := encode_rune 0xFFFD.

(** * Induction on valid strings *)

Lemma string_length_ind (P : string → Prop) :
  (∀ s, (∀ t, (String.length t < String.length s)%nat → P t) → P s) → ∀ s, P s.
Proof. intros Hs s. induction s as [s IH] using (induction_ltof1 _ String.length). by apply Hs. Qed.

Lemma utf8_ind (P : string → Prop) :
  P "" →
  (∀ c s, between 0 127 c = true → utf8_valid s = true → P s → P (String c s)) →
  (∀ c0 c1 s, between 0 127 c0 = false → rune2 c0 c1 = true → utf8_valid s = true → P s →
    P (String c0 (String c1 s))) →
  (∀ c0 c1 c2 s, between 0 127 c0 = false → rune2 c0 c1 = false → rune3 c0 c1 c2 = true →
    utf8_valid s = true → P s → P (String c0 (String c1 (String c2 s)))) →
  (∀ c0 c1 c2 c3 s, between 0 127 c0 = false → rune2 c0 c1 = false → rune3 c0 c1 c2 = false →
    rune4 c0 c1 c2 c3 = true → utf8_valid s = true → P s →
    P (String c0 (String c1 (String c2 (String c3 s))))) →
  ∀ s, utf8_valid s = true → P s.
Proof.
  intros P0 P1 P2 P3 P4 s. induction s as [s IH] using string_length_ind.
  destruct s as [|c0 s1]; [done|]. cbn [utf8_valid].
  destruct (between 0 127 c0) eqn:E0.
  { intros Hv. apply P1; [done..|]. apply IH; [cbn; lia|done]. }
  destruct s1 as [|c1 s2]; [done|]. destruct (rune2 c0 c1) eqn:E2.
  { intros Hv. apply P2; [done..|]. apply IH; [cbn; lia|done]. }
  destruct s2 as [|c2 s3]; [done|]. destruct (rune3 c0 c1 c2) eqn:E3.
  { intros Hv. apply P3; [done..|]. apply IH; [cbn; lia|done]. }
  destruct s3 as [|c3 s4]; [done|]. intros [E4 Hv]%andb_true_iff.
  apply P4; [done..|]. apply IH; [cbn; lia|done].
Qed.
