(* ===== verification/Protocol.v ===== *)
(** Package [protocol]: the message exchanged with clients, and the chat identifiers of
    package [utils]. *)
From S2P Require Import Prelude GoStr.

(** [type MsgType string] is an open type: a client may send any string. *)
Definition MsgType : Type := string.
Definition TypeSend : MsgType := "send".
Definition TypeSendAck : MsgType := "send_ack".
Definition TypeDeliver : MsgType := "deliver".
Definition TypeDeliverAck : MsgType := "deliver_ack".
Definition TypeReadAck : MsgType := "read_ack".
Definition TypeSync : MsgType := "sync".

(** [protocol.Message]; [Seq] is a [uint64], [Status] an [int8], [Ts] an [int64]. *)
Record Message := mkMessage {
  Type_ : MsgType;
  ClientMsgID : string;
  ServerMsgID : string;
  ChatID : string;
  From : string;
  To : string;
  Seq : Z;
  Status : Z;
  Body : string;
  Ts : Z
}.

#[global] Instance Message_eq_dec : EqDecision Message.
Proof. solve_decision. Defined.

(** The zero value, from which the code's composite literals set some fields. *)
Definition zero_message : Message := mkMessage "" "" "" "" "" "" 0 0 "" 0.

Definition set_Status (st : Z) (m : Message) : Message :=
  mkMessage (Type_ m) (ClientMsgID m) (ServerMsgID m) (ChatID m) (From m) (To m) (Seq m) st
    (Body m) (Ts m).
Definition set_From (f : string) (m : Message) : Message :=
  mkMessage (Type_ m) (ClientMsgID m) (ServerMsgID m) (ChatID m) f (To m) (Seq m) (Status m)
    (Body m) (Ts m).
Definition set_ClientMsgID (c : string) (m : Message) : Message :=
  mkMessage (Type_ m) c (ServerMsgID m) (ChatID m) (From m) (To m) (Seq m) (Status m)
    (Body m) (Ts m).

(** [utils.C2CChatID]: the two names in byte order. *)
Definition C2CChatID (a b : string) : string :=
  if String.leb a b then "c2c:" +:+ a +:+ ":" +:+ b else "c2c:" +:+ b +:+ ":" +:+ a.

Lemma string_leb_total a b : String.leb a b = false → String.leb b a = true.
Proof. destruct (String.leb_total a b) as [H|H]; congruence. Qed.

Lemma string_leb_antisym a b : String.leb a b = true → String.leb b a = true → a = b.
Proof.
  unfold String.leb. rewrite (String.compare_antisym b a).
  destruct (String.compare a b) eqn:E; cbn; intros; try done.
  by apply String.compare_eq_iff in E.
Qed.

Lemma C2CChatID_comm_aux a b : C2CChatID a b = C2CChatID b a.
Proof.
  unfold C2CChatID. destruct (String.leb a b) eqn:E1, (String.leb b a) eqn:E2; try done.
  - by rewrite (string_leb_antisym a b).
  - apply string_leb_total in E1. congruence.
Qed.

Lemma C2CChatID_cases a b :
  (∃ x y, C2CChatID a b = "c2c:" +:+ x +:+ ":" +:+ y ∧ ((x = a ∧ y = b) ∨ (x = b ∧ y = a))).
Proof. unfold C2CChatID. destruct (String.leb a b); eauto 10. Qed.

Lemma C2CChatID_nonempty a b : C2CChatID a b ≠ "".
Proof. destruct (C2CChatID_cases a b) as (x & y & -> & _). done. Qed.
