(* ===== verification/StoreIface.v ===== *)
(** The interface [store.Store] (src/internal/store/iface.go) as a type class: its
    operations on a world [W], and what the packages that use it rely on. [StoreImpl]
    shows that [InMemoryStore] keeps these promises. *)
From S2P Require Import Prelude GoStr Protocol.

Record DeliveryStatusStats := mkStats { Pending : Z; Delivered : Z; ReadN : Z; DeadN : Z }.

(** A world in which the clock can be read. *)
Class Clock (W : Type) := clock : M W Z.

Class Store (W : Type) := {
  st_NextSeq : string → M W (Z * option error);
  st_SaveMessage : option Message → M W (option error);
  st_SaveMessageWithRecipients :
    option Message → option (list string) → M W (option error);
  st_GetMessageByClientID : string → string → M W (option Message);
  st_GetMessageByServerID : string → M W (option Message);
  st_SaveDelivery : string → string → M W (option error);
  st_GetRecipients : string → M W (list string);
  st_MarkDeliverySent : string → string → option error → M W (option error);
  st_MarkDeliveryAcked : string → string → M W (option error);
  st_MarkDeliveryRead : string → string → M W (option error);
  st_ScheduleRetry : string → string → option error → Z → Z → M W (bool * option error);
  st_GetDueRetryServerMsgIDs : Z → M W (list string);
  st_DeliveryStats : M W DeliveryStatusStats;
  st_RecoverPendingServerMsgIDs : Z → M W (list string);
  st_ListPendingServerMsgIDsByUser : string → Z → M W (list string);
  st_GetC2CHistory : string → string → Z → M W (list Message)
}.

(** The chat that counts the messages without a chat id. *)
Definition seq_key (c : string) : string := if String.eqb c "" then "default" else c.

(** The promises. A client sees of a store: which message answers for a sender and a client
    id ([known]), the last number drawn for a chat ([last]), and whether it keeps everything
    in memory ([volatile]). *)
Class StoreLaws (W : Type) `{Clock W} `{Store W} := {
  known : W → string → string → option Message;
  last : W → string → option Z;
  volatile : W → Prop;

  (** Nothing a client sees changed. *)
  same_view (w w' : W) : Prop :=
    (∀ f c, known w' f c = known w f c) ∧ (∀ c, last w' c = last w c) ∧
    (volatile w → volatile w');

  law_clock w : same_view w (exec clock w);

  law_NextSeq c w : ∃ n w',
    st_NextSeq c w = ((n, None), w') ∧ in_uint64 n ∧ last w' c = Some n ∧
    (∀ k, last w c = Some k → n = wrapu64 (k + 1)) ∧
    (∀ c', seq_key c' ≠ seq_key c → last w' c' = last w c') ∧
    (∀ f cl, known w' f cl = known w f cl) ∧ (volatile w → volatile w');

  (** The empty chat id is the default chat. *)
  law_key w c : last w (seq_key c) = last w c;

  (** A message known to the store answers for its sender and client id at once. *)
  law_known w f c m :
    known w f c = Some m → st_GetMessageByClientID f c w = (Some m, w);
  law_get_last w f c : ∀ ch, last (exec (st_GetMessageByClientID f c) w) ch = last w ch;
  law_get_volatile w f c :
    volatile w → st_GetMessageByClientID f c w = (known w f c, w);

  (** A successful save makes the message known and forgets none other. *)
  law_save_ok w m tos w' :
    st_SaveMessageWithRecipients (Some m) tos w = (None, w') →
    (From m ≠ "" → ClientMsgID m ≠ "" → known w' (From m) (ClientMsgID m) = Some m) ∧
    (∀ f c, (f, c) ≠ (From m, ClientMsgID m) → known w' f c = known w f c) ∧
    (∀ c, last w' c = last w c) ∧ (volatile w → volatile w');
  law_save_err w m tos e w' :
    st_SaveMessageWithRecipients m tos w = (Some e, w') → same_view w w';
  law_save_volatile w m tos :
    volatile w → ServerMsgID m ≠ "" →
    eval (st_SaveMessageWithRecipients (Some m) tos) w = None;

  law_acked i t w : same_view w (exec (st_MarkDeliveryAcked i t) w);
  law_read i t w : same_view w (exec (st_MarkDeliveryRead i t) w)
}.

#[export] Instance same_view_preorder {W} `{SL : StoreLaws W} : PreOrder same_view.
Proof.
  split.
  - intros w. unfold same_view. tauto.
  - intros w1 w2 w3 (A1 & B1 & C1) (A2 & B2 & C2). split_and!; [intros; congruence..|tauto].
Qed.
