(* ===== verification/Limiter.v ===== *)
(** Connection security (src/internal/server/conn_security.go): the blacklist, the address of
    a connection and the sliding-window rate limit, with the in-place filtering of the
    recorded attempts; and a reference limiter that keeps every accepted connection. *)
From S2P Require Import Prelude GoStr StoreIface.

(** The fields of [Server] the limiter uses. Times are nanoseconds. *)
Record ConnSecurity := mkSec {
  BlacklistIPs : gset string;
  rateWindow : Z;
  rateLimit : Z;
  attempts : gmap string (list Z)
}.

Definition set_attempts (m : gmap string (list Z)) (s : ConnSecurity) : ConnSecurity :=
  mkSec (BlacklistIPs s) (rateWindow s) (rateLimit s) m.

(** * Addresses *)

Definition comma : ascii := ",".

(** [loadBlacklistFromEnv], given the value of IM_BLACKLIST_IPS. *)
Definition loadBlacklist (value : string) : gset string :=
  let raw := TrimSpace value in
  if String.eqb raw "" then ∅
  else list_to_set (List.filter (λ ip, negb (String.eqb ip ""))
                      (TrimSpace <$> Split raw comma)).

(** [net.SplitHostPort]: the host, [None] for its errors. A host in brackets may contain
    colons; otherwise there is exactly one colon. *)
Definition split_bracket (rest : string) : option string :=
  match cut "]" rest with
  | Some (h, String ":" port) =>
    if contains_byte ":" port || contains_byte "[" h || contains_byte "[" port ||
       contains_byte "]" port
    then None else Some h
  | _ => None
  end.

Definition split_plain (s : string) : option string :=
  match cut ":" s with
  | Some (h, port) =>
    if contains_byte ":" port || contains_byte "[" s || contains_byte "]" s
    then None else Some h
  | None => None
  end.

Definition SplitHost (s : string) : option string :=
  match s with
  | EmptyString => None
  | String c rest => if Ascii.eqb c "[" then split_bracket rest else split_plain s
  end.

Lemma SplitHost_plain s : contains_byte "[" s = false → SplitHost s = split_plain s.
Proof. destruct s as [|c s]; [done|]. cbn [contains_byte SplitHost]. by destruct (Ascii.eqb c "["). Qed.

(** [parseIP]: the host of the remote address, the whole address when it has no port. *)
Definition parseIP (addr : option string) : string :=
  match addr with
  | None => ""
  | Some a => match SplitHost a with Some host => host | None => a end
  end.

(** * The limiter *)

(** The loop [for _, t := range records] that appends to [records[:0]]: reads walk over the
    array while kept elements are written behind them, into the same array. [i] is the next
    index to read, [k] the number of elements kept. *)
Fixpoint compact (n i k : nat) (cutoff : Z) (a : list Z) : list Z * nat :=
  match n with
  | O => (a, k)
  | S n' =>
    let t := nth i a 0 in
    if cutoff <? t then compact n' (S i) (S k) cutoff (<[k := t]> a)
    else compact n' (S i) k cutoff a
  end.

(** [filtered]: the first elements of the array afterwards. *)
Definition filter_in_place (cutoff : Z) (records : list Z) : list Z :=
  let (a, k) := compact (length records) 0 0 cutoff records in take k a.

(** [allowConnection] from the time it read on. The accept loop, its only caller, makes one
    call at a time. *)
Definition allow_at (now : Z) (ip : string) (s : ConnSecurity) : (bool * string) * ConnSecurity :=
  let cutoff := now + wrap64 (- rateWindow s) in
  let records := default [] (attempts s !! ip) in
  let filtered := filter_in_place cutoff records in
  if rateLimit s <=? Z.of_nat (length filtered)
  then ((false, "rate limit exceeded"), set_attempts (<[ip := filtered]> (attempts s)) s)
  else ((true, ""), set_attempts (<[ip := filtered ++ [now]]> (attempts s)) s).

Definition allowConnection {W} `{Clock W} (ip : string) : M (ConnSecurity * W) (bool * string) :=
  λ sw, let (s, w) := sw in
  if String.eqb ip "" then ((true, ""), sw)
  else if bool_decide (ip ∈ BlacklistIPs s) then ((false, "ip is blacklisted"), sw)
  else let (now, w') := clock w in
       let (r, s') := allow_at now ip s in (r, (s', w')).

(** * The reference limiter *)

(** The accepted connections so far, oldest first. *)
Definition history := list (string * Z).

Definition recent (window now : Z) (ip : string) (h : history) : list Z :=
  (List.filter (λ c, String.eqb c.1 ip && (now - window <? c.2)) h).*2.

(** Accept unless [limit] connections of this address were accepted within the window. *)
Definition spec_allow (s : ConnSecurity) (now : Z) (ip : string) (h : history) : bool :=
  String.eqb ip "" ||
  negb (bool_decide (ip ∈ BlacklistIPs s)) &&
  (Z.of_nat (length (recent (rateWindow s) now ip h)) <? rateLimit s).

(** One connection attempt at a given time. *)
Definition attempt_at (now : Z) (ip : string) (s : ConnSecurity) : bool * ConnSecurity :=
  if String.eqb ip "" then (true, s)
  else if bool_decide (ip ∈ BlacklistIPs s) then (false, s)
  else let '((ok, _), s') := allow_at now ip s in (ok, s').

(** The decisions of the limiter, and of the reference, over a sequence of attempts. *)
Fixpoint decisions (es : list (string * Z)) (s : ConnSecurity) : list bool :=
  match es with
  | [] => []
  | (ip, now) :: es' => let (ok, s') := attempt_at now ip s in ok :: decisions es' s'
  end.

Fixpoint spec_decisions (s : ConnSecurity) (es : list (string * Z)) (h : history) : list bool :=
  match es with
  | [] => []
  | (ip, now) :: es' =>
    let ok := spec_allow s now ip h in
    ok :: spec_decisions s es' (if ok then h ++ [(ip, now)] else h)
  end.

(** The connections a run accepted. *)
Fixpoint accepted (es : list (string * Z)) (oks : list bool) : history :=
  match es, oks with
  | e :: es', ok :: oks' => if ok : bool then e :: accepted es' oks' else accepted es' oks'
  | _, _ => []
  end.

(** * In-place filtering *)

Lemma compact_spec cutoff : ∀ (rest kept gap : list Z),
  ∃ gap', compact (length rest) (length kept + length gap) (length kept) cutoff
            (kept ++ gap ++ rest) =
    (kept ++ List.filter (λ t, cutoff <? t) rest ++ gap',
     (length kept + length (List.filter (λ t, (cutoff <? t)%Z) rest))%nat).
Proof.
  induction rest as [|t rest IH]; intros kept gap; cbn [compact length List.filter].
  { exists gap. by rewrite app_nil_r, Nat.add_0_r. }
  assert (nth (length kept + length gap) (kept ++ gap ++ t :: rest) 0 = t) as ->.
  { rewrite app_assoc, <- length_app. by rewrite nth_middle. }
  destruct (cutoff <? t) eqn:E.
  - destruct gap as [|g gap].
    + cbn [length app]. rewrite Nat.add_0_r.
      replace (<[length kept:=t]> (kept ++ t :: rest)) with ((kept ++ [t]) ++ [] ++ rest).
      2: { rewrite <- app_assoc. cbn. symmetry. by rewrite insert_app_r_alt, Nat.sub_diag by lia. }
      destruct (IH (kept ++ [t]) []) as (gap' & Hc). exists gap'.
      rewrite length_app in Hc. cbn [length] in Hc.
      replace (S (length kept)) with (length kept + 1)%nat by lia.
      rewrite Nat.add_0_r in Hc. rewrite Hc, <- app_assoc. cbn. f_equal. lia.
    + replace (<[length kept:=t]> (kept ++ (g :: gap) ++ t :: rest))
        with ((kept ++ [t]) ++ (gap ++ [t]) ++ rest).
      2: { rewrite insert_app_r_alt, Nat.sub_diag by lia. cbn. by rewrite <- !app_assoc. }
      destruct (IH (kept ++ [t]) (gap ++ [t])) as (gap' & Hc). exists gap'.
      rewrite !length_app in Hc. cbn [length] in Hc |- *.
      replace (S (length kept)) with (length kept + 1)%nat by lia.
      replace (S (length kept + S (length gap))) with
        (length kept + 1 + (length gap + 1))%nat by lia.
      rewrite Hc, <- app_assoc. cbn. f_equal. lia.
  - destruct (IH kept (gap ++ [t])) as (gap' & Hc). exists gap'.
    rewrite length_app in Hc. cbn [length] in Hc.
    replace (S (length kept + length gap)) with (length kept + (length gap + 1))%nat by lia.
    rewrite <- app_assoc in Hc. exact Hc.
Qed.

Lemma filter_in_place_filter cutoff records :
  filter_in_place cutoff records = List.filter (λ t, cutoff <? t) records.
Proof.
  unfold filter_in_place. destruct (compact_spec cutoff records [] []) as (gap & Hc).
  cbn in Hc. rewrite Hc. by rewrite take_app_length.
Qed.

(** * The limiter follows the reference *)

(** All accepted connections of one address. *)
Definition hist (ip : string) (h : history) : list Z :=
  (List.filter (λ c, String.eqb c.1 ip) h).*2.

Lemma recent_hist w now ip h :
  recent w now ip h = List.filter (λ t, now - w <? t) (hist ip h).
Proof.
  unfold recent, hist. induction h as [|[i t] h IH]; [done|]. cbn.
  destruct (String.eqb i ip); cbn; [|done]. destruct (now - w <? t); cbn; [by f_equal|done].
Qed.

Lemma hist_snoc ip h i t :
  hist ip (h ++ [(i, t)]) = hist ip h ++ (if String.eqb i ip then [t] else []).
Proof.
  unfold hist. rewrite List.filter_app, fmap_app. cbn. by destruct (String.eqb i ip).
Qed.

Lemma filter_filter_le c c' (l : list Z) :
  c <= c' → List.filter (λ t, c' <? t) (List.filter (λ t, c <? t) l) =
            List.filter (λ t, c' <? t) l.
Proof.
  intros Hc. induction l as [|t l IH]; [done|]. cbn.
  destruct (Z.ltb_spec c t); cbn; rewrite IH; [done|]. by destruct (Z.ltb_spec c' t); [lia|].
Qed.

(** What the limiter has forgotten is too old to matter from time [now] on. *)
Definition remembers (now : Z) (s : ConnSecurity) (h : history) : Prop :=
  ∀ ip c, ip ≠ "" → now - rateWindow s <= c →
    List.filter (λ t, c <? t) (default [] (attempts s !! ip)) =
    List.filter (λ t, c <? t) (hist ip h).

(** A limiter whose window does not overflow. *)
Definition sane (s : ConnSecurity) : Prop := - 2 ^ 63 < rateWindow s < 2 ^ 63.

Lemma attempt_at_spec now ip s h :
  sane s → ip ≠ "" → remembers now s h →
  let (ok, s') := attempt_at now ip s in
  ok = spec_allow s now ip h ∧
  BlacklistIPs s' = BlacklistIPs s ∧ rateWindow s' = rateWindow s ∧
  rateLimit s' = rateLimit s ∧
  remembers now s' (if ok then h ++ [(ip, now)] else h).
Proof.
  intros Hw Hip Hrem. unfold attempt_at, spec_allow.
  destruct (String.eqb_spec ip "") as [|_]; [done|]. cbn [orb].
  destruct (bool_decide (ip ∈ BlacklistIPs s)); cbn [negb andb]; [by split_and!|].
  unfold allow_at. rewrite wrap64_id by (unfold sane, in_int64 in *; lia).
  rewrite filter_in_place_filter. set (c := now + - rateWindow s).
  assert (c = now - rateWindow s) as Hc by lia.
  rewrite recent_hist, <- Hc, <- (Hrem ip c) by (done || lia).
  set (kept := List.filter (λ t, c <? t) (default [] (attempts s !! ip))).
  assert (∀ ip' c' new, ip' ≠ "" → c <= c' →
    List.filter (λ t, c' <? t)
      (default [] (<[ip:=kept ++ new]> (attempts s) !! ip')) =
    List.filter (λ t, c' <? t) (hist ip' h) ++
      (if String.eqb ip ip' then List.filter (λ t, c' <? t) new else [])) as Hkeep.
  { intros ip' c' new Hip' Hle. destruct (String.eqb_spec ip ip') as [<-|Hne].
    - rewrite lookup_insert_eq. cbn. rewrite List.filter_app. f_equal.
      subst kept. rewrite filter_filter_le by done. apply Hrem; [done|lia].
    - rewrite lookup_insert_ne by done. rewrite app_nil_r. apply Hrem; [done|lia]. }
  destruct (Z.leb_spec (rateLimit s) (Z.of_nat (length kept))) as [Hl|Hl].
  - split_and!; [by rewrite (proj2 (Z.ltb_ge _ _)) by lia|done..|].
    intros ip' c' Hip' Hle. cbn in Hle |- *. specialize (Hkeep ip' c' [] Hip' ltac:(lia)).
    rewrite app_nil_r in Hkeep. rewrite Hkeep. destruct (String.eqb ip ip'); cbn;
      by rewrite app_nil_r.
  - split_and!; [by rewrite (proj2 (Z.ltb_lt _ _)) by lia|done..|].
    intros ip' c' Hip' Hle. cbn in Hle |- *. rewrite Hkeep by (done || lia). rewrite hist_snoc, List.filter_app.
    by destruct (String.eqb ip ip').
Qed.

Lemma remembers_later now now' s h : now <= now' → remembers now s h → remembers now' s h.
Proof. intros Hle Hr ip c Hip Hc. apply Hr; [done|lia]. Qed.

Lemma decisions_spec es s s0 h now :
  sane s → BlacklistIPs s = BlacklistIPs s0 → rateWindow s = rateWindow s0 →
  rateLimit s = rateLimit s0 → remembers now s h →
  StronglySorted Z.le (now :: es.*2) → decisions es s = spec_decisions s0 es h.
Proof.
  revert s h now. induction es as [|[ip t] es IH]; intros s h now Hw Hb Hwin Hlim Hr Hs; [done|].
  apply StronglySorted_inv in Hs as [Hs Hall]. cbn in Hs, Hall.
  apply Forall_cons in Hall as [Hle _]. pose proof (remembers_later now t s h Hle Hr) as Hr'.
  cbn [decisions spec_decisions].
  assert (∀ h, spec_allow s0 t ip h = spec_allow s t ip h) as Hsp
    by (intros; unfold spec_allow; by rewrite Hb, Hwin, Hlim).
  rewrite Hsp. destruct (decide (ip = "")) as [->|Hip].
  - cbn. f_equal. apply (IH _ _ t); try done. intros ip' c Hip Hc. rewrite hist_snoc.
    destruct (String.eqb_spec "" ip') as [<-|]; [done|]. rewrite app_nil_r. by apply Hr'.
  - pose proof (attempt_at_spec t ip s h Hw Hip Hr') as Hstep.
    destruct (attempt_at t ip s) as [ok s']. destruct Hstep as (<- & B & Wd & L & Hr'').
    f_equal. apply (IH _ _ t); [|congruence..|done|done]. unfold sane in *. by rewrite Wd.
Qed.
