(* ===== verification/LimiterProps.v ===== *)
(** The properties of connection security. *)
From S2P Require Import Prelude GoStr StoreIface Limiter.

(** * Serving connections *)

Section serve.
Context {W : Type} `{Clock W}.

(** Connections one after another: their addresses with the time each finds, and the
    decisions of [allowConnection]. *)
Fixpoint serve (ips : list string) (sw : ConnSecurity * W) : list (string * Z) * list bool :=
  match ips with
  | [] => ([], [])
  | ip :: ips' =>
    let now := eval clock (snd sw) in
    let '((ok, _), sw') := allowConnection ip sw in
    let (es, oks) := serve ips' sw' in
    ((ip, now) :: es, ok :: oks)
  end.

Lemma allowConnection_attempt ip s w :
  let '((ok, _), (s', _)) := allowConnection ip (s, w) in
  attempt_at (eval clock w) ip s = (ok, s').
Proof.
  unfold allowConnection, attempt_at, eval. destruct (String.eqb ip ""); [done|].
  destruct (bool_decide (ip ∈ BlacklistIPs s)); [done|].
  destruct (clock w) as [now w']. cbn. by destruct (allow_at now ip s) as [[ok why] s'].
Qed.

Lemma serve_decisions ips s w : (serve ips (s, w)).2 = decisions (serve ips (s, w)).1 s.
Proof.
  revert s w. induction ips as [|ip ips IH]; intros s w; [done|]. cbn [serve snd].
  pose proof (allowConnection_attempt ip s w) as Ha.
  destruct (allowConnection ip (s, w)) as [[ok why] [s' w']]. specialize (IH s' w').
  destruct (serve ips (s', w')) as [es oks]. cbn in IH |- *. by rewrite Ha, IH.
Qed.
End serve.

(** The accepted connections of one address with a time in [(now - window, now]]. *)
Definition in_window (window now : Z) (ip : string) (h : history) : history :=
  List.filter (λ c, String.eqb c.1 ip && (now - window <? c.2) && (c.2 <=? now)) h.

Lemma in_window_recent w now t ip h :
  now <= t → (length (in_window w t ip h) <= length (recent w now ip h))%nat.
Proof.
  intros Hle. unfold in_window, recent. rewrite length_fmap.
  induction h as [|[i x] h IH]; [done|]. cbn. destruct (String.eqb i ip); cbn; [|done].
  destruct (Z.ltb_spec (t - w) x), (Z.ltb_spec (now - w) x), (Z.leb_spec x t); cbn; lia.
Qed.

Lemma accepted_spec s es : ∀ h ip t,
  ip ≠ "" → 0 <= rateLimit s →
  (∀ t, Z.of_nat (length (in_window (rateWindow s) t ip h)) <= rateLimit s) →
  Z.of_nat (length (in_window (rateWindow s) t ip
    (h ++ accepted es (spec_decisions s es h)))) <= rateLimit s.
Proof.
  induction es as [|[i now] es IH]; intros h ip t Hip Hl Hh; cbn; [by rewrite app_nil_r|].
  destruct (spec_allow s now i h) eqn:Ea; [|by apply IH].
  assert (h ++ (i, now) :: accepted es (spec_decisions s es (h ++ [(i, now)])) =
    (h ++ [(i, now)]) ++ accepted es (spec_decisions s es (h ++ [(i, now)]))) as ->
    by by rewrite <- app_assoc.
  apply IH; [done..|]. intros t'. unfold in_window at 1.
  rewrite List.filter_app, length_app. fold (in_window (rateWindow s) t' ip h). cbn.
  destruct (String.eqb_spec i ip) as [->|]; cbn; [|specialize (Hh t'); lia].
  destruct (Z.leb_spec now t') as [Ht|Ht]; [|rewrite andb_false_r; cbn; specialize (Hh t'); lia].
  pose proof (in_window_recent (rateWindow s) now t' ip h Ht).
  unfold spec_allow in Ea. destruct (String.eqb_spec ip "") as [|_]; [done|]. cbn in Ea.
  apply andb_true_iff in Ea as [_ Ea]. apply Z.ltb_lt in Ea.
  destruct (_ && _); cbn; lia.
Qed.

(** A limiter that has seen no connection. *)
Definition fresh (bl : gset string) (window limit : Z) : ConnSecurity := mkSec bl window limit ∅.

Lemma fresh_decisions {W} `{Clock W} ips bl window limit (w : W) es oks :
  - 2 ^ 63 < window < 2 ^ 63 → serve ips (fresh bl window limit, w) = (es, oks) →
  StronglySorted Z.le es.*2 → oks = spec_decisions (fresh bl window limit) es [].
Proof.
  intros Hw Hs Hsort. pose proof (serve_decisions ips (fresh bl window limit) w) as Hd.
  rewrite Hs in Hd. cbn in Hd. subst oks. destruct es as [|[i t] es]; [done|].
  apply (decisions_spec _ _ _ _ t); try done; constructor; [done|].
  apply StronglySorted_inv in Hsort as [_ Hall]. by constructor.
Qed.

(** C38. The limiter, which prunes its records in place at each connection, decides as the
    reference that remembers every accepted connection: an address is refused exactly when it
    is on the blacklist, or [rateLimit] connections of it were accepted within the window -
    as long as the clock does not go backwards. *)
Theorem limiter_refines_reference {W} `{Clock W} ips bl window limit (w : W) es oks :
  - 2 ^ 63 < window < 2 ^ 63 → serve ips (fresh bl window limit, w) = (es, oks) →
  StronglySorted Z.le es.*2 → oks = spec_decisions (fresh bl window limit) es [].
Proof. apply fresh_decisions. Qed.

(** C39. No address ever has more than [rateLimit] connections accepted within one window,
    whichever window one looks at. *)
Theorem rate_limit_holds {W} `{Clock W} ips bl window limit (w : W) es oks ip t :
  - 2 ^ 63 < window < 2 ^ 63 → 0 <= limit → ip ≠ "" →
  serve ips (fresh bl window limit, w) = (es, oks) → StronglySorted Z.le es.*2 →
  Z.of_nat (length (in_window window t ip (accepted es oks))) <= limit.
Proof.
  intros Hw Hl Hip Hs Hsort. rewrite (fresh_decisions _ _ _ _ _ _ _ Hw Hs Hsort).
  by apply (accepted_spec (fresh bl window limit) es []).
Qed.

(** Filtering the records in the array they are read from yields the records newer than
    the cutoff, in order: no element is overwritten before it is read. *)
Theorem in_place_filter_is_filter cutoff records :
  filter_in_place cutoff records = List.filter (λ t, cutoff <? t) records.
Proof. apply filter_in_place_filter. Qed.

(** The blacklist holds exactly the trimmed, non-empty items between commas, and an
    address on it is refused without being recorded. *)
Theorem blacklist_enforced {W} `{Clock W} value window limit m ip (w : W) :
  (ip ∈ loadBlacklist value ↔ ip ≠ "" ∧ ip ∈ TrimSpace <$> Split (TrimSpace value) comma) ∧
  (ip ∈ loadBlacklist value →
   let s := mkSec (loadBlacklist value) window limit m in
   allowConnection ip (s, w) = ((false, "ip is blacklisted"), (s, w))).
Proof.
  assert (ip ∈ loadBlacklist value ↔
    ip ≠ "" ∧ ip ∈ TrimSpace <$> Split (TrimSpace value) comma) as Hin.
  { unfold loadBlacklist. destruct (String.eqb_spec (TrimSpace value) "") as [->|_].
    - cbn. split; [set_solver|]. intros [Hip Hx].
      apply list_elem_of_singleton in Hx. by subst ip.
    - rewrite elem_of_list_to_set, elem_of_filter_list. destruct (String.eqb_spec ip "");
        cbn; naive_solver. }
  split; [done|]. intros Hbl. cbn. destruct (proj1 Hin Hbl) as [Hip _].
  apply String.eqb_neq in Hip as ->. by rewrite bool_decide_true.
Qed.

(** The address of a connection is the host before the port, also for a bracketed IPv6
    address; an address the library cannot split is used whole. *)
Theorem parseIP_hosts h p :
  contains_byte "[" h = false → contains_byte "]" h = false →
  contains_byte ":" p = false → contains_byte "[" p = false → contains_byte "]" p = false →
  parseIP (Some ("[" +:+ h +:+ "]:" +:+ p)) = h ∧
  (contains_byte ":" h = false → parseIP (Some (h +:+ ":" +:+ p)) = h) ∧
  (contains_byte ":" h = false → parseIP (Some h) = h).
Proof.
  intros H1 H2 H3 H4 H5.
  assert (∀ q, contains_byte "[" (h +:+ q) = contains_byte "[" q ∧
               contains_byte "]" (h +:+ q) = contains_byte "]" q) as Hh.
  { intros q. by rewrite !contains_byte_app, H1, H2. }
  split_and!.
  - assert (cut "]" (h +:+ String "]" (String ":" p)) = Some (h, String ":" p)) as E
      by by apply cut_Some.
    change (match split_bracket (h +:+ String "]" (String ":" p)) with
            | Some host => host | None => "[" +:+ h +:+ "]:" +:+ p end = h).
    unfold split_bracket. by rewrite E, H1, H3, H4, H5.
  - intros H6. destruct (Hh (String ":" p)) as [E1 E2]. cbn in E1, E2.
    assert (cut ":" (h +:+ String ":" p) = Some (h, p)) as E by by apply cut_Some.
    change (h +:+ ":" +:+ p) with (h +:+ String ":" p). unfold parseIP.
    rewrite SplitHost_plain by (by rewrite E1). unfold split_plain.
    by rewrite E, E1, E2, H3, H4, H5.
  - intros H6. unfold parseIP. rewrite SplitHost_plain by done. unfold split_plain.
    apply cut_None in H6. by rewrite H6.
Qed.

(** * Witnesses *)

(** A clock that advances by 10 at each reading. *)
Definition tick : Clock Z := λ t, (t, t + 10).
#[local] Existing Instance tick.

(** A window of 25, two connections per window, "b" on the blacklist. *)
Definition sec1 : ConnSecurity := fresh (loadBlacklist " b ,,") 25 2.
Definition ips1 : list string := ["a"; "a"; "a"; "b"; ""; "a"; "c"].

Lemma limiter_refines_reference_witness :
  (serve ips1 (sec1, 100)).2 = [true; true; false; false; true; true; true] ∧
  (serve ips1 (sec1, 100)).2 = spec_decisions sec1 (serve ips1 (sec1, 100)).1 [].
Proof.
  split; [by vm_compute|].
  apply (limiter_refines_reference ips1 (loadBlacklist " b ,,") 25 2 100
    (serve ips1 (sec1, 100)).1 (serve ips1 (sec1, 100)).2); [by vm_compute..|].
  vm_compute. repeat constructor; by intros.
Defined.

Lemma rate_limit_holds_witness :
  Z.of_nat (length (in_window 25 130 "a"
    (accepted (serve ips1 (sec1, 100)).1 (serve ips1 (sec1, 100)).2))) <= 2.
Proof.
  apply (rate_limit_holds ips1 (loadBlacklist " b ,,") 25 2 100
    (serve ips1 (sec1, 100)).1 (serve ips1 (sec1, 100)).2); [by vm_compute..|].
  vm_compute. repeat constructor; by intros.
Defined.

Lemma blacklist_enforced_witness :
  ("b" ∈ loadBlacklist " b ,," ↔ "b" ≠ "" ∧ "b" ∈ TrimSpace <$> Split (TrimSpace " b ,,") comma) ∧
  ("b" ∈ loadBlacklist " b ,," →
   let s := mkSec (loadBlacklist " b ,,") 25 2 ∅ in
   allowConnection "b" (s, 100) = ((false, "ip is blacklisted"), (s, 100))).
Proof. apply blacklist_enforced. Defined.

Lemma parseIP_hosts_witness :
  parseIP (Some "[::1]:8888") = "::1" ∧
  (contains_byte ":" "::1" = false → parseIP (Some ("::1" +:+ ":" +:+ "8888")) = "::1") ∧
  (contains_byte ":" "::1" = false → parseIP (Some "::1") = "::1").
Proof. by apply (parseIP_hosts "::1" "8888"); vm_compute. Defined.
