(* ===== verification/Logic.v ===== *)
(** [LogicService] (src/internal/server/logic.go): message ids, the handling of a send
    request and of acknowledgements, over any implementation of the store's interface. *)
From S2P Require Import Prelude GoStr Protocol StoreIface.

(** The service, with the world of the store it was given. *)
Record LogicService (W : Type) := mkLogic { idCounter : Z; l_store : W }.
Arguments mkLogic {W}.
Arguments idCounter {W}.
Arguments l_store {W}.

Section logic.
Context {W : Type} `{Clock W} `{Store W}.

Abbreviation ML := (M (LogicService W)).

Definition newLogicService (s : W) : LogicService W := mkLogic 0 s.

(** A call on [l.store], or a reading of the clock. *)
Definition l_call {A} (m : M W A) : ML A :=
  zoom l_store (λ s l, mkLogic (idCounter l) s) m.

(** [atomic.AddUint64(&l.idCounter, 1)]. *)
Definition next_id : ML Z := λ l,
  let n := wrapu64 (idCounter l + 1) in (n, mkLogic n (l_store l)).

(** [fmt.Sprintf("%s-%d-%d", p, ms, seq)]. *)
Definition format_id (p : string) (ms seq : Z) : string :=
  p +:+ "-" +:+ itoa ms +:+ "-" +:+ itoa seq.

Definition GenerateServerMsgID (prefix : string) : ML string :=
  let p := TrimSpace prefix in
  let p := if String.eqb p "" then "s" else p in
  seq ← next_id;
  now ← l_call clock;
  mret (format_id p (UnixMilli now) seq).

(** The three results of [ProcessSend], and the request as it leaves it: the caller's
    message gets a client id if it had none. *)
Record SendResult := mkSent {
  saved : option Message;
  existing : option Message;
  send_err : option error;
  req_after : option Message
}.

(** The chat of a request. *)
Definition chat_of (req : Message) : string :=
  let chatID := TrimSpace (ChatID req) in
  let chatID :=
    if String.eqb chatID "" && negb (String.eqb (To req) "")
    then C2CChatID (From req) (To req) else chatID in
  if String.eqb chatID "" then "broadcast" else chatID.

(** [req.ClientMsgID = fmt.Sprintf("c-%d", time.Now().UnixNano())] when it is blank. *)
Definition with_client_id (req : Message) : ML Message :=
  if String.eqb (TrimSpace (ClientMsgID req)) "" then
    now ← l_call clock;
    mret (set_ClientMsgID ("c-" +:+ itoa (UnixNano now)) req)
  else mret req.

(** A message nobody sent before: number it, name it, save it. *)
Definition send_new (req : Message) (recipients : option (list string)) : ML SendResult :=
  let chatID := chat_of req in
  r ← l_call (st_NextSeq chatID);
  serverMsgID ← GenerateServerMsgID "s";
  now ← l_call clock;
  let msg := mkMessage TypeDeliver (ClientMsgID req) serverMsgID chatID (From req) (To req)
               r.1 0 (Body req) (Unix now) in
  err ← l_call (st_SaveMessageWithRecipients (Some msg) recipients);
  mret (match err with
        | Some e => mkSent None None (Some e) (Some req)
        | None => mkSent (Some msg) None None (Some req)
        end).

Definition ProcessSend (req : option Message) (recipients : option (list string)) :
    ML SendResult :=
  match req with
  | None => mret (mkSent None None (Some (Err "request is nil")) None)
  | Some req =>
    if String.eqb (TrimSpace (From req)) ""
    then mret (mkSent None None (Some (Err "from is empty")) (Some req))
    else
      req ← with_client_id req;
      ex ← l_call (st_GetMessageByClientID (From req) (ClientMsgID req));
      match ex with
      | Some ex => mret (mkSent None (Some ex) None (Some req))
      | None => send_new req recipients
      end
  end.

Definition HandleDeliverAck (username serverMsgID : string) : ML unit :=
  if String.eqb username "" || String.eqb serverMsgID "" then mret tt
  else l_call (st_MarkDeliveryAcked serverMsgID username);; mret tt.

Definition HandleReadAck (username serverMsgID : string) : ML unit :=
  if String.eqb username "" || String.eqb serverMsgID "" then mret tt
  else l_call (st_MarkDeliveryRead serverMsgID username);; mret tt.
End logic.
