(* ===== verification/LogicFacts.v ===== *)
(** Executions of the logic service, against the interface of the store only. *)
From S2P Require Import Prelude GoStr Protocol StoreIface Logic.

(** * Message ids *)

(** An id is its prefix, its millisecond and its number: nothing else collides with it. *)
Lemma format_id_inj p ms n p' ms' n' :
  0 <= n → 0 <= n' → format_id p ms n = format_id p' ms' n' →
  n = n' ∧ p +:+ "-" +:+ itoa ms = p' +:+ "-" +:+ itoa ms'.
Proof.
  unfold format_id. intros Hn Hn' E.
  assert (∀ a b c, a +:+ "-" +:+ b +:+ "-" +:+ c = (a +:+ "-" +:+ b) +:+ String "-" c) as Ha.
  { intros a b c. by rewrite !string_app_assoc. }
  rewrite !Ha in E. apply sep_inj_r in E as [E1 E2]; [|by apply itoa_no_dash..].
  split; [by apply itoa_inj|done].
Qed.

(** * Executions *)

Section runs.
Context {W : Type} `{SL : StoreLaws W}.
Implicit Types (l : LogicService W) (w : W).

(** The part of [BroadcastSystemEvent] (broadcast.go) that uses the service and the store: a
    number of the chat "system", an id, the message, saved for the recipients that [pick]
    chooses; the error of the save is ignored. [Server.BroadcastSystemEvent] is this and the
    queue ([LogicProps.BroadcastSystemEvent_event]). *)
Definition save_event (body : string) (pick : M W (option (list string))) :
    M (LogicService W) (Message * option error) :=
  r ← l_call (st_NextSeq "system");
  serverMsgID ← GenerateServerMsgID "sys";
  now ← l_call clock;
  tos ← l_call pick;
  let msg := mkMessage TypeDeliver "" serverMsgID "system" "system" "" r.1 0 body (Unix now) in
  err ← l_call (st_SaveMessageWithRecipients (Some msg) tos);
  mret (msg, err).

(** What may happen between two points of the life of the service, one call at a time: its own
    handlers, a system event, an id or a number drawn through the server's interface (id.go),
    and anything else that uses the store. *)
Inductive LogicCall :=
  | LSend (req : option Message) (tos : option (list string))
  | LDeliverAck (username serverMsgID : string)
  | LReadAck (username serverMsgID : string)
  | LEvent (body : string) (pick : M W (option (list string)))
  | LGenerate (prefix : string)
  | LNumber (chatID : string)
  | LOther (f : W → W).

(** A call, with the id it produced and the message it saved, if any. *)
Definition run_logic (c : LogicCall) l : list string * list Message * LogicService W :=
  match c with
  | LSend req tos =>
    let (r, l') := ProcessSend req tos l in
    match saved r with
    | Some m => ([ServerMsgID m], [m], l')
    | None => ([], [], l')
    end
  | LDeliverAck u i => ([], [], exec (HandleDeliverAck u i) l)
  | LReadAck u i => ([], [], exec (HandleReadAck u i) l)
  | LEvent body pick =>
    let '((m, err), l') := save_event body pick l in
    ([ServerMsgID m], match err with None => [m] | Some _ => [] end, l')
  | LGenerate p => let (i, l') := GenerateServerMsgID p l in ([i], [], l')
  | LNumber c => ([], [], exec (l_call (st_NextSeq c)) l)
  | LOther f => ([], [], mkLogic (idCounter l) (f (l_store l)))
  end.

Fixpoint run_logics (cs : list LogicCall) l : list string * list Message * LogicService W :=
  match cs with
  | [] => ([], [], l)
  | c :: cs' =>
    let '(ids, ms, l1) := run_logic c l in
    let '(ids', ms', l2) := run_logics cs' l1 in
    (ids ++ ids', ms ++ ms', l2)
  end.

(** The numbers of the chats stay, and a memory-only store stays so and forgets no client
    id. *)
Definition calm w w' : Prop :=
  (∀ c, last w' c = last w c) ∧
  (volatile w → volatile w' ∧ ∀ f c, known w' f c = known w f c).

(** Of the calls that are not the service's own only this is asked; [LogicProps.others_calm]
    shows it of every method of the store but NextSeq and the saves, which the service alone
    calls. *)
Definition respectful (cs : list LogicCall) : Prop :=
  ∀ c, c ∈ cs → match c with
                | LOther f => ∀ w, calm w (f w)
                | LEvent _ pick => ∀ w, calm w (exec pick w)
                | _ => True
                end.

Lemma respectful_cons c cs : respectful (c :: cs) ↔ respectful [c] ∧ respectful cs.
Proof.
  unfold respectful. split.
  - intros Hcs. split; intros c' Hin; apply Hcs; [|by right].
    apply list_elem_of_singleton in Hin as ->. by left.
  - intros [Hc Hcs] c' [->|Hin]%elem_of_cons; [|by apply Hcs]. apply Hc. by left.
Qed.

Lemma respectful_nil : respectful [].
Proof. by intros c ?%not_elem_of_nil. Qed.

(** A run is respectful call by call. *)
Lemma respectful_call c cs :
  match c with
  | LOther f => ∀ w, calm w (f w)
  | LEvent _ pick => ∀ w, calm w (exec pick w)
  | _ => True
  end → respectful cs → respectful (c :: cs).
Proof.
  intros Hc Hcs. apply respectful_cons. split; [|done].
  by intros c' ->%list_elem_of_singleton.
Qed.

(** The service after a call, the messages and the ids of a run. *)
Definition after (cs : list LogicCall) l : LogicService W := (run_logics cs l).2.
Definition ids_of (cs : list LogicCall) l : list string := (run_logics cs l).1.1.
Definition saved_of (cs : list LogicCall) l : list Message := (run_logics cs l).1.2.

Lemma run_logics_cons c cs l :
  ids_of (c :: cs) l = (run_logic c l).1.1 ++ ids_of cs (run_logic c l).2 ∧
  saved_of (c :: cs) l = (run_logic c l).1.2 ++ saved_of cs (run_logic c l).2 ∧
  after (c :: cs) l = after cs (run_logic c l).2.
Proof.
  unfold ids_of, saved_of, after. cbn. destruct (run_logic c l) as [[? ?] l1]. cbn.
  by destruct (run_logics cs l1) as [[? ?] ?].
Qed.

(** ** One call *)

Definition view l l' : Prop := same_view (l_store l) (l_store l').

#[local] Instance view_preorder : PreOrder view.
Proof. split; unfold view; [intros ?; reflexivity|intros l1 l2 l3 ? ?; by etrans]. Qed.

Lemma l_call_spec {A} (m : M W A) l :
  l_call m l = (eval m (l_store l), mkLogic (idCounter l) (exec m (l_store l))).
Proof. unfold l_call, zoom, eval, exec. by destruct (m (l_store l)). Qed.

Lemma GenerateServerMsgID_spec p l :
  ∃ ms l', GenerateServerMsgID p l =
      (format_id (if String.eqb (TrimSpace p) "" then "s" else TrimSpace p) ms
         (wrapu64 (idCounter l + 1)), l') ∧
    idCounter l' = wrapu64 (idCounter l + 1) ∧ view l l'.
Proof.
  unfold GenerateServerMsgID, next_id. munfold.
  pose proof (law_clock (l_store l)) as Hc. unfold exec in Hc.
  unfold l_call, zoom. cbn. destruct (clock (l_store l)) as [now w']. cbn in *.
  eexists _, _. split; [done|]. by split.
Qed.

(** A system event, over a store that [pick] leaves in peace for the counters. *)
Lemma save_event_spec body pick l :
  ∃ n ms ts err l',
    let m := mkMessage TypeDeliver "" (format_id "sys" ms (wrapu64 (idCounter l + 1)))
               "system" "system" "" n 0 body ts in
    save_event body pick l = ((m, err), l') ∧
    idCounter l' = wrapu64 (idCounter l + 1) ∧ in_uint64 n ∧
    (∀ k, last (l_store l) "system" = Some k → n = wrapu64 (k + 1)) ∧
    ((∀ w, calm w (exec pick w)) →
    last (l_store l') "system" = Some n ∧
    (∀ c, seq_key c ≠ "system" → last (l_store l') c = last (l_store l) c) ∧
    (volatile (l_store l) → volatile (l_store l') ∧
       ∀ f c, c ≠ "" → known (l_store l') f c = known (l_store l) f c)).
Proof.
  unfold save_event.
  destruct (law_NextSeq "system" (l_store l)) as
    (n & w1 & E1 & Hn & Hlast & Hk & Hother & Hknown & Hvol).
  set (l1 := mkLogic (idCounter l) w1).
  destruct (GenerateServerMsgID_spec "sys" l1) as (ms & l2 & E2 & Hid & V2).
  change (if String.eqb (TrimSpace "sys") "" then "s" else TrimSpace "sys") with "sys" in E2.
  pose proof (law_clock (l_store l2)) as V3.
  set (now := eval clock (l_store l2)). set (w3 := exec clock (l_store l2)) in V3.
  set (tos := eval pick w3). set (w4 := exec pick w3).
  set (m := mkMessage TypeDeliver "" (format_id "sys" ms (wrapu64 (idCounter l + 1)))
              "system" "system" "" n 0 body (Unix now)).
  destruct (st_SaveMessageWithRecipients (Some m) tos w4) as [err w5] eqn:E5.
  exists n, ms, (Unix now), err, (mkLogic (idCounter l2) w5).
  assert (view l1 (mkLogic 0 w3)) as (K & L & V).
  { unfold view. cbn. by etrans. }
  cbn in K, L, V. split.
  { munfold. rewrite l_call_spec. unfold eval, exec. rewrite E1. cbn [fst snd]. fold l1.
    rewrite E2. cbv beta iota. rewrite !l_call_spec. unfold eval, exec. cbn.
    fold (exec clock (l_store l2)) w3. fold (eval pick w3) (exec pick w3) tos w4.
    change (wrapu64 (idCounter l1 + 1)) with (wrapu64 (idCounter l + 1)).
    fold (eval clock (l_store l2)) now m. by rewrite E5. }
  split; [done|]. split; [done|]. split; [done|]. intros Hpick. cbn [l_store].
  destruct (Hpick w3) as [L4 V4]. fold w4 in L4, V4.
  assert ((∀ c, last w5 c = last w4 c) ∧ (volatile w4 → volatile w5) ∧
          ∀ f c, c ≠ "" → known w5 f c = known w4 f c) as (L5 & V5 & K5).
  { destruct err as [e|].
    - destruct (law_save_err _ _ _ _ _ E5) as (? & ? & ?). split_and!; auto.
    - destruct (law_save_ok _ _ _ _ E5) as (_ & S5 & ? & ?). split_and!; auto.
      intros f c Hc. apply S5. intros [= _ ->]. done. }
  rewrite L5, L4, L. split_and!; [done| |].
  - intros c Hc. rewrite L5, L4, L. auto.
  - intros Hv. destruct (V4 (V (Hvol Hv))) as [Hv4 K4]. split; [auto|].
    intros f c Hc. rewrite K5, K4, K by done. auto.
Qed.

Lemma with_client_id_spec req l :
  ∃ req' l', with_client_id req l = (req', l') ∧ idCounter l' = idCounter l ∧ view l l' ∧
    req' = set_ClientMsgID (ClientMsgID req') req ∧
    (TrimSpace (ClientMsgID req) ≠ "" → req' = req ∧ l' = l).
Proof.
  unfold with_client_id. destruct (String.eqb_spec (TrimSpace (ClientMsgID req)) "") as [E|E].
  - munfold. rewrite l_call_spec. eexists _, _. split; [done|]. cbn.
    split_and!; [done|apply law_clock|done|done].
  - munfold. eexists _, _. split; [done|]. split_and!; [done|reflexivity|by destruct req|done].
Qed.

Lemma chat_of_nonempty req : chat_of req ≠ "".
Proof. unfold chat_of. cbn. repeat case_match; bool_to_prop; done. Qed.

Lemma seq_key_chat_of req : seq_key (chat_of req) = chat_of req.
Proof.
  unfold seq_key. destruct (String.eqb_spec (chat_of req) "") as [E|]; [|done].
  by destruct (chat_of_nonempty req).
Qed.

(** What a new message looks like, and what saving it leaves behind. *)
Lemma send_new_spec req tos l :
  ∃ r l' n ms ts, send_new req tos l = (r, l') ∧
    idCounter l' = wrapu64 (idCounter l + 1) ∧
    in_uint64 n ∧ last (l_store l') (chat_of req) = Some n ∧
    (∀ k, last (l_store l) (chat_of req) = Some k → n = wrapu64 (k + 1)) ∧
    (∀ c, seq_key c ≠ chat_of req → last (l_store l') c = last (l_store l) c) ∧
    (volatile (l_store l) → volatile (l_store l')) ∧
    let m := mkMessage TypeDeliver (ClientMsgID req)
               (format_id "s" ms (wrapu64 (idCounter l + 1))) (chat_of req) (From req) (To req)
               n 0 (Body req) ts in
    (∀ f c, (f, c) ≠ (From req, ClientMsgID req) →
      known (l_store l') f c = known (l_store l) f c) ∧
    ((r = mkSent (Some m) None None (Some req) ∧
      (From req ≠ "" → ClientMsgID req ≠ "" →
         known (l_store l') (From req) (ClientMsgID req) = Some m)) ∨
     (∃ e, r = mkSent None None (Some e) (Some req) ∧ ¬ volatile (l_store l) ∧
       known (l_store l') (From req) (ClientMsgID req) =
         known (l_store l) (From req) (ClientMsgID req))).
Proof.
  unfold send_new. destruct (law_NextSeq (chat_of req) (l_store l)) as
    (n & w1 & E1 & Hn & Hlast & Hk & Hother & Hknown & Hvol).
  rewrite seq_key_chat_of in Hother.
  set (l1 := mkLogic (idCounter l) w1).
  destruct (GenerateServerMsgID_spec "s" l1) as (ms & l2 & E2 & Hid & V2).
  change (if String.eqb (TrimSpace "s") "" then "s" else TrimSpace "s") with "s" in E2.
  pose proof (law_clock (l_store l2)) as V3.
  set (now := eval clock (l_store l2)). set (w3 := exec clock (l_store l2)) in V3.
  set (m := mkMessage TypeDeliver (ClientMsgID req)
              (format_id "s" ms (wrapu64 (idCounter l + 1))) (chat_of req) (From req) (To req)
              n 0 (Body req) (Unix now)).
  destruct (st_SaveMessageWithRecipients (Some m) tos w3) as [err w4] eqn:E4.
  exists (match err with Some e => mkSent None None (Some e) (Some req)
                       | None => mkSent (Some m) None None (Some req) end),
    (mkLogic (idCounter l2) w4), n, ms, (Unix now).
  assert (view l1 (mkLogic 0 w3)) as (K & L & V).
  { unfold view. cbn. by etrans. }
  cbn in K, L, V. split.
  { munfold. rewrite l_call_spec. unfold eval, exec. rewrite E1. cbn [fst snd]. fold l1.
    rewrite E2. cbv beta iota. rewrite l_call_spec. fold now w3. rewrite l_call_spec.
    unfold eval, exec. cbn. change (wrapu64 (idCounter l1 + 1)) with
      (wrapu64 (idCounter l + 1)). fold m. by rewrite E4. }
  split; [done|]. split; [done|]. cbn [l_store].
  destruct err as [e|].
  - pose proof (law_save_err _ _ _ _ _ E4) as (K4 & L4 & V4).
    rewrite L4, L. split_and!; [done|done| | | |].
    + intros c Hc. rewrite L4, L. auto.
    + auto.
    + intros f c _. rewrite K4, K. auto.
    + right. exists e. split; [done|]. split; [|by rewrite K4, K].
      intros Hv. pose proof (law_save_volatile w3 m tos (V (Hvol Hv))) as Hs.
      unfold eval in Hs. rewrite E4 in Hs. assert (ServerMsgID m ≠ "") as Hne by done.
      by specialize (Hs Hne).
  - pose proof (law_save_ok _ _ _ _ E4) as (S4 & K4 & L4 & V4).
    rewrite L4, L. split_and!; [done|done| | | |].
    + intros c Hc. rewrite L4, L. auto.
    + auto.
    + intros f c Hne. rewrite K4, K by done. auto.
    + left. by split.
Qed.

(** The three ways [ProcessSend] ends: before reaching the store, on a message it knows, or
    through [send_new]. *)
Inductive send_case (req : option Message) (tos : option (list string)) l :
    SendResult → LogicService W → Prop :=
  | send_rejected e :
      match req with None => True | Some q => TrimSpace (From q) = "" end →
      send_case req tos l (mkSent None None (Some e) req) l
  | send_known q q' l1 ex w2 :
      req = Some q → TrimSpace (From q) ≠ "" → with_client_id q l = (q', l1) →
      st_GetMessageByClientID (From q') (ClientMsgID q') (l_store l1) = (Some ex, w2) →
      send_case req tos l (mkSent None (Some ex) None (Some q')) (mkLogic (idCounter l1) w2)
  | send_fresh q q' l1 w2 r l' :
      req = Some q → TrimSpace (From q) ≠ "" → with_client_id q l = (q', l1) →
      st_GetMessageByClientID (From q') (ClientMsgID q') (l_store l1) = (None, w2) →
      send_new q' tos (mkLogic (idCounter l1) w2) = (r, l') →
      send_case req tos l r l'.

Lemma ProcessSend_cases req tos l :
  send_case req tos l (eval (ProcessSend req tos) l) (exec (ProcessSend req tos) l).
Proof.
  unfold eval, exec, ProcessSend. destruct req as [q|]; [|by apply send_rejected].
  destruct (String.eqb_spec (TrimSpace (From q)) "") as [E|E]; [by apply send_rejected|].
  unfold mbind, M_bind. destruct (with_client_id q l) as [q' l1] eqn:E1.
  rewrite l_call_spec. unfold eval, exec.
  destruct (st_GetMessageByClientID (From q') (ClientMsgID q') (l_store l1))
    as [[ex|] w2] eqn:E2; cbn.
  - by eapply send_known.
  - destruct (send_new q' tos (mkLogic (idCounter l1) w2)) as [r l'] eqn:E3. cbn.
    by eapply send_fresh.
Qed.

(** The counter of the ids grows by at most one per call, and names the id. *)
Lemma run_logic_ids c l :
  0 <= idCounter l → idCounter l + 1 < 2 ^ 64 →
  let '(ids, ms, l') := run_logic c l in
  idCounter l <= idCounter l' <= idCounter l + 1 ∧
  (∀ m, m ∈ ms → ServerMsgID m ∈ ids) ∧
  (ids = [] ∨ ∃ p t, ids = [format_id p t (idCounter l + 1)] ∧
                     idCounter l' = idCounter l + 1).
Proof.
  intros Hc Hb. assert (wrapu64 (idCounter l + 1) = idCounter l + 1) as Hw
    by (apply wrapu64_id; unfold in_uint64; lia).
  destruct c as [req tos|u i|u i|body pick|p|ch'|f]; cbn.
  - pose proof (ProcessSend_cases req tos l) as Hs. unfold eval, exec in Hs.
    destruct (ProcessSend req tos l) as [r l']. cbn in Hs.
    destruct Hs as [e He|q q' l1 ex w2 -> _ E1 E2|q q' l1 w2 r l' -> _ E1 E2 E3]; cbn.
    + split_and!; [lia|lia|by intros ? []%not_elem_of_nil|by left].
    + destruct (with_client_id_spec q l) as (? & ? & E & Hid & _).
      rewrite E1 in E. injection E as <- <-. rewrite Hid.
      split_and!; [lia|lia|by intros ? []%not_elem_of_nil|by left].
    + destruct (with_client_id_spec q l) as (? & ? & E & Hid & _).
      rewrite E1 in E. injection E as <- <-.
      destruct (send_new_spec q' tos (mkLogic (idCounter l1) w2)) as
        (r' & l'' & n & ms & ts & E & Hid' & _ & _ & _ & _ & _ & _ & Hr).
      rewrite E3 in E. injection E as <- <-. cbn in Hid', Hr. rewrite Hid, Hw in Hid', Hr.
      destruct Hr as [[-> _]|(e & -> & _)]; cbn.
      * split_and!; [lia|lia| |right; eauto]. intros m. by rewrite !list_elem_of_singleton; intros ->.
      * split_and!; [lia|lia|by intros ? []%not_elem_of_nil|by left].
  - unfold HandleDeliverAck, exec. case_match; munfold; rewrite ?l_call_spec; cbn;
      (split_and!; [lia|lia|by intros ? []%not_elem_of_nil|by left]).
  - unfold HandleReadAck, exec. case_match; munfold; rewrite ?l_call_spec; cbn;
      (split_and!; [lia|lia|by intros ? []%not_elem_of_nil|by left]).
  - destruct (save_event_spec body pick l) as (n & ms & ts & err & l' & -> & -> & _).
    rewrite Hw. cbn. split_and!; [lia|lia| |right; eauto].
    intros m. destruct err; [by intros []%not_elem_of_nil|].
    rewrite !list_elem_of_singleton. by intros ->.
  - destruct (GenerateServerMsgID_spec p l) as (ms & l' & -> & -> & _). rewrite Hw.
    split_and!; [lia|lia|by intros ? []%not_elem_of_nil|right; eauto].
  - unfold exec. rewrite l_call_spec. cbn.
    split_and!; [lia|lia|by intros ? []%not_elem_of_nil|by left].
  - split_and!; [lia|lia|by intros ? []%not_elem_of_nil|by left].
Qed.

(** Ids drawn in a run are numbered after the counter it started from, and are distinct. *)
Lemma run_logics_ids cs l :
  0 <= idCounter l → idCounter l + Z.of_nat (length cs) < 2 ^ 64 →
  NoDup (ids_of cs l) ∧
  (∀ i, i ∈ ids_of cs l → ∃ p t n, i = format_id p t n ∧ idCounter l < n) ∧
  (∀ m, m ∈ saved_of cs l → ServerMsgID m ∈ ids_of cs l).
Proof.
  revert l. induction cs as [|c cs IH]; intros l Hc Hb.
  { split_and!; [constructor|by intros ? []%not_elem_of_nil..]. }
  destruct (run_logics_cons c cs l) as (-> & -> & _). cbn [length] in Hb.
  pose proof (run_logic_ids c l Hc ltac:(lia)) as Hone.
  destruct (run_logic c l) as [[ids ms] l1]. cbn. destruct Hone as (Hid & Hms & Hids).
  destruct (IH l1) as (Hnd & Hin & Hsv); [lia..|]. split_and!.
  - destruct Hids as [->|(p & t & -> & Hid')]; [done|]. apply NoDup_app.
    split_and!; [by apply NoDup_singleton| |done].
    intros i ->%list_elem_of_singleton (p' & t' & n & E & Hn)%Hin.
    apply format_id_inj in E as [E _]; lia.
  - intros i [Hi|Hi]%elem_of_app.
    + destruct Hids as [->|(p & t & -> & Hid')]; [by apply not_elem_of_nil in Hi|].
      apply list_elem_of_singleton in Hi as ->. eexists _, _, _. split; [done|lia].
    + destruct (Hin i Hi) as (p & t & n & -> & Hn). eexists _, _, _. split; [done|lia].
  - intros m [Hm|Hm]%elem_of_app; apply elem_of_app; auto.
Qed.
Lemma run_logic_one c l : (run_logic c l).1.2 = [] ∨ ∃ m, (run_logic c l).1.2 = [m].
Proof.
  destruct c as [req tos|u i|u i|body pick|p|ch'|f]; cbn; [|by left|by left| | |by left|by left].
  - destruct (ProcessSend req tos l) as [r l']. destruct (saved r); cbn; eauto.
  - destruct (save_event body pick l) as [[m [e|]] l']; cbn; eauto.
  - destruct (GenerateServerMsgID p l). by left.
Qed.

(** ** Sequence numbers *)

(** What one call does to the counter of a chat. *)
Lemma run_logic_seq c l ch k :
  respectful [c] → seq_key ch = ch → last (l_store l) ch = Some k →
  let '(_, ms, l') := run_logic c l in
  ∃ k', last (l_store l') ch = Some k' ∧ (k' = k ∨ k' = wrapu64 (k + 1)) ∧
    ∀ m, m ∈ ms → ChatID m = ch → Seq m = k' ∧ k' = wrapu64 (k + 1).
Proof.
  intros Hc Hch Hk.
  assert (∀ m : Message, m ∈ [] → ChatID m = ch → Seq m = k ∧ k = wrapu64 (k + 1)) as Hnil
    by by intros ? []%not_elem_of_nil.
  destruct c as [req tos|u i|u i|body pick|p|ch'|f]; cbn.
  - pose proof (ProcessSend_cases req tos l) as Hs. unfold eval, exec in Hs.
    destruct (ProcessSend req tos l) as [r l']. cbn in Hs.
    destruct Hs as [e He|q q' l1 ex w2 -> _ E1 E2|q q' l1 w2 r l' -> _ E1 E2 E3]; cbn;
      [by eauto|..];
      destruct (with_client_id_spec q l) as (? & ? & E & _ & V & _);
      rewrite E1 in E; injection E as <- <-;
      pose proof (law_get_last (l_store l1) (From q') (ClientMsgID q') ch) as Hl;
      unfold exec in Hl; rewrite E2 in Hl; cbn in Hl;
      rewrite (proj1 (proj2 V)), Hk in Hl; [by eauto|].
    destruct (send_new_spec q' tos (mkLogic (idCounter l1) w2)) as
      (r' & l'' & n & ms & ts & E & _ & _ & Hn & Hnk & Ho & _ & _ & Hr).
    rewrite E3 in E. injection E as <- <-. cbn in Hnk, Ho, Hr.
    destruct (decide (ch = chat_of q')) as [->|Hne].
    + specialize (Hnk k Hl). destruct Hr as [[-> _]|(e & -> & _)]; cbn;
        exists n; (split_and!; [done|by right|]).
      * intros m ->%list_elem_of_singleton _. done.
      * by intros ? []%not_elem_of_nil.
    + assert (last (l_store l') ch = Some k) as Hl' by (rewrite Ho, Hl; [done|by rewrite Hch]).
      destruct Hr as [[-> _]|(e & -> & _)]; cbn; exists k; (split_and!; [done|by left|]).
      * intros m ->%list_elem_of_singleton Hm. cbn in Hm. congruence.
      * done.
  - exists k. unfold HandleDeliverAck, exec. case_match; munfold; rewrite ?l_call_spec; cbn;
      [by eauto|]. by rewrite (proj1 (proj2 (law_acked i u (l_store l)))), Hk; eauto.
  - exists k. unfold HandleReadAck, exec. case_match; munfold; rewrite ?l_call_spec; cbn;
      [by eauto|]. by rewrite (proj1 (proj2 (law_read i u (l_store l)))), Hk; eauto.
  - destruct (save_event_spec body pick l) as (n & ms & ts & err & l' & -> & _ & _ & Hn & Hp).
    destruct (Hp (Hc (LEvent body pick) ltac:(by left))) as (Hl & Ho & _). cbn.
    destruct (decide (ch = "system")) as [->|Hne].
    + exists n. rewrite (Hn k Hk) in *. split_and!; [done|by right|].
      intros m. destruct err; [by intros []%not_elem_of_nil|].
      by intros ->%list_elem_of_singleton.
    + exists k. rewrite Ho, Hk by (by rewrite Hch). split_and!; [done|by left|].
      intros m. destruct err; [by intros []%not_elem_of_nil|].
      intros ->%list_elem_of_singleton Hm. by destruct Hne.
  - destruct (GenerateServerMsgID_spec p l) as (ms & l' & -> & _ & V). exists k.
    rewrite (proj1 (proj2 V)), Hk. eauto.
  - unfold exec. rewrite l_call_spec. cbn. unfold exec.
    destruct (law_NextSeq ch' (l_store l)) as (n & w1 & -> & _ & Hl & Hn & Ho & _). cbn.
    destruct (decide (seq_key ch' = ch)) as [<-|Hne].
    + exists n. rewrite law_key in *. rewrite (Hn k Hk) in *. split_and!; auto.
      by intros ? []%not_elem_of_nil.
    + exists k. rewrite Ho, Hk by (rewrite Hch; auto). auto.
  - exists k. rewrite (proj1 (Hc (LOther f) ltac:(by left) (l_store l))), Hk. eauto.
Qed.

(** The messages a run saves in a chat are numbered upwards from its counter. *)
Lemma run_logics_seq cs l ch k :
  respectful cs → seq_key ch = ch → last (l_store l) ch = Some k →
  0 <= k → k + Z.of_nat (length cs) < 2 ^ 64 →
  let seqs := Seq <$> List.filter (λ m, String.eqb (ChatID m) ch) (saved_of cs l) in
  StronglySorted Z.lt seqs ∧ Forall (λ n, k < n <= k + Z.of_nat (length cs)) seqs.
Proof.
  revert l k. induction cs as [|c cs IH]; intros l k Hcs Hch Hk H0' Hb; [by split; constructor|].
  destruct (run_logics_cons c cs l) as (_ & -> & _). cbn [length] in Hb.
  pose proof (run_logic_seq c l ch k) as Hone.
  destruct (run_logic c l) as [[ids ms] l1] eqn:E. cbn [fst snd].
  destruct Hone as (k' & Hk' & Hkk & Hms); [|done..|].
  { by apply respectful_cons in Hcs as [? _]. }
  assert (wrapu64 (k + 1) = k + 1) as Hw by (apply wrapu64_id; unfold in_uint64; lia).
  rewrite Hw in *. destruct (IH l1 k') as [Hs Hf]; [|done..|lia|lia|].
  { by apply respectful_cons in Hcs as [_ ?]. }
  cbn. rewrite List.filter_app, fmap_app.
  assert (Forall (λ n, k < n <= k + Z.of_nat (S (length cs)))
    (Seq <$> List.filter (λ m, String.eqb (ChatID m) ch) (saved_of cs l1))) as Hf'.
  { eapply Forall_impl; [exact Hf|]. cbn. lia. }
  destruct (run_logic_one c l) as [Hm|[m Hm]]; rewrite E in Hm; cbn in Hm; subst ms; cbn.
  { by split. }
  destruct (String.eqb_spec (ChatID m) ch) as [Ec|Ec]; cbn; [|by split].
  destruct (Hms m ltac:(by left) Ec) as [-> ->]. split.
  - constructor; [done|]. eapply Forall_impl; [exact Hf|]. cbn. lia.
  - constructor; [lia|done].
Qed.

(** A message just saved carries the last number of its chat. *)
Lemma run_logic_last c l m :
  respectful [c] → m ∈ (run_logic c l).1.2 →
  last (l_store (run_logic c l).2) (ChatID m) = Some (Seq m) ∧ in_uint64 (Seq m).
Proof.
  intros Hc. destruct c as [req tos|u i|u i|body pick|p|ch'|f]; cbn;
    try by intros []%not_elem_of_nil.
  - pose proof (ProcessSend_cases req tos l) as Hs. unfold eval, exec in Hs.
    destruct (ProcessSend req tos l) as [r l']. cbn in Hs.
    destruct Hs as [e He|q q' l1 ex w2 -> _ E1 E2|q q' l1 w2 r l' -> _ E1 E2 E3]; cbn;
      try by intros []%not_elem_of_nil.
    destruct (send_new_spec q' tos (mkLogic (idCounter l1) w2)) as
      (r' & l'' & n & ms & ts & E & _ & Hr & Hn & _ & _ & _ & _ & Hcase).
    rewrite E3 in E. injection E as <- <-.
    destruct Hcase as [[-> _]|(e & -> & _)]; cbn; [|by intros []%not_elem_of_nil].
    by intros ->%list_elem_of_singleton.
  - destruct (save_event_spec body pick l) as (n & ms & ts & err & l' & -> & _ & Hr & _ & Hp).
    destruct (Hp (Hc (LEvent body pick) ltac:(by left))) as (Hl & _). cbn.
    destruct err; [by intros []%not_elem_of_nil|]. by intros ->%list_elem_of_singleton.
  - destruct (GenerateServerMsgID p l). by intros []%not_elem_of_nil.
Qed.

(** So a run needs no number to start from. *)
Lemma run_logics_seq_from cs l ch :
  respectful cs → seq_key ch = ch →
  (∀ m, m ∈ saved_of cs l → ChatID m = ch → Seq m + Z.of_nat (length cs) < 2 ^ 64) →
  StronglySorted Z.lt (Seq <$> List.filter (λ m, String.eqb (ChatID m) ch) (saved_of cs l)).
Proof.
  revert l. induction cs as [|c cs IH]; intros l Hcs Hch Hb; [constructor|].
  apply respectful_cons in Hcs as [Hc Hcs].
  destruct (run_logics_cons c cs l) as (_ & E & _). rewrite E in *. cbn [length] in Hb.
  rewrite List.filter_app, fmap_app.
  assert (∀ m, m ∈ saved_of cs (run_logic c l).2 → ChatID m = ch →
            Seq m + Z.of_nat (length cs) < 2 ^ 64) as Hb'.
  { intros m Hm Em. specialize (Hb m (proj2 (elem_of_app _ _ _) (or_intror Hm)) Em). lia. }
  destruct (run_logic_one c l) as [Hm|[m Hm]]; rewrite Hm in *; cbn; [by apply IH|].
  destruct (String.eqb_spec (ChatID m) ch) as [Ec|Ec]; cbn; [|by apply IH].
  destruct (run_logic_last c l m Hc) as [Hl Hr]; [rewrite Hm; by left|].
  specialize (Hb m ltac:(by left) Ec). unfold in_uint64 in Hr. rewrite Ec in Hl.
  destruct (run_logics_seq cs (run_logic c l).2 ch (Seq m)) as [Hs Hf]; [done..|lia|lia|].
  constructor; [done|]. eapply Forall_impl; [exact Hf|]. cbn. lia.
Qed.

(** ** Idempotency *)

(** A store that keeps everything in memory answers for a message forever. *)
Lemma run_logic_known c l f cid m :
  respectful [c] → volatile (l_store l) → f ≠ "" → cid ≠ "" →
  known (l_store l) f cid = Some m →
  volatile (l_store (run_logic c l).2) ∧ known (l_store (run_logic c l).2) f cid = Some m.
Proof.
  intros Hc Hv Hf Hcid Hm. destruct c as [req tos|u i|u i|body pick|p|ch'|g]; cbn.
  - pose proof (ProcessSend_cases req tos l) as Hs. unfold eval, exec in Hs.
    destruct (ProcessSend req tos l) as [r l'] eqn:Ep. cbn in Hs.
    assert (volatile (l_store l') ∧ known (l_store l') f cid = Some m) as Hgoal;
      [|by destruct (saved r)].
    destruct Hs as [e He|q q' l1 ex w2 -> _ E1 E2|q q' l1 w2 r l' -> _ E1 E2 E3]; cbn;
      [done|..];
      destruct (with_client_id_spec q l) as (? & ? & E & _ & V & _);
      rewrite E1 in E; injection E as <- <-; destruct V as (K & _ & V);
      specialize (V Hv); rewrite law_get_volatile in E2 by done; injection E2 as E2 <-;
      rewrite <- K in Hm; [done|].
    destruct (send_new_spec q' tos (mkLogic (idCounter l1) (l_store l1))) as
      (r' & l'' & n & ms & ts & E & _ & _ & _ & _ & _ & Hvol & Hk & _).
    rewrite E3 in E. injection E as <- <-. cbn in Hvol, Hk.
    split; [auto|]. rewrite Hk; [done|]. intros [= -> ->]. congruence.
  - unfold HandleDeliverAck, exec. case_match; munfold; rewrite ?l_call_spec; cbn; [done|].
    destruct (law_acked i u (l_store l)) as (-> & _ & ?). auto.
  - unfold HandleReadAck, exec. case_match; munfold; rewrite ?l_call_spec; cbn; [done|].
    destruct (law_read i u (l_store l)) as (-> & _ & ?). auto.
  - destruct (save_event_spec body pick l) as (n & ms & ts & err & l' & -> & _ & _ & _ & Hp).
    destruct (Hp (Hc (LEvent body pick) ltac:(by left))) as (_ & _ & V).
    destruct (V Hv) as [Hv' K]. cbn. by rewrite K.
  - destruct (GenerateServerMsgID_spec p l) as (ms & l' & -> & _ & (K & _ & V)). cbn.
    rewrite K. auto.
  - unfold exec. rewrite l_call_spec. cbn. unfold exec.
    destruct (law_NextSeq ch' (l_store l)) as (n & w1 & -> & _ & _ & _ & _ & K & V). cbn.
    rewrite K. auto.
  - destruct (proj2 (Hc (LOther g) ltac:(by left) (l_store l)) Hv) as [V K]. by rewrite K.
Qed.

Lemma run_logics_known cs l f cid m :
  respectful cs → volatile (l_store l) → f ≠ "" → cid ≠ "" →
  known (l_store l) f cid = Some m → known (l_store (after cs l)) f cid = Some m.
Proof.
  revert l. induction cs as [|c cs IH]; intros l Hcs Hv Hf Hc Hm; [done|].
  destruct (run_logics_cons c cs l) as (_ & _ & ->).
  destruct (run_logic_known c l f cid m) as [Hv' Hm']; try done.
  - by apply respectful_cons in Hcs as [? _].
  - apply IH; try done. by apply respectful_cons in Hcs as [_ ?].
Qed.

(** A resend of a known message is answered by that message and changes nothing. *)
Lemma ProcessSend_known q tos l m :
  TrimSpace (From q) ≠ "" → TrimSpace (ClientMsgID q) ≠ "" →
  known (l_store l) (From q) (ClientMsgID q) = Some m →
  ProcessSend (Some q) tos l = (mkSent None (Some m) None (Some q), l).
Proof.
  intros Hf Hc Hm. unfold ProcessSend. apply String.eqb_neq in Hf. rewrite Hf.
  destruct (with_client_id_spec q l) as (q' & l1 & E & _ & _ & _ & Hq).
  destruct (Hq Hc) as [-> ->]. unfold mbind, M_bind. rewrite E, l_call_spec.
  unfold eval, exec. rewrite (law_known _ _ _ _ Hm). cbn. by destruct l.
Qed.

(** A successful send makes its message known. *)
Lemma ProcessSend_saves q tos l r l' m :
  TrimSpace (ClientMsgID q) ≠ "" → ProcessSend (Some q) tos l = (r, l') → saved r = Some m →
  TrimSpace (From q) ≠ "" ∧ From m = From q ∧ ClientMsgID m = ClientMsgID q ∧
  known (l_store l') (From q) (ClientMsgID q) = Some m ∧
  (volatile (l_store l) → volatile (l_store l')).
Proof.
  intros Hc Hp Hs. pose proof (ProcessSend_cases (Some q) tos l) as Hcase.
  unfold eval, exec in Hcase. rewrite Hp in Hcase. cbn in Hcase.
  destruct Hcase as [e He|q1 q' l1 ex w2 _ _ _ _|q1 q' l1 w2 r l' [= <-] Hf E1 E2 E3];
    [done..|].
  destruct (with_client_id_spec q l) as (? & ? & E & _ & _ & _ & Hq).
  destruct (Hq Hc) as [-> ->]. rewrite E1 in E. injection E as <- <-.
  destruct (send_new_spec q' tos (mkLogic (idCounter l1) w2)) as
    (r' & l'' & n & ms & ts & E & _ & _ & _ & _ & _ & Hvol & _ & Hr).
  rewrite E3 in E. injection E as <- <-. cbn in Hvol, Hr.
  destruct Hr as [[-> Hk]|(e & -> & _)]; [|done]. injection Hs as <-. cbn.
  assert (From q' ≠ "") by (intros E; by rewrite E in Hf).
  assert (ClientMsgID q' ≠ "") by (intros E; by rewrite E in Hc).
  split_and!; try done; [by apply Hk|]. intros Hv. apply Hvol.
  rewrite law_get_volatile in E2 by done. by injection E2 as _ <-.
Qed.
End runs.
