(* ===== verification/Worker.v ===== *)
(** The delivery worker (src/internal/delivery/worker.go), over any implementation of the
    store's interface and any network: the queue and its in-flight set, the delivery of one
    message, the retry tick. [WorkerSteps] takes the queue apart into the atomic actions that
    goroutines interleave. *)
From S2P Require Import Prelude GoStr Protocol StoreIface.

(** The fields of [Worker] that change; the channel is a bounded queue. *)
Record Worker := mkWorker {
  deliverQueue : list string;
  deliverInFlight : gset string;
  maxRetry : Z;
  retryBaseDelay : Z
}.

(** [make(chan string, 1024)]. *)
Definition queue_cap : nat := 1024.

Definition NewWorker (maxRetry retryBaseDelay : Z) : Worker :=
  mkWorker [] ∅ maxRetry retryBaseDelay.

Definition set_queue (q : list string) (w : Worker) : Worker :=
  mkWorker q (deliverInFlight w) (maxRetry w) (retryBaseDelay w).
Definition set_inflight (s : gset string) (w : Worker) : Worker :=
  mkWorker (deliverQueue w) s (maxRetry w) (retryBaseDelay w).

(** * Enqueueing *)

(** The first critical section: claim the id, unless it is in flight. *)
Definition mark_inflight (id : string) (w : Worker) : option Worker :=
  if bool_decide (id ∈ deliverInFlight w) then None
  else Some (set_inflight ({[id]} ∪ deliverInFlight w) w).

(** The [select]: send if the channel has room. *)
Definition try_send (id : string) (w : Worker) : option Worker :=
  if (length (deliverQueue w) <? queue_cap)%nat
  then Some (set_queue (deliverQueue w ++ [id]) w) else None.

(** [delete(w.deliverInFlight, id)]. *)
Definition unmark (id : string) (w : Worker) : Worker :=
  set_inflight (deliverInFlight w ∖ {[id]}) w.

Definition EnqueueServerMsg (serverMsgID : string) (w : Worker) : Worker :=
  if String.eqb serverMsgID "" then w
  else match mark_inflight serverMsgID w with
       | None => w
       | Some w1 =>
         match try_send serverMsgID w1 with
         | Some w2 => w2
         | None => unmark serverMsgID w1
         end
       end.

(** * Delivering *)

(** What the worker uses of the network: the senders of the users online, and sending. A
    sender may be [nil]. *)
Class Net (N Snd : Type) := {
  net_online : N → gmap string (option Snd);
  net_SendJSON : Snd → Message → M N unit
}.

(** The worker, the store and the network. *)
Record DW (S N : Type) := mkDW { d_worker : Worker; d_store : S; d_net : N }.
Arguments mkDW {S N}.
Arguments d_worker {S N}.
Arguments d_store {S N}.
Arguments d_net {S N}.

Section worker.
Context {S N Snd : Type} `{Store S} `{Net N Snd}.

Abbreviation MD := (M (DW S N)).

Definition on_worker (f : Worker → Worker) : MD unit :=
  modify (λ d, mkDW (f (d_worker d)) (d_store d) (d_net d)).
Definition on_store {A} (m : M S A) : MD A :=
  zoom d_store (λ s d, mkDW (d_worker d) s (d_net d)) m.
Definition on_net {A} (m : M N A) : MD A :=
  zoom d_net (λ n d, mkDW (d_worker d) (d_store d) n) m.

(** [msg.To] joins the recipients unless it is among them. *)
Definition with_target (to : string) (recips : list string) : list string :=
  if negb (String.eqb to "") && negb (existsb (String.eqb to) recips)
  then recips ++ [to] else recips.

(** The copy of the message that goes to one recipient. *)
Definition deliver_copy (id r : string) (msg : Message) : Message :=
  mkMessage TypeDeliver "" id (ChatID msg) (From msg) r (Seq msg) 0 (Body msg) (Ts msg).

(** One turn of the loop over the recipients. *)
Definition deliver_to (id : string) (msg : Message) (onlineMap : gmap string (option Snd))
    (r : string) : MD unit :=
  match onlineMap !! r with
  | None =>
    w ← gets d_worker;
    on_store (st_ScheduleRetry id r (Some (Err "recipient offline")) (maxRetry w)
                (retryBaseDelay w));;
    mret tt
  | Some sender =>
    match sender with
    | Some s => on_net (net_SendJSON s (deliver_copy id r msg))
    | None => mret tt
    end;;
    on_store (st_MarkDeliverySent id r None);; mret tt
  end.

(** The body of [deliverWorker] for one id, without the [defer]. *)
Definition deliver (id : string) : MD unit :=
  msg ← on_store (st_GetMessageByServerID id);
  match msg with
  | None => mret tt
  | Some msg =>
    recips ← on_store (st_GetRecipients id);
    onlineMap ← gets (λ d, net_online (d_net d));
    forM (with_target (To msg) recips) (deliver_to id msg onlineMap)
  end.

(** One iteration of [deliverWorker]: receive, deliver, and (deferred) unmark. [false] when
    the channel is empty and the goroutine would block. *)
Definition deliver_next : MD bool :=
  w ← gets d_worker;
  match deliverQueue w with
  | [] => mret false
  | id :: q =>
    on_worker (set_queue q);; deliver id;; on_worker (unmark id);; mret true
  end.

(** The goroutine runs until the queue is empty; [n] bounds the number of iterations. *)
Fixpoint deliverWorker (n : nat) : MD unit :=
  match n with
  | O => mret tt
  | Datatypes.S n' => b ← deliver_next; if b : bool then deliverWorker n' else mret tt
  end.

Definition enqueue_all (ids : list string) : MD unit :=
  forM ids (λ id, on_worker (EnqueueServerMsg id)).

Definition EnqueuePendingForUser (username : string) (limit : Z) : MD unit :=
  ids ← on_store (st_ListPendingServerMsgIDsByUser username limit); enqueue_all ids.

Definition RecoverPendingDeliveries (limit : Z) : MD unit :=
  ids ← on_store (st_RecoverPendingServerMsgIDs limit); enqueue_all ids.

(** One tick of [retryWorker]. *)
Definition retry_tick : MD unit :=
  ids ← on_store (st_GetDueRetryServerMsgIDs 500); enqueue_all ids.
End worker.

(** * A recording network *)

(** Senders are connection numbers; everything sent is kept, in order. *)
Record Recorder := mkRecorder {
  rec_online : gmap string (option nat);
  rec_sent : list (nat * Message)
}.

#[export] Instance recorder_net : Net Recorder nat := {|
  net_online := rec_online;
  net_SendJSON c m n := (tt, mkRecorder (rec_online n) (rec_sent n ++ [(c, m)]))
|}.
