(* ===== verification/WorkerSteps.v ===== *)
(** The queue of the delivery worker under concurrency: any number of goroutines run
    [EnqueueServerMsg] while one runs [deliverWorker]; between their atomic actions (the
    critical sections of [inFlightMu] and the channel operations) anything may happen. *)
From S2P Require Import Prelude GoStr Protocol StoreIface Worker.

(** Where the goroutines are: those that claimed an id and are about to send it, those that
    found the channel full and are about to unmark it, and the id in delivery. *)
Record Sys := mkSys {
  s_worker : Worker;
  s_sending : list string;
  s_dropping : list string;
  s_busy : option string
}.

Inductive sys_step : Sys → Sys → Prop :=
  (** Claim an id; nothing happens for the empty id and for one in flight. *)
  | sys_mark id w w' snd drp b :
      id ≠ "" → mark_inflight id w = Some w' →
      sys_step (mkSys w snd drp b) (mkSys w' (id :: snd) drp b)
  (** The [select]. *)
  | sys_send id w w' s1 s2 drp b :
      try_send id w = Some w' →
      sys_step (mkSys w (s1 ++ id :: s2) drp b) (mkSys w' (s1 ++ s2) drp b)
  | sys_full id w s1 s2 drp b :
      try_send id w = None →
      sys_step (mkSys w (s1 ++ id :: s2) drp b) (mkSys w (s1 ++ s2) (id :: drp) b)
  | sys_drop id w snd d1 d2 b :
      sys_step (mkSys w snd (d1 ++ id :: d2) b) (mkSys (unmark id w) snd (d1 ++ d2) b)
  (** The deliver goroutine. *)
  | sys_receive id q w snd drp :
      deliverQueue w = id :: q →
      sys_step (mkSys w snd drp None) (mkSys (set_queue q w) snd drp (Some id))
  | sys_done id w snd drp :
      sys_step (mkSys w snd drp (Some id)) (mkSys (unmark id w) snd drp None).

Definition sys_init (w : Worker) : Sys := mkSys w [] [] None.

(** Every claimed id, once for each goroutine or queue slot that holds it. *)
Definition claimed (s : Sys) : list string :=
  deliverQueue (s_worker s) ++ s_sending s ++ s_dropping s ++ option_list (s_busy s).

(** Claims are exclusive, the in-flight set is exactly the claimed ids, the channel respects
    its capacity. *)
Record sys_inv (s : Sys) : Prop := {
  inv_nodup : NoDup (claimed s);
  inv_inflight : deliverInFlight (s_worker s) = list_to_set (claimed s);
  inv_cap : (length (deliverQueue (s_worker s)) <= queue_cap)%nat;
  inv_named : "" ∉ claimed s
}.

(** The invariant only depends on the claims up to their order. *)
Lemma sys_inv_permutation s l :
  claimed s ≡ₚ l → NoDup l → deliverInFlight (s_worker s) = list_to_set l →
  (length (deliverQueue (s_worker s)) <= queue_cap)%nat → "" ∉ l → sys_inv s.
Proof.
  intros Hp Hnd Hin Hcap Hne. split; [by rewrite Hp| |done|by rewrite Hp].
  apply leibniz_equiv. rewrite Hin. intros x. by rewrite !elem_of_list_to_set, Hp.
Qed.

Lemma unmark_claims id l w :
  deliverInFlight w = list_to_set (id :: l) → id ∉ l →
  deliverInFlight (unmark id w) = list_to_set l.
Proof. cbn. intros -> Hid. apply leibniz_equiv. set_solver. Qed.

Lemma sys_inv_init mx base : sys_inv (sys_init (NewWorker mx base)).
Proof. split; cbn; [constructor|done|unfold queue_cap; lia|apply not_elem_of_nil]. Qed.

Lemma sys_inv_unmark s id l w snd drp b :
  sys_inv s → claimed s ≡ₚ id :: l → w = s_worker s →
  claimed (mkSys (unmark id w) snd drp b) ≡ₚ l → sys_inv (mkSys (unmark id w) snd drp b).
Proof.
  intros [Hnd Hin Hcap Hne] Hp -> Hp'. rewrite Hp in Hnd, Hne.
  apply NoDup_cons in Hnd as [Hid Hnd].
  apply (sys_inv_permutation _ l); [done|done| |done|set_solver].
  apply unmark_claims; [|done]. rewrite Hin. apply leibniz_equiv. intros x.
  by rewrite !elem_of_list_to_set, Hp.
Qed.

Lemma sys_step_inv s s' : sys_step s s' → sys_inv s → sys_inv s'.
Proof.
  intros Hstep Hinv. pose proof Hinv as [Hnd Hin Hcap Hne].
  destruct Hstep as [id w w' snd drp b Hid Hm|id w w' s1 s2 drp b Ht|id w s1 s2 drp b Ht|
    id w snd d1 d2 b|id q w snd drp Hq|id w snd drp]; unfold claimed in *; cbn in *.
  - unfold mark_inflight in Hm. case_bool_decide as Hi; [done|]. injection Hm as <-.
    rewrite Hin in Hi. rewrite elem_of_list_to_set in Hi.
    apply (sys_inv_permutation _ (id :: claimed (mkSys w snd drp b))); unfold claimed; cbn.
    + solve_Permutation.
    + by constructor.
    + by rewrite Hin.
    + done.
    + set_solver.
  - unfold try_send in Ht. destruct (Nat.ltb_spec (length (deliverQueue w)) queue_cap);
      [|done]. injection Ht as <-.
    apply (sys_inv_permutation _ (claimed (mkSys w (s1 ++ id :: s2) drp b)));
      unfold claimed; cbn; try done; [solve_Permutation|rewrite length_app; cbn; lia].
  - apply (sys_inv_permutation _ (claimed (mkSys w (s1 ++ id :: s2) drp b)));
      unfold claimed; cbn; try done; solve_Permutation.
  - eapply (sys_inv_unmark (mkSys w snd (d1 ++ id :: d2) b)); unfold claimed; cbn;
      [done| |done|reflexivity]. solve_Permutation.
  - apply (sys_inv_permutation _ (claimed (mkSys w snd drp None)));
      unfold claimed; cbn; try done; rewrite ?Hq in *; [solve_Permutation|cbn in Hcap; lia].
  - eapply (sys_inv_unmark (mkSys w snd drp (Some id))); unfold claimed; cbn;
      [done| |done|reflexivity]. solve_Permutation.
Qed.

Lemma sys_reachable_inv mx base s :
  rtc sys_step (sys_init (NewWorker mx base)) s → sys_inv s.
Proof.
  intros Hr. pose proof (sys_inv_init mx base) as Hi. revert Hi.
  induction Hr as [|s1 s2 s3 H12 _ IH]; [done|]. intros Hi. by apply IH, (sys_step_inv s1).
Qed.

(** * The executable operations are such steps *)

(** Run without interruption, [EnqueueServerMsg] claims and sends, or claims and drops. *)
Lemma EnqueueServerMsg_steps id w snd drp b :
  rtc sys_step (mkSys w snd drp b) (mkSys (EnqueueServerMsg id w) snd drp b).
Proof.
  unfold EnqueueServerMsg. destruct (String.eqb_spec id "") as [->|Hid]; [done|].
  destruct (mark_inflight id w) as [w1|] eqn:E1; [|done].
  eapply rtc_l; [by apply (sys_mark id w w1)|].
  destruct (try_send id w1) as [w2|] eqn:E2.
  - apply rtc_once. by apply (sys_send id w1 w2 []).
  - eapply rtc_l; [by apply (sys_full id w1 [])|]. apply rtc_once.
    by apply (sys_drop id w1 snd []).
Qed.

(** What one call does to a queue that satisfies the invariant. *)
Lemma EnqueueServerMsg_cases id w :
  deliverInFlight w = list_to_set (deliverQueue w) →
  EnqueueServerMsg id w =
    if String.eqb id "" || bool_decide (id ∈ deliverQueue w) ||
       negb (length (deliverQueue w) <? queue_cap)%nat then w
    else mkWorker (deliverQueue w ++ [id]) ({[id]} ∪ deliverInFlight w) (maxRetry w)
           (retryBaseDelay w).
Proof.
  intros Hi. unfold EnqueueServerMsg, mark_inflight, try_send, unmark, set_queue, set_inflight.
  cbn [deliverQueue deliverInFlight].
  destruct (String.eqb id ""); [done|]. cbn [orb].
  assert (id ∈ deliverInFlight w ↔ id ∈ deliverQueue w) as Hin
    by (by rewrite Hi, elem_of_list_to_set).
  destruct (decide (id ∈ deliverQueue w)) as [Hq|Hq].
  { by rewrite !bool_decide_true by tauto. }
  rewrite !bool_decide_false by tauto. cbn [orb deliverQueue].
  destruct (length (deliverQueue w) <? queue_cap)%nat; cbn [negb]; [done|].
  destruct w as [q s mx base]. cbn in *. f_equal.
  apply leibniz_equiv. set_solver.
Qed.

(** The ids a caller may enqueue: the empty id is ignored. *)
Definition named (ids : list string) : list string :=
  List.filter (λ i, negb (String.eqb i "")) ids.

(** Enqueueing a list of new ids that fit appends them all. *)
Lemma enqueue_list ids w :
  deliverInFlight w = list_to_set (deliverQueue w) → NoDup (deliverQueue w ++ ids) →
  (length (deliverQueue w ++ ids) <= queue_cap)%nat →
  foldl (λ w id, EnqueueServerMsg id w) w ids =
    mkWorker (deliverQueue w ++ named ids) (list_to_set (deliverQueue w ++ named ids))
      (maxRetry w) (retryBaseDelay w).
Proof.
  revert w. induction ids as [|id ids IH]; intros w Hi Hnd Hlen; cbn.
  { rewrite !app_nil_r, <- Hi. by destruct w. }
  rewrite EnqueueServerMsg_cases by done.
  rewrite length_app in Hlen. cbn in Hlen.
  destruct (String.eqb_spec id "") as [->|_]; cbn [orb negb].
  { rewrite IH; [done|done| |rewrite length_app; lia].
    apply NoDup_app in Hnd as (? & Hd & Hnd). apply NoDup_cons in Hnd as [_ Hnd].
    apply NoDup_app. split_and!; [done| |done]. intros x Hx Hx'. apply (Hd x Hx). by right. }
  rewrite bool_decide_false; cbn [orb].
  2: { apply NoDup_app in Hnd as (_ & Hd & _). intros Hin. apply (Hd id Hin). by left. }
  destruct (Nat.ltb_spec (length (deliverQueue w)) queue_cap); [|lia]. cbn [negb].
  rewrite IH; cbn.
  - by rewrite <- app_assoc.
  - rewrite Hi. apply leibniz_equiv. rewrite list_to_set_app. set_solver.
  - by rewrite <- app_assoc.
  - rewrite !length_app. cbn. lia.
Qed.
