(* ===== verification/Storage.v ===== *)
(** Package [storage]: the rows of the database, and the interface of the database library
    (gorm over MySQL, a third-party package and a service: parameters of the development).
    [Gorm] lists the calls the program makes; [GormLaws] states what it relies on.
    [MemDB] is a concrete database that satisfies the laws, on which the witnesses
    evaluate. *)
From S2P Require Import Prelude GoStr.

(** * Rows *)

(** Times are nanoseconds since the epoch ([None] is SQL's NULL). *)
Record User := mkUser {
  u_ID : Z; UserName : string; PasswordHash : string; NickName : string;
  AvatarURL : string; u_Status : Z; u_CreateTime : Z; u_UpdateTime : Z
}.

Record DBMessage := mkDBMessage {
  m_ID : Z; m_ClientMsgID : string; m_ServerMsgID : string; m_Seq : Z; ChatType : Z;
  m_ChatID : string; SendID : string; RecvID : string; ContentType : Z; Content : string;
  m_Status : Z; m_CreateTime : Z
}.

(** Status: 0 pending, 1 delivered, 2 read, 3 dead letter. *)
Record MessageRecipient := mkRecipient {
  r_ID : Z; r_ServerMsgID : string; ToUser : string; r_Status : Z; RetryCount : Z;
  r_NextRetryAt : option Z; r_LastError : string; LastSendAt : option Z;
  AckedAt : option Z; ReadAt : option Z; r_CreateTime : Z; r_UpdateTime : Z
}.

(** Tables that are migrated but not used so far. Role: 0 member, 1 admin, 2 owner. *)
Record Room := mkRoom {
  room_ID : Z; RoomID : string; room_Name : string; OwnerID : string; room_CreateTime : Z
}.
Record GroupMember := mkGroupMember {
  gm_ID : Z; gm_RoomID : string; UserID : string; gm_Role : Z; JoinTime : Z
}.

(** The types [AutoMigrate] (db.go) makes tables for. *)
Inductive model := OfUser | OfMessage | OfMessageRecipient | OfRoom | OfGroupMember.

(** [&storage.MessageRecipient{ServerMsgID: .., ToUser: .., Status: 0}]. *)
Definition new_recipient (serverMsgID to : string) : MessageRecipient :=
  mkRecipient 0 serverMsgID to 0 0 None "" None None None 0 0.

(** Columns of two rows that agree except for the key and the times the database sets. *)
Definition same_user (r r' : User) : Prop :=
  UserName r' = UserName r ∧ PasswordHash r' = PasswordHash r ∧ NickName r' = NickName r ∧
  AvatarURL r' = AvatarURL r ∧ u_Status r' = u_Status r.
Definition same_message (r r' : DBMessage) : Prop :=
  m_ClientMsgID r' = m_ClientMsgID r ∧ m_ServerMsgID r' = m_ServerMsgID r ∧
  m_Seq r' = m_Seq r ∧ ChatType r' = ChatType r ∧ m_ChatID r' = m_ChatID r ∧
  SendID r' = SendID r ∧ RecvID r' = RecvID r ∧ ContentType r' = ContentType r ∧
  Content r' = Content r ∧ m_Status r' = m_Status r.
Definition same_recipient (r r' : MessageRecipient) : Prop :=
  r_ServerMsgID r' = r_ServerMsgID r ∧ ToUser r' = ToUser r ∧ r_Status r' = r_Status r ∧
  RetryCount r' = RetryCount r ∧ r_LastError r' = r_LastError r ∧
  (is_Some (r_NextRetryAt r') ↔ is_Some (r_NextRetryAt r)).

(** The unique indexes of the models ([unique], [uniqueIndex]) under the equality [eq] of
    the database's text columns. *)
Definition clash_user (eq : string → string → bool) (r r' : User) : bool :=
  eq (UserName r) (UserName r').
Definition clash_message (eq : string → string → bool) (r r' : DBMessage) : bool :=
  eq (m_ServerMsgID r) (m_ServerMsgID r') ||
  eq (SendID r) (SendID r') && eq (m_ClientMsgID r) (m_ClientMsgID r').
Definition clash_recipient (eq : string → string → bool) (r r' : MessageRecipient) : bool :=
  eq (r_ServerMsgID r) (r_ServerMsgID r') && eq (ToUser r) (ToUser r').

(** * The calls *)

Inductive ordering (Row : Type) := NoOrder | Asc (key : Row → Z) | Desc (key : Row → Z).
Arguments NoOrder {Row}.
Arguments Asc {Row} key.
Arguments Desc {Row} key.

(** [Where(..).Order(..).Limit(..).Offset(..)]; a limit of 0 is no limit. *)
Record query (Row : Type) := mkQuery {
  q_where : Row → bool; q_order : ordering Row; q_limit : Z; q_offset : Z
}.
Arguments mkQuery {Row}.
Arguments q_where {Row}.
Arguments q_order {Row}.
Arguments q_limit {Row}.
Arguments q_offset {Row}.

Record Table (D Row : Type) := mkTable {
  (** [Create(row)], with [Clauses(OnConflict{DoNothing: true})] when the flag is set. *)
  t_create : bool → Row → M D (error + Row);
  (** [Find(&rows)]. *)
  t_find : query Row → M D (error + list Row);
  (** [Take(&row)] and [First(&row)]. *)
  t_take : query Row → M D (error + Row);
  (** [Updates(..)] on the rows of the where clause; the error and [RowsAffected]. *)
  t_updates : (Row → bool) → (Row → Row) → M D (option error * Z);
  (** [Select("COALESCE(MAX(key), 0)").Scan(&x)]. *)
  t_max : (Row → bool) → (Row → Z) → M D (error + Z);
  (** [Select("key, COUNT( * )").Group("key").Scan(&rows)]. *)
  t_count_by : (Row → Z) → M D (error + list (Z * Z))
}.
Arguments mkTable {D Row}.
Arguments t_create {D Row}.
Arguments t_find {D Row}.
Arguments t_take {D Row}.
Arguments t_updates {D Row}.
Arguments t_max {D Row}.
Arguments t_count_by {D Row}.

Class Gorm (D : Type) := {
  Users : Table D User;
  Messages : Table D DBMessage;
  Recipients : Table D MessageRecipient;
  Transaction : M D (option error) → M D (option error);
  (** Equality of text columns in a where clause (the collation). *)
  sql_eq : string → string → bool
}.

(** * The laws *)

Definition key_le {Row} (k : Row → Z) : relation Row := λ a b, k a <= k b.
Definition key_ge {Row} (k : Row → Z) : relation Row := λ a b, k b <= k a.

#[global] Instance key_le_dec {Row} (k : Row → Z) : RelDecision (key_le k).
Proof. intros a b. unfold key_le. apply _. Defined.
#[global] Instance key_ge_dec {Row} (k : Row → Z) : RelDecision (key_ge k).
Proof. intros a b. unfold key_ge. apply _. Defined.
#[global] Instance key_le_trans {Row} (k : Row → Z) : Transitive (key_le k).
Proof. unfold key_le. intros a b c. lia. Qed.
#[global] Instance key_ge_trans {Row} (k : Row → Z) : Transitive (key_ge k).
Proof. unfold key_ge. intros a b c. lia. Qed.
#[global] Instance key_le_total {Row} (k : Row → Z) : Total (key_le k).
Proof. unfold key_le. intros a b. lia. Qed.
#[global] Instance key_ge_total {Row} (k : Row → Z) : Total (key_ge k).
Proof. unfold key_ge. intros a b. lia. Qed.

Definition sorted_by {Row} (o : ordering Row) (l : list Row) : Prop :=
  match o with
  | NoOrder => True
  | Asc k => StronglySorted (key_le k) l
  | Desc k => StronglySorted (key_ge k) l
  end.

Definition limited {Row} (n : Z) (l : list Row) : list Row :=
  if 0 <? n then take (Z.to_nat n) l else l.

(** What a select may answer: the rows of the where clause in some order that agrees with
    the order clause, cut to the limit. *)
Definition answers {Row} (q : query Row) (rows l : list Row) : Prop :=
  ∃ l0, l0 ≡ₚ List.filter (q_where q) rows ∧ sorted_by (q_order q) l0 ∧
        l = limited (q_limit q) (drop (Z.to_nat (q_offset q)) l0).

(** One table against the list of its rows; [frame] says the other tables are untouched.
    Every call may fail, and then leaves the rows alone. *)
Record TableLaws {D Row} (T : Table D Row) (rows : D → list Row)
    (clash : Row → Row → bool) (same : Row → Row → Prop) (frame : D → D → Prop) := {
  create_frame dn r d : frame d (snd (t_create T dn r d));
  create_err dn r d e d' : t_create T dn r d = (inl e, d') → rows d' = rows d;
  create_ok dn r d r' d' : t_create T dn r d = (inr r', d') →
    if existsb (clash r) (rows d) then dn = true ∧ rows d' = rows d
    else ∃ r'', rows d' = rows d ++ [r''] ∧ same r r'' ∧ same r r';
  find_frame q d : frame d (snd (t_find T q d)) ∧ rows (snd (t_find T q d)) = rows d;
  find_ok q d l d' : t_find T q d = (inr l, d') → answers q (rows d) l;
  take_frame q d : frame d (snd (t_take T q d)) ∧ rows (snd (t_take T q d)) = rows d;
  take_ok q d r d' : t_take T q d = (inr r, d') →
    ∃ l, answers (mkQuery (q_where q) (q_order q) 0 (q_offset q)) (rows d) (r :: l);
  take_none q d d' : t_take T q d = (inl ErrRecordNotFound, d') →
    ∀ r, r ∈ rows d → q_where q r = false;
  updates_frame p f d : frame d (snd (t_updates T p f d));
  updates_err p f d e n d' : t_updates T p f d = ((Some e, n), d') → rows d' = rows d;
  updates_ok p f d n d' : t_updates T p f d = ((None, n), d') →
    Forall2 (λ r r', if p r then same (f r) r' else r' = r) (rows d) (rows d');
  updates_none p f d n d' : t_updates T p f d = ((None, n), d') →
    existsb p (rows d) = false → n = 0;
  max_frame p k d : frame d (snd (t_max T p k d)) ∧ rows (snd (t_max T p k d)) = rows d;
  max_ok p k d x d' : t_max T p k d = (inr x, d') →
    (∀ r, r ∈ rows d → p r = true → k r <= x) ∧
    (x = 0 ∨ ∃ r, r ∈ rows d ∧ p r = true ∧ k r = x);
  count_frame k d : frame d (snd (t_count_by T k d)) ∧ rows (snd (t_count_by T k d)) = rows d;
  count_ok k d l d' : t_count_by T k d = (inr l, d') →
    NoDup l.*1 ∧ ∀ s n, (s, n) ∈ l ↔
      n = Z.of_nat (length (List.filter (λ r, k r =? s) (rows d))) ∧ 0 < n
}.

Class GormLaws (D : Type) `{G : Gorm D} := {
  users_of : D → list User;
  messages_of : D → list DBMessage;
  recipients_of : D → list MessageRecipient;
  users_laws : TableLaws Users users_of (clash_user sql_eq) same_user
    (λ d d', messages_of d' = messages_of d ∧ recipients_of d' = recipients_of d);
  messages_laws : TableLaws Messages messages_of (clash_message sql_eq) same_message
    (λ d d', users_of d' = users_of d ∧ recipients_of d' = recipients_of d);
  recipients_laws : TableLaws Recipients recipients_of (clash_recipient sql_eq) same_recipient
    (λ d d', users_of d' = users_of d ∧ messages_of d' = messages_of d);
  (** A failed transaction is rolled back; a successful one has the effects of its body,
      which itself succeeded. *)
  transaction_err body d e d' : Transaction body d = (Some e, d') →
    users_of d' = users_of d ∧ messages_of d' = messages_of d ∧
    recipients_of d' = recipients_of d;
  transaction_ok body d d' : Transaction body d = (None, d') →
    ∃ d0 d1, (users_of d0 = users_of d ∧ messages_of d0 = messages_of d ∧
              recipients_of d0 = recipients_of d) ∧
      body d0 = (None, d1) ∧
      users_of d' = users_of d1 ∧ messages_of d' = messages_of d1 ∧
      recipients_of d' = recipients_of d1;
  sql_eq_refl s : sql_eq s s = true;
  sql_eq_sym s t : sql_eq s t = true → sql_eq t s = true;
  sql_eq_trans s t u : sql_eq s t = true → sql_eq t u = true → sql_eq s u = true
}.
