(* ===== verification/MemDB.v ===== *)
(** A concrete database for the [Storage.Gorm] interface: three lists of rows, no failures,
    byte-wise text equality. It satisfies [Storage.GormLaws], so the laws are consistent,
    and the witnesses of the development evaluate on it. *)
From S2P Require Import Prelude GoStr Storage.

(** * A table kept as a list inside a larger state *)
Section list_table.
Context {D Row : Type} (rows : D → list Row) (put : list Row → D → D)
  (clash : Row → Row → bool) (with_id : Z → Row → Row).

Definition order_rows (o : ordering Row) (l : list Row) : list Row :=
  match o with
  | NoOrder => l
  | Asc k => merge_sort (key_le k) l
  | Desc k => merge_sort (key_ge k) l
  end.

Definition lt_select (q : query Row) (d : D) : list Row :=
  limited (q_limit q)
    (drop (Z.to_nat (q_offset q)) (order_rows (q_order q) (List.filter (q_where q) (rows d)))).

Definition lt_create (dn : bool) (r : Row) : M D (error + Row) := λ d,
  if existsb (clash r) (rows d)
  then ((if dn then inr r else inl (Err "Duplicate entry")), d)
  else let r' := with_id (Z.of_nat (length (rows d)) + 1) r in
       (inr r', put (rows d ++ [r']) d).

Definition lt_take (q : query Row) : M D (error + Row) := λ d,
  match lt_select (mkQuery (q_where q) (q_order q) 0 (q_offset q)) d with
  | [] => (inl (if existsb (q_where q) (rows d) then Err "offset" else ErrRecordNotFound), d)
  | r :: _ => (inr r, d)
  end.

Definition lt_updates (p : Row → bool) (f : Row → Row) : M D (option error * Z) := λ d,
  ((None, Z.of_nat (length (List.filter p (rows d)))),
   put ((λ r, if p r then f r else r) <$> rows d) d).

Definition lt_max (p : Row → bool) (k : Row → Z) : M D (error + Z) := λ d,
  (inr (foldr (λ r, Z.max (k r)) 0 (List.filter p (rows d))), d).

Definition lt_count_by (k : Row → Z) : M D (error + list (Z * Z)) := λ d,
  (inr ((λ s, (s, Z.of_nat (length (List.filter (λ r, k r =? s) (rows d)))))
          <$> remove_dups (k <$> rows d)), d).

Definition list_table : Table D Row :=
  mkTable lt_create (λ q d, (inr (lt_select q d), d)) lt_take lt_updates lt_max lt_count_by.

Lemma order_rows_perm o l : order_rows o l ≡ₚ l.
Proof. destruct o; cbn; [done|apply merge_sort_Permutation..]. Qed.

Lemma order_rows_sorted o l : sorted_by o (order_rows o l).
Proof.
  destruct o as [|k|k]; cbn; [done|..]; apply (StronglySorted_merge_sort _); apply _.
Qed.

Lemma lt_select_answers q d : answers q (rows d) (lt_select q d).
Proof.
  exists (order_rows (q_order q) (List.filter (q_where q) (rows d))).
  auto using order_rows_perm, order_rows_sorted.
Qed.

Lemma filter_nil_existsb (p : Row → bool) l : existsb p l = false → List.filter p l = [].
Proof.
  induction l as [|r l IH]; cbn; [done|]. intros [Hr Hl]%orb_false_iff. by rewrite Hr, IH.
Qed.

Lemma foldr_max_spec (k : Row → Z) l :
  let x := foldr (λ r, Z.max (k r)) 0 l in
  (∀ r, r ∈ l → k r <= x) ∧ (x = 0 ∨ ∃ r, r ∈ l ∧ k r = x).
Proof.
  induction l as [|r l [IH1 IH2]]; cbn.
  - split; [intros r Hr; by apply not_elem_of_nil in Hr | by left].
  - split.
    + intros r' [->|Hr]%elem_of_cons; [lia|]. specialize (IH1 r' Hr). lia.
    + set (x := foldr _ 0 l) in *.
      destruct (Z.max_spec (k r) x) as [[_ ->]|[_ ->]].
      * destruct IH2 as [?|(r' & Hr' & Hk)]; [by left|right].
        exists r'. split; [by right|done].
      * right. exists r. split; [by left|done].
Qed.

Context (frame : D → D → Prop) (same : Row → Row → Prop)
  (Hget : ∀ l d, rows (put l d) = l) (Hframe : ∀ l d, frame d (put l d))
  (Hrefl : ∀ d, frame d d) (Hsame : ∀ r, same r r) (Hid : ∀ i r, same r (with_id i r)).

Lemma lt_create_ok dn r d r' d' : lt_create dn r d = (inr r', d') →
  if existsb (clash r) (rows d) then dn = true ∧ rows d' = rows d
  else ∃ r'', rows d' = rows d ++ [r''] ∧ same r r'' ∧ same r r'.
Proof.
  unfold lt_create. case_match; [|].
  - by destruct dn; intros [= <- <-].
  - intros [= <- <-]. eexists. rewrite Hget. eauto.
Qed.

Lemma lt_updates_ok p f d n d' : lt_updates p f d = ((None, n), d') →
  Forall2 (λ r r', if p r then same (f r) r' else r' = r) (rows d) (rows d').
Proof.
  intros [= _ <-]. rewrite Hget. apply Forall2_fmap_r.
  apply Forall2_same_length_lookup. split; [done|].
  intros i r r' H1 H2. simplify_eq. case_match eqn:E; cbn; by rewrite E.
Qed.

Lemma lt_count_ok k d l d' : lt_count_by k d = (inr l, d') →
  NoDup l.*1 ∧ ∀ s n, (s, n) ∈ l ↔
    n = Z.of_nat (length (List.filter (λ r, k r =? s) (rows d))) ∧ 0 < n.
Proof.
  intros [= <- _]. split.
  - rewrite <- list_fmap_compose. cbn. rewrite list_fmap_id. apply NoDup_remove_dups.
  - intros s n. rewrite list_elem_of_fmap. split.
    + intros (s' & [= -> ->] & Hs). split; [done|].
      apply elem_of_remove_dups, list_elem_of_fmap in Hs as (r & -> & Hr).
      destruct (List.filter _ _) eqn:E; cbn; [|lia].
      assert (r ∈ @nil Row) as []%not_elem_of_nil.
      rewrite <- E. apply elem_of_filter_list. by rewrite Z.eqb_refl.
    + intros [-> Hn]. exists s. split; [done|].
      destruct (List.filter _ _) as [|r l] eqn:E; cbn in Hn; [lia|].
      assert (r ∈ List.filter (λ r, k r =? s) (rows d)) as [Hr Hk]%elem_of_filter_list
        by (rewrite E; left).
      apply Z.eqb_eq in Hk as <-. by apply elem_of_remove_dups, list_elem_of_fmap_2.
Qed.

Lemma list_table_laws : TableLaws list_table rows clash same frame.
Proof.
  split; cbn; intros.
  - unfold lt_create. case_match; cbn; auto.
  - unfold lt_create in *. case_match; [|done]. by simplify_eq.
  - by apply lt_create_ok.
  - auto.
  - simplify_eq. apply lt_select_answers.
  - unfold lt_take. case_match; cbn; auto.
  - unfold lt_take in *. case_match eqn:E; simplify_eq.
    eexists. rewrite <- E. apply lt_select_answers.
  - unfold lt_take in *. case_match; simplify_eq. case_match; simplify_eq.
    match goal with H : existsb _ _ = false |- _ =>
      by apply (proj1 (existsb_false_stdpp _ _) H) end.
  - apply Hframe.
  - by unfold lt_updates in *.
  - by eapply lt_updates_ok.
  - unfold lt_updates in *. simplify_eq. by rewrite filter_nil_existsb.
  - auto.
  - unfold lt_max in *. simplify_eq.
    destruct (foldr_max_spec k (List.filter p (rows d'))) as [H1 H2]. split.
    + intros r Hr Hp. apply H1. by apply elem_of_filter_list.
    + destruct H2 as [?|(r & [Hr Hp]%elem_of_filter_list & Hk)]; [by left|]. eauto.
  - auto.
  - by eapply lt_count_ok.
Qed.
End list_table.

(** * The database *)

Record MemDB := mkMemDB {
  mem_users : list User; mem_messages : list DBMessage; mem_recipients : list MessageRecipient
}.

Definition put_users l d := mkMemDB l (mem_messages d) (mem_recipients d).
Definition put_messages l d := mkMemDB (mem_users d) l (mem_recipients d).
Definition put_recipients l d := mkMemDB (mem_users d) (mem_messages d) l.

Definition user_with_id (i : Z) (r : User) : User :=
  mkUser i (UserName r) (PasswordHash r) (NickName r) (AvatarURL r) (u_Status r)
    (u_CreateTime r) (u_UpdateTime r).
Definition message_with_id (i : Z) (r : DBMessage) : DBMessage :=
  mkDBMessage i (m_ClientMsgID r) (m_ServerMsgID r) (m_Seq r) (ChatType r) (m_ChatID r)
    (SendID r) (RecvID r) (ContentType r) (Content r) (m_Status r) (m_CreateTime r).
Definition recipient_with_id (i : Z) (r : MessageRecipient) : MessageRecipient :=
  mkRecipient i (r_ServerMsgID r) (ToUser r) (r_Status r) (RetryCount r) (r_NextRetryAt r)
    (r_LastError r) (LastSendAt r) (AckedAt r) (ReadAt r) (r_CreateTime r) (r_UpdateTime r).

Definition mem_transaction (body : M MemDB (option error)) : M MemDB (option error) := λ d,
  match body d with (None, d') => (None, d') | (Some e, _) => (Some e, d) end.

#[export] Instance mem_gorm : Gorm MemDB := {|
  Users := list_table mem_users put_users (clash_user String.eqb) user_with_id;
  Messages := list_table mem_messages put_messages (clash_message String.eqb) message_with_id;
  Recipients :=
    list_table mem_recipients put_recipients (clash_recipient String.eqb) recipient_with_id;
  Transaction := mem_transaction;
  sql_eq := String.eqb
|}.

Definition empty_db : MemDB := mkMemDB [] [] [].

#[export, refine] Instance mem_gorm_laws : GormLaws MemDB := {|
  users_of := mem_users; messages_of := mem_messages; recipients_of := mem_recipients
|}.
Proof.
  - apply list_table_laws; repeat split; tauto.
  - apply list_table_laws; repeat split; tauto.
  - apply list_table_laws; repeat split; tauto.
  - intros body d e d'. cbn. unfold mem_transaction. repeat case_match; intros; by simplify_eq.
  - intros body d d'. cbn. unfold mem_transaction. destruct (body d) as [[e|] d1] eqn:E; [done|].
    intros [= <-]. by exists d, d1.
  - intros s. apply String.eqb_refl.
  - intros s t. cbn. by intros ->%String.eqb_eq%eq_sym%String.eqb_eq.
  - intros s t u. cbn. intros ->%String.eqb_eq ->%String.eqb_eq. apply String.eqb_refl.
Defined.
