(* ===== verification/Cache.v ===== *)
(** Package [cache]: the keys and settings of the Redis cache, the interface of the Redis
    client (a third-party package and a service: a parameter) and of [encoding/json] for the
    values kept in it; and [Ext], the state outside the process the packages share: clock
    readings, environment variables, database and cache. *)
From S2P Require Import Prelude GoStr Protocol Storage.

(** * The Redis client *)

(** The program ignores the error of every [Set] and [Del], and treats an error of [Get] as
    a miss: the calls have no other result. *)
Class Redis (R : Type) := {
  redis_get : string → M R (option string);
  redis_set : string → string → Z → M R unit;
  redis_del : string → M R unit
}.

(** A key holds at most what was last set, and may vanish at any time (expiry, eviction);
    a failed [Set] or [Del] leaves the previous value. *)
Class RedisLaws (R : Type) `{Redis R} := {
  redis_view : R → gmap string string;
  redis_get_ok k r v r' : redis_get k r = (Some v, r') → redis_view r !! k = Some v;
  redis_get_view k r : redis_view (snd (redis_get k r)) ⊆ redis_view r;
  redis_set_view k v t r k' v' : redis_view (snd (redis_set k v t r)) !! k' = Some v' →
    (k' = k ∧ v' = v) ∨ redis_view r !! k' = Some v';
  redis_del_view k r : redis_view (snd (redis_del k r)) ⊆ redis_view r
}.

(** A reliable cache without expiry, for concrete evaluations. *)
#[export] Instance mem_redis : Redis (gmap string string) := {|
  redis_get k r := (r !! k, r);
  redis_set k v _ r := (tt, <[k:=v]> r);
  redis_del k r := (tt, delete k r)
|}.

#[export, refine] Instance mem_redis_laws : RedisLaws (gmap string string) := {|
  redis_view r := r
|}.
Proof.
  - intros k r v r' [= -> _]. done.
  - intros k r. done.
  - intros k v t r k' v'. cbn. rewrite lookup_insert_Some.
    intros [[-> ->]|[_ ?]]; auto.
  - intros k r. apply delete_subseteq.
Defined.

(** * JSON *)

(** [json.Marshal]/[json.Unmarshal] at the three types the program uses: a list of strings
    ([None] stands for a [nil] slice), a user row, a protocol message. [Unmarshal] returns
    the error's text on the left; [Marshal] of these types does not fail. *)
Class Json := {
  json_strings : option (list string) → string;
  json_strings_parse : string → error + option (list string);
  json_user : User → string;
  json_user_parse : string → error + User;
  json_message : Message → string;
  json_message_parse : string → error + Message
}.

(** * State outside the process *)

Record Ext (D R : Type) := mkExt {
  (** Number of runtime choices made so far (clock readings and map iterations). *)
  x_tick : nat;
  (** The process environment. *)
  x_env : gmap string string;
  (** [storage.DB]: whether it is set, and the database behind it. *)
  x_dbinit : bool;
  x_db : D;
  (** What [cache.Client()] returns. *)
  x_redis : option R
}.
Arguments mkExt {D R}.
Arguments x_tick {D R}.
Arguments x_env {D R}.
Arguments x_dbinit {D R}.
Arguments x_db {D R}.
Arguments x_redis {D R}.

Section ext.
Context {D R : Type}.

Definition set_tick (n : nat) (x : Ext D R) : Ext D R :=
  mkExt n (x_env x) (x_dbinit x) (x_db x) (x_redis x).
Definition set_env (e : gmap string string) (x : Ext D R) : Ext D R :=
  mkExt (x_tick x) e (x_dbinit x) (x_db x) (x_redis x).
Definition set_db (d : D) (x : Ext D R) : Ext D R :=
  mkExt (x_tick x) (x_env x) (x_dbinit x) d (x_redis x).
Definition set_redis (r : option R) (x : Ext D R) : Ext D R :=
  mkExt (x_tick x) (x_env x) (x_dbinit x) (x_db x) r.

(** [time.Now()]. *)
Definition Now `{GoEnv} : M (Ext D R) Z := λ x,
  (go_now (x_tick x), set_tick (S (x_tick x)) x).

(** [for k, v := range m]: the entries in the order of this iteration. *)
Definition range_map {V} `{GoEnv} (m : gmap string V) : M (Ext D R) (list (string * V)) :=
  λ x, (go_order (x_tick x) (map_to_list m), set_tick (S (x_tick x)) x).

(** [sort.Slice(l, func(i, j) bool { return key(l[i]) < key(l[j]) })]: sorted by key;
    the sort is not stable, so elements of equal key come in any order. *)
Definition sort_slice {A} `{GoEnv} (key : A → Z) (l : list A) : M (Ext D R) (list A) := λ x,
  (merge_sort (key_le key) (go_order (x_tick x) l), set_tick (S (x_tick x)) x).

(** A call on [storage.DB]. *)
Definition on_db {A} (m : M D A) : M (Ext D R) A := zoom x_db set_db m.

(** [os.Getenv]: the empty string when unset. *)
Definition Getenv (k : string) (x : Ext D R) : string := default "" (x_env x !! k).

(** [if c := cache.Client(); c != nil { c.Get/Set/Del }]. *)
Definition cache_get `{Redis R} (k : string) : M (Ext D R) (option string) := λ x,
  match x_redis x with
  | None => (None, x)
  | Some r => let (v, r') := redis_get k r in (v, set_redis (Some r') x)
  end.
Definition cache_set `{Redis R} (k v : string) (ttl : Z) : M (Ext D R) unit := λ x,
  match x_redis x with
  | None => (tt, x)
  | Some r => (tt, set_redis (Some (snd (redis_set k v ttl r))) x)
  end.
Definition cache_del `{Redis R} (k : string) : M (Ext D R) unit := λ x,
  match x_redis x with
  | None => (tt, x)
  | Some r => (tt, set_redis (Some (snd (redis_del k r))) x)
  end.

(** * Keys and settings *)

Definition UserKey (username : string) : string := "user:byname:" +:+ username.
Definition OnlineKey (username : string) : string := "user:online:" +:+ username.
Definition RecipientsKey (serverMsgID : string) : string := "deliver:recips:" +:+ serverMsgID.
Definition PendingUserKey (username : string) : string :=
  "deliver:pending:user:" +:+ username.
Definition PendingDueKey : string := "deliver:pending:due".
Definition PendingRecoverKey : string := "deliver:pending:recover".

(** The name this gateway writes into the online keys. *)
Definition GatewayID `{GoEnv} (x : Ext D R) : string :=
  let id := TrimSpace (Getenv "IM_GATEWAY_ID" x) in
  if negb (String.eqb id "") then id
  else match go_hostname with Some h => h | None => "unknown" end.

(** Time to live of an online key; 60 seconds unless the variable holds a positive
    number of seconds. The product is a [time.Duration]. *)
Definition OnlineTTL (x : Ext D R) : Z :=
  let v := TrimSpace (Getenv "IM_USER_ONLINE_TTL_SEC" x) in
  if String.eqb v "" then 60 * Second
  else match Atoi v with
       | Some n => if 0 <? n then wrap64 (n * Second) else 60 * Second
       | None => 60 * Second
       end.

(** * Facts *)

Lemma range_map_perm {V} `{GoEnv} (m : gmap string V) x :
  fst (range_map m x) ≡ₚ map_to_list m.
Proof. apply go_order_perm. Qed.

Lemma sort_slice_spec {A} `{GoEnv} (key : A → Z) (l : list A) x :
  fst (sort_slice key l x) ≡ₚ l ∧ StronglySorted (key_le key) (fst (sort_slice key l x)).
Proof.
  cbn. split; [|apply (StronglySorted_merge_sort _)].
  rewrite merge_sort_Permutation. apply go_order_perm.
Qed.

(** A cache read hands out what some earlier write left there. *)
Lemma cache_get_view `{RedisLaws R} k x v x' r :
  x_redis x = Some r → cache_get k x = (Some v, x') → redis_view r !! k = Some v.
Proof.
  unfold cache_get. intros ->. destruct (redis_get k r) as [o r'] eqn:E.
  intros [= -> _]. by eapply redis_get_ok.
Qed.

(** The cache and the clock never touch the database. *)
Lemma cache_get_db `{Redis R} k x : x_db (snd (cache_get k x)) = x_db x.
Proof. unfold cache_get. destruct (x_redis x); [|done]. by destruct (redis_get k r). Qed.
Lemma cache_set_db `{Redis R} k v t x : x_db (snd (cache_set k v t x)) = x_db x.
Proof. unfold cache_set. by destruct (x_redis x). Qed.
Lemma cache_del_db `{Redis R} k x : x_db (snd (cache_del k x)) = x_db x.
Proof. unfold cache_del. by destruct (x_redis x). Qed.
End ext.

#[export] Hint Rewrite @cache_get_db @cache_set_db @cache_del_db : goim.
