(* ===== verification/GoJson.v ===== *)
(** Package [encoding/json], as far as the program uses it: [Marshal] with its HTML-safe
    escaping and [Unmarshal] (validation of the whole text, then decoding with
    case-insensitive field names) of a protocol message, a list of strings and a user row.
    The texts of times and of errors are parameters ([GoTime]): the first depend on the time
    zone of the process, the second are only shown to the user. *)
From S2P Require Import Prelude GoStr Utf8 Protocol Storage Cache.

#[local] Set Warnings "-register-all".

(** * Values *)

(** A JSON text, structured: numbers and strings as they are written, the latter without
    their quotes. *)
Inductive jvalue :=
  | JNull
  | JBool (b : bool)
  | JNum (lit : string)
  | JStr (raw : string)
  | JArr (elems : list jvalue)
  | JObj (members : list (string * jvalue)).

Definition quote : ascii := "034".
Definition backslash : ascii := "\".

(** * Writing *)

(** [appendString] with HTML escaping: the ASCII characters. *)
Definition hex_digit (n : N) : ascii := byte_of (if n <? 10 then 48 + n else 87 + n)%N.

Definition esc (s : string) : string := String backslash s.
Definition esc_u (c : ascii) : string :=
  esc (String "u" (String "0" (String "0"
    (String (hex_digit (N.shiftr (code c) 4)) (String (hex_digit (N.land (code c) 15)) ""))))).

Definition html_safe (c : ascii) : bool :=
  between 32 127 c &&
  negb (existsb (Ascii.eqb c) [quote; backslash; "<"%char; ">"%char; "&"%char]).

Definition esc_ascii (c : ascii) : string :=
  if html_safe c then String c ""
  else if Ascii.eqb c backslash || Ascii.eqb c quote then esc (String c "")
  else if Ascii.eqb c "008" then esc "b"
  else if Ascii.eqb c "012" then esc "f"
  else if Ascii.eqb c "010" then esc "n"
  else if Ascii.eqb c "013" then esc "r"
  else if Ascii.eqb c "009" then esc "t"
  else esc_u c.

(** U+2028 and U+2029 are escaped as well. *)
Definition esc_rune3 (c0 c1 c2 : ascii) : string :=
  if between 226 226 c0 && between 128 128 c1 && between 168 169 c2
  then esc (String "u" (String "2" (String "0" (String "2" (String (hex_digit (N.land (code c2) 15)) "")))))
  else String c0 (String c1 (String c2 "")).

Definition escape : string → string := map_runes esc_ascii esc_rune3 (esc "ufffd").

(** The text of a value, without blanks. *)
Definition quoted (raw : string) : string := String quote (raw +:+ String quote "").

Fixpoint join_with (sep : string) (l : list string) : string :=
  match l with
  | [] => ""
  | [x] => x
  | x :: l' => x +:+ sep +:+ join_with sep l'
  end.

Fixpoint print (v : jvalue) : string :=
  match v with
  | JNull => "null"
  | JBool b => if b then "true" else "false"
  | JNum lit => lit
  | JStr raw => quoted raw
  | JArr l => "[" +:+ join_with "," (print <$> l) +:+ "]"
  | JObj l =>
    "{" +:+ join_with "," ((λ kv, quoted kv.1 +:+ ":" +:+ print kv.2) <$> l) +:+ "}"
  end.

(** * Reading *)

Definition is_ws (c : ascii) : bool :=
  existsb (Ascii.eqb c) [" "%char; "009"%char; "010"%char; "013"%char].

Fixpoint skip_ws (s : string) : string :=
  match s with
  | String c s' => if is_ws c then skip_ws s' else s
  | EmptyString => EmptyString
  end.

Definition hex_value (c : ascii) : option N :=
  (let n := code c in
   if (48 <=? n) && (n <=? 57) then Some (n - 48)
   else if (97 <=? n) && (n <=? 102) then Some (n - 87)
   else if (65 <=? n) && (n <=? 70) then Some (n - 55)
   else None)%N.

Definition is_hex (c : ascii) : bool := bool_decide (is_Some (hex_value c)).

(** The one-character escapes and what they stand for. *)
Definition simple_escape (c : ascii) : option ascii :=
  if Ascii.eqb c quote || Ascii.eqb c backslash || Ascii.eqb c "/" then Some c
  else if Ascii.eqb c "b" then Some "008"%char
  else if Ascii.eqb c "f" then Some "012"%char
  else if Ascii.eqb c "n" then Some "010"%char
  else if Ascii.eqb c "r" then Some "013"%char
  else if Ascii.eqb c "t" then Some "009"%char
  else None.

(** The rest of a string literal after its opening quote: what is written before the closing
    quote, and what follows it. *)
Definition cons_raw (c : ascii) (r : option (string * string)) : option (string * string) :=
  match r with Some (raw, rest) => Some (String c raw, rest) | None => None end.

Fixpoint scan_string (s : string) : option (string * string) :=
  match s with
  | EmptyString => None
  | String c s1 =>
    if Ascii.eqb c quote then Some (EmptyString, s1)
    else if Ascii.eqb c backslash then
      match s1 with
      | EmptyString => None
      | String e s2 =>
        if Ascii.eqb e "u" then
          match s2 with
          | String h1 (String h2 (String h3 (String h4 s3))) =>
            if is_hex h1 && is_hex h2 && is_hex h3 && is_hex h4
            then cons_raw c (cons_raw e (cons_raw h1 (cons_raw h2 (cons_raw h3 (cons_raw h4
                   (scan_string s3))))))
            else None
          | _ => None
          end
        else match simple_escape e with
             | Some _ => cons_raw c (cons_raw e (scan_string s2))
             | None => None
             end
      end
    else if (code c <? 32)%N then None
    else cons_raw c (scan_string s1)
  end.

(** The number literal at the start of a text. *)
Definition is_digit (c : ascii) : bool := between 48 57 c.

Fixpoint take_digits (s : string) : string * string :=
  match s with
  | String c s' =>
    if is_digit c then let (d, r) := take_digits s' in (String c d, r) else (EmptyString, s)
  | EmptyString => (EmptyString, EmptyString)
  end.

Definition scan_int (s : string) : option (string * string) :=
  match s with
  | String c s' =>
    if Ascii.eqb c "0" then Some (String c "", s')
    else if is_digit c then let (d, r) := take_digits s' in Some (String c d, r)
    else None
  | EmptyString => None
  end.

Definition scan_frac (s : string) : option (string * string) :=
  match s with
  | String c s' =>
    if Ascii.eqb c "." then
      let (d, r) := take_digits s' in
      if String.eqb d "" then None else Some (String c d, r)
    else Some (EmptyString, s)
  | EmptyString => Some (EmptyString, s)
  end.

Definition scan_exp (s : string) : option (string * string) :=
  match s with
  | String c s' =>
    if Ascii.eqb c "e" || Ascii.eqb c "E" then
      let (sign, s'') := match s' with
                         | String g t => if Ascii.eqb g "+" || Ascii.eqb g "-"
                                         then (String g "", t) else (EmptyString, s')
                         | EmptyString => (EmptyString, s')
                         end in
      let (d, r) := take_digits s'' in
      if String.eqb d "" then None else Some (String c (sign +:+ d), r)
    else Some (EmptyString, s)
  | EmptyString => Some (EmptyString, s)
  end.

Definition scan_number (s : string) : option (string * string) :=
  let (sign, s0) := match s with
                    | String c t => if Ascii.eqb c "-" then (String c "", t) else (EmptyString, s)
                    | EmptyString => (EmptyString, s)
                    end in
  '(i, s1) ← scan_int s0;
  '(f, s2) ← scan_frac s1;
  '(e, s3) ← scan_exp s2;
  Some (sign +:+ i +:+ f +:+ e, s3).

(** A given word at the start of a text. *)
Fixpoint strip (w s : string) : option string :=
  match w, s with
  | EmptyString, _ => Some s
  | String a w', String b s' => if Ascii.eqb a b then strip w' s' else None
  | String _ _, EmptyString => None
  end.

(** [maxNestingDepth]. *)
Definition max_depth : Z := 10000.

(** The value at the start of a text, and what follows. [depth] counts the open arrays and
    objects; [fuel] bounds the recursion, one more than the length of the text suffices. *)
Fixpoint parse_value (fuel : nat) (depth : Z) (s0 : string) : option (jvalue * string) :=
  match fuel with
  | O => None
  | S fuel =>
    match skip_ws s0 with
    | EmptyString => None
    | String c s =>
      if Ascii.eqb c quote then '(raw, r) ← scan_string s; Some (JStr raw, r)
      else if Ascii.eqb c "[" then
        if max_depth <=? depth then None
        else match skip_ws s with
             | String d r => if Ascii.eqb d "]" then Some (JArr [], r)
                             else '(l, r) ← parse_elems fuel (depth + 1) s; Some (JArr l, r)
             | EmptyString => None
             end
      else if Ascii.eqb c "{" then
        if max_depth <=? depth then None
        else match skip_ws s with
             | String d r => if Ascii.eqb d "}" then Some (JObj [], r)
                             else '(l, r) ← parse_members fuel (depth + 1) s; Some (JObj l, r)
             | EmptyString => None
             end
      else if Ascii.eqb c "n" then r ← strip "ull" s; Some (JNull, r)
      else if Ascii.eqb c "t" then r ← strip "rue" s; Some (JBool true, r)
      else if Ascii.eqb c "f" then r ← strip "alse" s; Some (JBool false, r)
      else '(lit, r) ← scan_number (String c s); Some (JNum lit, r)
    end
  end
with parse_elems (fuel : nat) (depth : Z) (s : string) : option (list jvalue * string) :=
  match fuel with
  | O => None
  | S fuel =>
    '(v, r) ← parse_value fuel depth s;
    match skip_ws r with
    | String c r' =>
      if Ascii.eqb c "]" then Some ([v], r')
      else if Ascii.eqb c "," then '(l, r'') ← parse_elems fuel depth r'; Some (v :: l, r'')
      else None
    | EmptyString => None
    end
  end
with parse_members (fuel : nat) (depth : Z) (s : string) :
    option (list (string * jvalue) * string) :=
  match fuel with
  | O => None
  | S fuel =>
    match skip_ws s with
    | String c s1 =>
      if negb (Ascii.eqb c quote) then None
      else
        '(k, s2) ← scan_string s1;
        match skip_ws s2 with
        | String d s3 =>
          if negb (Ascii.eqb d ":") then None
          else
            '(v, r) ← parse_value fuel depth s3;
            match skip_ws r with
            | String e r' =>
              if Ascii.eqb e "}" then Some ([(k, v)], r')
              else if Ascii.eqb e "," then
                '(l, r'') ← parse_members fuel depth r'; Some ((k, v) :: l, r'')
              else None
            | EmptyString => None
            end
        | EmptyString => None
        end
    | EmptyString => None
    end
  end.

(** [checkValid]: one value and nothing but blanks after it. *)
Definition parse (s : string) : option jvalue :=
  '(v, r) ← parse_value (S (2 * String.length s)) 0 s;
  if String.eqb (skip_ws r) "" then Some v else None.

(** ** Strings *)

Definition hex4 (h1 h2 h3 h4 : ascii) : option N :=
  a ← hex_value h1; b ← hex_value h2; c ← hex_value h3; d ← hex_value h4;
  Some (((a * 16 + b) * 16 + c) * 16 + d)%N.

Definition surrogate (r : N) : bool := ((0xD800 <=? r) && (r <? 0xE000))%N.

(** [utf16.DecodeRune]: a high and a low surrogate. *)
Definition decode_pair (r1 r2 : N) : option N :=
  (if (0xD800 <=? r1) && (r1 <? 0xDC00) && (0xDC00 <=? r2) && (r2 <? 0xE000)
   then Some ((r1 - 0xD800) * 1024 + (r2 - 0xDC00) + 0x10000) else None)%N.

(** [getu4]: the code unit an escape at the start of the text stands for. *)
Definition getu4 (s : string) : option N :=
  match s with
  | String b (String u (String h1 (String h2 (String h3 (String h4 _))))) =>
    if Ascii.eqb b backslash && Ascii.eqb u "u" then hex4 h1 h2 h3 h4 else None
  | _ => None
  end.

(** [unquote] of a string literal without its quotes; bytes that are no UTF-8, and
    surrogates that are no pair, become the replacement character. *)
Fixpoint unquote_json (s : string) : string :=
  match s with
  | EmptyString => EmptyString
  | String c0 s1 =>
    if Ascii.eqb c0 backslash then
      match s1 with
      | EmptyString => EmptyString
      | String e s2 =>
        if Ascii.eqb e "u" then
          match s2 with
          | String h1 (String h2 (String h3 (String h4 s3))) =>
            let r := default 0%N (hex4 h1 h2 h3 h4) in
            if surrogate r then
              match (r2 ← getu4 s3; decode_pair r r2), s3 with
              | Some rr, String _ (String _ (String _ (String _ (String _ (String _ s4))))) =>
                encode_rune rr +:+ unquote_json s4
              | _, _ => rune_error +:+ unquote_json s3
              end
            else encode_rune r +:+ unquote_json s3
          | _ => EmptyString
          end
        else String (default e (simple_escape e)) (unquote_json s2)
      end
    else if between 0 127 c0 then String c0 (unquote_json s1)
    else match s1 with
    | EmptyString => rune_error
    | String c1 s2 =>
      if rune2 c0 c1 then String c0 (String c1 (unquote_json s2))
      else match s2 with
      | EmptyString => rune_error +:+ unquote_json s1
      | String c2 s3 =>
        if rune3 c0 c1 c2 then String c0 (String c1 (String c2 (unquote_json s3)))
        else match s3 with
        | EmptyString => rune_error +:+ unquote_json s1
        | String c3 s4 =>
          if rune4 c0 c1 c2 c3
          then String c0 (String c1 (String c2 (String c3 (unquote_json s4))))
          else rune_error +:+ unquote_json s1
        end
      end
    end
  end.

(** ** Fields *)

(** [foldName]: upper case, with the two runes outside ASCII that fold to a letter
    of a field name (U+017F to S, U+212A to K). *)
Fixpoint fold_name (s : string) : string :=
  match s with
  | EmptyString => EmptyString
  | String c0 s1 =>
    if between 97 122 c0 then String (byte_of (code c0 - 32)) (fold_name s1)
    else match s1 with
    | String c1 s2 =>
      if between 197 197 c0 && between 191 191 c1 then String "S" (fold_name s2)
      else match s2 with
      | String c2 s3 =>
        if between 226 226 c0 && between 132 132 c1 && between 170 170 c2
        then String "K" (fold_name s3) else String c0 (fold_name s1)
      | EmptyString => String c0 (fold_name s1)
      end
    | EmptyString => String c0 EmptyString
    end
  end.

(** A struct: how each field, by name, is stored into the value; [None] is a type error,
    which fails the whole [Unmarshal] in the end. *)
Definition field (A : Type) : Type := string * (jvalue → A → option A).

(** The field a key denotes: by its exact name, or else by its folded name. *)
Definition find_field {A} (fields : list (field A)) (key : string) : option (field A) :=
  match List.find (λ f, String.eqb f.1 key) fields with
  | Some f => Some f
  | None => List.find (λ f, String.eqb (fold_name f.1) (fold_name key)) fields
  end.

(** Storing scalars: [null] leaves the field alone. *)
Definition to_string {A} (set : string → A → A) (v : jvalue) (a : A) : option A :=
  match v with JStr raw => Some (set (unquote_json raw) a) | JNull => Some a | _ => None end.
Definition to_number {A} (read : string → option Z) (set : Z → A → A) (v : jvalue) (a : A) :
    option A :=
  match v with
  | JNum lit => match read lit with Some n => Some (set n a) | None => None end
  | JNull => Some a
  | _ => None
  end.

(** [strconv.ParseInt(s, 10, 8)]. *)
Definition ParseInt8 (s : string) : option Z :=
  n ← Atoi s; if (-128 <=? n) && (n <? 128) then Some n else None.

Definition store_member {A} (fields : list (field A)) (acc : option A) (kv : string * jvalue) :
    option A :=
  a ← acc;
  match find_field fields (unquote_json kv.1) with
  | Some f => f.2 kv.2 a
  | None => Some a
  end.

(** [Unmarshal] into a struct whose fields hold [zero]. *)
Definition unmarshal_struct {A} (fields : list (field A)) (zero : A) (v : jvalue) : option A :=
  match v with
  | JObj l => foldl (store_member fields) (Some zero) l
  | JNull => Some zero
  | _ => None
  end.

(** * The three types *)

(** The text of a time between its quotes, and of an error. *)
Class GoTime := {
  time_text : Z → string;
  time_parse : string → option Z;
  json_error : string → string
}.

Class GoTimeLaws `{GoTime} := {
  time_round t : time_parse (time_text t) = Some t;
  time_plain t : utf8_valid (time_text t) = true ∧ escape (time_text t) = time_text t
}.

(** A member of an object, left out when it is empty. *)
Definition str_member (name s : string) : list (string * jvalue) := [(name, JStr (escape s))].
Definition num_member (name : string) (n : Z) : list (string * jvalue) := [(name, JNum (itoa n))].
Definition omit_str (name s : string) : list (string * jvalue) :=
  if String.eqb s "" then [] else str_member name s.
Definition omit_num (name : string) (n : Z) : list (string * jvalue) :=
  if n =? 0 then [] else num_member name n.

(** The tags of [protocol.Message]. *)
Definition message_value (m : Message) : jvalue :=
  JObj (str_member "type" (Type_ m) ++ omit_str "client_msg_id" (ClientMsgID m) ++
        omit_str "server_msg_id" (ServerMsgID m) ++ omit_str "chat_id" (ChatID m) ++
        omit_str "from" (From m) ++ omit_str "to" (To m) ++ omit_num "seq" (Seq m) ++
        omit_num "status" (Status m) ++ omit_str "body" (Body m) ++ omit_num "ts" (Ts m)).

Definition message_fields : list (field Message) :=
  [("type", to_string (λ s m, mkMessage s (ClientMsgID m) (ServerMsgID m) (ChatID m) (From m)
      (To m) (Seq m) (Status m) (Body m) (Ts m)));
   ("client_msg_id", to_string set_ClientMsgID);
   ("server_msg_id", to_string (λ s m, mkMessage (Type_ m) (ClientMsgID m) s (ChatID m) (From m)
      (To m) (Seq m) (Status m) (Body m) (Ts m)));
   ("chat_id", to_string (λ s m, mkMessage (Type_ m) (ClientMsgID m) (ServerMsgID m) s (From m)
      (To m) (Seq m) (Status m) (Body m) (Ts m)));
   ("from", to_string set_From);
   ("to", to_string (λ s m, mkMessage (Type_ m) (ClientMsgID m) (ServerMsgID m) (ChatID m)
      (From m) s (Seq m) (Status m) (Body m) (Ts m)));
   ("seq", to_number ParseUint (λ n m, mkMessage (Type_ m) (ClientMsgID m) (ServerMsgID m)
      (ChatID m) (From m) (To m) n (Status m) (Body m) (Ts m)));
   ("status", to_number ParseInt8 set_Status);
   ("body", to_string (λ s m, mkMessage (Type_ m) (ClientMsgID m) (ServerMsgID m) (ChatID m)
      (From m) (To m) (Seq m) (Status m) s (Ts m)));
   ("ts", to_number Atoi (λ n m, mkMessage (Type_ m) (ClientMsgID m) (ServerMsgID m) (ChatID m)
      (From m) (To m) (Seq m) (Status m) (Body m) n))].

(** [[]string]; [null] is the [nil] slice, and a null element an empty string. *)
Definition strings_value (l : option (list string)) : jvalue :=
  match l with Some l => JArr ((λ s, JStr (escape s)) <$> l) | None => JNull end.

Definition strings_of (v : jvalue) : option (option (list string)) :=
  match v with
  | JNull => Some None
  | JArr l => Some <$> mapM (λ e, to_string (λ s _, s) e "") l
  | _ => None
  end.

(** [storage.User], without tags. *)
Definition user_value `{GoTime} (u : User) : jvalue :=
  JObj (num_member "ID" (u_ID u) ++ str_member "UserName" (UserName u) ++
        str_member "PasswordHash" (PasswordHash u) ++ str_member "NickName" (NickName u) ++
        str_member "AvatarURL" (AvatarURL u) ++ num_member "Status" (u_Status u) ++
        [("CreateTime", JStr (time_text (u_CreateTime u)));
         ("UpdateTime", JStr (time_text (u_UpdateTime u)))]).

(** [time.Time] reads its literal as it is written. *)
Definition to_time `{GoTime} {A} (set : Z → A → A) (v : jvalue) (a : A) : option A :=
  match v with
  | JStr raw => match time_parse raw with Some t => Some (set t a) | None => None end
  | JNull => Some a
  | _ => None
  end.

Definition user_fields `{GoTime} : list (field User) :=
  [("ID", to_number ParseUint (λ n u, mkUser n (UserName u) (PasswordHash u) (NickName u)
      (AvatarURL u) (u_Status u) (u_CreateTime u) (u_UpdateTime u)));
   ("UserName", to_string (λ s u, mkUser (u_ID u) s (PasswordHash u) (NickName u)
      (AvatarURL u) (u_Status u) (u_CreateTime u) (u_UpdateTime u)));
   ("PasswordHash", to_string (λ s u, mkUser (u_ID u) (UserName u) s (NickName u)
      (AvatarURL u) (u_Status u) (u_CreateTime u) (u_UpdateTime u)));
   ("NickName", to_string (λ s u, mkUser (u_ID u) (UserName u) (PasswordHash u) s
      (AvatarURL u) (u_Status u) (u_CreateTime u) (u_UpdateTime u)));
   ("AvatarURL", to_string (λ s u, mkUser (u_ID u) (UserName u) (PasswordHash u) (NickName u)
      s (u_Status u) (u_CreateTime u) (u_UpdateTime u)));
   ("Status", to_number ParseInt8 (λ n u, mkUser (u_ID u) (UserName u) (PasswordHash u)
      (NickName u) (AvatarURL u) n (u_CreateTime u) (u_UpdateTime u)));
   ("CreateTime", to_time (λ t u, mkUser (u_ID u) (UserName u) (PasswordHash u) (NickName u)
      (AvatarURL u) (u_Status u) t (u_UpdateTime u)));
   ("UpdateTime", to_time (λ t u, mkUser (u_ID u) (UserName u) (PasswordHash u) (NickName u)
      (AvatarURL u) (u_Status u) (u_CreateTime u) t))].

(** (The zero time is 0 here, as in the rows.) *)
Definition zero_user : User := mkUser 0 "" "" "" "" 0 0 0.

(** [json.Unmarshal]: the text must be valid as a whole. *)
Definition unmarshal `{GoTime} {A} (decode : jvalue → option A) (s : string) : error + A :=
  match (v ← parse s; decode v) with
  | Some a => inr a
  | None => inl (Err (json_error s))
  end.

#[export] Instance go_json `{GoTime} : Json := {|
  json_strings l := print (strings_value l);
  json_strings_parse := unmarshal strings_of;
  json_user u := print (user_value u);
  json_user_parse := unmarshal (unmarshal_struct user_fields zero_user);
  json_message m := print (message_value m);
  json_message_parse := unmarshal (unmarshal_struct message_fields zero_message)
|}.
