(* ===== verification/GoJsonFacts.v ===== *)
(** Facts on the JSON codec: what is written is read back. *)
From S2P Require Import Prelude GoStr Utf8 Protocol Storage Cache GoJson.

#[local] Arguments String.append : simpl nomatch.

(** * Strings *)

(** A property of the pieces of a mapped string holds of the whole. *)
Lemma map_runes_all (Q : string → Prop) f g3 bad :
  Q "" → (∀ a b, Q a → Q b → Q (a +:+ b)) →
  (∀ c, between 0 127 c = true → Q (f c)) → Q bad →
  (∀ c0 c1, rune2 c0 c1 = true → Q (String c0 (String c1 ""))) →
  (∀ c0 c1 c2, rune3 c0 c1 c2 = true → Q (g3 c0 c1 c2)) →
  (∀ c0 c1 c2 c3, rune4 c0 c1 c2 c3 = true →
    Q (String c0 (String c1 (String c2 (String c3 ""))))) →
  ∀ s, Q (map_runes f g3 bad s).
Proof.
  intros Q0 Qa Q1 Qb Q2 Q3 Q4 s. induction s as [s IH] using string_length_ind.
  destruct s as [|c0 s1]; [done|]. cbn [map_runes].
  assert (∀ t, (String.length t <= String.length s1)%nat → Q (map_runes f g3 bad t)) as Ht
    by (intros t Ht; apply IH; cbn; lia).
  destruct (between 0 127 c0) eqn:E0; [apply Qa; auto|].
  destruct s1 as [|c1 s2]; [done|].
  destruct (rune2 c0 c1) eqn:E2.
  { apply (Qa (String c0 (String c1 "")) (map_runes f g3 bad s2)); [auto|apply Ht; cbn; lia]. }
  destruct s2 as [|c2 s3]; [apply Qa; auto|].
  destruct (rune3 c0 c1 c2) eqn:E3; [apply Qa; [auto|apply Ht; cbn; lia]|].
  destruct s3 as [|c3 s4]; [apply Qa; auto|].
  destruct (rune4 c0 c1 c2 c3) eqn:E4; [|apply Qa; auto].
  apply (Qa (String c0 (String c1 (String c2 (String c3 "")))) (map_runes f g3 bad s4));
    [auto|apply Ht; cbn; lia].
Qed.

(** [raw] is the body of a literal: scanning passes over it. *)
Definition literal (raw : string) : Prop :=
  ∀ tail, scan_string (raw +:+ tail) =
    match scan_string tail with Some (r, rest) => Some (raw +:+ r, rest) | None => None end.

Lemma literal_nil : literal "".
Proof. intros tail. cbn. by destruct (scan_string tail) as [[]|]. Qed.

Lemma literal_app a b : literal a → literal b → literal (a +:+ b).
Proof.
  intros Ha Hb tail. rewrite string_app_assoc, Ha, Hb.
  destruct (scan_string tail) as [[r rest]|]; [|done]. by rewrite string_app_assoc.
Qed.

(** A byte that needs no escape. *)
Definition plain (c : ascii) : bool :=
  negb (Ascii.eqb c quote) && negb (Ascii.eqb c backslash) && negb (code c <? 32)%N.

Lemma literal_plain c s : plain c = true → literal s → literal (String c s).
Proof.
  unfold plain. rewrite !andb_true_iff, !negb_true_iff. intros [[Hq Hb] Hc] Hs tail.
  change (String c s +:+ tail) with (String c (s +:+ tail)). cbn [scan_string].
  rewrite Hq, Hb, Hc, Hs. by destruct (scan_string tail) as [[]|].
Qed.

Lemma high_plain a b c : between a b c = true → (128 <= a)%N → plain c = true.
Proof.
  unfold between, plain. rewrite andb_true_iff, !N.leb_le. intros [Ha _] H128.
  destruct (Ascii.eqb_spec c quote) as [->|]; [change (code quote) with 34%N in Ha; lia|].
  destruct (Ascii.eqb_spec c backslash) as [->|]; [change (code backslash) with 92%N in Ha; lia|].
  cbn. rewrite negb_true_iff, N.ltb_ge. lia.
Qed.

Ltac split_runes :=
  unfold rune2, rune3, rune4 in *; rewrite ?andb_true_iff in *; destruct_and?.

Lemma rune2_plain c0 c1 : rune2 c0 c1 = true → plain c0 = true ∧ plain c1 = true.
Proof. intros Hr. split_runes. split; eapply high_plain; (done || lia). Qed.

Lemma rune3_plain c0 c1 c2 :
  rune3 c0 c1 c2 = true → plain c0 = true ∧ plain c1 = true ∧ plain c2 = true.
Proof.
  intros Hr. split_runes. split_and!; [eapply high_plain; (done || lia)| |
    eapply high_plain; (done || lia)].
  repeat case_match; eapply high_plain; (done || lia).
Qed.

Lemma rune4_plain c0 c1 c2 c3 : rune4 c0 c1 c2 c3 = true →
  plain c0 = true ∧ plain c1 = true ∧ plain c2 = true ∧ plain c3 = true.
Proof.
  intros Hr. split_runes. split_and!; [eapply high_plain; (done || lia)| |
    eapply high_plain; (done || lia)..].
  repeat case_match; eapply high_plain; (done || lia).
Qed.

(** A fact of each ASCII character, checked one by one. *)
Lemma ascii_all (P : ascii → bool) :
  (let fix go n := match n with O => true | S n' => P (byte_of (N.of_nat n')) && go n' end in
   go 256%nat) = true → ∀ c, P c = true.
Proof.
  intros Hp c.
  assert (∀ n, (let fix go n := match n with O => true
    | S n' => P (byte_of (N.of_nat n')) && go n' end in go n) = true →
    ∀ k, (k < n)%nat → P (byte_of (N.of_nat k)) = true) as Hn.
  { induction n as [|n IH]; [lia|]. cbn. rewrite andb_true_iff. intros [H1 H2] k Hk.
    destruct (decide (k = n)) as [->|]; [done|]. apply IH; [done|lia]. }
  specialize (Hn 256%nat Hp (N.to_nat (code c))).
  rewrite N2Nat.id in Hn. unfold byte_of, code in Hn. rewrite ascii_N_embedding in Hn.
  apply Hn. pose proof (N_ascii_bounded c). lia.
Qed.

Lemma literal_esc_ascii c : literal (esc_ascii c).
Proof.
  unfold esc_ascii. destruct (html_safe c) eqn:Es.
  { apply literal_plain; [|apply literal_nil].
    revert Es. apply (implb_true_iff (html_safe c)), (ascii_all (λ c, implb (html_safe c) (plain c))).
    by vm_compute. }
  destruct (Ascii.eqb c backslash || Ascii.eqb c quote) eqn:Eb.
  { intros tail. apply orb_true_iff in Eb as [Eb|Eb]; apply Ascii.eqb_eq in Eb as ->; cbn;
      by destruct (scan_string tail) as [[]|]. }
  assert (∀ d, simple_escape d ≠ None → Ascii.eqb d "u" = false → literal (esc (String d ""))) as Hd.
  { intros d Hd Hu tail. unfold esc. cbn [String.append scan_string].
    change (Ascii.eqb backslash quote) with false. change (Ascii.eqb backslash backslash) with true.
    rewrite Hu. cbn. destruct (simple_escape d); [|done].
    by destruct (scan_string tail) as [[]|]. }
  do 5 (case_match; [by apply Hd|]).
  intros tail. unfold esc_u, esc. cbn [String.append scan_string].
  change (Ascii.eqb backslash quote) with false. change (Ascii.eqb backslash backslash) with true.
  change (Ascii.eqb "u" "u") with true. change (is_hex "0") with true. cbn [andb].
  assert (is_hex (hex_digit (N.shiftr (code c) 4)) && is_hex (hex_digit (N.land (code c) 15)) = true)
    as Hh by (apply (ascii_all (λ c, is_hex (hex_digit (N.shiftr (code c) 4)) &&
      is_hex (hex_digit (N.land (code c) 15)))); by vm_compute).
  rewrite Hh. by destruct (scan_string tail) as [[]|].
Qed.

Lemma literal_rune3 c0 c1 c2 : rune3 c0 c1 c2 = true → literal (String c0 (String c1 (String c2 ""))).
Proof.
  intros (? & ? & ?)%rune3_plain. by repeat apply literal_plain; [..|apply literal_nil].
Qed.

Lemma literal_escape s : literal (escape s).
Proof.
  apply (map_runes_all literal).
  - apply literal_nil.
  - apply literal_app.
  - intros c _. apply literal_esc_ascii.
  - intros tail. cbn. by destruct (scan_string tail) as [[]|].
  - intros c0 c1 (? & ?)%rune2_plain. by repeat apply literal_plain; [..|apply literal_nil].
  - intros c0 c1 c2 Hr. unfold esc_rune3. case_match; [|by apply literal_rune3].
    intros tail. unfold esc. cbn [String.append scan_string].
    change (Ascii.eqb backslash quote) with false. change (Ascii.eqb backslash backslash) with true.
    change (Ascii.eqb "u" "u") with true. change (is_hex "0") with true.
    change (is_hex "2") with true. cbn [andb].
    assert (is_hex (hex_digit (N.land (code c2) 15)) = true) as ->
      by (apply (ascii_all (λ c, is_hex (hex_digit (N.land (code c) 15)))); by vm_compute).
    by destruct (scan_string tail) as [[]|].
  - intros c0 c1 c2 c3 (? & ? & ? & ?)%rune4_plain.
    by repeat apply literal_plain; [..|apply literal_nil].
Qed.

Lemma scan_literal raw rest :
  literal raw → scan_string (raw +:+ String quote rest) = Some (raw, rest).
Proof. intros Hr. rewrite Hr. cbn. by rewrite string_app_nil_r. Qed.

(** ** Unquoting *)

(** [raw] stands for [s] in a literal. *)
Definition stands_for (raw s : string) : Prop :=
  ∀ tail, unquote_json (raw +:+ tail) = s +:+ unquote_json tail.

Lemma stands_nil : stands_for "" "".
Proof. done. Qed.

Lemma stands_app a b s t : stands_for a s → stands_for b t → stands_for (a +:+ b) (s +:+ t).
Proof. intros Ha Hb tail. by rewrite string_app_assoc, Ha, Hb, string_app_assoc. Qed.

(** The four digits of [esc_u] are the code of the character. *)
Definition esc_u_ok (c : ascii) : bool :=
  match hex4 "0" "0" (hex_digit (N.shiftr (code c) 4)) (hex_digit (N.land (code c) 15)) with
  | Some r => (r =? code c)%N
  | None => false
  end && negb (surrogate (code c)) && String.eqb (encode_rune (code c)) (String c "").

Lemma esc_u_code c : between 0 127 c = true →
  hex4 "0" "0" (hex_digit (N.shiftr (code c) 4)) (hex_digit (N.land (code c) 15))
    = Some (code c) ∧
  surrogate (code c) = false ∧ encode_rune (code c) = String c "".
Proof.
  intros Hc. assert (implb (between 0 127 c) (esc_u_ok c) = true) as Hh
    by (apply (ascii_all (λ c, implb (between 0 127 c) (esc_u_ok c))); by vm_compute).
  rewrite Hc in Hh. unfold esc_u_ok in Hh. cbn [implb] in Hh.
  apply andb_true_iff in Hh as [Hh He]. apply andb_true_iff in Hh as [Hh Hs].
  destruct (hex4 _ _ _ _); [|done]. apply N.eqb_eq in Hh as ->.
  apply negb_true_iff in Hs. by apply String.eqb_eq in He.
Qed.

Lemma stands_esc_u h1 h2 h3 h4 r :
  hex4 h1 h2 h3 h4 = Some r → surrogate r = false →
  stands_for (esc (String "u" (String h1 (String h2 (String h3 (String h4 "")))))) (encode_rune r).
Proof.
  intros Hh Hs tail. unfold esc. cbn [String.append unquote_json].
  change (Ascii.eqb backslash backslash) with true. change (Ascii.eqb "u" "u") with true.
  rewrite Hh. change (default 0%N (Some r)) with r. by rewrite Hs.
Qed.

Lemma stands_ascii c : between 0 127 c = true → stands_for (esc_ascii c) (String c "").
Proof.
  intros Hc.
  assert (∀ c, between 0 127 c = true → Ascii.eqb c backslash = false →
            stands_for (String c "") (String c "")) as Hplain.
  { intros d Hd Hb tail. cbn [String.append unquote_json]. by rewrite Hb, Hd. }
  assert (∀ d e, Ascii.eqb d "u" = false → default d (simple_escape d) = e →
            stands_for (esc (String d "")) (String e "")) as Hsimple.
  { intros d e Hu He tail. unfold esc. cbn [String.append unquote_json].
    change (Ascii.eqb backslash backslash) with true. by rewrite Hu, He. }
  unfold esc_ascii. destruct (html_safe c) eqn:Es.
  { apply Hplain; [done|]. unfold html_safe in Es. apply andb_true_iff in Es as [_ Es].
    cbn in Es. bool_to_prop. tauto. }
  destruct (Ascii.eqb c backslash || Ascii.eqb c quote) eqn:Eb.
  { apply orb_true_iff in Eb as [Eb|Eb]; apply Ascii.eqb_eq in Eb as ->; by apply Hsimple. }
  do 5 (match goal with |- stands_for (if Ascii.eqb c ?d then _ else _) _ =>
    destruct (Ascii.eqb_spec c d) as [->|_]; [by apply Hsimple|] end).
  destruct (esc_u_code c Hc) as (Hh & Hs & <-). by apply stands_esc_u.
Qed.

Lemma high_not_backslash c : between 0 127 c = false → Ascii.eqb c backslash = false.
Proof. intros Hc. destruct (Ascii.eqb_spec c backslash) as [->|]; [by vm_compute in Hc|done]. Qed.

Lemma stands_rune3 c0 c1 c2 :
  between 0 127 c0 = false → rune2 c0 c1 = false → rune3 c0 c1 c2 = true →
  stands_for (esc_rune3 c0 c1 c2) (String c0 (String c1 (String c2 ""))).
Proof.
  intros E0 E2 E3. unfold esc_rune3.
  destruct (between 226 226 c0 && between 128 128 c1 && between 168 169 c2) eqn:E.
  - apply andb_true_iff in E as [E Ec2]. apply andb_true_iff in E as [Ec0 Ec1].
    assert (implb (between 226 226 c0) (Ascii.eqb c0 "226") = true) as Hc0
      by (apply (ascii_all (λ c, implb (between 226 226 c) (Ascii.eqb c "226"))); by vm_compute).
    assert (implb (between 128 128 c1) (Ascii.eqb c1 "128") = true) as Hc1
      by (apply (ascii_all (λ c, implb (between 128 128 c) (Ascii.eqb c "128"))); by vm_compute).
    assert (implb (between 168 169 c2) (Ascii.eqb c2 "168" || Ascii.eqb c2 "169") = true) as Hc2
      by (apply (ascii_all (λ c, implb (between 168 169 c) (Ascii.eqb c "168" || Ascii.eqb c "169")));
          by vm_compute).
    rewrite Ec0 in Hc0. rewrite Ec1 in Hc1. rewrite Ec2 in Hc2. cbn [implb] in *.
    apply Ascii.eqb_eq in Hc0 as ->. apply Ascii.eqb_eq in Hc1 as ->.
    apply orb_true_iff in Hc2 as [Hc2|Hc2]; apply Ascii.eqb_eq in Hc2 as ->.
    + apply (stands_esc_u "2" "0" "2" "8" 0x2028); by vm_compute.
    + apply (stands_esc_u "2" "0" "2" "9" 0x2029); by vm_compute.
  - intros tail. cbn [String.append unquote_json]. by rewrite (high_not_backslash c0 E0), E0, E2, E3.
Qed.

(** The escaped form of a valid string stands for it. *)
Lemma stands_escape s : utf8_valid s = true → stands_for (escape s) s.
Proof.
  revert s. apply utf8_ind.
  - apply stands_nil.
  - intros c s Hc _ IH. unfold escape. cbn [map_runes]. rewrite Hc.
    apply (stands_app _ _ (String c "") s); [by apply stands_ascii|done].
  - intros c0 c1 s E0 E2 _ IH tail. unfold escape. cbn [map_runes]. rewrite E0, E2.
    cbn [String.append unquote_json]. rewrite (high_not_backslash c0 E0), E0, E2. cbn. f_equal. f_equal.
    apply IH.
  - intros c0 c1 c2 s E0 E2 E3 _ IH. unfold escape. cbn [map_runes]. rewrite E0, E2, E3.
    apply (stands_app _ _ (String c0 (String c1 (String c2 ""))) s); [by apply stands_rune3|done].
  - intros c0 c1 c2 c3 s E0 E2 E3 E4 _ IH tail. unfold escape. cbn [map_runes].
    rewrite E0, E2, E3, E4. cbn [String.append unquote_json].
    rewrite (high_not_backslash c0 E0), E0, E2, E3, E4. cbn. do 4 f_equal. apply IH.
Qed.

Lemma unquote_escape s : utf8_valid s = true → unquote_json (escape s) = s.
Proof.
  intros Hs. pose proof (stands_escape s Hs "") as Hu.
  by rewrite !string_app_nil_r in Hu.
Qed.

(** * Numbers *)

Lemma pretty_char_digit x : (x < 10)%N →
  digit (pretty_N_char x) = Some (Z.of_N x) ∧ is_digit (pretty_N_char x) = true.
Proof.
  intros Hx. assert (x = 0 ∨ x = 1 ∨ x = 2 ∨ x = 3 ∨ x = 4 ∨ x = 5 ∨ x = 6 ∨ x = 7 ∨ x = 8 ∨ x = 9)%N
    as Hc by lia. by repeat destruct Hc as [->|Hc]; [..|subst].
Qed.

Lemma digits_pretty x s : digits 0 (pretty_N_go x s) = digits (Z.of_N x) s.
Proof.
  revert s. induction (N.lt_wf_0 x) as [x _ IH]. intros s.
  assert (x = 0 ∨ 0 < x)%N as [->|Hx] by lia; [by rewrite pretty_N_go_0|].
  rewrite pretty_N_go_step by done. rewrite IH by (by apply N.div_lt).
  assert (x mod 10 < 10)%N as Hm by (apply N.mod_lt; lia).
  cbn [digits]. rewrite (proj1 (pretty_char_digit _ Hm)). cbn. f_equal.
  rewrite N2Z.inj_mod, N2Z.inj_div. pose proof (Z.div_mod (Z.of_N x) 10). lia.
Qed.

(** The digits of a string, all of them. *)
Fixpoint all_digits (s : string) : bool :=
  match s with EmptyString => true | String c s' => is_digit c && all_digits s' end.

Lemma pretty_N_go_shape x s : (0 < x)%N →
  ∃ c t, pretty_N_go x s = String c (t +:+ s) ∧ is_digit c = true ∧ Ascii.eqb c "0" = false ∧
         all_digits t = true.
Proof.
  revert s. induction (N.lt_wf_0 x) as [x _ IH]. intros s Hx.
  rewrite pretty_N_go_step by done.
  assert (x mod 10 < 10)%N as Hm by (apply N.mod_lt; lia).
  assert (x < 10 ∨ 0 < x / 10)%N as [Hd|Hd].
  { destruct (N.lt_ge_cases x 10); [by left|right]. apply N.div_str_pos. lia. }
  - rewrite N.div_small by done. rewrite pretty_N_go_0, N.mod_small by done.
    exists (pretty_N_char x), "". split_and!; [done|by apply pretty_char_digit| |done].
    assert (x = 1 ∨ x = 2 ∨ x = 3 ∨ x = 4 ∨ x = 5 ∨ x = 6 ∨ x = 7 ∨ x = 8 ∨ x = 9)%N
      as Hc by lia. by repeat destruct Hc as [->|Hc]; [..|subst].
  - destruct (IH (x / 10)%N ltac:(by apply N.div_lt) (String (pretty_N_char (x mod 10)) s) Hd)
      as (c & t & -> & Hc & H0 & Ht).
    exists c, (t +:+ String (pretty_N_char (x mod 10)) ""). split_and!; [|done|done|].
    + by rewrite string_app_assoc.
    + clear -Ht Hm. induction t as [|a t IHt]; cbn in *.
      * by rewrite (proj2 (pretty_char_digit _ Hm)).
      * apply andb_true_iff in Ht as [-> Ht]. by apply IHt.
Qed.

(** The text of a number that is not negative. *)
Lemma itoa_shape n : 0 <= n →
  itoa n = "0" ∨
  ∃ c t, itoa n = String c t ∧ is_digit c = true ∧ Ascii.eqb c "0" = false ∧ all_digits t = true.
Proof.
  intros Hn. unfold itoa, pretty, pretty_Z. destruct n as [|p|p]; [by left| |lia]. right.
  unfold pretty, pretty_positive, pretty, pretty_N. case_decide; [done|].
  destruct (pretty_N_go_shape (N.pos p) "" ltac:(lia)) as (c & t & -> & ?).
  rewrite string_app_nil_r. by exists c, t.
Qed.

Lemma parse_digits_itoa n : 0 <= n → parse_digits (itoa n) = Some n.
Proof.
  intros Hn. unfold itoa, pretty, pretty_Z. destruct n as [|p|p]; [done| |lia].
  unfold pretty, pretty_positive, pretty, pretty_N. case_decide; [done|].
  unfold parse_digits. destruct (pretty_N_go_shape (N.pos p) "" ltac:(lia)) as (c & t & E & _).
  destruct (String.eqb_spec (pretty_N_go (N.pos p) "") "") as [E'|]; [by rewrite E in E'|].
  by rewrite digits_pretty.
Qed.

Lemma itoa_neg n : n < 0 → itoa n = String "-" (itoa (- n)).
Proof. destruct n; done. Qed.

Lemma digit_not_sign c : is_digit c = true → Ascii.eqb c "-" = false ∧ Ascii.eqb c "+" = false.
Proof.
  intros Hc. split; [destruct (Ascii.eqb_spec c "-") as [->|]|destruct (Ascii.eqb_spec c "+") as [->|]];
    done.
Qed.

Lemma Atoi_itoa n : in_int64 n → Atoi (itoa n) = Some n.
Proof.
  unfold in_int64. intros Hn. unfold Atoi.
  assert (n < 0 ∨ 0 <= n) as [Hneg|Hpos] by lia.
  - rewrite itoa_neg by done. cbn [String.append]. rewrite parse_digits_itoa by lia. cbn.
    rewrite Z.opp_involutive. by rewrite (proj2 (Z.leb_le _ _)), (proj2 (Z.ltb_lt _ _)) by lia.
  - assert (match itoa n with
            | String "+" s' => parse_digits s'
            | String "-" s' => Z.opp <$> parse_digits s'
            | _ => parse_digits (itoa n)
            end = Some n) as ->.
    { pose proof (parse_digits_itoa n Hpos) as Hp.
      destruct (itoa_shape n Hpos) as [E|(c & t & E & Hc & _)]; rewrite E in *; [done|].
      apply digit_not_sign in Hc as [H1 H2]. apply Ascii.eqb_neq in H1, H2.
      destruct c as [[] [] [] [] [] [] [] []]; done. }
    cbn. by rewrite (proj2 (Z.leb_le _ _)), (proj2 (Z.ltb_lt _ _)) by lia.
Qed.

Lemma ParseUint_itoa n : in_uint64 n → ParseUint (itoa n) = Some n.
Proof.
  unfold in_uint64. intros Hn. unfold ParseUint. rewrite parse_digits_itoa by lia. cbn.
  by rewrite (proj2 (Z.ltb_lt _ _)) by lia.
Qed.

Lemma ParseInt8_itoa n : -128 <= n < 128 → ParseInt8 (itoa n) = Some n.
Proof.
  intros Hn. unfold ParseInt8. rewrite Atoi_itoa by (unfold in_int64; lia). cbn.
  by rewrite (proj2 (Z.leb_le _ _)), (proj2 (Z.ltb_lt _ _)) by lia.
Qed.

(** What may follow a value. *)
Definition follows (rest : string) : bool :=
  match rest with
  | EmptyString => true
  | String c _ => existsb (Ascii.eqb c) [","%char; "]"%char; "}"%char] || is_ws c
  end.

(** A number literal: scanned as a whole. *)
Definition number (lit : string) : Prop :=
  (∃ c t, lit = String c t ∧ (is_digit c = true ∨ c = "-"%char)) ∧
  ∀ rest, follows rest = true → scan_number (lit +:+ rest) = Some (lit, rest).

Lemma follows_head c rest : follows (String c rest) = true →
  is_digit c = false ∧ Ascii.eqb c "." = false ∧ (Ascii.eqb c "e" || Ascii.eqb c "E") = false.
Proof.
  cbn [follows]. intros Hc.
  assert (implb (existsb (Ascii.eqb c) [","%char; "]"%char; "}"%char] || is_ws c)
    (negb (is_digit c) && negb (Ascii.eqb c ".") && negb (Ascii.eqb c "e" || Ascii.eqb c "E")) = true)
    as Hh.
  { apply (ascii_all (λ c, implb (existsb (Ascii.eqb c) [","%char; "]"%char; "}"%char] || is_ws c)
      (negb (is_digit c) && negb (Ascii.eqb c ".") && negb (Ascii.eqb c "e" || Ascii.eqb c "E")))).
    by vm_compute. }
  rewrite Hc in Hh. cbn [implb] in Hh. rewrite !andb_true_iff, !negb_true_iff in Hh. tauto.
Qed.

Lemma take_digits_all t rest :
  all_digits t = true → follows rest = true → take_digits (t +:+ rest) = (t, rest).
Proof.
  intros Ht Hr. induction t as [|c t IH]; cbn in *.
  - destruct rest as [|c rest]; [done|]. cbn. by rewrite (proj1 (follows_head c rest Hr)).
  - apply andb_true_iff in Ht as [-> Ht]. change (t ++ rest)%string with (t +:+ rest).
    by rewrite IH.
Qed.

Lemma scan_tail rest : follows rest = true →
  scan_frac rest = Some ("", rest) ∧ scan_exp rest = Some ("", rest).
Proof.
  destruct rest as [|c rest]; [done|]. intros (_ & Hd & He)%follows_head. cbn.
  by rewrite Hd, He.
Qed.

Lemma scan_int_itoa n rest : 0 <= n → follows rest = true →
  scan_int (itoa n +:+ rest) = Some (itoa n, rest).
Proof.
  intros Hn Hr. destruct (itoa_shape n Hn) as [->|(c & t & -> & Hc & H0 & Ht)]; [done|].
  change (String c t +:+ rest) with (String c (t +:+ rest)). cbn [scan_int].
  by rewrite H0, Hc, take_digits_all.
Qed.

Lemma itoa_head n : 0 <= n → ∃ c t, itoa n = String c t ∧ is_digit c = true.
Proof. intros Hn. destruct (itoa_shape n Hn) as [->|(c & t & -> & Hc & _)]; by eexists _, _. Qed.

Lemma number_itoa n : number (itoa n).
Proof.
  assert (n < 0 ∨ 0 <= n) as [Hneg|Hpos] by lia.
  - rewrite itoa_neg by done. split; [by eexists _, _; split; [|right]|]. intros rest Hr.
    unfold scan_number. cbn. change (itoa (- n) ++ rest)%string with (itoa (- n) +:+ rest).
    rewrite scan_int_itoa by (done || lia). cbn. destruct (scan_tail rest Hr) as [-> H2]. cbn.
    rewrite H2. cbn. by rewrite string_app_nil_r.
  - destruct (itoa_head n Hpos) as (c & t & E & Hc).
    split; [by exists c, t; split; [|left]|]. intros rest Hr. unfold scan_number.
    assert ((match itoa n +:+ rest with
             | String c t => if Ascii.eqb c "-" then (String c "", t) else ("", itoa n +:+ rest)
             | EmptyString => ("", itoa n +:+ rest)
             end) = ("", itoa n +:+ rest)) as ->.
    { rewrite E. cbn. by rewrite (proj1 (digit_not_sign c Hc)). }
    rewrite scan_int_itoa by done. cbn. destruct (scan_tail rest Hr) as [-> H2]. cbn.
    rewrite H2. cbn. by rewrite string_app_nil_r.
Qed.

(** * Values *)

Fixpoint printable (d : Z) (v : jvalue) : Prop :=
  match v with
  | JNull | JBool _ => True
  | JNum lit => number lit
  | JStr raw => literal raw
  | JArr l => d < max_depth ∧ foldr (λ v P, printable (d + 1) v ∧ P) True l
  | JObj l => d < max_depth ∧ foldr (λ kv P, (literal kv.1 ∧ printable (d + 1) kv.2) ∧ P) True l
  end.

(** The fuel that reading a printed value takes. *)
Fixpoint cost (v : jvalue) : nat :=
  match v with
  | JArr l => S (foldr (λ v n, S (cost v + n)) 0%nat l)
  | JObj l => S (foldr (λ kv n, S (cost kv.2 + n)) 0%nat l)
  | _ => 1%nat
  end.

Definition starts_value (c : ascii) : bool :=
  negb (is_ws c) && negb (Ascii.eqb c "]").

Lemma print_head d v : printable d v → ∃ c t, print v = String c t ∧ starts_value c = true.
Proof.
  destruct v as [|[]|lit|raw|l|l]; cbn; try (intros; eexists _, _; by split).
  intros [(c & t & -> & Hc) _]. exists c, t. split; [done|].
  destruct Hc as [Hc| ->]; [|done].
  assert (implb (is_digit c) (starts_value c) = true) as Hi
    by (apply (ascii_all (λ c, implb (is_digit c) (starts_value c))); by vm_compute).
  by rewrite Hc in Hi.
Qed.

Lemma skip_ws_head c t : is_ws c = false → skip_ws (String c t) = String c t.
Proof. intros Hc. cbn [skip_ws]. by rewrite Hc. Qed.

(** The text of a list of values or members, up to what follows it. *)
Definition elems_text (l : list jvalue) : string := join_with "," (print <$> l).
Definition member_text (kv : string * jvalue) : string := quoted kv.1 +:+ ":" +:+ print kv.2.
Definition members_text (l : list (string * jvalue)) : string := join_with "," (member_text <$> l).

Lemma join_cons x y l : join_with "," (x :: y :: l) = x +:+ "," +:+ join_with "," (y :: l).
Proof. done. Qed.

Section reading.
Context (n : nat)
  (IH : ∀ v d fuel rest, (cost v < n)%nat → printable d v → (cost v <= fuel)%nat →
    follows rest = true → parse_value fuel d (print v +:+ rest) = Some (v, rest)).

Lemma parse_elems_print d l : l ≠ [] → ∀ fuel rest,
  (foldr (λ v n, S (cost v + n)) 0 l < n)%nat →
  foldr (λ v P, printable d v ∧ P) True l →
  (foldr (λ v n, S (cost v + n)) 0 l <= fuel)%nat →
  parse_elems fuel d (elems_text l +:+ String "]" rest) = Some (l, rest).
Proof.
  intros Hl. induction l as [|v l IHl]; [done|]. intros fuel rest Hn [Hv Hvs] Hf. cbn [foldr] in *.
  destruct fuel as [|fuel]; [lia|]. cbn [parse_elems]. unfold elems_text.
  destruct l as [|v' l].
  - change (join_with "," (print <$> [v])) with (print v).
    rewrite IH by (done || lia). done.
  - change (print <$> v :: v' :: l) with (print v :: print v' :: (print <$> l)).
    rewrite join_cons, string_app_assoc.
    change (("," +:+ join_with "," (print v' :: (print <$> l))) +:+ String "]" rest)
      with (String "," (elems_text (v' :: l) +:+ String "]" rest)).
    rewrite IH by (done || lia). cbn [mbind option_bind].
    rewrite skip_ws_head by done. change (Ascii.eqb "," "]") with false.
    change (Ascii.eqb "," ",") with true. cbn beta iota.
    rewrite IHl by (done || lia). done.
Qed.

Lemma parse_members_print d l : l ≠ [] → ∀ fuel rest,
  (foldr (λ kv n, S (cost kv.2 + n)) 0 l < n)%nat →
  foldr (λ kv P, (literal kv.1 ∧ printable d kv.2) ∧ P) True l →
  (foldr (λ kv n, S (cost kv.2 + n)) 0 l <= fuel)%nat →
  parse_members fuel d (members_text l +:+ String "}" rest) = Some (l, rest).
Proof.
  intros Hl. induction l as [|[k v] l IHl]; [done|].
  intros fuel rest Hn [[Hk Hv] Hvs] Hf. cbn [foldr fst snd] in *.
  destruct fuel as [|fuel]; [lia|]. cbn [parse_members].
  assert (∀ tail, member_text (k, v) +:+ tail
            = String quote (k +:+ String quote (String ":" (print v +:+ tail)))) as Hm.
  { intros tail. unfold member_text, quoted. cbn [fst snd].
    change (String quote (k +:+ String quote "") +:+ ":" +:+ print v)
      with (String quote ((k +:+ String quote "") +:+ String ":" (print v))).
    change (String quote ((k +:+ String quote "") +:+ String ":" (print v)) +:+ tail)
      with (String quote (((k +:+ String quote "") +:+ String ":" (print v)) +:+ tail)).
    by rewrite !string_app_assoc. }
  unfold members_text. destruct l as [|kv l].
  - change (join_with "," (member_text <$> [(k, v)])) with (member_text (k, v)).
    rewrite Hm, skip_ws_head by done. change (Ascii.eqb quote quote) with true. cbn [negb].
    rewrite scan_literal by done. cbn [mbind option_bind].
    rewrite skip_ws_head by done. change (Ascii.eqb ":" ":") with true. cbn [negb].
    rewrite IH by (done || lia). done.
  - change (member_text <$> (k, v) :: kv :: l)
      with (member_text (k, v) :: member_text kv :: (member_text <$> l)).
    rewrite join_cons, string_app_assoc, Hm, skip_ws_head by done.
    change (Ascii.eqb quote quote) with true. cbn [negb].
    rewrite scan_literal by done. cbn [mbind option_bind].
    rewrite skip_ws_head by done. change (Ascii.eqb ":" ":") with true. cbn [negb].
    change (("," +:+ join_with "," (member_text kv :: (member_text <$> l))) +:+ String "}" rest)
      with (String "," (members_text (kv :: l) +:+ String "}" rest)).
    rewrite IH by (done || lia). cbn [mbind option_bind].
    rewrite skip_ws_head by done. change (Ascii.eqb "," "}") with false.
    change (Ascii.eqb "," ",") with true. cbn beta iota.
    rewrite IHl by (done || lia). done.
Qed.
End reading.

(** The first character of a number begins nothing else. *)
Lemma number_head c :
  is_digit c = true ∨ c = "-"%char →
  is_ws c = false ∧ Ascii.eqb c quote = false ∧ Ascii.eqb c "[" = false ∧
  Ascii.eqb c "{" = false ∧ Ascii.eqb c "n" = false ∧ Ascii.eqb c "t" = false ∧
  Ascii.eqb c "f" = false.
Proof.
  set (p := λ c, implb (is_digit c || Ascii.eqb c "-") (negb (is_ws c) &&
    (negb (Ascii.eqb c quote) && (negb (Ascii.eqb c "[") && (negb (Ascii.eqb c "{") &&
    (negb (Ascii.eqb c "n") && (negb (Ascii.eqb c "t") && negb (Ascii.eqb c "f")))))))).
  intros Hc. assert (p c = true) as Hp by (apply (ascii_all p); by vm_compute). unfold p in Hp.
  assert (is_digit c || Ascii.eqb c "-" = true) as Hd
    by (destruct Hc as [->| ->]; [done|by rewrite Ascii.eqb_refl, orb_true_r]).
  rewrite Hd in Hp. cbn [implb] in Hp. by rewrite !andb_true_iff, !negb_true_iff in Hp.
Qed.

(** Reading a printed value gives it back. *)
Lemma parse_print_value n : ∀ v d fuel rest,
  (cost v < n)%nat → printable d v → (cost v <= fuel)%nat → follows rest = true →
  parse_value fuel d (print v +:+ rest) = Some (v, rest).
Proof.
  induction n as [|n IH]; [lia|]. intros v d fuel rest Hn Hv Hf Hr.
  destruct fuel as [|fuel]; [destruct v; cbn in Hf; lia|].
  destruct v as [|b|lit|raw|l|l].
  - done.
  - by destruct b.
  - destruct Hv as [(c & t & -> & Hc) Hs]. specialize (Hs rest Hr).
    change (print (JNum (String c t)) +:+ rest) with (String c (t +:+ rest)).
    cbn [parse_value]. change (String c t +:+ rest) with (String c (t +:+ rest)) in Hs.
    destruct (number_head c Hc) as (Hw & H1 & H2 & H3 & H4 & H5 & H6).
    rewrite skip_ws_head by done. by rewrite H1, H2, H3, H4, H5, H6, Hs.
  - change (print (JStr raw) +:+ rest) with (String quote ((raw +:+ String quote "") +:+ rest)).
    rewrite string_app_assoc. cbn [parse_value]. rewrite skip_ws_head by done.
    change (Ascii.eqb quote quote) with true. cbn beta iota.
    change (String quote "" +:+ rest) with (String quote rest). by rewrite scan_literal.
  - destruct Hv as [Hd Hl]. cbn [cost] in Hn, Hf.
    assert (print (JArr l) +:+ rest = String "[" (elems_text l +:+ String "]" rest)) as ->
      by (cbn -[join_with]; f_equal; apply string_app_assoc).
    cbn [parse_value]. rewrite skip_ws_head by done. cbn beta iota.
    change (Ascii.eqb "[" quote) with false. change (Ascii.eqb "[" "[") with true. cbn beta iota.
    rewrite (proj2 (Z.leb_gt _ _)) by done.
    destruct l as [|v l]; [done|].
    assert (∃ c t, elems_text (v :: l) +:+ String "]" rest = String c t ∧ starts_value c = true)
      as (c & t & E & Hc).
    { destruct Hl as [Hv _]. destruct (print_head _ _ Hv) as (c & t & E & Hc). unfold elems_text.
      destruct l as [|v' l]; cbn [fmap list_fmap join_with]; rewrite E; by eexists c, _. }
    unfold starts_value in Hc. rewrite andb_true_iff, !negb_true_iff in Hc. destruct Hc as [Hw Hc].
    rewrite E, skip_ws_head by done. rewrite Hc. rewrite <- E.
    by rewrite (parse_elems_print n IH) by (done || lia).
  - destruct Hv as [Hd Hl]. cbn [cost] in Hn, Hf.
    assert (print (JObj l) +:+ rest = String "{" (members_text l +:+ String "}" rest)) as ->
      by (cbn -[join_with]; f_equal; apply string_app_assoc).
    cbn [parse_value]. rewrite skip_ws_head by done. cbn beta iota.
    change (Ascii.eqb "{" quote) with false. change (Ascii.eqb "{" "[") with false.
    change (Ascii.eqb "{" "{") with true. cbn beta iota.
    rewrite (proj2 (Z.leb_gt _ _)) by done. destruct l as [|kv l]; [done|].
    assert (∃ t, members_text (kv :: l) +:+ String "}" rest = String quote t) as (t & E).
    { unfold members_text. destruct l as [|kv' l]; cbn; by eexists. }
    rewrite E, skip_ws_head by done. change (Ascii.eqb quote "}") with false. cbn beta iota.
    rewrite <- E. by rewrite (parse_members_print n IH) by (done || lia).
Qed.

(** Fuel: a printed value is at least half as long as its reading takes. *)
Lemma cost_length w : ∀ d, printable d w → (cost w <= 2 * String.length (print w))%nat.
Proof.
  assert (∀ n v d, (cost v < n)%nat → printable d v →
    (cost v <= 2 * String.length (print v))%nat) as Hn; [|intros d; apply (Hn (S (cost w))); lia].
  assert (∀ a b, String.length (a +:+ b) = (String.length a + String.length b)%nat) as Hlen
    by (intros a b; induction a as [|c a IHa]; cbn; congruence).
  induction n as [|n IH]; [lia|]. intros [|[]|lit|raw|l|l] d Hn Hv; cbn [cost] in *; try (cbn; lia).
  - destruct Hv as [(c & t & -> & _) _]. cbn. lia.
  - destruct Hv as [_ Hl]. cbn [print]. rewrite !Hlen. cbn [String.length].
    enough (foldr (λ v n, S (cost v + n)) 0 l <= 1 + 2 * String.length (join_with "," (print <$> l)))%nat
      by lia.
    revert Hn Hl. generalize (d + 1). intros d'. induction l as [|v l IHl]; [cbn; lia|].
    cbn [foldr]. intros Hn [Hv Hl]. specialize (IHl ltac:(lia) Hl). specialize (IH v d' ltac:(lia) Hv).
    destruct l as [|v' l]; [cbn; lia|].
    change (print <$> v :: v' :: l) with (print v :: print v' :: (print <$> l)).
    rewrite join_cons, !Hlen. cbn [String.length]. cbn [fmap list_fmap foldr] in *. lia.
  - destruct Hv as [_ Hl]. cbn [print]. rewrite !Hlen. cbn [String.length].
    change (λ kv : string * jvalue, quoted kv.1 +:+ ":" +:+ print kv.2) with member_text.
    enough (foldr (λ kv n, S (cost kv.2 + n)) 0 l <= 1 + 2 * String.length (join_with "," (member_text <$> l)))%nat
      by lia.
    revert Hn Hl. generalize (d + 1). intros d'. induction l as [|[k v] l IHl]; [cbn; lia|].
    cbn [foldr fst snd]. intros Hn [[Hk Hv] Hl]. specialize (IHl ltac:(lia) Hl).
    specialize (IH v d' ltac:(lia) Hv).
    assert (String.length (print v) < String.length (member_text (k, v)))%nat as Hm
      by (unfold member_text, quoted; cbn [fst snd String.length]; rewrite !Hlen; cbn; lia).
    destruct l as [|kv l]; [cbn [foldr fmap list_fmap join_with]; lia|].
    change (member_text <$> (k, v) :: kv :: l)
      with (member_text (k, v) :: member_text kv :: (member_text <$> l)).
    rewrite join_cons, !Hlen. cbn [String.length]. cbn [fmap list_fmap foldr] in *. lia.
Qed.

Lemma parse_print v : printable 0 v → parse (print v) = Some v.
Proof.
  intros Hv. unfold parse. pose proof (cost_length v 0 Hv) as Hc.
  rewrite <- (string_app_nil_r (print v)) at 2.
  rewrite (parse_print_value (S (cost v))) by (done || lia). done.
Qed.
