(* ===== verification/JsonProps.v ===== *)
(** The properties of the JSON protocol: what is marshalled is read back, on a single line. *)
From S2P Require Import Prelude GoStr Utf8 Protocol Storage Cache GoJson GoJsonFacts.

#[local] Arguments String.append : simpl nomatch.

(** * Storing fields *)

Section fields.
Context {A : Type} (fields : list (field A)).

Lemma store_str name set s a :
  find_field fields (unquote_json name) = Some (name, to_string set) → utf8_valid s = true →
  foldl (store_member fields) (Some a) (str_member name s) = Some (set s a).
Proof. intros Hf Hs. cbn. rewrite Hf. cbn. by rewrite unquote_escape. Qed.

Lemma store_num name read set n a :
  find_field fields (unquote_json name) = Some (name, to_number read set) →
  read (itoa n) = Some n →
  foldl (store_member fields) (Some a) (num_member name n) = Some (set n a).
Proof. intros Hf Hn. cbn. rewrite Hf. cbn. by rewrite Hn. Qed.

(** A field that is left out when empty, and was empty. *)
Lemma store_omit_str name set s a :
  find_field fields (unquote_json name) = Some (name, to_string set) → utf8_valid s = true →
  set "" a = a → foldl (store_member fields) (Some a) (omit_str name s) = Some (set s a).
Proof.
  intros Hf Hs Ha. unfold omit_str. destruct (String.eqb_spec s "") as [->|].
  - cbn. by rewrite Ha.
  - by apply store_str.
Qed.

Lemma store_omit_num name read set n a :
  find_field fields (unquote_json name) = Some (name, to_number read set) →
  read (itoa n) = Some n → set 0 a = a →
  foldl (store_member fields) (Some a) (omit_num name n) = Some (set n a).
Proof.
  intros Hf Hn Ha. unfold omit_num. destruct (Z.eqb_spec n 0) as [->|].
  - cbn. by rewrite Ha.
  - by apply (store_num name read).
Qed.
End fields.

(** * Printable objects *)

Definition good_member (kv : string * jvalue) : Prop := literal kv.1 ∧ printable 1 kv.2.

Lemma printable_obj l : Forall good_member l → printable 0 (JObj l).
Proof.
  intros Hl. split; [done|]. induction Hl as [|kv l Hkv _ IH]; [done|]. by split.
Qed.

Lemma good_str name s : literal name → Forall good_member (str_member name s).
Proof. intros Hn. repeat constructor; [done|]. apply literal_escape. Qed.
Lemma good_num name n : literal name → Forall good_member (num_member name n).
Proof. intros Hn. repeat constructor; [done|apply number_itoa..]. Qed.
Lemma good_omit_str name s : literal name → Forall good_member (omit_str name s).
Proof. intros Hn. unfold omit_str. case_match; [constructor|by apply good_str]. Qed.
Lemma good_omit_num name n : literal name → Forall good_member (omit_num name n).
Proof. intros Hn. unfold omit_num. case_match; [constructor|by apply good_num]. Qed.

(** A name of plain characters. *)
Fixpoint plain_name (s : string) : bool :=
  match s with EmptyString => true | String c s' => plain c && plain_name s' end.

Lemma literal_name s : plain_name s = true → literal s.
Proof.
  induction s as [|c s IH]; cbn; [intros; apply literal_nil|].
  intros [Hc Hs]%andb_true_iff. apply literal_plain; auto.
Qed.

Ltac good_members :=
  repeat (apply Forall_app; split);
  first [apply good_str|apply good_num|apply good_omit_str|apply good_omit_num];
  apply literal_name; by vm_compute.

Lemma message_printable m : printable 0 (message_value m).
Proof. apply printable_obj. good_members. Qed.

(** * Round trips *)

(** A message Go's types can hold, with texts that are UTF-8. *)
Definition valid_message (m : Message) : Prop :=
  Forall (λ s, utf8_valid s = true)
    [Type_ m; ClientMsgID m; ServerMsgID m; ChatID m; From m; To m; Body m] ∧
  in_uint64 (Seq m) ∧ -128 <= Status m < 128 ∧ in_int64 (Ts m).

(** Evaluate the setters on the record built so far, field by field: left to the end, the
    nested projections multiply. *)
Ltac cbn_fields :=
  cbn [Type_ ClientMsgID ServerMsgID ChatID From To Seq Status Body Ts zero_message
       set_ClientMsgID set_From set_Status
       u_ID UserName PasswordHash NickName AvatarURL u_Status u_CreateTime u_UpdateTime
       zero_user] in *.

Lemma message_fields_stored m : valid_message m →
  unmarshal_struct message_fields zero_message (message_value m) = Some m.
Proof.
  intros (Hs & Hseq & Hst & Hts). rewrite !Forall_cons in Hs.
  destruct Hs as (Ht & Hc & Hi & Hch & Hf & Hto & Hb & _).
  unfold message_value, unmarshal_struct. rewrite !foldl_app. destruct m. cbn_fields.
  erewrite store_str by (done || reflexivity). cbn_fields.
  do 5 (erewrite store_omit_str by (done || reflexivity); cbn_fields).
  erewrite store_omit_num by (done || reflexivity || by apply ParseUint_itoa). cbn_fields.
  erewrite store_omit_num by (done || reflexivity || by apply ParseInt8_itoa). cbn_fields.
  erewrite store_omit_str by (done || reflexivity). cbn_fields.
  by erewrite store_omit_num by (done || reflexivity || by apply Atoi_itoa).
Qed.

Section roundtrips.
Context `{GoTimeLaws}.

Lemma unmarshal_print {A} (decode : jvalue → option A) v a :
  printable 0 v → decode v = Some a → unmarshal decode (print v) = inr a.
Proof. intros Hv Ha. unfold unmarshal. rewrite parse_print by done. cbn. by rewrite Ha. Qed.

(** C18. The wire protocol is lossless: a message whose texts are UTF-8 and whose numbers are
    in the range of their Go types is read back from its JSON text exactly, whatever
    characters it contains and whichever fields are empty. *)
Theorem message_roundtrip m :
  valid_message m → json_message_parse (json_message m) = inr m.
Proof.
  intros Hm. change (json_message_parse (json_message m))
    with (unmarshal (unmarshal_struct message_fields zero_message) (print (message_value m))).
  apply unmarshal_print; [apply message_printable|by apply message_fields_stored].
Qed.

Lemma no_lf_escape s : contains_byte "010" (escape s) = false.
Proof.
  assert (∀ c, plain c = true → Ascii.eqb c "010" = false) as Hp.
  { intros c Hc. destruct (Ascii.eqb_spec c "010") as [->|]; [by vm_compute in Hc|done]. }
  apply (map_runes_all (λ t, contains_byte "010" t = false)); try done.
  - intros a b Ha Hb. by rewrite contains_byte_app, Ha, Hb.
  - intros c _. apply negb_true_iff.
    apply (ascii_all (λ c, negb (contains_byte "010" (esc_ascii c)))). by vm_compute.
  - intros c0 c1 [? ?]%rune2_plain. cbn. by rewrite !Hp.
  - intros c0 c1 c2 Hr. unfold esc_rune3. case_match.
    + apply negb_true_iff. apply (ascii_all (λ c, negb (contains_byte "010"
        (esc (String "u" (String "2" (String "0" (String "2"
          (String (hex_digit (N.land (code c) 15)) ""))))))))). by vm_compute.
    + apply rune3_plain in Hr as (? & ? & ?). cbn. by rewrite !Hp.
  - intros c0 c1 c2 c3 (? & ? & ? & ?)%rune4_plain. cbn. by rewrite !Hp.
Qed.

Lemma no_lf_join l : Forall (λ s, contains_byte "010" s = false) l →
  contains_byte "010" (join_with "," l) = false.
Proof.
  induction 1 as [|x l Hx Hl IH]; [done|]. destruct l as [|y l]; [done|].
  rewrite join_cons, !contains_byte_app, Hx, IH. done.
Qed.

Lemma no_lf_itoa n : contains_byte "010" (itoa n) = false.
Proof.
  assert (∀ x, pretty_N_char x ≠ "010"%char) as Hc
    by (intros x; unfold pretty_N_char; by repeat case_match).
  assert (n < 0 ∨ 0 <= n) as [Hn|Hn] by lia; [|by apply itoa_digits].
  rewrite itoa_neg by done. cbn. apply itoa_digits; [lia|done].
Qed.

(** A member whose text has no line feed. *)
Definition lineless (kv : string * jvalue) : Prop := contains_byte "010" (member_text kv) = false.

Lemma lineless_str name s : contains_byte "010" name = false → Forall lineless (str_member name s).
Proof.
  intros Hn. repeat constructor. unfold lineless, member_text, quoted. cbn [fst snd print].
  unfold quoted. cbn. rewrite !contains_byte_app, Hn. cbn. by rewrite contains_byte_app, no_lf_escape.
Qed.
Lemma lineless_num name n : contains_byte "010" name = false → Forall lineless (num_member name n).
Proof.
  intros Hn. repeat constructor. unfold lineless, member_text, quoted. cbn [fst snd print].
  cbn. rewrite !contains_byte_app, Hn. cbn. apply no_lf_itoa.
Qed.

Lemma lineless_obj l : Forall lineless l → contains_byte "010" (print (JObj l)) = false.
Proof.
  intros Hl. cbn [print].
  change (λ kv : string * jvalue, quoted kv.1 +:+ ":" +:+ print kv.2) with member_text.
  rewrite !contains_byte_app, no_lf_join; [done|]. by apply Forall_fmap.
Qed.

(** The wire protocol is line by line: the JSON text of any message whatsoever, also with
    line breaks or bytes that are no UTF-8 in its texts, contains no line feed, so that it is
    one line of the connection. *)
Theorem message_is_one_line m : contains_byte "010" (json_message m) = false.
Proof.
  change (json_message m) with (print (message_value m)). apply lineless_obj.
  unfold omit_str, omit_num.
  repeat (apply Forall_app; split); repeat case_match;
    first [by apply lineless_str|by apply lineless_num|by constructor].
Qed.

(** The lists of strings kept in the cache are read back exactly, the [nil] slice
    distinguished from the empty one. *)
Theorem strings_roundtrip l :
  Forall (λ s, utf8_valid s = true) (default [] l) →
  json_strings_parse (json_strings l) = inr l.
Proof.
  intros Hl. change (json_strings_parse (json_strings l))
    with (unmarshal strings_of (print (strings_value l))).
  destruct l as [l|]; [|done]. change (Forall (λ s, utf8_valid s = true) l) in Hl.
  apply unmarshal_print; cbn.
  - split; [done|]. clear Hl. induction l as [|s l IH]; [done|]. split; [apply literal_escape|done].
  - assert (mapM (λ e, to_string (λ s _ : string, s) e "") ((λ s, JStr (escape s)) <$> l) = Some l)
      as ->; [|done].
    apply mapM_Some. induction Hl as [|s l Hs _ IH]; constructor; [|done].
    cbn. by rewrite unquote_escape.
Qed.

(** A user row Go's types can hold. *)
Definition valid_user (u : User) : Prop :=
  Forall (λ s, utf8_valid s = true) [UserName u; PasswordHash u; NickName u; AvatarURL u] ∧
  in_uint64 (u_ID u) ∧ -128 <= u_Status u < 128.

Lemma store_time {A} (fields : list (field A)) name set t a :
  find_field fields (unquote_json name) = Some (name, to_time set) →
  store_member fields (Some a) (name, JStr (time_text t)) = Some (set t a).
Proof. intros Hf. cbn. rewrite Hf. cbn. by rewrite time_round. Qed.

Lemma user_printable u : printable 0 (user_value u).
Proof.
  apply printable_obj. repeat (apply Forall_app; split);
    try (first [apply good_str|apply good_num]; apply literal_name; by vm_compute).
  repeat constructor; try (apply literal_name; by vm_compute); cbn;
    rewrite <- (proj2 (time_plain _)); apply literal_escape.
Qed.

(** The accounts kept in the cache are read back exactly. *)
Theorem user_roundtrip u : valid_user u → json_user_parse (json_user u) = inr u.
Proof.
  intros (Hs & Hid & Hst). rewrite !Forall_cons in Hs. destruct Hs as (Hn & Hp & Hk & Ha & _).
  change (json_user_parse (json_user u))
    with (unmarshal (unmarshal_struct user_fields zero_user) (print (user_value u))).
  apply unmarshal_print.
  - apply user_printable.
  - unfold user_value, unmarshal_struct. rewrite !foldl_app. destruct u. cbn_fields.
    erewrite store_num by (done || reflexivity || by apply ParseUint_itoa). cbn_fields.
    do 4 (erewrite store_str by (done || reflexivity); cbn_fields).
    erewrite store_num by (done || reflexivity || by apply ParseInt8_itoa). cbn_fields.
    cbn [foldl]. do 2 (erewrite store_time by (done || reflexivity); cbn_fields). done.
Qed.
End roundtrips.

(** * Witnesses *)

(** Times as decimal numbers, for the witnesses. *)
Definition number_time : GoTime := {|
  time_text := itoa;
  time_parse s := match s with
                  | String "-" s' => Z.opp <$> parse_digits s'
                  | _ => parse_digits s
                  end;
  json_error _ := "invalid JSON"
|}.

(** Characters that are written as they are. *)
Fixpoint all_safe (s : string) : bool :=
  match s with EmptyString => true | String c s' => html_safe c && all_safe s' end.

Lemma safe_ascii c : html_safe c = true → between 0 127 c = true.
Proof.
  intros Hc. assert (implb (html_safe c) (between 0 127 c) = true) as Hi
    by (apply (ascii_all (λ c, implb (html_safe c) (between 0 127 c))); by vm_compute).
  by rewrite Hc in Hi.
Qed.

Lemma escape_safe s : all_safe s = true → utf8_valid s = true ∧ escape s = s.
Proof.
  induction s as [|c s IH]; [done|]. cbn [all_safe]. intros [Hc Hs]%andb_true_iff.
  destruct (IH Hs) as [IH1 IH2]. unfold escape. cbn [utf8_valid map_runes].
  rewrite (safe_ascii c Hc). split; [done|]. unfold esc_ascii. rewrite Hc.
  change (String c (escape s) = String c s). by rewrite IH2.
Qed.

Lemma itoa_safe n : all_safe (itoa n) = true.
Proof.
  assert (∀ t, all_digits t = true → all_safe t = true) as Hd.
  { induction t as [|c t IH]; [done|]. cbn [all_digits all_safe]. intros [Hc Ht]%andb_true_iff.
    rewrite IH by done. rewrite andb_true_r.
    assert (implb (is_digit c) (html_safe c) = true) as Hi
      by (apply (ascii_all (λ c, implb (is_digit c) (html_safe c))); by vm_compute).
    by rewrite Hc in Hi. }
  assert (∀ m, 0 <= m → all_safe (itoa m) = true) as Hpos.
  { intros m Hm. destruct (itoa_shape m Hm) as [->|(c & t & -> & Hc & _ & Ht)]; [done|].
    apply Hd. cbn. by rewrite Hc. }
  assert (n < 0 ∨ 0 <= n) as [Hn|Hn] by lia; [|by apply Hpos].
  rewrite itoa_neg by done. cbn [all_safe]. rewrite Hpos by lia. done.
Qed.

Lemma number_time_laws : @GoTimeLaws number_time.
Proof.
  split; [|intros t; apply escape_safe, itoa_safe]. intros t. cbn.
  assert (t < 0 ∨ 0 <= t) as [Hn|Hn] by lia.
  - rewrite itoa_neg by done. rewrite parse_digits_itoa by lia. cbn. by rewrite Z.opp_involutive.
  - pose proof (parse_digits_itoa t Hn) as Hp.
    destruct (itoa_shape t Hn) as [E|(c & s & E & Hc & _)]; rewrite E in *; [done|].
    apply digit_not_sign in Hc as [H1 _]. apply Ascii.eqb_neq in H1.
    destruct c as [[] [] [] [] [] [] [] []]; done.
Qed.

#[local] Existing Instances number_time number_time_laws.

(** Quotes, a line break, Chinese text and the greatest sequence number. *)
Definition odd_message : Message :=
  mkMessage TypeDeliver "" "s-1" "c2c:alice:bob" "alice" "bob" (2 ^ 64 - 1) (-128)
    ("<" +:+ String quote "" +:+ "你好" +:+ String "010" "\") (-1).

Lemma message_roundtrip_witness :
  json_message odd_message =
    "{" +:+ member_text ("type", JStr "deliver") +:+ "," +:+
    member_text ("server_msg_id", JStr "s-1") +:+ "," +:+
    member_text ("chat_id", JStr "c2c:alice:bob") +:+ "," +:+
    member_text ("from", JStr "alice") +:+ "," +:+ member_text ("to", JStr "bob") +:+ "," +:+
    member_text ("seq", JNum "18446744073709551615") +:+ "," +:+
    member_text ("status", JNum "-128") +:+ "," +:+
    member_text ("body", JStr ("\u003c\" +:+ String quote "你好\n\\")) +:+ "," +:+
    member_text ("ts", JNum "-1") +:+ "}" ∧
  json_message_parse (json_message odd_message) = inr odd_message.
Proof.
  split; [by vm_compute|]. apply message_roundtrip.
  split_and!; [repeat constructor|..]; by vm_compute.
Defined.

Lemma strings_roundtrip_witness :
  json_strings_parse (json_strings (Some ["bob"; "你好"; ""])) = inr (Some ["bob"; "你好"; ""]).
Proof. apply strings_roundtrip. repeat constructor. Defined.

Lemma user_roundtrip_witness :
  json_user_parse (json_user (mkUser 7 "bob" "$2a$10$" "" "" 1 1700000000000000000 0))
    = inr (mkUser 7 "bob" "$2a$10$" "" "" 1 1700000000000000000 0).
Proof.
  apply user_roundtrip. split_and!; [repeat constructor|by vm_compute..].
Defined.
