(* ===== verification/Dao.v ===== *)
(** Package [dao] (src/internal/dao): users, messages and recipient rows over the database
    and the cache. The accounts of the session layer come from here. *)
From S2P Require Import Prelude GoStr Protocol Storage Cache.

Section dao.
Context `{GoEnv} {D R : Type} `{Gorm D} `{Redis R} `{Json}.

Abbreviation MX := (M (Ext D R)).

Definition no_db_cn : error := Err "数据库未初始化".
Definition no_db : error := Err "database not initialized".
Definition user_ttl : Z := 30 * 60 * Second.

(** * user.go *)

Definition CreateUser (user : option User) : MX (option error) := λ x,
  match user with
  | None => (Some (Err "user 不存在"), x)
  | Some u =>
    if negb (x_dbinit x) then (Some no_db_cn, x)
    else
      (r ← on_db (t_create Users false u);
       match r with
       | inl err => mret (Some err)
       | inr row => cache_set (UserKey (UserName row)) (json_user row) user_ttl;; mret None
       end) x
  end.

Definition GetUserByID (id : Z) : MX (error + User) := λ x,
  if negb (x_dbinit x) then (inl no_db_cn, x)
  else on_db (t_take Users (mkQuery (λ u, u_ID u =? id) (Asc u_ID) 0 0)) x.

(** The user kept in the cache under a name, if it reads back. *)
Definition cached_user (name : string) : MX (option User) :=
  v ← cache_get (UserKey name);
  mret (v ← v;
        if String.eqb v "" then None
        else match json_user_parse v with inr u => Some u | inl _ => None end).

Definition GetUserByName (name : string) : MX (error + User) := λ x,
  if negb (x_dbinit x) then (inl no_db_cn, x)
  else
    (c ← cached_user name;
     match c with
     | Some u => mret (inr u)
     | None =>
       r ← on_db (t_take Users (mkQuery (λ u, sql_eq (UserName u) name) (Asc u_ID) 0 0));
       match r with
       | inl err => mret (inl err)
       | inr u => cache_set (UserKey name) (json_user u) user_ttl;; mret (inr u)
       end
     end) x.

(** [Update("status", status)]. *)
Definition with_status (status : Z) (u : User) : User :=
  mkUser (u_ID u) (UserName u) (PasswordHash u) (NickName u) (AvatarURL u) status
    (u_CreateTime u) (u_UpdateTime u).

(** The two ways to find the user: a name that reads as a number is taken for an id. *)
Definition update_by_id (id status : Z) : MX (option error) :=
  r ← on_db (t_updates Users (λ u, u_ID u =? id) (with_status status));
  match r with
  | (Some err, _) => mret (Some err)
  | (None, n) =>
    if n =? 0 then mret (Some ErrRecordNotFound)
    else
      c ← gets x_redis;
      match c with
      | None => mret None
      | Some _ =>
        u ← GetUserByID id;
        match u with
        | inr u => cache_del (UserKey (UserName u))
        | inl _ => mret tt
        end;;
        mret None
      end
  end.

Definition update_by_name (name : string) (status : Z) : MX (option error) :=
  r ← on_db (t_updates Users (λ u, sql_eq (UserName u) name) (with_status status));
  match r with
  | (Some err, _) => mret (Some err)
  | (None, n) =>
    if n =? 0 then mret (Some ErrRecordNotFound)
    else cache_del (UserKey name);; mret None
  end.

Definition UpdateUserStatus (userID : string) (status : Z) : MX (option error) := λ x,
  if negb (x_dbinit x) then (Some no_db_cn, x)
  else if String.eqb userID "" then (Some (Err "userID 为空"), x)
  else match ParseUint userID with
       | Some id => update_by_id id status x
       | None => update_by_name userID status x
       end.

(** * message.go *)

Definition dao_SaveMessage (msg : option DBMessage) : MX (option error) := λ x,
  match msg with
  | None => (Some (Err "msg 不存在"), x)
  | Some m =>
    if negb (x_dbinit x) then (Some (Err "DB 未初始化"), x)
    else (r ← on_db (t_create Messages false m);
          mret (match r with inl err => Some err | inr _ => None end)) x
  end.

Definition GetMessagesByChatID (chatID : string) (limit offset : Z) :
    MX (error + list DBMessage) := λ x,
  if negb (x_dbinit x) then (inl (Err "DB 未初始化"), x)
  else on_db (t_find Messages (mkQuery (λ m, sql_eq (m_ChatID m) chatID) (Desc m_Seq)
                 limit (if 0 <? offset then offset else 0))) x.

Definition GetMessagesBySeq (chatID : string) (startSeq endSeq : Z) :
    MX (error + list DBMessage) := λ x,
  if negb (x_dbinit x) then (inl no_db, x)
  else if endSeq <? startSeq then (inr [], x)
  else on_db (t_find Messages (mkQuery
         (λ m, sql_eq (m_ChatID m) chatID && (startSeq <=? m_Seq m) && (m_Seq m <=? endSeq))
         (Asc m_Seq) 0 0)) x.

Definition with_msg_status (status : Z) (m : DBMessage) : DBMessage :=
  mkDBMessage (m_ID m) (m_ClientMsgID m) (m_ServerMsgID m) (m_Seq m) (ChatType m) (m_ChatID m)
    (SendID m) (RecvID m) (ContentType m) (Content m) status (m_CreateTime m).

Definition UpdateMessageStatus (serverMsgID : string) (status : Z) : MX (option error) := λ x,
  if negb (x_dbinit x) then (Some no_db, x)
  else if String.eqb serverMsgID "" then (Some (Err "serverMsgID is empty"), x)
  else
    (r ← on_db (t_updates Messages (λ m, sql_eq (m_ServerMsgID m) serverMsgID)
                  (with_msg_status status));
     mret (match r with
           | (Some err, _) => Some err
           | (None, n) => if n =? 0 then Some ErrRecordNotFound else None
           end)) x.

Definition GetLatestSeq (chatID : string) : MX (Z * option error) := λ x,
  if negb (x_dbinit x) then ((0, Some no_db), x)
  else
    (r ← on_db (t_take Messages (mkQuery (λ m, sql_eq (m_ChatID m) chatID) (Desc m_Seq) 1 0));
     mret (match r with
           | inl ErrRecordNotFound => (0, None)
           | inl err => (0, Some err)
           | inr m => (m_Seq m, None)
           end)) x.

(** * recipient.go *)

Definition SaveMessageRecipient (recipient : option MessageRecipient) : MX (option error) := λ x,
  match recipient with
  | None => (Some (Err "recipient is nil"), x)
  | Some r =>
    if negb (x_dbinit x) then (Some no_db, x)
    else (r ← on_db (t_create Recipients false r);
          mret (match r with inl err => Some err | inr _ => None end)) x
  end.

(** The column updates of the two marks. *)
Definition delivered_row (now : Z) (r : MessageRecipient) : MessageRecipient :=
  mkRecipient (r_ID r) (r_ServerMsgID r) (ToUser r) 1 (RetryCount r) (r_NextRetryAt r)
    (r_LastError r) (Some now) (Some now) (ReadAt r) (r_CreateTime r) (r_UpdateTime r).
Definition read_mark_row (now : Z) (r : MessageRecipient) : MessageRecipient :=
  mkRecipient (r_ID r) (r_ServerMsgID r) (ToUser r) 2 (RetryCount r) (r_NextRetryAt r)
    (r_LastError r) (LastSendAt r) (Some now) (Some now) (r_CreateTime r) (r_UpdateTime r).

Definition mark_recipient (serverMsgID toUser : string)
    (f : Z → MessageRecipient → MessageRecipient) : MX (option error) := λ x,
  if negb (x_dbinit x) then (Some no_db, x)
  else
    (now ← Now;
     r ← on_db (t_updates Recipients
            (λ r, sql_eq (r_ServerMsgID r) serverMsgID && sql_eq (ToUser r) toUser) (f now));
     mret (match r with
           | (Some err, _) => Some err
           | (None, n) => if n =? 0 then Some ErrRecordNotFound else None
           end)) x.

Definition MarkRecipientDelivered (serverMsgID toUser : string) : MX (option error) :=
  mark_recipient serverMsgID toUser delivered_row.
Definition MarkRecipientRead (serverMsgID toUser : string) : MX (option error) :=
  mark_recipient serverMsgID toUser read_mark_row.

Definition ListPendingByUser (toUser : string) (limit : Z) :
    MX (error + list MessageRecipient) := λ x,
  if negb (x_dbinit x) then (inl no_db, x)
  else on_db (t_find Recipients (mkQuery
         (λ r, sql_eq (ToUser r) toUser && (r_Status r =? 0)) (Asc r_ID) limit 0)) x.
End dao.
