(* ===== verification/Store.v ===== *)
(** Package [store]: the message store, in memory and over the database with the cache in
    front of it. One definition per method of [InMemoryStore]; each method is atomic here
    (the mutex is held around the memory parts; the interleavings of whole calls are those
    of [Worker]'s and the server's steps). The facts about these definitions are in
    [StoreFacts]. *)
From S2P Require Import Prelude GoStr Protocol StoreIface Storage Cache.

(** * Data *)

Record DeliveryEntry := mkEntry {
  e_To : string; Acked : bool; Read : bool; Dead : bool;
  Retry : Z; LastSent : Z; NextRetryAt : Z; LastError : string
}.

#[global] Instance DeliveryEntry_eq_dec : EqDecision DeliveryEntry.
Proof. solve_decision. Defined.

(** [&DeliveryEntry{To: to}]. *)
Definition new_entry (to : string) : DeliveryEntry := mkEntry to false false false 0 0 0 "".

Record InMemoryStore := mkStore {
  nextSeq : gmap string Z;
  messages : gmap string Message;
  byClient : gmap string (gmap string Message);
  deliveries : gmap string (gmap string DeliveryEntry);
  persistent : bool
}.

(** [NewInMemoryStore]; its argument is [storage.DB != nil]. *)
Definition NewInMemoryStore (dbinit : bool) : InMemoryStore := mkStore ∅ ∅ ∅ ∅ dbinit.

Definition set_nextSeq (m : gmap string Z) (s : InMemoryStore) : InMemoryStore :=
  mkStore m (messages s) (byClient s) (deliveries s) (persistent s).
Definition set_deliveries (m : gmap string (gmap string DeliveryEntry)) (s : InMemoryStore) :
    InMemoryStore :=
  mkStore (nextSeq s) (messages s) (byClient s) m (persistent s).

(** * Helpers *)

(** [dedupeStrings]: the loop with its [seen] set. *)
Fixpoint dedupe_loop (seen : gset string) (l : list string) : list string :=
  match l with
  | [] => []
  | item :: l' =>
    if String.eqb item "" then dedupe_loop seen l'
    else if decide (item ∈ seen) then dedupe_loop seen l'
    else item :: dedupe_loop ({[item]} ∪ seen) l'
  end.
Definition dedupeStrings (l : list string) : list string := dedupe_loop ∅ l.

(** [reverseMessages]: swap the ends and move inwards, [fuel] swaps at most. *)
Fixpoint reverse_loop {A} (fuel i j : nat) (l : list A) : list A :=
  match fuel with
  | O => l
  | S fuel' =>
    if (i <? j)%nat then
      match l !! i, l !! j with
      | Some x, Some y => reverse_loop fuel' (S i) (pred j) (<[i:=y]> (<[j:=x]> l))
      | _, _ => l
      end
    else l
  end.
Definition reverseMessages (l : list Message) : list Message :=
  reverse_loop (length l) 0 (pred (length l)) l.

(** [if limit > 0 && len(out) > limit { out = out[:limit] }]. *)
Definition clip {A} (limit : Z) (l : list A) : list A :=
  if (0 <? limit) && (limit <? Z.of_nat (length l)) then take (Z.to_nat limit) l else l.

Definition toDBMessage (m : Message) : DBMessage :=
  mkDBMessage 0 (ClientMsgID m) (ServerMsgID m) (Seq m) 1 (ChatID m) (From m) (To m) 1
    (Body m) 0 0.

Definition fromDBMessage (m : DBMessage) : Message :=
  mkMessage TypeDeliver (m_ClientMsgID m) (m_ServerMsgID m) (m_ChatID m) (SendID m)
    (RecvID m) (m_Seq m) 0 (Content m) (Unix (m_CreateTime m)).

(** The memory part of [SaveDelivery]. *)
Definition saveDeliveryUnsafe (serverMsgID to : string) (s : InMemoryStore) : InMemoryStore :=
  let d := match deliveries s !! serverMsgID with
           | None => <[serverMsgID := ∅]> (deliveries s)
           | Some _ => deliveries s
           end in
  let m := default ∅ (d !! serverMsgID) in
  set_deliveries (match m !! to with
                  | None => <[serverMsgID := <[to := new_entry to]> m]> d
                  | Some _ => d
                  end) s.

Definition saveMessageUnsafe (msg : Message) (s : InMemoryStore) : InMemoryStore :=
  let ms := <[ServerMsgID msg := msg]> (messages s) in
  let bc :=
    if negb (String.eqb (From msg) "") && negb (String.eqb (ClientMsgID msg) "") then
      let b := match byClient s !! From msg with
               | None => <[From msg := ∅]> (byClient s)
               | Some _ => byClient s
               end in
      <[From msg := <[ClientMsgID msg := msg]> (default ∅ (b !! From msg))]> b
    else byClient s in
  mkStore (nextSeq s) ms bc (deliveries s) (persistent s).

(** Change the entry of one delivery, if it is there. *)
Definition update_entry (serverMsgID to : string) (f : DeliveryEntry → DeliveryEntry)
    (s : InMemoryStore) : InMemoryStore :=
  match deliveries s !! serverMsgID with
  | Some m =>
    match m !! to with
    | Some e => set_deliveries (<[serverMsgID := <[to := f e]> m]> (deliveries s)) s
    | None => s
    end
  | None => s
  end.

Definition entry_of (serverMsgID to : string) (s : InMemoryStore) : option DeliveryEntry :=
  m ← deliveries s !! serverMsgID; m !! to.

Definition sent_entry (now : Z) (e : DeliveryEntry) : DeliveryEntry :=
  mkEntry (e_To e) (Acked e) (Read e) (Dead e) (wrap64 (Retry e + 1)) now (NextRetryAt e)
    (LastError e).
Definition acked_entry (e : DeliveryEntry) : DeliveryEntry :=
  mkEntry (e_To e) true (Read e) (Dead e) (Retry e) (LastSent e) (NextRetryAt e) (LastError e).
Definition read_entry (e : DeliveryEntry) : DeliveryEntry :=
  mkEntry (e_To e) true true (Dead e) (Retry e) (LastSent e) (NextRetryAt e) (LastError e).

(** [1 << exp] with the exponent capped at 6, times the base delay. *)
Definition backoff (baseBackoff retry : Z) : Z :=
  let exp := wrap64 (retry - 1) in
  let exp := if 6 <? exp then 6 else exp in
  wrap64 (baseBackoff * wrap64 (Z.shiftl 1 exp)).

(** The entry after a failed attempt; the flag says whether it is now dead. *)
Definition retry_entry (maxRetries baseBackoff now : Z) (errText : string)
    (e : DeliveryEntry) : DeliveryEntry * bool :=
  let r := wrap64 (Retry e + 1) in
  if maxRetries <=? r
  then (mkEntry (e_To e) (Acked e) (Read e) true r (LastSent e) (NextRetryAt e) errText, true)
  else (mkEntry (e_To e) (Acked e) (Read e) (Dead e) r (LastSent e)
          (Unix (now + backoff baseBackoff r)) errText, false).

(** * The methods *)

(** The store, and the world its methods reach. *)
Record SW (D R : Type) := mkSW { sw_mem : InMemoryStore; sw_ext : Ext D R }.
Arguments mkSW {D R}.
Arguments sw_mem {D R}.
Arguments sw_ext {D R}.

Section store.
Context `{GoEnv} {D R : Type} `{Gorm D} `{Redis R} `{Json}.

Abbreviation MS := (M (SW D R)).

Definition mem {A} (f : InMemoryStore → A) : MS A := gets (λ w, f (sw_mem w)).
Definition get_mem : MS InMemoryStore := gets sw_mem.
Definition mem_modify (f : InMemoryStore → InMemoryStore) : MS unit :=
  modify (λ w, mkSW (f (sw_mem w)) (sw_ext w)).
Definition ext {A} (m : M (Ext D R) A) : MS A :=
  zoom sw_ext (λ x w, mkSW (sw_mem w) x) m.

(** [Where("server_msg_id = ? AND to_user = ?", serverMsgID, to)]. *)
Definition where_delivery (serverMsgID to : string) (r : MessageRecipient) : bool :=
  sql_eq (r_ServerMsgID r) serverMsgID && sql_eq (ToUser r) to.
(** [Where("server_msg_id = ? AND status = 0", serverMsgID)]. *)
Definition where_pending (serverMsgID : string) (r : MessageRecipient) : bool :=
  sql_eq (r_ServerMsgID r) serverMsgID && (r_Status r =? 0).

(** ** messages.go *)

Definition NextSeq (chatID0 : string) : MS (Z * option error) :=
  let chatID := if String.eqb chatID0 "" then "default" else chatID0 in
  s ← get_mem;
  match nextSeq s !! chatID, persistent s with
  | None, true =>
    r ← ext (on_db (t_max Messages (λ r, sql_eq (m_ChatID r) chatID) m_Seq));
    match r with
    | inr maxSeq => mem_modify (λ s, set_nextSeq (<[chatID := maxSeq]> (nextSeq s)) s)
    | inl _ => mret tt
    end
  | _, _ => mret tt
  end;;
  s ← get_mem;
  let seq := wrapu64 (default 0 (nextSeq s !! chatID) + 1) in
  mem_modify (set_nextSeq (<[chatID := seq]> (nextSeq s)));;
  mret (seq, None).

(** The recipient rows of a message, inside the transaction. *)
Fixpoint create_recipients (serverMsgID : string) (l : list string) : M D (option error) :=
  match l with
  | [] => mret None
  | to :: l' =>
    if String.eqb to "" then create_recipients serverMsgID l'
    else
      r ← t_create Recipients true (new_recipient serverMsgID to);
      match r with
      | inl err => mret (Some err)
      | inr _ => create_recipients serverMsgID l'
      end
  end.

Definition save_tx (msg : Message) (recipients : list string) : M D (option error) :=
  r ← t_create Messages true (toDBMessage msg);
  match r with
  | inl err => mret (Some err)
  | inr _ => create_recipients (ServerMsgID msg) recipients
  end.

(** The cache part of a save: a slice of strings is [None] when [nil]. *)
Definition cache_message (msg : Message) (recipients : option (list string)) : MS unit :=
  ext (cache_set (RecipientsKey (ServerMsgID msg)) (json_strings recipients) (5 * Second));;
  forM (default [] recipients) (λ to, when (negb (String.eqb to ""))
                                        (ext (cache_del (PendingUserKey to))));;
  ext (cache_del PendingDueKey);;
  ext (cache_del PendingRecoverKey).

(** The database and cache part. *)
Definition persist_message (msg : Message) (recipients : option (list string)) :
    MS (option error) :=
  err ← ext (on_db (Transaction (save_tx msg (default [] recipients))));
  match err with
  | Some e => mret (Some e)
  | None => cache_message msg recipients;; mret None
  end.

(** The memory part, under the mutex. *)
Definition remember_message (msg : Message) (tos : list string) : MS (option error) :=
  mem_modify (saveMessageUnsafe msg);;
  forM tos (λ to, mem_modify (saveDeliveryUnsafe (ServerMsgID msg) to));;
  mret None.

Definition SaveMessageWithRecipients (msg : option Message)
    (recipients : option (list string)) : MS (option error) :=
  match msg with
  | None => mret (Some (Err "invalid message"))
  | Some msg =>
    if String.eqb (ServerMsgID msg) "" then mret (Some (Err "invalid message"))
    else
      p ← mem persistent;
      if (p : bool) then
        err ← persist_message msg recipients;
        match err with
        | Some e => mret (Some e)
        | None => remember_message msg (default [] recipients)
        end
      else remember_message msg (default [] recipients)
  end.

Definition SaveMessage (msg : option Message) : MS (option error) :=
  SaveMessageWithRecipients msg None.

Definition GetMessageByClientID (from clientMsgID : string) : MS (option Message) :=
  s ← get_mem;
  let usable := negb (String.eqb from "") && negb (String.eqb clientMsgID "") in
  let hit := if usable then m ← byClient s !! from; m !! clientMsgID else None in
  match hit with
  | Some msg => mret (Some msg)
  | None =>
    if negb (persistent s) || negb usable then mret None
    else
      r ← ext (on_db (t_take Messages
             (mkQuery (λ r, sql_eq (SendID r) from && sql_eq (m_ClientMsgID r) clientMsgID)
                NoOrder 0 0)));
      match r with
      | inl _ => mret None
      | inr row =>
        let msg := fromDBMessage row in
        mem_modify (saveMessageUnsafe msg);; mret (Some msg)
      end
  end.

(** delivery.go: the rows of a message that is not there. *)
Definition markRecipientRowsDeadIfMessageMissing (serverMsgID reason0 : string) : MS unit :=
  p ← mem persistent;
  if negb p || String.eqb serverMsgID "" then mret tt
  else
    let reason := if String.eqb reason0 "" then "message not found" else reason0 in
    ext (on_db (t_updates Recipients (where_pending serverMsgID)
      (λ r, mkRecipient (r_ID r) (r_ServerMsgID r) (ToUser r) 3 (RetryCount r) None reason
              (LastSendAt r) (AckedAt r) (ReadAt r) (r_CreateTime r) (r_UpdateTime r))));;
    mret tt.

Definition GetMessageByServerID (serverMsgID : string) : MS (option Message) :=
  s ← get_mem;
  match messages s !! serverMsgID with
  | Some msg => mret (Some msg)
  | None =>
    if negb (persistent s) || String.eqb serverMsgID "" then mret None
    else
      r ← ext (on_db (t_take Messages
             (mkQuery (λ r, sql_eq (m_ServerMsgID r) serverMsgID) NoOrder 0 0)));
      match r with
      | inl ErrRecordNotFound =>
        markRecipientRowsDeadIfMessageMissing serverMsgID "message not found";; mret None
      | inl _ => mret None
      | inr row =>
        let msg := fromDBMessage row in
        mem_modify (saveMessageUnsafe msg);; mret (Some msg)
      end
  end.

(** ** delivery.go *)

Definition SaveDelivery (serverMsgID to : string) : MS (option error) :=
  if String.eqb serverMsgID "" || String.eqb to "" then mret None
  else
    mem_modify (saveDeliveryUnsafe serverMsgID to);;
    p ← mem persistent;
    if negb p then mret None
    else
      r ← ext (on_db (t_create Recipients true (new_recipient serverMsgID to)));
      match r with
      | inl err => mret (Some err)
      | inr _ =>
        ext (cache_del (RecipientsKey serverMsgID));;
        ext (cache_del (PendingUserKey to));;
        mret None
      end.

Definition pending_entry (e : DeliveryEntry) : bool :=
  negb (Acked e) && negb (Read e) && negb (Dead e).

Definition GetRecipients (serverMsgID : string) : MS (list string) :=
  s ← get_mem;
  kvs ← match deliveries s !! serverMsgID with
        | Some m => ext (range_map m)
        | None => mret []
        end;
  let res := (List.filter (λ kv, pending_entry kv.2) kvs).*1 in
  if negb (bool_decide (res = [])) || negb (persistent s) then mret res
  else
    v ← ext (cache_get (RecipientsKey serverMsgID));
    let cached := v ← v;
                  if String.eqb v "" then None
                  else match json_strings_parse v with inr out => Some out | inl _ => None end
    in
    match cached with
    | Some out =>
      forM (default [] out) (λ to, mem_modify (saveDeliveryUnsafe serverMsgID to));;
      mret (default [] out)
    | None =>
      r ← ext (on_db (t_find Recipients (mkQuery (where_pending serverMsgID) NoOrder 0 0)));
      match r with
      | inl _ => mret []
      | inr rows =>
        forM rows (λ row, mem_modify (saveDeliveryUnsafe (r_ServerMsgID row) (ToUser row)));;
        let res := ToUser <$> rows in
        when (negb (bool_decide (res = [])))
          (ext (cache_set (RecipientsKey serverMsgID) (json_strings (Some res))
                  (5 * Second)));;
        mret res
      end
    end.

(** The column updates of the three marks. *)
Definition sent_row (now : Z) (lastError : string) (r : MessageRecipient) :
    MessageRecipient :=
  mkRecipient (r_ID r) (r_ServerMsgID r) (ToUser r) (r_Status r) (RetryCount r + 1)
    (r_NextRetryAt r) lastError (Some now) (AckedAt r) (ReadAt r) (r_CreateTime r)
    (r_UpdateTime r).
Definition acked_row (now : Z) (r : MessageRecipient) : MessageRecipient :=
  mkRecipient (r_ID r) (r_ServerMsgID r) (ToUser r)
    (if r_Status r <? 1 then 1 else r_Status r) (RetryCount r) (r_NextRetryAt r)
    (r_LastError r) (LastSendAt r) (Some now) (ReadAt r) (r_CreateTime r) (r_UpdateTime r).
Definition read_row (now : Z) (r : MessageRecipient) : MessageRecipient :=
  mkRecipient (r_ID r) (r_ServerMsgID r) (ToUser r) 2 (RetryCount r) (r_NextRetryAt r)
    (r_LastError r) (LastSendAt r) (Some now) (Some now) (r_CreateTime r) (r_UpdateTime r).

Definition MarkDeliverySent (serverMsgID to : string) (sendErr : option error) :
    MS (option error) :=
  s ← get_mem;
  match entry_of serverMsgID to s with
  | Some _ =>
    now ← ext Now;
    mem_modify (update_entry serverMsgID to (sent_entry (Unix now)))
  | None => mret tt
  end;;
  if negb (persistent s) || String.eqb serverMsgID "" || String.eqb to "" then mret None
  else
    now ← ext Now;
    let lastError := match sendErr with Some e => Error e | None => "" end in
    r ← ext (on_db (t_updates Recipients (where_delivery serverMsgID to)
                      (sent_row now lastError)));
    mret r.1.

(** The cache keys every acknowledgement invalidates. *)
Definition invalidate_delivery (serverMsgID to : string) : MS unit :=
  ext (cache_del (RecipientsKey serverMsgID));; ext (cache_del (PendingUserKey to)).

Definition MarkDeliveryAcked (serverMsgID to : string) : MS (option error) :=
  mem_modify (update_entry serverMsgID to acked_entry);;
  p ← mem persistent;
  if negb p then mret None
  else
    now ← ext Now;
    r ← ext (on_db (t_updates Recipients (where_delivery serverMsgID to) (acked_row now)));
    match r.1 with
    | Some err => mret (Some err)
    | None => invalidate_delivery serverMsgID to;; mret None
    end.

Definition MarkDeliveryRead (serverMsgID to : string) : MS (option error) :=
  mem_modify (update_entry serverMsgID to read_entry);;
  p ← mem persistent;
  if negb p then mret None
  else
    now ← ext Now;
    r ← ext (on_db (t_updates Recipients (where_delivery serverMsgID to) (read_row now)));
    match r.1 with
    | Some err => mret (Some err)
    | None => invalidate_delivery serverMsgID to;; mret None
    end.

(** The counter an entry falls into. *)
Definition count_entry (e : DeliveryEntry) (st : DeliveryStatusStats) : DeliveryStatusStats :=
  if Dead e then mkStats (Pending st) (Delivered st) (ReadN st) (wrap64 (DeadN st + 1))
  else if Read e then mkStats (Pending st) (Delivered st) (wrap64 (ReadN st + 1)) (DeadN st)
  else if Acked e then mkStats (Pending st) (wrap64 (Delivered st + 1)) (ReadN st) (DeadN st)
  else mkStats (wrap64 (Pending st + 1)) (Delivered st) (ReadN st) (DeadN st).

Definition stats_row (st : DeliveryStatusStats) (row : Z * Z) : DeliveryStatusStats :=
  let (status, count) := row in
  if status =? 0 then mkStats count (Delivered st) (ReadN st) (DeadN st)
  else if status =? 1 then mkStats (Pending st) count (ReadN st) (DeadN st)
  else if status =? 2 then mkStats (Pending st) (Delivered st) count (DeadN st)
  else if status =? 3 then mkStats (Pending st) (Delivered st) (ReadN st) count
  else st.

(** The entries a double [range] over the deliveries visits. *)
Fixpoint range_entries (l : list (string * gmap string DeliveryEntry)) :
    MS (list DeliveryEntry) :=
  match l with
  | [] => mret []
  | (_, m) :: l' =>
    kvs ← ext (range_map m);
    rest ← range_entries l';
    mret (kvs.*2 ++ rest)
  end.

Definition DeliveryStats : MS DeliveryStatusStats :=
  s ← get_mem;
  if negb (persistent s) then
    ms ← ext (range_map (deliveries s));
    es ← range_entries ms;
    mret (foldl (λ st e, count_entry e st) (mkStats 0 0 0 0) es)
  else
    r ← ext (on_db (t_count_by Recipients r_Status));
    mret (foldl stats_row (mkStats 0 0 0 0) (match r with inr rows => rows | inl _ => [] end)).

(** ** retry.go *)

(** The keys a dead letter invalidates. *)
Definition invalidate_dead (serverMsgID to : string) : MS unit :=
  ext (cache_del (RecipientsKey serverMsgID));;
  ext (cache_del (PendingUserKey to));;
  ext (cache_del PendingDueKey);;
  ext (cache_del PendingRecoverKey).

Definition dead_row (retry : Z) (errText : string) (r : MessageRecipient) :
    MessageRecipient :=
  mkRecipient (r_ID r) (r_ServerMsgID r) (ToUser r) 3 retry None errText (LastSendAt r)
    (AckedAt r) (ReadAt r) (r_CreateTime r) (r_UpdateTime r).

Definition retry_row (retry nextRetryAt : Z) (errText : string) (r : MessageRecipient) :
    MessageRecipient :=
  mkRecipient (r_ID r) (r_ServerMsgID r) (ToUser r) (r_Status r) retry (Some nextRetryAt)
    errText (LastSendAt r) (AckedAt r) (ReadAt r) (r_CreateTime r) (r_UpdateTime r).

(** The part of [ScheduleRetry] after the memory entry said the delivery is dead. *)
Definition schedule_dead (serverMsgID to errText : string) (retry : Z) :
    MS (bool * option error) :=
  p ← mem persistent;
  if negb p then mret (true, None)
  else
    r ← ext (on_db (t_updates Recipients (where_delivery serverMsgID to)
                      (dead_row retry errText)));
    match r.1 with
    | Some err => mret (true, Some err)
    | None => invalidate_dead serverMsgID to;; mret (true, None)
    end.

(** The part that works on the database row. *)
Definition schedule_row (serverMsgID to errText : string) (maxRetries baseBackoff now : Z) :
    MS (bool * option error) :=
  p ← mem persistent;
  if negb p then mret (false, None)
  else
    r ← ext (on_db (t_take Recipients
           (mkQuery (where_delivery serverMsgID to) NoOrder 0 0)));
    match r with
    | inl err => mret (false, Some err)
    | inr row =>
      if 1 <=? r_Status row then mret (false, None)
      else
        let nextRetryCount := wrap64 (RetryCount row + 1) in
        if maxRetries <=? nextRetryCount then
          r ← ext (on_db (t_updates Recipients (λ r, r_ID r =? r_ID row)
                            (dead_row nextRetryCount errText)));
          match r.1 with
          | Some err => mret (false, Some err)
          | None => invalidate_dead serverMsgID to;; mret (true, None)
          end
        else
          r ← ext (on_db (t_updates Recipients (λ r, r_ID r =? r_ID row)
                 (retry_row nextRetryCount (now + backoff baseBackoff nextRetryCount)
                    errText)));
          match r.1 with
          | Some err => mret (false, Some err)
          | None =>
            ext (cache_del PendingDueKey);; ext (cache_del PendingRecoverKey);;
            mret (false, None)
          end
    end.

Definition ScheduleRetry (serverMsgID to : string) (lastErr : option error)
    (maxRetries0 baseBackoff0 : Z) : MS (bool * option error) :=
  if String.eqb serverMsgID "" || String.eqb to "" then mret (false, None)
  else
    let maxRetries := if maxRetries0 <=? 0 then 5 else maxRetries0 in
    let baseBackoff := if baseBackoff0 <=? 0 then 2 * Second else baseBackoff0 in
    let errText := match lastErr with Some e => Error e | None => "delivery failed" end in
    now ← ext Now;
    s ← get_mem;
    match entry_of serverMsgID to s with
    | Some e =>
      let (e', dead) := retry_entry maxRetries baseBackoff now errText e in
      mem_modify (update_entry serverMsgID to (λ _, e'));;
      if dead then schedule_dead serverMsgID to errText (Retry e')
      else schedule_row serverMsgID to errText maxRetries baseBackoff now
    | None => schedule_row serverMsgID to errText maxRetries baseBackoff now
    end.

(** The three listings share this shape: the answer kept in the cache, if any. *)
Definition cached_ids (key : string) : MS (option (list string)) :=
  v ← ext (cache_get key);
  mret (v ← v;
        if String.eqb v "" then None
        else match json_strings_parse v with inr out => Some (default [] out) | inl _ => None end).

(** Adopt the rows into memory, remember the ids in the cache for two seconds. *)
Definition adopt_rows (key : string) (rows : list MessageRecipient) : MS (list string) :=
  forM rows (λ row, SaveDelivery (r_ServerMsgID row) (ToUser row);; mret tt);;
  let out := r_ServerMsgID <$> rows in
  when (negb (bool_decide (out = [])))
    (ext (cache_set key (json_strings (Some out)) (2 * Second)));;
  mret out.

Definition due_entry (nowUnix : Z) (e : DeliveryEntry) : bool :=
  pending_entry e && (0 <? NextRetryAt e) && (NextRetryAt e <=? nowUnix).

(** The messages with an entry that satisfies [p], in iteration order. *)
Definition ids_with (p : DeliveryEntry → bool)
    (ms : list (string * gmap string DeliveryEntry)) : list string :=
  (List.filter (λ kv, existsb p (map_to_list kv.2).*2) ms).*1.

Definition GetDueRetryServerMsgIDs (limit : Z) : MS (list string) :=
  now ← ext Now;
  s ← get_mem;
  if negb (persistent s) then
    ms ← ext (range_map (deliveries s));
    mret (dedupeStrings (clip limit (ids_with (due_entry (Unix now)) ms)))
  else
    c ← cached_ids PendingDueKey;
    match c with
    | Some out => mret (dedupeStrings out)
    | None =>
      r ← ext (on_db (t_find Recipients (mkQuery
             (λ r, (r_Status r =? 0) &&
                   match r_NextRetryAt r with Some t => t <=? now | None => false end)
             (Asc (λ r, default 0 (r_NextRetryAt r))) limit 0)));
      match r with
      | inl _ => mret []
      | inr rows => out ← adopt_rows PendingDueKey rows; mret (dedupeStrings out)
      end
    end.

Definition unread_entry (e : DeliveryEntry) : bool := negb (Acked e) && negb (Read e).

Definition RecoverPendingServerMsgIDs (limit : Z) : MS (list string) :=
  s ← get_mem;
  if negb (persistent s) then
    ms ← ext (range_map (deliveries s));
    mret (dedupeStrings (ids_with unread_entry ms))
  else
    c ← cached_ids PendingRecoverKey;
    match c with
    | Some out => mret (dedupeStrings out)
    | None =>
      r ← ext (on_db (t_find Recipients
             (mkQuery (λ r, r_Status r =? 0) (Asc r_ID) limit 0)));
      match r with
      | inl _ => mret []
      | inr rows => out ← adopt_rows PendingRecoverKey rows; mret (dedupeStrings out)
      end
    end.

Definition ListPendingServerMsgIDsByUser (toUser : string) (limit : Z) : MS (list string) :=
  if String.eqb toUser "" then mret []
  else
    s ← get_mem;
    if negb (persistent s) then
      ms ← ext (range_map (deliveries s));
      mret (clip limit
        (List.filter (λ kv, match kv.2 !! toUser with
                            | Some e => unread_entry e
                            | None => false
                            end) ms).*1)
    else
      c ← cached_ids (PendingUserKey toUser);
      match c with
      | Some out => mret (clip limit out)
      | None =>
        r ← ext (on_db (t_find Recipients
               (mkQuery (λ r, sql_eq (ToUser r) toUser && (r_Status r =? 0)) (Asc r_ID)
                  limit 0)));
        match r with
        | inl _ => mret []
        | inr rows =>
          out ← adopt_rows (PendingUserKey toUser) rows; mret (dedupeStrings out)
        end
      end.

(** ** history.go *)

Definition c2c_between (userA userB from to : string) : bool :=
  String.eqb from userA && String.eqb to userB || String.eqb from userB && String.eqb to userA.

Definition getC2CHistoryFromMemory (userA userB : string) (limit : Z) : MS (list Message) :=
  s ← get_mem;
  kvs ← ext (range_map (messages s));
  let out := List.filter (λ m, c2c_between userA userB (From m) (To m)) kvs.*2 in
  out ← ext (sort_slice Seq out);
  mret (if (0 <? limit) && (limit <? Z.of_nat (length out))
        then drop (length out - Z.to_nat limit) out else out).

(** One row of the history: the message with the status of its delivery. *)
Definition history_row (userA userB : string) (row : DBMessage) : MS Message :=
  let msg := fromDBMessage row in
  let toUser := if String.eqb (From msg) userA then userB else userA in
  r ← ext (on_db (t_take Recipients
         (mkQuery (where_delivery (ServerMsgID msg) toUser) NoOrder 0 0)));
  mret (match r with inr r => set_Status (r_Status r) msg | inl _ => msg end).

Fixpoint history_rows (userA userB : string) (rows : list DBMessage) : MS (list Message) :=
  match rows with
  | [] => mret []
  | row :: rows' =>
    m ← history_row userA userB row;
    ms ← history_rows userA userB rows';
    mret (m :: ms)
  end.

Definition GetC2CHistory (userA userB : string) (limit : Z) : MS (list Message) :=
  if String.eqb userA "" || String.eqb userB "" then mret []
  else
    p ← mem persistent;
    if negb p then getC2CHistoryFromMemory userA userB limit
    else
      r ← ext (on_db (t_find Messages (mkQuery
             (λ r, sql_eq (SendID r) userA && sql_eq (RecvID r) userB ||
                   sql_eq (SendID r) userB && sql_eq (RecvID r) userA)
             (Desc m_Seq) limit 0)));
      match r with
      | inl _ => mret []
      | inr rows => out ← history_rows userA userB rows; mret (reverseMessages out)
      end.
End store.
