(* ===== verification/Group.v ===== *)
(** [server/group.go]: the group manager, with its operations, the invariants of the
    reachable states and the authorisation theorem. Every operation runs under the
    manager's mutex, so an execution is a sequence of [GroupOp]s. *)
From S2P Require Import Prelude GoStr Protocol Storage Cache.

(** * Data *)

Inductive GroupRole := GroupRoleMember | GroupRoleAdmin | GroupRoleOwner.

(** The [int8] behind a role, on which the code compares. *)
Definition rank (r : GroupRole) : Z :=
  match r with GroupRoleMember => 0 | GroupRoleAdmin => 1 | GroupRoleOwner => 2 end.

#[global] Instance GroupRole_eq_dec : EqDecision GroupRole.
Proof. solve_decision. Defined.

Record group := mkGroup {
  g_ID : string; Owner : string; g_Members : gmap string GroupRole
}.

Record GroupManager := mkGroupManager { groups : gmap string group }.

Definition NewGroupManager : GroupManager := mkGroupManager ∅.

Definition set_group (id : string) (g : group) (gm : GroupManager) : GroupManager :=
  mkGroupManager (<[id := g]> (groups gm)).
Definition set_members (ms : gmap string GroupRole) (g : group) : group :=
  mkGroup (g_ID g) (Owner g) ms.

(** * Operations *)

(** The result of a call: the error, and the manager after it. *)
Abbreviation MG := (M GroupManager (option error)).

Definition fail (text : string) : MG := mret (Some (Err text)).

Definition is_empty (s : string) : bool := String.eqb s "".

Definition Create (groupID owner : string) : MG := λ gm,
  let id := TrimSpace groupID in
  let own := TrimSpace owner in
  if is_empty id || is_empty own then fail "groupID/owner empty" gm
  else match groups gm !! id with
       | Some _ => fail "group already exists" gm
       | None => (None, set_group id (mkGroup id own {[own := GroupRoleOwner]}) gm)
       end.

Definition Delete (groupID operator : string) : MG := λ gm,
  let id := TrimSpace groupID in
  let op := TrimSpace operator in
  if is_empty id || is_empty op then fail "groupID/operator empty" gm
  else match groups gm !! id with
       | None => fail "group not found" gm
       | Some g =>
         if negb (String.eqb (Owner g) op) then fail "only owner can delete group" gm
         else (None, mkGroupManager (delete id (groups gm)))
       end.

Definition Join (groupID username : string) : MG := λ gm,
  let id := TrimSpace groupID in
  let u := TrimSpace username in
  if is_empty id || is_empty u then fail "groupID/username empty" gm
  else match groups gm !! id with
       | None => fail "group not found" gm
       | Some g =>
         match g_Members g !! u with
         | Some _ => fail "already a member" gm
         | None => (None, set_group id (set_members (<[u := GroupRoleMember]> (g_Members g)) g) gm)
         end
       end.

Definition Leave (groupID username : string) : MG := λ gm,
  let id := TrimSpace groupID in
  let u := TrimSpace username in
  if is_empty id || is_empty u then fail "groupID/username empty" gm
  else match groups gm !! id with
       | None => fail "group not found" gm
       | Some g =>
         if String.eqb (Owner g) u then fail "owner cannot leave, use delete instead" gm
         else (None, set_group id (set_members (delete u (g_Members g)) g) gm)
       end.

Definition Kick (groupID by_ target : string) : MG := λ gm,
  let id := TrimSpace groupID in
  match groups gm !! id with
  | None => fail "group not found" gm
  | Some g =>
    match g_Members g !! by_ with
    | None => fail "operator not in group" gm
    | Some byRole =>
      if rank byRole <? rank GroupRoleAdmin then fail "insufficient permission" gm
      else match g_Members g !! target with
           | None => fail "target not in group" gm
           | Some targetRole =>
             if rank byRole <=? rank targetRole
             then fail "cannot kick member with equal or higher role" gm
             else (None, set_group id (set_members (delete target (g_Members g)) g) gm)
           end
    end
  end.

Definition GrantAdmin (groupID by_ target : string) : MG := λ gm,
  let id := TrimSpace groupID in
  match groups gm !! id with
  | None => fail "group not found" gm
  | Some g =>
    if negb (String.eqb (Owner g) by_) then fail "only owner can grant admin" gm
    else match g_Members g !! target with
         | None => fail "target not in group" gm
         | Some _ =>
           (None, set_group id (set_members (<[target := GroupRoleAdmin]> (g_Members g)) g) gm)
         end
  end.

Definition RevokeAdmin (groupID by_ target : string) : MG := λ gm,
  let id := TrimSpace groupID in
  match groups gm !! id with
  | None => fail "group not found" gm
  | Some g =>
    if negb (String.eqb (Owner g) by_) then fail "only owner can revoke admin" gm
    else match g_Members g !! target with
         | None => fail "target not in group" gm
         | Some _ =>
           (None, set_group id (set_members (<[target := GroupRoleMember]> (g_Members g)) g) gm)
         end
  end.

(** The members of a group, in the order of this iteration of its map. *)
Definition Members `{GoEnv} {D R} (groupID : string) (gm : GroupManager) :
    M (Ext D R) (list string) :=
  match groups gm !! TrimSpace groupID with
  | None => mret []
  | Some g => kvs ← range_map (g_Members g); mret kvs.*1
  end.

Definition RoleOf (groupID username : string) (gm : GroupManager) : string * bool :=
  match groups gm !! TrimSpace groupID with
  | None => ("", false)
  | Some g =>
    match g_Members g !! username with
    | None => ("", false)
    | Some GroupRoleOwner => ("owner", true)
    | Some GroupRoleAdmin => ("admin", true)
    | Some GroupRoleMember => ("member", true)
    end
  end.

(** * Executions *)

Inductive GroupOp :=
  | OpCreate (groupID owner : string)
  | OpDelete (groupID operator : string)
  | OpJoin (groupID username : string)
  | OpLeave (groupID username : string)
  | OpKick (groupID by_ target : string)
  | OpGrantAdmin (groupID by_ target : string)
  | OpRevokeAdmin (groupID by_ target : string).

Definition run_op (op : GroupOp) : MG :=
  match op with
  | OpCreate g u => Create g u
  | OpDelete g u => Delete g u
  | OpJoin g u => Join g u
  | OpLeave g u => Leave g u
  | OpKick g b t => Kick g b t
  | OpGrantAdmin g b t => GrantAdmin g b t
  | OpRevokeAdmin g b t => RevokeAdmin g b t
  end.

(** The user a call acts for, as the operation compares it. *)
Definition actor (op : GroupOp) : string :=
  match op with
  | OpCreate _ u | OpDelete _ u | OpJoin _ u | OpLeave _ u => TrimSpace u
  | OpKick _ b _ | OpGrantAdmin _ b _ | OpRevokeAdmin _ b _ => b
  end.

(** The calls by which an owner changes somebody else's role only. *)
Definition not_self (op : GroupOp) : Prop :=
  match op with
  | OpGrantAdmin _ b t | OpRevokeAdmin _ b t => t ≠ b
  | _ => True
  end.

Definition run_ops (ops : list GroupOp) (gm : GroupManager) : GroupManager :=
  foldl (λ gm op, exec (run_op op) gm) gm ops.

(** * Invariants *)

Record group_wf (id : string) (g : group) : Prop := {
  wf_id : g_ID g = id;
  wf_key : id ≠ "" ∧ TrimSpace id = id;
  wf_owner_name : Owner g ≠ "" ∧ TrimSpace (Owner g) = Owner g;
  (** Nobody but the owner of record holds the owner role. *)
  wf_owner_role u : g_Members g !! u = Some GroupRoleOwner → u = Owner g
}.

Definition manager_wf (gm : GroupManager) : Prop := map_Forall group_wf (groups gm).

(** The owner of record holds the owner role. *)
Definition owner_in (gm : GroupManager) : Prop :=
  map_Forall (λ _ g, g_Members g !! Owner g = Some GroupRoleOwner) (groups gm).

(** * Specification: one rule per successful operation *)

Inductive group_step (gm : GroupManager) : GroupOp → GroupManager → Prop :=
  | step_create gid u :
      TrimSpace gid ≠ "" → TrimSpace u ≠ "" → groups gm !! TrimSpace gid = None →
      group_step gm (OpCreate gid u)
        (set_group (TrimSpace gid)
           (mkGroup (TrimSpace gid) (TrimSpace u) {[TrimSpace u := GroupRoleOwner]}) gm)
  | step_delete gid u g :
      TrimSpace gid ≠ "" → TrimSpace u ≠ "" → groups gm !! TrimSpace gid = Some g →
      Owner g = TrimSpace u →
      group_step gm (OpDelete gid u) (mkGroupManager (delete (TrimSpace gid) (groups gm)))
  | step_join gid u g :
      TrimSpace gid ≠ "" → TrimSpace u ≠ "" → groups gm !! TrimSpace gid = Some g →
      g_Members g !! TrimSpace u = None →
      group_step gm (OpJoin gid u)
        (set_group (TrimSpace gid)
           (set_members (<[TrimSpace u := GroupRoleMember]> (g_Members g)) g) gm)
  | step_leave gid u g :
      TrimSpace gid ≠ "" → TrimSpace u ≠ "" → groups gm !! TrimSpace gid = Some g →
      Owner g ≠ TrimSpace u →
      group_step gm (OpLeave gid u)
        (set_group (TrimSpace gid) (set_members (delete (TrimSpace u) (g_Members g)) g) gm)
  | step_kick gid b t g rb rt :
      groups gm !! TrimSpace gid = Some g →
      g_Members g !! b = Some rb → g_Members g !! t = Some rt →
      1 <= rank rb → rank rt < rank rb →
      group_step gm (OpKick gid b t)
        (set_group (TrimSpace gid) (set_members (delete t (g_Members g)) g) gm)
  | step_grant gid b t g rt :
      groups gm !! TrimSpace gid = Some g → Owner g = b → g_Members g !! t = Some rt →
      group_step gm (OpGrantAdmin gid b t)
        (set_group (TrimSpace gid) (set_members (<[t := GroupRoleAdmin]> (g_Members g)) g) gm)
  | step_revoke gid b t g rt :
      groups gm !! TrimSpace gid = Some g → Owner g = b → g_Members g !! t = Some rt →
      group_step gm (OpRevokeAdmin gid b t)
        (set_group (TrimSpace gid) (set_members (<[t := GroupRoleMember]> (g_Members g)) g) gm).

(** Walk through the guards of the operations. *)
Ltac group_unfold :=
  unfold run_op, Create, Delete, Join, Leave, Kick, GrantAdmin, RevokeAdmin, fail, is_empty,
    exec, mret, M_ret in *.

Lemma run_op_error op gm e gm' : run_op op gm = (Some e, gm') → gm' = gm.
Proof. destruct op; group_unfold; intros; repeat (case_match; simplify_eq/=); done. Qed.

Lemma run_op_sound op gm gm' : run_op op gm = (None, gm') → group_step gm op gm'.
Proof.
  destruct op; group_unfold; intros; repeat (case_match; simplify_eq/=); bool_to_prop;
    econstructor; cbn in *; try done; lia.
Qed.

Lemma run_op_complete op gm gm' : group_step gm op gm' → run_op op gm = (None, gm').
Proof.
  destruct 1; group_unfold; repeat (case_match; simplify_eq/=; bool_to_prop);
    done || congruence || (cbn in *; lia) || (destruct_or!; bool_to_prop; congruence).
Qed.

(** The state after any call: unchanged, or a step of the specification. *)
Lemma exec_op_cases op gm :
  exec (run_op op) gm = gm ∨ group_step gm op (exec (run_op op) gm).
Proof.
  unfold exec. destruct (run_op op gm) as [[e|] gm'] eqn:E; cbn.
  - left. by eapply run_op_error.
  - right. by apply run_op_sound.
Qed.

(** * Invariant preservation *)

Lemma manager_wf_lookup gm id g :
  manager_wf gm → groups gm !! id = Some g → group_wf id g.
Proof. intros H Hg. by apply (H id g). Qed.

(** Changing the members without giving out the owner role keeps a group well-formed. *)
Lemma wf_set_members gm id g ms :
  manager_wf gm → groups gm !! id = Some g →
  (∀ u, ms !! u = Some GroupRoleOwner → g_Members g !! u = Some GroupRoleOwner) →
  manager_wf (set_group id (set_members ms g) gm).
Proof.
  intros Hwf Hg Hms. apply map_Forall_insert_2; [|done].
  destruct (manager_wf_lookup gm id g Hwf Hg). split; cbn; auto.
Qed.

Lemma lookup_insert_owner (ms : gmap string GroupRole) t r u :
  r ≠ GroupRoleOwner → <[t := r]> ms !! u = Some GroupRoleOwner → ms !! u = Some GroupRoleOwner.
Proof. intros ? [[_ ?]|[_ ?]]%lookup_insert_Some; congruence. Qed.

Lemma lookup_delete_owner (ms : gmap string GroupRole) t u :
  delete t ms !! u = Some GroupRoleOwner → ms !! u = Some GroupRoleOwner.
Proof. by intros [_ ?]%lookup_delete_Some. Qed.

#[local] Hint Resolve lookup_insert_owner lookup_delete_owner : goim.

Lemma step_wf gm op gm' : group_step gm op gm' → manager_wf gm → manager_wf gm'.
Proof.
  destruct 1; intros Hwf;
    try (eapply wf_set_members; [done..|]; intros v; eauto with goim; fail).
  - apply map_Forall_insert_2; [|done]. split; cbn.
    + done.
    + by rewrite TrimSpace_idemp.
    + by rewrite TrimSpace_idemp.
    + intros v. by intros [-> _]%lookup_singleton_Some.
  - by apply map_Forall_delete.
  - eapply wf_set_members; [done..|]. intros v. by apply lookup_insert_owner.
  - eapply wf_set_members; [done..|]. intros v. by apply lookup_insert_owner.
  - eapply wf_set_members; [done..|]. intros v. by apply lookup_insert_owner.
Qed.

(** Changing the members and keeping the owner's entry. *)
Lemma owner_in_set_members gm id g ms :
  owner_in gm → groups gm !! id = Some g →
  ms !! Owner g = g_Members g !! Owner g →
  owner_in (set_group id (set_members ms g) gm).
Proof.
  intros Ho Hg Hms. apply map_Forall_insert_2; [|done]. cbn. rewrite Hms. by apply (Ho id g).
Qed.

Lemma rank_le_2 r : rank r <= 2.
Proof. by destruct r. Qed.

Lemma step_owner_in gm op gm' :
  group_step gm op gm' → not_self op → owner_in gm → owner_in gm'.
Proof.
  destruct 1 as [| |gid u g ??? Hu|gid u g ??? Hu|gid b t g rb rt Hg Hb Ht|?????? Ho|?????? Ho];
    cbn; intros Hns Hin.
  - apply map_Forall_insert_2; [|done]. cbn. by rewrite lookup_singleton_eq.
  - by apply map_Forall_delete.
  - eapply owner_in_set_members; [done..|]. rewrite lookup_insert_ne; [done|].
    intros E. rewrite E, (Hin (TrimSpace gid) g) in Hu; done.
  - eapply owner_in_set_members; [done..|]. by rewrite lookup_delete_ne.
  - eapply owner_in_set_members; [done..|]. rewrite lookup_delete_ne; [done|].
    intros ->. rewrite (Hin (TrimSpace gid) g Hg) in Ht. simplify_eq.
    pose proof (rank_le_2 rb). cbn in *. lia.
  - eapply owner_in_set_members; [done..|]. rewrite lookup_insert_ne; congruence.
  - eapply owner_in_set_members; [done..|]. rewrite lookup_insert_ne; congruence.
Qed.

Lemma run_ops_snoc ops op gm :
  run_ops (ops ++ [op]) gm = exec (run_op op) (run_ops ops gm).
Proof. unfold run_ops. by rewrite foldl_app. Qed.

(** A property kept by every step holds after any sequence of calls. *)
Lemma run_ops_inv (P : GroupManager → Prop) (ok : GroupOp → Prop) gm ops :
  (∀ gm op gm', group_step gm op gm' → ok op → P gm → P gm') →
  P gm → Forall ok ops → P (run_ops ops gm).
Proof.
  intros Hstep Hgm. induction ops as [|op ops IH] using rev_ind; intros Hok; [done|].
  apply Forall_app in Hok as [Hops [Hop _]%Forall_cons_1].
  rewrite run_ops_snoc. destruct (exec_op_cases op (run_ops ops gm)) as [->|Hs].
  - by apply IH.
  - apply (Hstep _ _ _ Hs Hop). by apply IH.
Qed.

(** What one step does to one entry of one group. *)
Definition entry_change (a : string) (g : group)
    (v : string) (old new : option GroupRole) : Prop :=
  match old, new with
  | None, None => True
  | None, Some r => r = GroupRoleMember ∧ v = a
  | Some r, Some r' => r' = r
  | Some r, None =>
      v = a ∨ ∃ ra, g_Members g !! a = Some ra ∧ 1 <= rank ra ∧ rank r < rank ra
  end.

Lemma entry_change_refl a g v o : entry_change a g v o o.
Proof. by destruct o. Qed.
#[local] Hint Resolve entry_change_refl : goim.

(** * Properties *)

(** C30. Refinement of the group manager: a call succeeds exactly when a rule of the
    specification allows it, with that rule's effect, and a refused call changes nothing. *)
Theorem group_ops_refine_spec op gm :
  (∀ gm', run_op op gm = (None, gm') ↔ group_step gm op gm') ∧
  (∀ e gm', run_op op gm = (Some e, gm') → gm' = gm).
Proof.
  split.
  - intros gm'. split; [apply run_op_sound|apply run_op_complete].
  - intros e gm'. apply run_op_error.
Qed.

(** C40. In every state reachable by group commands, each group is stored under its own
    trimmed, non-empty id, its owner's name is trimmed and non-empty, and nobody but the
    owner of record holds the owner role. *)
Theorem group_reachable_wf ops : manager_wf (run_ops ops NewGroupManager).
Proof.
  apply (run_ops_inv manager_wf (λ _, True)).
  - eauto using step_wf.
  - apply map_Forall_empty.
  - by apply Forall_true.
Qed.

(** As long as no owner grants or revokes the admin role of himself, every group keeps
    its owner as a member with the owner role: he is never kicked, demoted or overwritten. *)
Theorem group_owner_kept ops :
  Forall not_self ops → owner_in (run_ops ops NewGroupManager).
Proof.
  intros Hns. apply (run_ops_inv owner_in not_self); [|apply map_Forall_empty|done].
  eauto using step_owner_in.
Qed.

Lemma group_owner_kept_witness :
  g_Members <$> groups (run_ops [OpCreate "g" "alice"; OpJoin "g" "bob";
    OpGrantAdmin "g" "alice" "bob"; OpKick "g" "bob" "alice"] NewGroupManager) !! "g"
  = Some {[ "alice" := GroupRoleOwner; "bob" := GroupRoleAdmin ]} ∧
  owner_in (run_ops [OpCreate "g" "alice"; OpJoin "g" "bob";
    OpGrantAdmin "g" "alice" "bob"; OpKick "g" "bob" "alice"] NewGroupManager).
Proof.
  split; [by vm_compute|]. apply (group_owner_kept _). repeat constructor; done.
Defined.

(** C31. Authorisation: whatever command a user other than the owner runs, the group stays,
    with the same owner; no role changes; the only new entry is himself as a plain member;
    and an entry disappears only if it is his own or he outranks it as an admin. *)
Theorem group_authorisation op gm id g :
  groups gm !! id = Some g → actor op ≠ Owner g →
  ∃ g', groups (exec (run_op op) gm) !! id = Some g' ∧ Owner g' = Owner g ∧ g_ID g' = g_ID g ∧
    ∀ v, entry_change (actor op) g v (g_Members g !! v) (g_Members g' !! v).
Proof.
  intros Hg Hact. destruct (exec_op_cases op gm) as [->|Hs].
  { exists g. eauto with goim. }
  destruct Hs as [| | | |???????????|?????? Ho|?????? Ho]; cbn in *;
    rewrite ?lookup_delete, ?lookup_insert;
    (case_decide; [simplify_eq|by exists g; eauto with goim]).
  - eexists. split_and!; [done..|]. intros v. cbn. rewrite lookup_insert.
    case_decide; subst; cbn; [|eauto with goim]. 
    match goal with E : _ = None |- _ => by rewrite E end.
  - eexists. split_and!; [done..|]. intros v. cbn. rewrite lookup_delete.
    case_decide; subst; [|eauto with goim]. cbn. destruct (g_Members g !! _); cbn; auto.
  - eexists. split_and!; [done..|]. intros v. cbn. rewrite lookup_delete.
    case_decide; subst; [|eauto with goim]. simplify_map_eq. eauto.
Qed.

Lemma group_authorisation_witness :
  let gm := run_ops [OpCreate "g" "alice"; OpJoin "g" "bob"; OpJoin "g" "eve"] NewGroupManager in
  let g := mkGroup "g" "alice" {[ "alice" := GroupRoleOwner; "bob" := GroupRoleMember;
                                  "eve" := GroupRoleMember ]} in
  groups gm !! "g" = Some g ∧
  ∃ g', groups (exec (run_op (OpKick "g" "eve" "bob")) gm) !! "g" = Some g' ∧
    Owner g' = Owner g ∧ g_ID g' = g_ID g ∧
    ∀ v, entry_change "eve" g v (g_Members g !! v) (g_Members g' !! v).
Proof.
  split; [by vm_compute|].
  apply (group_authorisation (OpKick "g" "eve" "bob")); [by vm_compute|done].
Defined.

(** The owner demotes himself, then the admin he appointed kicks him. *)
Definition demote_then_kick : list GroupOp :=
  [OpCreate "g" "alice"; OpJoin "g" "bob"; OpGrantAdmin "g" "alice" "bob";
   OpGrantAdmin "g" "alice" "alice"; OpRevokeAdmin "g" "alice" "alice";
   OpKick "g" "bob" "alice"].

(** The restriction of C3 is needed: [GrantAdmin] and [RevokeAdmin] accept the owner
    himself as the target, overwrite his owner role, and an admin can then kick him out of
    his own group, of which he stays the owner of record. *)
Theorem group_owner_can_be_kicked :
  ∃ g, groups (run_ops demote_then_kick NewGroupManager) !! "g" = Some g ∧
    Owner g = "alice" ∧ g_Members g !! "alice" = None ∧
    g_Members g = {[ "bob" := GroupRoleAdmin ]}.
Proof. eexists. split_and!; by vm_compute. Qed.
