(* ===== verification/StoreSteps.v ===== *)
(** The changes the methods of the store make to its memory under the mutex: [seq_step] and
    [entry_step] list them, every method of [Store] is a sequence of them ([*_steps]), and
    the invariants of the memory follow by induction on the steps. A device for proofs; what
    each method promises is in [StoreSpec]. *)
From S2P Require Import Prelude GoStr Protocol StoreIface Storage Cache Store.

(** * The steps *)

(** The sequence counters. *)
Inductive seq_step (s : InMemoryStore) : InMemoryStore → Prop :=
  (** [NextSeq] adopts the largest number of the database, for a chat it has not seen. *)
  | step_seq_init c n :
      nextSeq s !! c = None → persistent s = true →
      seq_step s (set_nextSeq (<[c := n]> (nextSeq s)) s)
  | step_seq_next c :
      seq_step s
        (set_nextSeq (<[c := wrapu64 (default 0 (nextSeq s !! c) + 1)]> (nextSeq s)) s).

(** The messages and the delivery entries. *)
Inductive entry_step (s : InMemoryStore) : InMemoryStore → Prop :=
  | step_message msg : entry_step s (saveMessageUnsafe msg s)
  | step_delivery i t : entry_step s (saveDeliveryUnsafe i t s)
  | step_sent i t now : entry_step s (update_entry i t (sent_entry now) s)
  | step_acked i t : entry_step s (update_entry i t acked_entry s)
  | step_read i t : entry_step s (update_entry i t read_entry s)
  | step_retry i t e mx base now txt :
      entry_of i t s = Some e → 0 < mx →
      entry_step s (update_entry i t (λ _, (retry_entry mx base now txt e).1) s).

(** * The methods take steps *)

Create HintDb steps discriminated.

Section steps.
Context `{GoEnv} {D R : Type} `{Gorm D} `{Redis R} `{Json}.
Implicit Types w : SW D R.

(** A computation whose effect on the memory is a sequence of steps. *)
Abbreviation stepping := (moves (on (@sw_mem D R) (rtc entry_step))).

Lemma stepping_ext {A} (m : M (Ext D R) A) : stepping (ext m).
Proof. intros w. unfold exec, ext, zoom, on. by destruct (m (sw_ext w)). Qed.

Lemma stepping_modify f : (∀ s, entry_step s (f s)) → stepping (mem_modify f).
Proof. intros Hf w. apply rtc_once, Hf. Qed.

Lemma stepping_mem {A} (f : InMemoryStore → A) : stepping (mem f).
Proof. apply moves_gets, _. Qed.

Lemma stepping_get : stepping get_mem.
Proof. apply moves_gets, _. Qed.

Hint Resolve stepping_get stepping_mem stepping_ext : steps.
Hint Constructors entry_step : steps.

Ltac stepping_tac :=
  repeat first [progress moves_tac ltac:(eauto with steps) | apply stepping_modify; intros ?].

Lemma SaveDelivery_steps i t : stepping (SaveDelivery i t).
Proof. unfold SaveDelivery. stepping_tac. Qed.
Hint Resolve SaveDelivery_steps : steps.

(** What [NextSeq] does to the memory: the counter of its chat moves to the number it
    returns, which follows the counter if the chat has one. *)
Lemma NextSeq_spec c w :
  ∃ n, eval (NextSeq c) w = (n, None) ∧ in_uint64 n ∧
    sw_mem (exec (NextSeq c) w) =
      set_nextSeq (<[seq_key c := n]> (nextSeq (sw_mem w))) (sw_mem w) ∧
    ∀ k, nextSeq (sw_mem w) !! seq_key c = Some k → n = wrapu64 (k + 1).
Proof.
  unfold NextSeq. fold (seq_key c). set (c' := seq_key c).
  unfold exec, eval, get_mem, mem_modify, ext, on_db. munfold.
  destruct (nextSeq (sw_mem w) !! c') eqn:E; [|destruct (persistent (sw_mem w)) eqn:Ep];
    cbn; rewrite ?E; cbn.
  - eexists. split_and!; [done|apply wrapu64_range|done|]. congruence.
  - destruct (t_max _ _ _ _) as [[e|n] d]; cbn; rewrite ?E, ?lookup_insert_eq; cbn;
      eexists; (split_and!; [done|apply wrapu64_range| |done]).
    + done.
    + unfold set_nextSeq. cbn. by rewrite insert_insert_eq.
  - eexists. split_and!; [done|apply wrapu64_range|done|done].
Qed.

Lemma NextSeq_steps c w :
  rtc seq_step (sw_mem w) (sw_mem (exec (NextSeq c) w)).
Proof.
  unfold NextSeq. fold (seq_key c). set (c' := seq_key c).
  unfold exec, get_mem, mem_modify, ext, on_db. munfold.
  destruct (nextSeq (sw_mem w) !! c') eqn:E; [|destruct (persistent (sw_mem w)) eqn:Ep];
    cbn; try (apply rtc_once; by constructor).
  destruct (t_max _ _ _ _) as [[e|n] d]; cbn; [apply rtc_once; by constructor|].
  eapply rtc_l; [by apply (step_seq_init _ c' n)|]. apply rtc_once, step_seq_next.
Qed.

Lemma remember_message_steps msg tos : stepping (remember_message msg tos).
Proof. unfold remember_message. stepping_tac. Qed.
Hint Resolve remember_message_steps : steps.

Lemma persist_message_steps msg tos : stepping (persist_message msg tos).
Proof. unfold persist_message, cache_message. stepping_tac. Qed.
Hint Resolve persist_message_steps : steps.

Lemma SaveMessageWithRecipients_steps msg tos : stepping (SaveMessageWithRecipients msg tos).
Proof. unfold SaveMessageWithRecipients. stepping_tac. Qed.

Lemma GetMessageByClientID_steps f c : stepping (GetMessageByClientID f c).
Proof. unfold GetMessageByClientID. stepping_tac. Qed.

Lemma markRecipientRowsDead_steps i r : stepping (markRecipientRowsDeadIfMessageMissing i r).
Proof. unfold markRecipientRowsDeadIfMessageMissing. stepping_tac. Qed.
Hint Resolve markRecipientRowsDead_steps : steps.

Lemma GetMessageByServerID_steps i : stepping (GetMessageByServerID i).
Proof. unfold GetMessageByServerID. stepping_tac. Qed.

Lemma GetRecipients_steps i : stepping (GetRecipients i).
Proof. unfold GetRecipients. stepping_tac. Qed.

Lemma MarkDeliverySent_steps i t e : stepping (MarkDeliverySent i t e).
Proof. unfold MarkDeliverySent. stepping_tac. Qed.

Lemma invalidate_steps i t : stepping (invalidate_delivery i t).
Proof. unfold invalidate_delivery. stepping_tac. Qed.
Hint Resolve invalidate_steps : steps.

Lemma MarkDeliveryAcked_steps i t : stepping (MarkDeliveryAcked i t).
Proof. unfold MarkDeliveryAcked. stepping_tac. Qed.

Lemma MarkDeliveryRead_steps i t : stepping (MarkDeliveryRead i t).
Proof. unfold MarkDeliveryRead. stepping_tac. Qed.

Lemma range_entries_steps l : stepping (range_entries l).
Proof. induction l as [|[? ?] l IH]; cbn [range_entries]; stepping_tac. Qed.
Hint Resolve range_entries_steps : steps.

Lemma DeliveryStats_steps : stepping DeliveryStats.
Proof. unfold DeliveryStats. stepping_tac. Qed.

Lemma invalidate_dead_steps i t : stepping (invalidate_dead i t).
Proof. unfold invalidate_dead. stepping_tac. Qed.
Hint Resolve invalidate_dead_steps : steps.

Lemma schedule_dead_steps i t e r : stepping (schedule_dead i t e r).
Proof. unfold schedule_dead. stepping_tac. Qed.

Lemma schedule_row_steps i t e mx base now : stepping (schedule_row i t e mx base now).
Proof. unfold schedule_row. stepping_tac. Qed.
Hint Resolve schedule_dead_steps schedule_row_steps : steps.

Lemma ScheduleRetry_steps i t err mx base : stepping (ScheduleRetry i t err mx base).
Proof.
  unfold ScheduleRetry. destruct (_ || _); [apply moves_ret, _|].
  apply moves_bind; [apply _|apply stepping_ext|intros now]. apply moves_read. intros w.
  cbn. destruct (entry_of i t (sw_mem w)) as [e|] eqn:E; [|by apply schedule_row_steps].
  set (mx' := if mx <=? 0 then 5 else mx). set (base' := if base <=? 0 then _ else base).
  set (txt := match err with Some e => _ | None => _ end).
  assert (0 < mx') by (subst mx'; case_match; bool_to_prop; lia).
  pose proof (step_retry (sw_mem w) i t e mx' base' now txt E) as Hstep.
  destruct (retry_entry mx' base' now txt e) as [e' dead]. cbn in Hstep.
  unfold on. etrans; [by apply rtc_once, Hstep|]. unfold exec, mem_modify. munfold.
  destruct dead; [eapply (schedule_dead_steps i t txt (Retry e') (mkSW _ _))|
                  eapply (schedule_row_steps i t txt mx' base' now (mkSW _ _))].
Qed.

Lemma cached_ids_steps k : stepping (cached_ids k).
Proof. unfold cached_ids. stepping_tac. Qed.
Lemma adopt_rows_steps k rows : stepping (adopt_rows k rows).
Proof. unfold adopt_rows. stepping_tac. Qed.
Hint Resolve cached_ids_steps adopt_rows_steps : steps.

Lemma GetDueRetryServerMsgIDs_steps n : stepping (GetDueRetryServerMsgIDs n).
Proof. unfold GetDueRetryServerMsgIDs. stepping_tac. Qed.

Lemma RecoverPendingServerMsgIDs_steps n : stepping (RecoverPendingServerMsgIDs n).
Proof. unfold RecoverPendingServerMsgIDs. stepping_tac. Qed.

Lemma ListPendingServerMsgIDsByUser_steps u n : stepping (ListPendingServerMsgIDsByUser u n).
Proof. unfold ListPendingServerMsgIDsByUser. stepping_tac. Qed.

Lemma history_rows_steps a b rows : stepping (history_rows a b rows).
Proof.
  induction rows as [|r rows IH]; cbn [history_rows]; unfold history_row; stepping_tac.
Qed.
Hint Resolve history_rows_steps : steps.

Lemma GetC2CHistory_steps a b n : stepping (GetC2CHistory a b n).
Proof. unfold GetC2CHistory, getC2CHistoryFromMemory. stepping_tac. Qed.
End steps.
