(* ===== verification/StoreInv.v ===== *)
(** Executions of the store: any sequence of calls of its interface ([StoreCall], one
    constructor per method of [store.Store]), in memory-only or database mode, with any
    behaviour of database, cache, clock and map iteration. Invariants of the memory and the
    monotonicity of delivery states and sequence numbers. *)
From S2P Require Import Prelude GoStr Protocol StoreIface Storage Cache Store StoreSteps.

(** * Calls *)

Inductive StoreCall :=
  | CNextSeq (chatID : string)
  | CSaveMessage (msg : option Message)
  | CSaveMessageWithRecipients (msg : option Message) (recipients : option (list string))
  | CGetMessageByClientID (from clientMsgID : string)
  | CGetMessageByServerID (serverMsgID : string)
  | CSaveDelivery (serverMsgID to : string)
  | CGetRecipients (serverMsgID : string)
  | CMarkDeliverySent (serverMsgID to : string) (sendErr : option error)
  | CMarkDeliveryAcked (serverMsgID to : string)
  | CMarkDeliveryRead (serverMsgID to : string)
  | CScheduleRetry (serverMsgID to : string) (lastErr : option error) (maxRetries base : Z)
  | CGetDueRetryServerMsgIDs (limit : Z)
  | CDeliveryStats
  | CRecoverPendingServerMsgIDs (limit : Z)
  | CListPendingServerMsgIDsByUser (toUser : string) (limit : Z)
  | CGetC2CHistory (userA userB : string) (limit : Z).

(** * Invariant of the memory *)

(** Every value sits under the key the code looks it up by, counters are [uint64] values,
    and a read delivery is an acknowledged one. *)
Record store_wf (s : InMemoryStore) : Prop := {
  wf_seq c n : nextSeq s !! c = Some n → in_uint64 n;
  wf_message i msg : messages s !! i = Some msg → ServerMsgID msg = i;
  wf_client f m c msg : byClient s !! f = Some m → m !! c = Some msg →
    From msg = f ∧ ClientMsgID msg = c ∧ f ≠ "" ∧ c ≠ "";
  wf_entry i t e : entry_of i t s = Some e →
    e_To e = t ∧ (Read e = true → Acked e = true) ∧ in_int64 (Retry e)
}.

(** A delivery only moves forward: acknowledged, read and dead are never taken back. *)
Definition entry_le (e e' : DeliveryEntry) : Prop :=
  e_To e' = e_To e ∧ (Acked e = true → Acked e' = true) ∧ (Read e = true → Read e' = true) ∧
  (Dead e = true → Dead e' = true).

#[global] Instance entry_le_preorder : PreOrder entry_le.
Proof.
  split; unfold entry_le.
  - by intros e.
  - intros e1 e2 e3. intuition congruence.
Qed.

(** Every delivery known to [s] is known to [s'], and is at least as far. *)
Definition deliveries_le (s s' : InMemoryStore) : Prop :=
  ∀ i t e, entry_of i t s = Some e → ∃ e', entry_of i t s' = Some e' ∧ entry_le e e'.

#[global] Instance deliveries_le_preorder : PreOrder deliveries_le.
Proof.
  split.
  - intros s i t e He. exists e. split; [done|reflexivity].
  - intros s1 s2 s3 H1 H2 i t e He. destruct (H1 i t e He) as (e2 & He2 & L2).
    destruct (H2 i t e2 He2) as (e3 & He3 & L3). exists e3. split; [done|]. by etrans.
Qed.

(** * The entries after each step *)

Lemma entry_of_saveDelivery i t s i' t' :
  entry_of i' t' (saveDeliveryUnsafe i t s) =
  if decide (i' = i ∧ t' = t) then Some (default (new_entry t) (entry_of i t s))
  else entry_of i' t' s.
Proof.
  unfold saveDeliveryUnsafe, entry_of, set_deliveries; cbn.
  destruct (deliveries s !! i) as [m|] eqn:Em; cbn.
  - rewrite Em. cbn. destruct (m !! t) as [e|] eqn:Ee; cbn.
    + case_decide as Hd; [destruct Hd as [-> ->]; by rewrite Em|done].
    + destruct (decide (i' = i)) as [->|Hi]; cbn.
      * rewrite lookup_insert_eq, Em; cbn. destruct (decide (t' = t)) as [->|Ht].
        -- rewrite lookup_insert_eq, Ee. dec_cases.
        -- rewrite lookup_insert_ne by done. dec_cases.
      * rewrite lookup_insert_ne by done. dec_cases.
  - rewrite lookup_insert_eq. cbn. rewrite lookup_empty, insert_insert_eq.
    destruct (decide (i' = i)) as [->|Hi]; cbn.
    + rewrite lookup_insert_eq, Em; cbn. destruct (decide (t' = t)) as [->|Ht].
      * rewrite lookup_insert_eq. dec_cases.
      * rewrite lookup_insert_ne, lookup_empty by done. dec_cases.
    + rewrite lookup_insert_ne by done. dec_cases.
Qed.

Lemma entry_of_update i t f s i' t' :
  entry_of i' t' (update_entry i t f s) =
  if decide (i' = i ∧ t' = t) then f <$> entry_of i t s else entry_of i' t' s.
Proof.
  unfold update_entry, entry_of.
  destruct (deliveries s !! i) as [m|] eqn:Em; cbn.
  2:{ case_decide as Hd; [destruct Hd as [-> ->]; by rewrite Em|done]. }
  destruct (m !! t) as [e|] eqn:Ee; cbn.
  2:{ case_decide as Hd; [destruct Hd as [-> ->]; by rewrite Em; cbn; rewrite Ee|done]. }
  destruct (decide (i' = i)) as [->|Hi]; cbn.
  - rewrite lookup_insert_eq, Em; cbn. destruct (decide (t' = t)) as [->|Ht].
    + rewrite lookup_insert_eq. dec_cases.
    + rewrite lookup_insert_ne by done. dec_cases.
  - rewrite lookup_insert_ne by done. dec_cases.
Qed.

Lemma entry_of_saveMessage msg s i t : entry_of i t (saveMessageUnsafe msg s) = entry_of i t s.
Proof. done. Qed.
Lemma entry_of_set_nextSeq m s i t : entry_of i t (set_nextSeq m s) = entry_of i t s.
Proof. done. Qed.

#[export] Hint Rewrite entry_of_saveDelivery entry_of_update entry_of_saveMessage
  entry_of_set_nextSeq : goim.

(** Only the deliveries change in an update. *)
Lemma update_entry_other i t f s :
  nextSeq (update_entry i t f s) = nextSeq s ∧ messages (update_entry i t f s) = messages s ∧
  byClient (update_entry i t f s) = byClient s ∧
  persistent (update_entry i t f s) = persistent s.
Proof. unfold update_entry. by repeat case_match. Qed.

Lemma entry_step_nextSeq s s' : entry_step s s' → nextSeq s' = nextSeq s.
Proof. destruct 1; try done; apply update_entry_other. Qed.

Lemma entry_step_persistent s s' : entry_step s s' → persistent s' = persistent s.
Proof. destruct 1; try done; apply update_entry_other. Qed.

Lemma seq_step_persistent s s' : seq_step s s' → persistent s' = persistent s.
Proof. by destruct 1. Qed.

(** ** Monotonicity *)

Lemma retry_entry_le mx base now txt e : entry_le e (retry_entry mx base now txt e).1.
Proof. unfold retry_entry, entry_le. by case_match. Qed.

Lemma update_entry_le i t f s :
  (∀ e, entry_of i t s = Some e → entry_le e (f e)) → deliveries_le s (update_entry i t f s).
Proof.
  intros Hf i' t' e He. rewrite entry_of_update. case_decide as Hd.
  - destruct Hd as [-> ->]. rewrite He. cbn. eauto.
  - exists e. split; [done|reflexivity].
Qed.

Lemma entry_step_le s s' : entry_step s s' → deliveries_le s s'.
Proof.
  destruct 1 as [| | | | |i t e0]; try (apply update_entry_le; intros e He).
  - intros i t e He. exists e. split; [done|reflexivity].
  - intros i' t' e He. rewrite entry_of_saveDelivery. case_decide as Hd.
    + destruct Hd as [-> ->]. rewrite He. exists e. split; [done|reflexivity].
    + exists e. split; [done|reflexivity].
  - done.
  - done.
  - done.
  - simplify_eq. apply retry_entry_le.
Qed.

Lemma seq_step_le s s' : seq_step s s' → deliveries_le s s'.
Proof. intros Hs i t e He. exists e. split; [by destruct Hs|reflexivity]. Qed.

(** ** Well-formedness *)

Lemma update_entry_wf i t f s :
  (∀ e, entry_of i t s = Some e → e_To e = t → (Read e = true → Acked e = true) →
        in_int64 (Retry e) →
        e_To (f e) = t ∧ (Read (f e) = true → Acked (f e) = true) ∧ in_int64 (Retry (f e))) →
  store_wf s → store_wf (update_entry i t f s).
Proof.
  intros Hf [H1 H2 H3 H4]. destruct (update_entry_other i t f s) as (E1 & E2 & E3 & _).
  split; rewrite ?E1, ?E2, ?E3; [done..|].
  intros i' t' e. rewrite entry_of_update. case_decide as Hd; [|apply H4].
  destruct Hd as [-> ->]. intros (e0 & He0 & ->)%fmap_Some.
  destruct (H4 _ _ _ He0) as (? & ? & ?). by apply Hf.
Qed.

Lemma saveMessage_wf msg s : store_wf s → store_wf (saveMessageUnsafe msg s).
Proof.
  intros [H1 H2 H3 H4]. split; [done| | |done]; cbn.
  - intros i m. rewrite lookup_insert_Some. intros [[<- <-]|[_ ?]]; [done|by apply H2].
  - intros f m c msg'. case_match eqn:E; [|apply H3]. bool_to_prop.
    intros Hf Hc. apply lookup_insert_Some in Hf as [[<- <-]|[Hne Hf]].
    + apply lookup_insert_Some in Hc as [[<- <-]|[_ Hc]]; [done|].
      destruct (byClient s !! From msg) as [m0|] eqn:E0.
      * rewrite E0 in Hc. by apply (H3 _ m0).
      * by rewrite lookup_insert_eq in Hc.
    + destruct (byClient s !! From msg) as [m0|] eqn:E0; [by apply (H3 _ m)|].
      rewrite lookup_insert_ne in Hf by done. by apply (H3 _ m).
Qed.

Lemma saveDelivery_wf i t s : store_wf s → store_wf (saveDeliveryUnsafe i t s).
Proof.
  intros [H1 H2 H3 H4]. split; [done..|]. intros i' t' e. rewrite entry_of_saveDelivery.
  case_decide as Hd; [|apply H4]. destruct Hd as [-> ->]. intros [= <-].
  destruct (entry_of i t s) as [e|] eqn:E; cbn; [by eapply H4|].
  split_and!; [done..|]. unfold in_int64. lia.
Qed.

Lemma entry_step_wf s s' : entry_step s s' → store_wf s → store_wf s'.
Proof.
  destruct 1; intros Hwf; auto using saveMessage_wf, saveDelivery_wf;
    apply update_entry_wf; try done; intros e0 He0 Ht Hr Hn; simplify_eq.
  - split_and!; [done..|]. apply wrap64_range.
  - unfold retry_entry. case_match; (split_and!; [done..|]); apply wrap64_range.
Qed.

Lemma set_nextSeq_wf c n s :
  in_uint64 n → store_wf s → store_wf (set_nextSeq (<[c := n]> (nextSeq s)) s).
Proof.
  intros Hn [H1 H2 H3 H4]. split; [|done..]. intros c' n'. cbn.
  rewrite lookup_insert_Some. intros [[_ <-]|[_ ?]]; eauto.
Qed.

Lemma NewInMemoryStore_wf b : store_wf (NewInMemoryStore b).
Proof. by split; cbn; intros; simplify_map_eq. Qed.

(** * Running calls *)

Section run.
Context `{GoEnv} {D R : Type} `{Gorm D} `{Redis R} `{Json}.

Definition run_call (c : StoreCall) (w : SW D R) : SW D R :=
  match c with
  | CNextSeq chatID => exec (NextSeq chatID) w
  | CSaveMessage msg => exec (SaveMessage msg) w
  | CSaveMessageWithRecipients msg tos => exec (SaveMessageWithRecipients msg tos) w
  | CGetMessageByClientID f cid => exec (GetMessageByClientID f cid) w
  | CGetMessageByServerID i => exec (GetMessageByServerID i) w
  | CSaveDelivery i t => exec (SaveDelivery i t) w
  | CGetRecipients i => exec (GetRecipients i) w
  | CMarkDeliverySent i t e => exec (MarkDeliverySent i t e) w
  | CMarkDeliveryAcked i t => exec (MarkDeliveryAcked i t) w
  | CMarkDeliveryRead i t => exec (MarkDeliveryRead i t) w
  | CScheduleRetry i t e mx base => exec (ScheduleRetry i t e mx base) w
  | CGetDueRetryServerMsgIDs n => exec (GetDueRetryServerMsgIDs n) w
  | CDeliveryStats => exec DeliveryStats w
  | CRecoverPendingServerMsgIDs n => exec (RecoverPendingServerMsgIDs n) w
  | CListPendingServerMsgIDsByUser u n => exec (ListPendingServerMsgIDsByUser u n) w
  | CGetC2CHistory a b n => exec (GetC2CHistory a b n) w
  end.

Definition run_calls (cs : list StoreCall) (w : SW D R) : SW D R :=
  foldl (λ w c, run_call c w) w cs.

(** Every call but [NextSeq] moves messages and deliveries only. *)
Lemma run_call_entry_steps c w :
  (∀ chat, c ≠ CNextSeq chat) → rtc entry_step (sw_mem w) (sw_mem (run_call c w)).
Proof.
  intros Hc. destruct c; cbn.
  - by destruct (Hc chatID).
  - apply SaveMessageWithRecipients_steps.
  - apply SaveMessageWithRecipients_steps.
  - apply GetMessageByClientID_steps.
  - apply GetMessageByServerID_steps.
  - apply SaveDelivery_steps.
  - apply GetRecipients_steps.
  - apply MarkDeliverySent_steps.
  - apply MarkDeliveryAcked_steps.
  - apply MarkDeliveryRead_steps.
  - apply ScheduleRetry_steps.
  - apply GetDueRetryServerMsgIDs_steps.
  - apply DeliveryStats_steps.
  - apply RecoverPendingServerMsgIDs_steps.
  - apply ListPendingServerMsgIDsByUser_steps.
  - apply GetC2CHistory_steps.
Qed.

Lemma run_call_cases c w :
  (∃ chat, c = CNextSeq chat) ∨ rtc entry_step (sw_mem w) (sw_mem (run_call c w)).
Proof.
  destruct c; [by left; eexists|right; by apply run_call_entry_steps..].
Qed.

(** A preorder that contains both kinds of steps relates the memories before and after
    any sequence of calls. *)
Lemma run_calls_rel (Rel : relation InMemoryStore) `{!PreOrder Rel} cs w :
  (∀ s s', entry_step s s' → Rel s s') → (∀ s s', seq_step s s' → Rel s s') →
  Rel (sw_mem w) (sw_mem (run_calls cs w)).
Proof.
  intros He Hs. unfold run_calls. revert w. induction cs as [|c cs IH]; intros w; cbn.
  - reflexivity.
  - etrans; [|apply IH]. destruct (run_call_cases c w) as [[chat ->]|Hc].
    + cbn. pose proof (NextSeq_steps chat w) as Hr.
      induction Hr as [|s1 s2 s3 H12 _ IH']; [reflexivity|]. etrans; [by apply Hs|done].
    + induction Hc as [|s1 s2 s3 H12 _ IH']; [reflexivity|]. etrans; [by apply He|done].
Qed.

#[local] Instance same_mode_preorder :
  PreOrder (λ s s' : InMemoryStore, persistent s = persistent s').
Proof. split; [done|]. intros ???. congruence. Qed.

Lemma run_calls_persistent cs w :
  persistent (sw_mem (run_calls cs w)) = persistent (sw_mem w).
Proof.
  symmetry. apply (run_calls_rel (λ s s', persistent s = persistent s')).
  - intros s s' Hs. by rewrite (entry_step_persistent s s').
  - intros s s' Hs. by rewrite (seq_step_persistent s s').
Qed.

Lemma run_calls_deliveries_le cs w :
  deliveries_le (sw_mem w) (sw_mem (run_calls cs w)).
Proof. apply run_calls_rel; [apply _|apply entry_step_le|apply seq_step_le]. Qed.

(** An invariant kept by every call. *)
Lemma run_calls_wf cs w : store_wf (sw_mem w) → store_wf (sw_mem (run_calls cs w)).
Proof.
  unfold run_calls. revert w. induction cs as [|c cs IH]; intros w Hw; cbn; [done|].
  apply IH. destruct (run_call_cases c w) as [[chat ->]|Hc].
  - cbn. destruct (NextSeq_spec chat w) as (n & _ & Hn & -> & _).
    by apply set_nextSeq_wf.
  - clear IH. induction Hc; eauto using entry_step_wf.
Qed.

(** The number of sequence numbers drawn for a chat. *)
Definition is_draw (c : string) (x : StoreCall) : bool :=
  match x with CNextSeq c' => String.eqb (seq_key c') (seq_key c) | _ => false end.
Definition draws (c : string) (cs : list StoreCall) : Z :=
  Z.of_nat (length (List.filter (is_draw c) cs)).

Lemma run_call_nextSeq x w c :
  is_draw c x = false →
  nextSeq (sw_mem (run_call x w)) !! seq_key c = nextSeq (sw_mem w) !! seq_key c.
Proof.
  intros Hx. destruct (run_call_cases x w) as [[chat ->]|Hc].
  - cbn in *. destruct (NextSeq_spec chat w) as (n & _ & _ & -> & _). cbn.
    bool_to_prop. by rewrite lookup_insert_ne.
  - f_equal. induction Hc as [|s1 s2 s3 H12 _ IH]; [done|].
    by rewrite IH, (entry_step_nextSeq s1 s2).
Qed.

(** The counter of a chat counts its draws. *)
Lemma run_calls_nextSeq cs w c k :
  nextSeq (sw_mem w) !! seq_key c = Some k → 0 <= k → k + draws c cs < 2 ^ 64 →
  nextSeq (sw_mem (run_calls cs w)) !! seq_key c = Some (k + draws c cs).
Proof.
  unfold run_calls, draws. revert w k. induction cs as [|x cs IH]; intros w k Hk H0' Hb; cbn.
  - rewrite Hk. f_equal. lia.
  - cbn in Hb. destruct (is_draw c x) eqn:Ex; cbn in Hb |- *.
    + destruct x; cbn in Ex; try done. bool_to_prop. cbn.
      destruct (NextSeq_spec chatID w) as (n & _ & _ & Hs & Hn).
      rewrite Ex in Hs, Hn. rewrite (Hn k Hk) in Hs.
      rewrite (IH _ (k + 1)); [f_equal; lia| |lia|lia].
      rewrite Hs. cbn. rewrite lookup_insert_eq, wrapu64_id; [done|].
      unfold in_uint64. lia.
    + rewrite (IH _ k); [done| |lia|lia]. by rewrite run_call_nextSeq.
Qed.
End run.
