(* ===== verification/StoreFacts.v ===== *)
(** Lemmas on the single methods of the store, shared by the properties of [StoreProps],
    [Logic] and [Worker]: the helpers against reference definitions, the memory-only
    behaviour of the methods as equations. *)
From S2P Require Import Prelude GoStr Protocol StoreIface Storage Cache Store.
From S2P Require Import StoreSteps StoreInv.

(** * dedupeStrings *)

Lemma elem_of_dedupe_loop seen l x :
  x ∈ dedupe_loop seen l ↔ x ∈ l ∧ x ≠ "" ∧ x ∉ seen.
Proof.
  revert seen. induction l as [|y l IH]; intros seen; cbn [dedupe_loop].
  - split; [intros []%not_elem_of_nil|intros [[]%not_elem_of_nil _]].
  - rewrite elem_of_cons. destruct (String.eqb y "") eqn:E; bool_to_prop.
    + rewrite IH. split; [tauto|]. intros ([->|?] & ? & ?); [done|tauto].
    + case_decide; rewrite ?elem_of_cons, IH.
      * split; [tauto|]. intros ([->|?] & ? & ?); [done|tauto].
      * rewrite elem_of_union, elem_of_singleton.
        destruct (decide (x = y)) as [->|]; tauto.
Qed.

Lemma NoDup_dedupe_loop seen l : NoDup (dedupe_loop seen l).
Proof.
  revert seen. induction l as [|y l IH]; intros seen; cbn [dedupe_loop].
  - constructor.
  - repeat case_match; [done|done|]. constructor; [|done].
    rewrite elem_of_dedupe_loop, elem_of_union, elem_of_singleton. tauto.
Qed.

Lemma dedupe_loop_sublist seen l : sublist (dedupe_loop seen l) l.
Proof.
  revert seen. induction l as [|y l IH]; intros seen; cbn [dedupe_loop].
  - constructor.
  - repeat case_match; by constructor.
Qed.

(** * reverseMessages *)

Lemma insert_middle {A} n (a b : A) l1 l2 :
  n = length l1 → <[n := b]> (l1 ++ a :: l2) = l1 ++ b :: l2.
Proof. intros ->. rewrite insert_app_r_alt, Nat.sub_diag by lia. done. Qed.

(** One swap: the ends [x] and [y] of the segment change places. *)
Lemma reverse_loop_swap {A} fuel (pre mid suf : list A) x y :
  let n := (length pre + length mid)%nat in
  reverse_loop (S fuel) (length pre) (S n) (pre ++ x :: mid ++ y :: suf)
  = reverse_loop fuel (S (length pre)) n (pre ++ y :: mid ++ x :: suf).
Proof.
  intros n. cbn [reverse_loop].
  destruct (Nat.ltb_spec (length pre) (S n)) as [_|?]; [|lia].
  rewrite (list_lookup_middle pre) by done.
  change (pre ++ x :: mid ++ y :: suf) with (pre ++ (x :: mid) ++ y :: suf).
  rewrite app_assoc. assert (S n = length (pre ++ x :: mid)) as Hn.
  { rewrite length_app. cbn. lia. }
  rewrite (list_lookup_middle (pre ++ x :: mid)) by done. cbn [pred]. f_equal.
  rewrite insert_middle by done. rewrite <- app_assoc. cbn. by rewrite insert_middle.
Qed.

(** The loop with ends [i] and [j] reverses the segment between them. *)
Lemma reverse_loop_spec {A} fuel (pre mid suf : list A) :
  (length mid <= 2 * fuel)%nat →
  reverse_loop fuel (length pre) (pred (length pre + length mid)) (pre ++ mid ++ suf)
  = pre ++ reverse mid ++ suf.
Proof.
  revert pre mid suf. induction fuel as [|fuel IH]; intros pre mid suf Hf.
  { destruct mid; cbn in *; [done|lia]. }
  destruct mid as [|x mid].
  { cbn [reverse_loop length]. case_match eqn:E; [apply Nat.ltb_lt in E; lia|done]. }
  destruct mid as [|y mid _] using rev_ind.
  { cbn [reverse_loop length app]. case_match eqn:E; [apply Nat.ltb_lt in E; lia|done]. }
  rewrite reverse_cons, reverse_snoc. cbn [length] in Hf. rewrite length_app in Hf.
  cbn in Hf. replace (pred (length pre + length (x :: mid ++ [y])))
    with (S (length pre + length mid)) by (cbn; rewrite length_app; cbn; lia).
  cbn [app]. rewrite <- app_assoc. cbn [app]. rewrite reverse_loop_swap.
  specialize (IH (pre ++ [y]) mid (x :: suf)). rewrite length_app in IH. cbn in IH.
  rewrite Nat.add_1_r in IH. rewrite <- !app_assoc in IH. cbn in IH |- *.
  rewrite <- app_assoc. apply IH. lia.
Qed.

Lemma reverseMessages_reverse l : reverseMessages l = reverse l.
Proof.
  pose proof (reverse_loop_spec (length l) [] l []) as Hr. cbn in Hr.
  rewrite !app_nil_r in Hr. unfold reverseMessages. apply Hr. lia.
Qed.

(** * The methods in memory-only mode *)
Section memory.
Context `{GoEnv} {D R : Type} `{Gorm D} `{Redis R} `{Json}.
Implicit Types w : SW D R.

Definition with_mem (f : InMemoryStore → InMemoryStore) w : SW D R :=
  mkSW (f (sw_mem w)) (sw_ext w).
Definition with_ticks (n : nat) w : SW D R :=
  mkSW (sw_mem w) (set_tick (n + x_tick (sw_ext w)) (sw_ext w)).

Lemma GetRecipients_mem i w :
  persistent (sw_mem w) = false →
  GetRecipients i w =
    match deliveries (sw_mem w) !! i with
    | Some m => ((List.filter (λ kv, pending_entry kv.2)
                    (go_order (x_tick (sw_ext w)) (map_to_list m))).*1, with_ticks 1 w)
    | None => ([], w)
    end.
Proof.
  intros Hp. unfold GetRecipients, get_mem, ext, range_map. munfold. cbn.
  destruct (deliveries (sw_mem w) !! i) as [m|]; cbn;
    rewrite Hp; [by rewrite orb_true_r|done].
Qed.

(** The recipients still waiting, each once. *)
Lemma GetRecipients_mem_spec i w :
  persistent (sw_mem w) = false →
  NoDup (eval (GetRecipients i) w) ∧
  (∀ t, t ∈ eval (GetRecipients i) w ↔
        ∃ e, entry_of i t (sw_mem w) = Some e ∧ pending_entry e = true) ∧
  sw_mem (exec (GetRecipients i) w) = sw_mem w.
Proof.
  intros Hp. unfold eval, exec, entry_of. rewrite GetRecipients_mem by done.
  destruct (deliveries (sw_mem w) !! i) as [m|]; cbn; [|split_and!; [constructor| |done];
    intros t; split; [intros []%not_elem_of_nil | intros (? & ? & ?); done]].
  set (kvs := go_order _ _).
  assert (kvs ≡ₚ map_to_list m) as Hkvs by apply go_order_perm. split_and!; [| |done].
  - assert (NoDup kvs.*1) as Hnd by (rewrite Hkvs; apply NoDup_fst_map_to_list).
    induction kvs as [|[k e] l IH] in Hnd |- *; cbn in *; [constructor|].
    apply NoDup_cons in Hnd as [Hk Hnd]. case_match; cbn; [|by apply IH].
    constructor; [|by apply IH]. intros Hin. apply Hk.
    apply list_elem_of_fmap in Hin as (kv & -> & Hin).
    apply list_elem_of_In, filter_In in Hin as [Hin _].
    apply list_elem_of_fmap_2. by apply list_elem_of_In.
  - intros t. rewrite list_elem_of_fmap. split.
    + intros ([k e] & -> & Hin). apply list_elem_of_In, filter_In in Hin as [Hin He].
      apply list_elem_of_In in Hin. rewrite Hkvs in Hin.
      apply elem_of_map_to_list in Hin. eauto.
    + intros (e & He & Hpe). exists (t, e). split; [done|].
      apply list_elem_of_In, filter_In. split; [|done]. apply list_elem_of_In.
      rewrite Hkvs. by apply elem_of_map_to_list.
Qed.

(** In either mode, if somebody in memory is waiting. *)
Lemma GetRecipients_waiting i t0 e0 w :
  entry_of i t0 (sw_mem w) = Some e0 → pending_entry e0 = true →
  NoDup (eval (GetRecipients i) w) ∧
  (∀ t, t ∈ eval (GetRecipients i) w ↔
        ∃ e, entry_of i t (sw_mem w) = Some e ∧ pending_entry e = true) ∧
  sw_mem (exec (GetRecipients i) w) = sw_mem w.
Proof.
  intros He0 Hp0.
  set (w0 := mkSW (mkStore (nextSeq (sw_mem w)) (messages (sw_mem w)) (byClient (sw_mem w))
    (deliveries (sw_mem w)) false) (sw_ext w) : SW D R).
  destruct (GetRecipients_mem_spec i w0 eq_refl) as (Hnd & Hin & _).
  assert (t0 ∈ eval (GetRecipients i) w0) as Ht0 by (apply Hin; by exists e0).
  change (∀ t, t ∈ eval (GetRecipients i) w0 ↔
    ∃ e, entry_of i t (sw_mem w) = Some e ∧ pending_entry e = true) in Hin.
  assert (eval (GetRecipients i) w = eval (GetRecipients i) w0 ∧
    sw_mem (exec (GetRecipients i) w) = sw_mem w) as [-> ->]; [|by split_and!].
  unfold eval in *. rewrite (GetRecipients_mem i w0 eq_refl) in Ht0 |- *.
  unfold exec, GetRecipients, get_mem, ext, range_map. munfold. cbn in *.
  destruct (deliveries (sw_mem w) !! i) as [m|]; cbn in *; [|by apply not_elem_of_nil in Ht0].
  rewrite bool_decide_eq_false_2; [done|]. intros E. rewrite E in Ht0. by apply not_elem_of_nil in Ht0.
Qed.

Lemma ScheduleRetry_mem i t err mx base w e :
  persistent (sw_mem w) = false → i ≠ "" → t ≠ "" → entry_of i t (sw_mem w) = Some e →
  ScheduleRetry i t err mx base w =
    let mx' := if mx <=? 0 then 5 else mx in
    let base' := if base <=? 0 then 2 * Second else base in
    let txt := match err with Some e => Error e | None => "delivery failed" end in
    let r := retry_entry mx' base' (go_now (x_tick (sw_ext w))) txt e in
    ((r.2, None), with_ticks 1 (with_mem (update_entry i t (λ _, r.1)) w)).
Proof.
  intros Hp Hi Ht He. unfold ScheduleRetry, ext, Now, get_mem, mem_modify.
  apply String.eqb_neq in Hi, Ht. rewrite Hi, Ht. munfold. cbn. rewrite He.
  destruct (retry_entry _ _ _ _ e) as [e' [|]]; cbn;
    unfold schedule_dead, schedule_row, mem; munfold; cbn;
    destruct (update_entry_other i t (λ _, e') (sw_mem w)) as (_ & _ & _ & ->);
    by rewrite Hp.
Qed.

Lemma MarkDeliveryAcked_mem i t w :
  persistent (sw_mem w) = false →
  MarkDeliveryAcked i t w = (None, with_mem (update_entry i t acked_entry) w).
Proof.
  intros Hp. unfold MarkDeliveryAcked, mem_modify, mem. munfold. cbn.
  destruct (update_entry_other i t acked_entry (sw_mem w)) as (_ & _ & _ & ->).
  by rewrite Hp.
Qed.

(** The message and its recipients are in memory after a successful save. *)
Lemma remember_message_spec msg tos w :
  fst (remember_message msg tos w) = None ∧
  sw_ext (snd (remember_message msg tos w)) = sw_ext w ∧
  sw_mem (snd (remember_message msg tos w)) =
    foldl (λ s to, saveDeliveryUnsafe (ServerMsgID msg) to s)
      (saveMessageUnsafe msg (sw_mem w)) tos.
Proof.
  unfold remember_message, mem_modify. munfold. cbn.
  generalize (saveMessageUnsafe msg (sw_mem w)) as s.
  induction tos as [|to tos IH]; intros s; cbn; [done|]. apply IH.
Qed.

Lemma saveDeliveries_other i tos s :
  let s' := foldl (λ s to, saveDeliveryUnsafe i to s) s tos in
  nextSeq s' = nextSeq s ∧ messages s' = messages s ∧ byClient s' = byClient s ∧
  persistent s' = persistent s.
Proof.
  revert s. induction tos as [|to tos IH]; intros s; cbn; [done|].
  destruct (IH (saveDeliveryUnsafe i to s)) as (-> & -> & -> & ->). done.
Qed.

Lemma saveDeliveries_entry i tos s i' t' :
  entry_of i' t' (foldl (λ s to, saveDeliveryUnsafe i to s) s tos) =
  if decide (i' = i ∧ t' ∈ tos) then Some (default (new_entry t') (entry_of i t' s))
  else entry_of i' t' s.
Proof.
  revert s. induction tos as [|to tos IH]; intros s; cbn.
  - case_decide as Hd; [|done]. by destruct Hd as [_ []%not_elem_of_nil].
  - rewrite IH, !entry_of_saveDelivery. repeat case_decide;
      rewrite ?elem_of_cons in *; destruct_and?; subst; done || tauto.
Qed.

Lemma saveMessage_lookup msg s :
  messages (saveMessageUnsafe msg s) = <[ServerMsgID msg := msg]> (messages s) ∧
  (From msg ≠ "" → ClientMsgID msg ≠ "" →
   ∃ m, byClient (saveMessageUnsafe msg s) !! From msg = Some m ∧
        m !! ClientMsgID msg = Some msg).
Proof.
  split; [done|]. intros Hf Hc. unfold saveMessageUnsafe; cbn.
  apply String.eqb_neq in Hf, Hc. rewrite Hf, Hc. cbn.
  eexists. rewrite lookup_insert_eq. split; [done|]. by rewrite lookup_insert_eq.
Qed.

(** Every successful save ends with the memory part, from some state. *)
Lemma save_remembers msg recipients w w' :
  SaveMessageWithRecipients (Some msg) recipients w = (None, w') →
  ∃ w1, sw_mem w' = foldl (λ s to, saveDeliveryUnsafe (ServerMsgID msg) to s)
                      (saveMessageUnsafe msg (sw_mem w1)) (default [] recipients).
Proof.
  unfold SaveMessageWithRecipients, mem. unfold mbind, M_bind, gets.
  case_match; [done|]. intros Hs.
  assert (∃ w1, remember_message msg (default [] recipients) w1 = (None, w')) as [w1 Hr].
  { destruct (persistent (sw_mem w)); [|by eexists].
    destruct (persist_message msg recipients w) as [[e|] w1]; [done|by eexists]. }
  exists w1. destruct (remember_message_spec msg (default [] recipients) w1) as (_ & _ & <-).
  by rewrite Hr.
Qed.

(** ** Counting the deliveries *)

(** All entries, message by message. *)
Definition all_entries (s : InMemoryStore) : list DeliveryEntry :=
  concat ((λ kv, (map_to_list kv.2).*2) <$> map_to_list (deliveries s)).

Lemma range_entries_perm l w :
  fst (range_entries l w) ≡ₚ concat ((λ kv, (map_to_list kv.2).*2) <$> l) ∧
  sw_mem (snd (range_entries l w)) = sw_mem w.
Proof.
  revert w. induction l as [|[k m] l IH]; intros w; [done|].
  cbn [range_entries]. unfold ext, range_map, zoom, mbind, M_bind, mret, M_ret.
  match goal with |- context [range_entries l ?x] => specialize (IH x);
    destruct (range_entries l x) as [rest w'] end.
  destruct IH as [IH1 IH2]. cbn in *. split; [|done].
  rewrite IH1. apply Permutation_app_tail, fmap_Permutation, go_order_perm.
Qed.

(** How many entries satisfy a test. *)
Definition count (p : DeliveryEntry → bool) (l : list DeliveryEntry) : Z :=
  Z.of_nat (length (List.filter p l)).

Lemma count_permutation p l1 l2 : l1 ≡ₚ l2 → count p l1 = count p l2.
Proof.
  unfold count. intros Hp. f_equal.
  induction Hp as [|x l1 l2 _ IH|x y l|l1 l2 l3 _ IH1 _ IH2]; cbn; [done| | |congruence].
  - destruct (p x); cbn; congruence.
  - by destruct (p x), (p y).
Qed.

Definition is_dead (e : DeliveryEntry) : bool := Dead e.
Definition is_read (e : DeliveryEntry) : bool := negb (Dead e) && Read e.
Definition is_delivered (e : DeliveryEntry) : bool := negb (Dead e) && negb (Read e) && Acked e.

Lemma count_cons p e l : count p (e :: l) = (if p e then 1 else 0) + count p l.
Proof. unfold count. cbn. destruct (p e); cbn; lia. Qed.

Lemma count_nonneg p l : 0 <= count p l <= Z.of_nat (length l).
Proof.
  unfold count. induction l as [|e l IH]; cbn; [lia|]. destruct (p e); cbn; lia.
Qed.

Lemma count_loop l a b c d :
  0 <= a → 0 <= b → 0 <= c → 0 <= d →
  a + b + c + d + Z.of_nat (length l) < 2 ^ 63 →
  foldl (λ st e, count_entry e st) (mkStats a b c d) l =
  mkStats (a + count pending_entry l) (b + count is_delivered l) (c + count is_read l)
    (d + count is_dead l).
Proof.
  revert a b c d. induction l as [|e l IH]; intros a b c d Ha Hb Hc Hd Hlt.
  - unfold count. cbn. f_equal; lia.
  - cbn [foldl length] in *. rewrite !count_cons. unfold count_entry at 2.
    unfold pending_entry at 1, is_delivered at 1, is_read at 1, is_dead at 1. cbn.
    destruct (Dead e), (Read e), (Acked e); cbn;
      rewrite wrap64_id, IH by (unfold in_int64; lia); f_equal; lia.
Qed.
End memory.
