(* ===== verification/StoreSpec.v ===== *)
(** What each call of the store's interface promises about its memory ([call_spec]): one
    contract per constructor of [StoreCall], in terms of what can be looked up - the counter
    of a chat, the message under an id, the message that answers for a client id, the
    delivery entry of a recipient - and written without the functions of [Store] that change
    the memory. [run_call_meets] shows that the methods keep it, in both modes and whatever
    the database, the cache and the runtime do. *)
From S2P Require Import Prelude GoStr Protocol StoreIface Storage Cache Store.
From S2P Require Import StoreSteps StoreInv StoreFacts.

(** * The contract *)

(** The message that answers for a sender and a client id. *)
Definition answer (f c : string) (s : InMemoryStore) : option Message :=
  m ← byClient s !! f; m !! c.

Definition counters_kept (s s' : InMemoryStore) : Prop :=
  ∀ c, nextSeq s' !! c = nextSeq s !! c.
Definition messages_kept (s s' : InMemoryStore) : Prop :=
  (∀ i, messages s' !! i = messages s !! i) ∧ (∀ f c, answer f c s' = answer f c s).
Definition entries_kept (s s' : InMemoryStore) : Prop :=
  ∀ i t, entry_of i t s' = entry_of i t s.

(** [msg] is filed under its id and, if it has both, under its sender and client id. *)
Definition filed (msg : Message) (s s' : InMemoryStore) : Prop :=
  (∀ i, messages s' !! i = if decide (i = ServerMsgID msg) then Some msg else messages s !! i) ∧
  (∀ f c, answer f c s' =
     if decide (f = From msg ∧ c = ClientMsgID msg ∧ f ≠ "" ∧ c ≠ "")
     then Some msg else answer f c s).

(** A delivery nobody attempted yet. *)
Definition untried (t : string) (e : DeliveryEntry) : Prop :=
  e_To e = t ∧ Acked e = false ∧ Read e = false ∧ Dead e = false ∧ Retry e = 0 ∧
  LastSent e = 0 ∧ NextRetryAt e = 0 ∧ LastError e = "".

(** Deliveries may appear; those there already are left as they are. *)
Definition entries_added (s s' : InMemoryStore) : Prop :=
  ∀ i t, match entry_of i t s with
         | Some e => entry_of i t s' = Some e
         | None => ∀ e, entry_of i t s' = Some e → untried t e
         end.

(** The recipients [tos] of [i] have an entry, the others nothing new. *)
Definition opened (i : string) (tos : list string) (s s' : InMemoryStore) : Prop :=
  entries_added s s' ∧
  ∀ i' t, is_Some (entry_of i' t s') ↔ is_Some (entry_of i' t s) ∨ i' = i ∧ t ∈ tos.

(** At most one entry changed, and it changed that way. *)
Definition only_entry (i t : string) (change : DeliveryEntry → DeliveryEntry → Prop)
    (s s' : InMemoryStore) : Prop :=
  (∀ i' t', (i', t') ≠ (i, t) → entry_of i' t' s' = entry_of i' t' s) ∧
  match entry_of i t s with
  | Some e => ∃ e', entry_of i t s' = Some e' ∧ change e e'
  | None => entry_of i t s' = None
  end.

(** A save: refused, or the message and its recipients. *)
Definition save_spec (msg : option Message) (tos : list string) (s s' : InMemoryStore) :
    Prop :=
  match msg with
  | None => s' = s
  | Some m =>
    (ServerMsgID m = "" ∨ persistent s = true) ∧ s' = s ∨
    ServerMsgID m ≠ "" ∧ filed m s s' ∧ opened (ServerMsgID m) tos s s'
  end.

Section spec.
Context `{GoEnv}.

(** What each of the calls on one delivery does to its entry. *)
Definition was_sent (e e' : DeliveryEntry) : Prop :=
  e_To e' = e_To e ∧ Acked e' = Acked e ∧ Read e' = Read e ∧ Dead e' = Dead e ∧
  Retry e' = wrap64 (Retry e + 1) ∧ (∃ k, LastSent e' = Unix (go_now k)) ∧
  NextRetryAt e' = NextRetryAt e ∧ LastError e' = LastError e.
Definition was_acked (read : bool) (e e' : DeliveryEntry) : Prop :=
  e_To e' = e_To e ∧ Acked e' = true ∧ Read e' = read || Read e ∧ Dead e' = Dead e ∧
  Retry e' = Retry e ∧ LastSent e' = LastSent e ∧
  NextRetryAt e' = NextRetryAt e ∧ LastError e' = LastError e.

(** One more attempt; dead from [mx] attempts on, or tried again after the base delay doubled
    at each attempt, at most six times. *)
Definition was_retried (mx base : Z) (text : string) (e e' : DeliveryEntry) : Prop :=
  e_To e' = e_To e ∧ Acked e' = Acked e ∧ Read e' = Read e ∧ LastSent e' = LastSent e ∧
  LastError e' = text ∧ Retry e' = wrap64 (Retry e + 1) ∧
  (Dead e' = true ↔ Dead e = true ∨ mx <= Retry e') ∧
  (mx <= Retry e' → NextRetryAt e' = NextRetryAt e) ∧
  (1 <= Retry e' < mx → base * 64 < 2 ^ 63 →
     ∃ k, NextRetryAt e' = Unix (go_now k + base * 2 ^ Z.min (Retry e' - 1) 6)).

Definition call_spec (c : StoreCall) (s s' : InMemoryStore) : Prop :=
  persistent s' = persistent s ∧
  match c with
  | CNextSeq chat =>
    let ch := if String.eqb chat "" then "default" else chat in
    messages_kept s s' ∧ entries_kept s s' ∧
    ∃ n, 0 <= n < 2 ^ 64 ∧
      (∀ c, nextSeq s' !! c = if decide (c = ch) then Some n else nextSeq s !! c) ∧
      match nextSeq s !! ch with
      | Some k => n = (k + 1) mod 2 ^ 64
      | None => persistent s = false → n = 1
      end
  | CSaveMessage msg => counters_kept s s' ∧ save_spec msg [] s s'
  | CSaveMessageWithRecipients msg tos =>
    counters_kept s s' ∧ save_spec msg (default [] tos) s s'
  | CGetMessageByClientID f c =>
    s' = s ∨ persistent s = true ∧ f ≠ "" ∧ c ≠ "" ∧ answer f c s = None ∧
      counters_kept s s' ∧ entries_kept s s' ∧ ∃ m, filed m s s'
  | CGetMessageByServerID i =>
    s' = s ∨ persistent s = true ∧ i ≠ "" ∧ messages s !! i = None ∧
      counters_kept s s' ∧ entries_kept s s' ∧ ∃ m, filed m s s'
  | CSaveDelivery i t =>
    counters_kept s s' ∧ messages_kept s s' ∧
    if decide (i = "" ∨ t = "") then entries_kept s s' else opened i [t] s s'
  | CMarkDeliverySent i t _ =>
    counters_kept s s' ∧ messages_kept s s' ∧ only_entry i t was_sent s s'
  | CMarkDeliveryAcked i t =>
    counters_kept s s' ∧ messages_kept s s' ∧ only_entry i t (was_acked false) s s'
  | CMarkDeliveryRead i t =>
    counters_kept s s' ∧ messages_kept s s' ∧ only_entry i t (was_acked true) s s'
  | CScheduleRetry i t err mx base =>
    counters_kept s s' ∧ messages_kept s s' ∧
    if decide (i = "" ∨ t = "") then entries_kept s s'
    else only_entry i t (was_retried (if mx <=? 0 then 5 else mx)
           (if base <=? 0 then 2 * Second else base)
           (match err with Some e => Error e | None => "delivery failed" end)) s s'
  | CGetRecipients _ | CGetDueRetryServerMsgIDs _ | CRecoverPendingServerMsgIDs _
  | CListPendingServerMsgIDsByUser _ _ =>
    if persistent s then counters_kept s s' ∧ messages_kept s s' ∧ entries_added s s'
    else s' = s
  | CDeliveryStats | CGetC2CHistory _ _ _ => s' = s
  end.
End spec.

(** * The methods keep it *)

#[export] Instance entries_added_preorder : PreOrder entries_added.
Proof.
  split.
  - intros s i t. destruct (entry_of i t s); [done|]. done.
  - intros s1 s2 s3 H12 H23 i t. specialize (H12 i t). specialize (H23 i t).
    destruct (entry_of i t s1) as [e1|]; [by rewrite H12 in H23|].
    destruct (entry_of i t s2) as [e2|]; [|done]. intros e. rewrite H23. intros [= <-]. auto.
Qed.

(** The memories that agree on everything but new deliveries. *)
Definition adopts (s s' : InMemoryStore) : Prop :=
  persistent s' = persistent s ∧ nextSeq s' = nextSeq s ∧ messages s' = messages s ∧
  byClient s' = byClient s ∧ entries_added s s'.

#[export] Instance adopts_preorder : PreOrder adopts.
Proof.
  split.
  - intros s. by split_and!.
  - intros s1 s2 s3 (?&?&?&?&A1) (?&?&?&?&A2). split_and!; [congruence..|]. by etrans.
Qed.

Lemma untried_new t : untried t (new_entry t).
Proof. by split_and!. Qed.

Lemma saveDelivery_opened i t s : opened i [t] s (saveDeliveryUnsafe i t s).
Proof.
  split.
  - intros i' t'. rewrite entry_of_saveDelivery. case_decide as Hd.
    + destruct Hd as [-> ->]. destruct (entry_of i t s); cbn; [done|].
      intros e [= <-]. apply untried_new.
    + destruct (entry_of i' t' s); done.
  - intros i' t'. rewrite entry_of_saveDelivery, list_elem_of_singleton. case_decide as Hd.
    + split; [by right|by eexists].
    + split; [by left|]. by intros [?|?].
Qed.

Lemma saveDelivery_adopts i t s : adopts s (saveDeliveryUnsafe i t s).
Proof. split_and!; try done. apply saveDelivery_opened. Qed.

Lemma saveDeliveries_opened i tos s :
  opened i tos s (foldl (λ s to, saveDeliveryUnsafe i to s) s tos).
Proof.
  split; intros i' t; rewrite saveDeliveries_entry; case_decide as Hd.
  - destruct Hd as [-> _]. destruct (entry_of i t s); cbn; [done|].
    intros e [= <-]. apply untried_new.
  - by destruct (entry_of i' t s).
  - split; [auto|by eexists].
  - split; [by left|]. by intros [?|?].
Qed.

Lemma saveMessage_answer msg s f c :
  answer f c (saveMessageUnsafe msg s) =
  if decide (f = From msg ∧ c = ClientMsgID msg ∧ f ≠ "" ∧ c ≠ "")
  then Some msg else answer f c s.
Proof.
  unfold answer, saveMessageUnsafe. cbn.
  destruct (String.eqb_spec (From msg) "") as [Ef|Ef]; cbn.
  { rewrite decide_False; [done|]. intros (-> & _ & ? & _). done. }
  destruct (String.eqb_spec (ClientMsgID msg) "") as [Ec|Ec]; cbn.
  { rewrite decide_False; [done|]. intros (_ & -> & _ & ?). done. }
  set (b := match byClient s !! From msg with Some _ => _ | None => _ end).
  assert (∀ x, (m ← b !! x; m !! c) = (m ← byClient s !! x; m !! c)) as Hb.
  { intros x. subst b. destruct (byClient s !! From msg) eqn:E; [done|].
    destruct (decide (x = From msg)) as [->|Hx]; [by rewrite lookup_insert_eq, E|].
    by rewrite lookup_insert_ne. }
  destruct (decide (f = From msg)) as [->|Hf].
  - rewrite lookup_insert_eq. cbn. destruct (decide (c = ClientMsgID msg)) as [->|Hc].
    + by rewrite lookup_insert_eq, decide_True.
    + rewrite lookup_insert_ne, decide_False, <- Hb by (congruence || tauto). by destruct (b !! From msg).
  - rewrite lookup_insert_ne, decide_False by (congruence || tauto). apply Hb.
Qed.

Lemma saveMessage_filed msg s : filed msg s (saveMessageUnsafe msg s).
Proof.
  split; [|apply saveMessage_answer]. intros i. cbn. case_decide as Hi.
  - subst. by rewrite lookup_insert_eq.
  - by rewrite lookup_insert_ne.
Qed.

Lemma update_only i t f (change : DeliveryEntry → DeliveryEntry → Prop) s :
  (∀ e, entry_of i t s = Some e → change e (f e)) →
  let s' := update_entry i t f s in
  persistent s' = persistent s ∧ counters_kept s s' ∧ messages_kept s s' ∧
  only_entry i t change s s'.
Proof.
  intros Hf. cbn. destruct (update_entry_other i t f s) as (E1 & E2 & E3 & E4).
  unfold counters_kept, messages_kept, answer. rewrite E1, E2, E3, E4.
  split_and!; try done. split.
  - intros i' t' Hne. rewrite entry_of_update, decide_False; [done|]. intros [-> ->]. done.
  - rewrite entry_of_update, decide_True by done. destruct (entry_of i t s); cbn; eauto.
Qed.

Section meets.
Context `{GoEnv} {D R : Type} `{Gorm D} `{Redis R} `{Json}.
Implicit Types w : SW D R.

(** Computations that leave the memory alone, or add deliveries to it. *)
Abbreviation still := (moves (on (@sw_mem D R) eq)).
Abbreviation adopting := (moves (on (@sw_mem D R) adopts)).

Lemma still_ext {A} (m : M (Ext D R) A) : still (ext m).
Proof. intros w. unfold exec, ext, zoom, on. by destruct (m (sw_ext w)). Qed.
Lemma still_mem {A} (f : InMemoryStore → A) : still (mem f).
Proof. apply moves_gets, _. Qed.
Lemma still_get : still get_mem.
Proof. apply moves_gets, _. Qed.
Hint Resolve still_ext still_mem still_get : core.
Ltac still_tac := moves_tac ltac:(eauto).

Lemma adopting_ext {A} (m : M (Ext D R) A) : adopting (ext m).
Proof. intros w. unfold on. rewrite <- (still_ext m w). reflexivity. Qed.
Lemma adopting_mem {A} (f : InMemoryStore → A) : adopting (mem f).
Proof. apply moves_gets, _. Qed.
Lemma adopting_get : adopting get_mem.
Proof. apply moves_gets, _. Qed.
Lemma adopting_save i t : adopting (mem_modify (saveDeliveryUnsafe i t)).
Proof. intros w. apply saveDelivery_adopts. Qed.
Hint Resolve adopting_ext adopting_mem adopting_get adopting_save : core.
Ltac adopting_tac := moves_tac ltac:(eauto).

(** What follows a change and leaves the memory alone does not matter. *)
Lemma then_still {A B} (m : M (SW D R) A) (k : A → M (SW D R) B) w :
  (∀ a, still (k a)) → sw_mem (exec (m ≫= k) w) = sw_mem (exec m w).
Proof.
  intros Hk. unfold exec, mbind, M_bind. destruct (m w) as [a w'].
  symmetry. apply (Hk a w').
Qed.

Lemma exec_read {A B} (f : SW D R → A) (k : A → M (SW D R) B) w :
  exec (gets f ≫= k) w = exec (k (f w)) w.
Proof. done. Qed.

Lemma update_none i t f s : entry_of i t s = None → update_entry i t f s = s.
Proof.
  unfold entry_of, update_entry. destruct (deliveries s !! i) as [m|]; [|done]. cbn.
  by intros ->.
Qed.

Lemma sent_mem i t err w :
  ∃ k, sw_mem (exec (MarkDeliverySent i t err) w) =
    update_entry i t (sent_entry (Unix (go_now k))) (sw_mem w).
Proof.
  exists (x_tick (sw_ext w)). unfold MarkDeliverySent, get_mem. rewrite exec_read, then_still.
  - destruct (entry_of i t (sw_mem w)) eqn:E; [done|]. by rewrite update_none.
  - intros _. still_tac.
Qed.

Lemma acked_mem i t w :
  sw_mem (exec (MarkDeliveryAcked i t) w) = update_entry i t acked_entry (sw_mem w).
Proof.
  unfold MarkDeliveryAcked, invalidate_delivery. rewrite then_still; [done|].
  intros _. still_tac.
Qed.

Lemma read_mem i t w :
  sw_mem (exec (MarkDeliveryRead i t) w) = update_entry i t read_entry (sw_mem w).
Proof.
  unfold MarkDeliveryRead, invalidate_delivery. rewrite then_still; [done|].
  intros _. still_tac.
Qed.

(** The delay doubles at each attempt, at most six times, as long as 64 times the base fits. *)
Lemma backoff_power base r :
  0 < base → base * 64 < 2 ^ 63 → 1 <= r < 2 ^ 63 →
  backoff base r = base * 2 ^ Z.min (r - 1) 6 ∧ 1 <= 2 ^ Z.min (r - 1) 6 <= 64.
Proof.
  intros Hb Hmax Hr. unfold backoff. rewrite (wrap64_id (r - 1)) by (unfold in_int64; lia).
  set (x := if 6 <? r - 1 then 6 else r - 1).
  assert (x = Z.min (r - 1) 6) as Hx by (subst x; case_match; bool_to_prop; lia).
  rewrite Hx, Z.shiftl_1_l.
  assert (1 <= 2 ^ Z.min (r - 1) 6 <= 64) as Hpow.
  { change 1 with (2 ^ 0) at 1. change 64 with (2 ^ 6).
    split; apply Z.pow_le_mono_r; lia. }
  rewrite (wrap64_id (2 ^ _)) by (unfold in_int64; lia).
  by rewrite wrap64_id by (unfold in_int64; nia).
Qed.

Lemma retry_entry_was_retried mx base k text e :
  0 < base → was_retried mx base text e (retry_entry mx base (go_now k) text e).1.
Proof.
  intros Hb. unfold retry_entry, was_retried. pose proof (wrap64_range (Retry e + 1)) as Hr.
  unfold in_int64 in Hr. set (r := wrap64 (Retry e + 1)) in *.
  destruct (Z.leb_spec mx r); cbn; split_and!; try done; try lia.
  - split; [by left|]. intros [?|?]; [done|lia].
  - intros [? ?] Hmax. exists k. by rewrite (proj1 (backoff_power base r Hb Hmax ltac:(lia))).
Qed.

Lemma still_schedule_dead i t txt r : still (schedule_dead i t txt r).
Proof. unfold schedule_dead, invalidate_dead. still_tac. Qed.
Lemma still_schedule_row i t txt mx base now : still (schedule_row i t txt mx base now).
Proof. unfold schedule_row, invalidate_dead. still_tac. Qed.
Hint Resolve still_schedule_dead still_schedule_row : core.

Lemma retry_mem i t err mx base w :
  i ≠ "" → t ≠ "" →
  ∃ k, sw_mem (exec (ScheduleRetry i t err mx base) w) =
    update_entry i t
      (λ e, (retry_entry (if mx <=? 0 then 5 else mx) (if base <=? 0 then 2 * Second else base)
        (go_now k) (match err with Some e => Error e | None => "delivery failed" end) e).1)
      (sw_mem w).
Proof.
  intros Hi%String.eqb_neq Ht%String.eqb_neq. exists (x_tick (sw_ext w)).
  unfold ScheduleRetry. rewrite Hi, Ht. cbn [orb].
  set (mx' := if mx <=? 0 then _ else _). set (base' := if base <=? 0 then _ else _).
  set (txt := match err with Some e => _ | None => _ end).
  set (now := go_now (x_tick (sw_ext w))). set (w1 := mkSW (sw_mem w) (exec Now (sw_ext w))).
  match goal with |- sw_mem (exec (ext Now ≫= ?k) w) = _ =>
    change (sw_mem (exec (k now) w1) = update_entry i t
      (λ e, (retry_entry mx' base' now txt e).1) (sw_mem w1)) end.
  clearbody w1 now. clear w. cbn beta. unfold get_mem. rewrite exec_read.
  destruct (entry_of i t (sw_mem w1)) as [e|] eqn:E.
  - destruct (retry_entry mx' base' now txt e) as [e' dead] eqn:Er.
    rewrite then_still by (intros _; destruct dead; auto). cbn.
    unfold update_entry, entry_of in *. destruct (deliveries (sw_mem w1) !! i); [|done].
    cbn in E. rewrite E. by rewrite Er.
  - rewrite update_none by done. symmetry. apply still_schedule_row.
Qed.

Lemma persist_still msg tos : still (persist_message msg tos).
Proof. unfold persist_message, cache_message. still_tac. Qed.

Lemma save_meets msg tos w :
  let s := sw_mem w in let s' := sw_mem (exec (SaveMessageWithRecipients msg tos) w) in
  persistent s' = persistent s ∧ counters_kept s s' ∧ save_spec msg (default [] tos) s s'.
Proof.
  cbn. unfold SaveMessageWithRecipients. destruct msg as [m|]; [|by split_and!].
  destruct (String.eqb_spec (ServerMsgID m) "") as [Ei|Ei].
  { split_and!; [done..|]. left. auto. }
  set (s := sw_mem w). unfold mem. rewrite exec_read. fold s.
  assert (∀ w1, sw_mem w1 = s →
    let s' := sw_mem (exec (remember_message m (default [] tos)) w1) in
    persistent s' = persistent s ∧ counters_kept s s' ∧
    save_spec (Some m) (default [] tos) s s') as Hrem.
  { intros w1 <-. cbn. destruct (remember_message_spec m (default [] tos) w1) as (_ & _ & E).
    unfold exec. rewrite E. set (s1 := saveMessageUnsafe m (sw_mem w1)).
    destruct (saveDeliveries_other (ServerMsgID m) (default [] tos) s1) as (E1 & E2 & E3 & E4).
    split; [by rewrite E4|]. split; [intros c; by rewrite E1|]. right. split; [done|].
    destruct (saveMessage_filed m (sw_mem w1)) as [F1 F2]. split.
    - split; unfold answer in *; [by rewrite E2|by rewrite E3].
    - destruct (saveDeliveries_opened (ServerMsgID m) (default [] tos) s1) as [O1 O2].
      by split. }
  destruct (persistent s) eqn:Ep; [|by apply Hrem].
  unfold exec, mbind, M_bind. pose proof (persist_still m tos w) as Hp.
  unfold exec, on in Hp. destruct (persist_message m tos w) as [[err|] w1]; cbn in Hp.
  - cbn. rewrite <- Hp. split_and!; [done..|]. left. auto.
  - by apply Hrem.
Qed.

Lemma next_meets chat w :
  call_spec (CNextSeq chat) (sw_mem w) (sw_mem (exec (NextSeq chat) w)).
Proof.
  destruct (NextSeq_spec chat w) as (n & Hn & Hr & Hs & Hk). unfold call_spec.
  rewrite Hs. cbn. fold (seq_key chat). split; [done|]. split; [done|]. split; [done|].
  exists n. split; [done|]. split.
  - intros c. case_decide; [subst; by rewrite lookup_insert_eq|by rewrite lookup_insert_ne].
  - destruct (nextSeq (sw_mem w) !! seq_key chat) as [k|] eqn:E; [by apply Hk|].
    intros Hp. unfold eval, NextSeq, get_mem, mem_modify in Hn. fold (seq_key chat) in Hn.
    revert Hn. munfold. cbn. rewrite E. cbn. rewrite Hp. cbn. rewrite E. by intros [= <-].
Qed.

(** A lookup adopts the message it finds in the database, if the memory has none. *)
Lemma adopt_meets (m : Message) s :
  persistent (saveMessageUnsafe m s) = persistent s ∧
  counters_kept s (saveMessageUnsafe m s) ∧ entries_kept s (saveMessageUnsafe m s) ∧
  ∃ m', filed m' s (saveMessageUnsafe m s).
Proof. split_and!; [done..|]. exists m. apply saveMessage_filed. Qed.

Lemma by_client_meets f c w :
  call_spec (CGetMessageByClientID f c) (sw_mem w)
    (sw_mem (exec (GetMessageByClientID f c) w)).
Proof.
  unfold call_spec, GetMessageByClientID, get_mem. rewrite exec_read.
  set (s := sw_mem w). destruct (String.eqb_spec f "") as [Ef|Ef]; cbn.
  { rewrite orb_true_r. split; [done|by left]. }
  destruct (String.eqb_spec c "") as [Ec|Ec]; cbn.
  { rewrite orb_true_r. split; [done|by left]. }
  fold (answer f c s). destruct (answer f c s) eqn:Ea; [split; [done|by left]|].
  destruct (persistent s) eqn:Ep; cbn; [|split; [done|by left]].
  unfold exec, mbind, M_bind, ext, zoom. destruct (on_db _ _) as [[e|row] x]; cbn.
  - split; [done|by left].
  - destruct (adopt_meets (fromDBMessage row) s) as (? & ? & ? & ?).
    split; [done|]. right. split_and!; done.
Qed.

Lemma still_missing i r : still (markRecipientRowsDeadIfMessageMissing i r).
Proof. unfold markRecipientRowsDeadIfMessageMissing. still_tac. Qed.

Lemma by_server_meets i w :
  call_spec (CGetMessageByServerID i) (sw_mem w) (sw_mem (exec (GetMessageByServerID i) w)).
Proof.
  unfold call_spec, GetMessageByServerID, get_mem. rewrite exec_read.
  set (s := sw_mem w). destruct (messages s !! i) eqn:Ea; [split; [done|by left]|].
  destruct (persistent s) eqn:Ep; cbn; [|split; [done|by left]].
  destruct (String.eqb_spec i "") as [Ei|Ei]; cbn; [split; [done|by left]|].
  unfold exec, mbind, M_bind, ext, zoom. destruct (on_db _ _) as [[e|row] x]; cbn.
  - destruct e; [|split; [done|by left]].
    pose proof (still_missing i "message not found" (mkSW s x)) as Hst.
    unfold on, exec in Hst. cbn in Hst. unfold mbind, M_bind.
    fold s.
    destruct (markRecipientRowsDeadIfMessageMissing _ _ _). cbn in *.
    rewrite <- Hst. split; [done|by left].
  - destruct (adopt_meets (fromDBMessage row) s) as (? & ? & ? & ?).
    split; [done|]. right. split_and!; done.
Qed.

Lemma saveDelivery_meets i t w :
  call_spec (CSaveDelivery i t) (sw_mem w) (sw_mem (exec (SaveDelivery i t) w)).
Proof.
  unfold call_spec, SaveDelivery. case_decide as Hd.
  { assert (String.eqb i "" || String.eqb t "" = true) as ->; [|by split_and!].
    by destruct Hd as [-> | ->]; rewrite ?orb_true_r. }
  destruct (String.eqb_spec i "") as [Ei|_]; [tauto|].
  destruct (String.eqb_spec t "") as [Et|_]; [tauto|]. cbn [orb].
  rewrite then_still by (intros _; still_tac). cbn.
  split_and!; try done. apply saveDelivery_opened.
Qed.

(** In memory-only mode the listings leave the memory alone, in database mode they adopt the
    deliveries they find. *)
Lemma listing_meets {A} (m : M (SW D R) A) w :
  adopting m → (persistent (sw_mem w) = false → sw_mem (exec m w) = sw_mem w) →
  let s := sw_mem w in let s' := sw_mem (exec m w) in
  persistent s' = persistent s ∧
  if persistent s then counters_kept s s' ∧ messages_kept s s' ∧ entries_added s s'
  else s' = s.
Proof.
  intros Ha Hm. destruct (Ha w) as (E1 & E2 & E3 & E4 & E5). cbn. split; [done|].
  destruct (persistent (sw_mem w)); [|by apply Hm].
  unfold counters_kept, messages_kept, answer. rewrite E2, E3, E4. by split_and!.
Qed.

Lemma adopting_SaveDelivery i t : adopting (SaveDelivery i t).
Proof. unfold SaveDelivery. adopting_tac. Qed.
Hint Resolve adopting_SaveDelivery : core.
Lemma adopting_cached_ids k : adopting (cached_ids k).
Proof. unfold cached_ids. adopting_tac. Qed.
Lemma adopting_rows k rows : adopting (adopt_rows k rows).
Proof. unfold adopt_rows. adopting_tac. Qed.
Hint Resolve adopting_cached_ids adopting_rows : core.

Lemma recipients_meets i w :
  call_spec (CGetRecipients i) (sw_mem w) (sw_mem (exec (GetRecipients i) w)).
Proof.
  apply listing_meets; [unfold GetRecipients; adopting_tac|].
  intros Hp. by apply GetRecipients_mem_spec.
Qed.

Lemma due_meets n w :
  call_spec (CGetDueRetryServerMsgIDs n) (sw_mem w)
    (sw_mem (exec (GetDueRetryServerMsgIDs n) w)).
Proof.
  apply listing_meets; [unfold GetDueRetryServerMsgIDs; adopting_tac|].
  intros Hp. unfold GetDueRetryServerMsgIDs, get_mem, exec, ext. munfold. cbn. by rewrite Hp.
Qed.

Lemma recover_meets n w :
  call_spec (CRecoverPendingServerMsgIDs n) (sw_mem w)
    (sw_mem (exec (RecoverPendingServerMsgIDs n) w)).
Proof.
  apply listing_meets; [unfold RecoverPendingServerMsgIDs; adopting_tac|].
  intros Hp. unfold RecoverPendingServerMsgIDs, get_mem, exec, ext. munfold. cbn.
  by rewrite Hp.
Qed.

Lemma pending_meets u n w :
  call_spec (CListPendingServerMsgIDsByUser u n) (sw_mem w)
    (sw_mem (exec (ListPendingServerMsgIDsByUser u n) w)).
Proof.
  apply listing_meets; [unfold ListPendingServerMsgIDsByUser; adopting_tac|].
  intros Hp. unfold ListPendingServerMsgIDsByUser, get_mem, exec, ext. munfold. cbn.
  case_match; [done|]. by rewrite Hp.
Qed.

Lemma still_range_entries l : still (range_entries l).
Proof. induction l as [|[? ?] l IH]; cbn [range_entries]; still_tac. Qed.
Lemma still_history a b rows : still (history_rows a b rows).
Proof. induction rows; cbn [history_rows]; unfold history_row; still_tac. Qed.
Hint Resolve still_range_entries still_history : core.

(** A computation that leaves the memory alone keeps the contract of a reader. *)
Lemma still_meets {A} (m : M (SW D R) A) w :
  still m → persistent (sw_mem (exec m w)) = persistent (sw_mem w) ∧
            sw_mem (exec m w) = sw_mem w.
Proof. intros Hm. by rewrite <- (Hm w). Qed.

(** Every call keeps its contract. *)
Lemma run_call_meets c w : call_spec c (sw_mem w) (sw_mem (run_call c w)).
Proof.
  destruct c; cbn [run_call].
  - apply next_meets.
  - apply (save_meets msg None).
  - apply save_meets.
  - apply by_client_meets.
  - apply by_server_meets.
  - apply saveDelivery_meets.
  - apply recipients_meets.
  - destruct (sent_mem serverMsgID to sendErr w) as [k ->]. apply update_only.
    intros e _. unfold was_sent. cbn. split_and!; eauto.
  - rewrite acked_mem. by apply update_only.
  - rewrite read_mem. by apply update_only.
  - unfold call_spec. case_decide as Hd.
    + unfold ScheduleRetry. assert (String.eqb serverMsgID "" || String.eqb to "" = true) as ->;
        [|by split_and!]. by destruct Hd as [-> | ->]; rewrite ?orb_true_r.
    + destruct (retry_mem serverMsgID to lastErr maxRetries base w) as [k ->]; [tauto..|].
      apply update_only. intros e _. apply retry_entry_was_retried.
      case_match; bool_to_prop; unfold Second; lia.
  - apply due_meets.
  - apply still_meets. unfold DeliveryStats. still_tac.
  - apply recover_meets.
  - apply pending_meets.
  - apply still_meets. unfold GetC2CHistory, getC2CHistoryFromMemory. still_tac.
Qed.
End meets.
