(* ===== verification/StoreImpl.v ===== *)
(** [InMemoryStore] implements the interface [StoreIface.Store] and keeps its laws, in both
    modes and over any database, cache, clock and map iteration. *)
From S2P Require Import Prelude GoStr Protocol StoreIface Storage Cache Store.
From S2P Require Import StoreSteps StoreInv StoreFacts.

Section impl.
Context `{GoEnv} {D R : Type} `{Gorm D} `{Redis R} `{Json}.
Implicit Types w : SW D R.

#[export] Instance SW_Clock : Clock (SW D R) := ext Now.

#[export] Instance SW_Store : Store (SW D R) := {|
  st_NextSeq := NextSeq;
  st_SaveMessage := SaveMessage;
  st_SaveMessageWithRecipients := SaveMessageWithRecipients;
  st_GetMessageByClientID := GetMessageByClientID;
  st_GetMessageByServerID := GetMessageByServerID;
  st_SaveDelivery := SaveDelivery;
  st_GetRecipients := GetRecipients;
  st_MarkDeliverySent := MarkDeliverySent;
  st_MarkDeliveryAcked := MarkDeliveryAcked;
  st_MarkDeliveryRead := MarkDeliveryRead;
  st_ScheduleRetry := ScheduleRetry;
  st_GetDueRetryServerMsgIDs := GetDueRetryServerMsgIDs;
  st_DeliveryStats := DeliveryStats;
  st_RecoverPendingServerMsgIDs := RecoverPendingServerMsgIDs;
  st_ListPendingServerMsgIDsByUser := ListPendingServerMsgIDsByUser;
  st_GetC2CHistory := GetC2CHistory
|}.

(** What the memory answers for a sender and a client id. *)
Definition mem_known (s : InMemoryStore) (f c : string) : option Message :=
  if negb (String.eqb f "") && negb (String.eqb c "") then m ← byClient s !! f; m !! c
  else None.

(** The memories that agree on everything a client of the interface sees. *)
Definition same_index (s s' : InMemoryStore) : Prop :=
  byClient s' = byClient s ∧ nextSeq s' = nextSeq s ∧ persistent s' = persistent s.

#[local] Instance same_index_preorder : PreOrder same_index.
Proof. split; [done|]. intros s1 s2 s3 (?&?&?) (?&?&?). split_and!; congruence. Qed.

Create HintDb index discriminated.
Abbreviation keeps_index := (moves (on (@sw_mem D R) same_index)).

Lemma keeps_ext {A} (m : M (Ext D R) A) : keeps_index (ext m).
Proof. intros w. unfold exec, ext, zoom, on. by destruct (m (sw_ext w)). Qed.
Lemma keeps_mem {A} (f : InMemoryStore → A) : keeps_index (mem f).
Proof. apply moves_gets, _. Qed.
Lemma keeps_update i t f : keeps_index (mem_modify (update_entry i t f)).
Proof.
  intros w. destruct (update_entry_other i t f (sw_mem w)) as (? & ? & ? & ?). by split.
Qed.
Hint Resolve keeps_ext keeps_mem keeps_update : index.

Lemma persist_keeps msg tos : keeps_index (persist_message msg tos).
Proof. unfold persist_message, cache_message. moves_tac ltac:(eauto with index). Qed.
Lemma MarkDeliveryAcked_keeps i t : keeps_index (MarkDeliveryAcked i t).
Proof.
  unfold MarkDeliveryAcked, invalidate_delivery. moves_tac ltac:(eauto with index).
Qed.
Lemma MarkDeliveryRead_keeps i t : keeps_index (MarkDeliveryRead i t).
Proof.
  unfold MarkDeliveryRead, invalidate_delivery. moves_tac ltac:(eauto with index).
Qed.

(** What a save does to the index. *)
Lemma save_index msg tos w r w' :
  SaveMessageWithRecipients msg tos w = (r, w') →
  match r, msg with
  | None, Some m => same_index (saveMessageUnsafe m (sw_mem w)) (sw_mem w')
  | None, None => False
  | Some _, _ => same_index (sw_mem w) (sw_mem w')
  end.
Proof.
  unfold SaveMessageWithRecipients, mem. destruct msg as [m|]; [|by intros [= <- <-]].
  destruct (String.eqb (ServerMsgID m) ""); [by intros [= <- <-]|].
  unfold gets. unfold mbind, M_bind.
  assert (∀ w, sw_mem w = sw_mem w → ∀ r w',
    remember_message m (default [] tos) w = (r, w') →
    r = None ∧ same_index (saveMessageUnsafe m (sw_mem w)) (sw_mem w')) as Hrem.
  { intros w0 _ r0 w0' Hr. destruct (remember_message_spec m (default [] tos) w0)
      as (E1 & _ & E3). rewrite Hr in E1, E3. cbn in *.
    destruct (saveDeliveries_other (ServerMsgID m) (default [] tos)
      (saveMessageUnsafe m (sw_mem w0))) as (? & _ & ? & ?).
    rewrite E3. by split_and!. }
  destruct (persistent (sw_mem w)); intros Hs.
  - pose proof (persist_keeps m tos w) as Hk. unfold exec, on in Hk.
    destruct (persist_message m tos w) as [[e|] w1].
    { by injection Hs as <- <-. }
    cbn in Hk.
    apply Hrem in Hs as [-> Hs]; [|done]. etrans; [|exact Hs].
    destruct Hk as (K1 & K2 & K3). unfold same_index, saveMessageUnsafe. cbn.
    by rewrite K1, K2, K3.
  - apply Hrem in Hs as [-> Hs]; done.
Qed.

Lemma mem_known_save m s f c :
  mem_known (saveMessageUnsafe m s) f c =
  if decide ((f, c) = (From m, ClientMsgID m) ∧ f ≠ "" ∧ c ≠ "") then Some m
  else mem_known s f c.
Proof.
  unfold mem_known, saveMessageUnsafe. cbn.
  destruct (String.eqb_spec f "") as [->|Hf]; cbn; [dec_cases|].
  destruct (String.eqb_spec c "") as [->|Hc]; cbn; [dec_cases|].
  destruct (String.eqb_spec (From m) "") as [E|Hfm]; cbn.
  { case_decide as Hd; [|done]. destruct Hd as ([= -> ->] & _ & _). done. }
  destruct (String.eqb_spec (ClientMsgID m) "") as [E|Hcm]; cbn.
  { case_decide as Hd; [|done]. destruct Hd as ([= -> ->] & _ & _). done. }
  set (bc := match byClient s !! From m with Some _ => _ | None => _ end).
  assert (∀ x, (m0 ← bc !! x; m0 !! c) = (m0 ← byClient s !! x; m0 !! c)) as Hbc.
  { intros x. subst bc. destruct (byClient s !! From m) eqn:E; [done|].
    destruct (decide (x = From m)) as [->|Hx]; [by rewrite lookup_insert_eq, E|].
    by rewrite lookup_insert_ne. }
  destruct (decide (f = From m)) as [->|Hff].
  - rewrite lookup_insert_eq. cbn. destruct (decide (c = ClientMsgID m)) as [->|Hcc].
    + rewrite lookup_insert_eq. by rewrite decide_True.
    + rewrite lookup_insert_ne, decide_False, <- Hbc by naive_solver.
      by destruct (bc !! From m).
  - rewrite lookup_insert_ne, decide_False by naive_solver. apply Hbc.
Qed.

Lemma same_index_view w w' :
  same_index (sw_mem w) (sw_mem w') →
  (∀ f c, mem_known (sw_mem w') f c = mem_known (sw_mem w) f c) ∧
  (∀ c, nextSeq (sw_mem w') !! seq_key c = nextSeq (sw_mem w) !! seq_key c) ∧
  (persistent (sw_mem w) = false → persistent (sw_mem w') = false).
Proof. intros (Hb & Hn & Hp). unfold mem_known. rewrite Hb, Hn, Hp. by split_and!. Qed.

Lemma entry_steps_nextSeq s s' : rtc entry_step s s' → nextSeq s' = nextSeq s.
Proof. induction 1 as [|s1 s2 s3 H12 _ IH]; [done|]. by rewrite IH, (entry_step_nextSeq s1). Qed.

#[export, refine] Instance SW_StoreLaws : StoreLaws (SW D R) := {|
  known w := mem_known (sw_mem w);
  last w c := nextSeq (sw_mem w) !! seq_key c;
  volatile w := persistent (sw_mem w) = false
|}.
Proof.
  - intros w. split_and!; done.
  - intros c w. destruct (NextSeq_spec c w) as (n & Hn & Hr & Hs & Hk).
    exists n, (exec (NextSeq c) w). cbn. rewrite Hs. cbn. split_and!; try done.
    + unfold eval, exec in *. destruct (NextSeq c w). cbn in *. by subst.
    + by rewrite lookup_insert_eq.
    + intros c' Hc. by rewrite lookup_insert_ne.
  - intros w c. cbn. f_equal. unfold seq_key.
    destruct (String.eqb_spec c "") as [->|Hc]; [done|]. by apply String.eqb_neq in Hc as ->.
  - intros w f c m. unfold mem_known. cbn. unfold GetMessageByClientID, get_mem. munfold.
    destruct (_ && _) eqn:E; [|done]. intros Hm. cbn. by rewrite Hm.
  - intros w f c ch. cbn. f_equal. by apply entry_steps_nextSeq, GetMessageByClientID_steps.
  - intros w f c. cbn. unfold GetMessageByClientID, get_mem, mem_known. munfold. intros ->.
    destruct (_ && _); cbn; [|done].
    by destruct (m ← byClient (sw_mem w) !! f; m !! c).
  - intros w m tos w' Hs. apply (save_index (Some m)) in Hs as (Hb & Hn & Hp). cbn.
    unfold mem_known. rewrite Hb, Hn, Hp. split_and!.
    + intros Hf Hc. change (mem_known (saveMessageUnsafe m (sw_mem w)) (From m) (ClientMsgID m)
        = Some m). by rewrite mem_known_save, decide_True.
    + intros f c Hne. change (mem_known (saveMessageUnsafe m (sw_mem w)) f c
        = mem_known (sw_mem w) f c). rewrite mem_known_save, decide_False; tauto.
    + done.
    + done.
  - intros w m tos e w' Hs. apply (save_index m) in Hs. by apply same_index_view.
  - intros w m tos. cbn. unfold eval, SaveMessageWithRecipients, mem. intros Hp Hi.
    apply String.eqb_neq in Hi. rewrite Hi. unfold gets, mbind, M_bind. rewrite Hp.
    apply (remember_message_spec m (default [] tos) w).
  - intros i t w. apply same_index_view, MarkDeliveryAcked_keeps.
  - intros i t w. apply same_index_view, MarkDeliveryRead_keeps.
Defined.
End impl.
