(* ===== verification/WorkerFacts.v ===== *)
(** Delivery on the memory-only store and a recording network. *)
From S2P Require Import Prelude GoStr Protocol StoreIface Worker WorkerSteps.
From S2P Require Import Storage Cache Store StoreSteps StoreInv StoreFacts StoreImpl.

Lemma elem_of_with_target to l r : r ∈ with_target to l ↔ r ∈ l ∨ (r = to ∧ to ≠ "").
Proof.
  unfold with_target. destruct (String.eqb_spec to "") as [->|Hto]; cbn; [tauto|].
  destruct (existsb (String.eqb to) l) eqn:E; cbn.
  - apply existsb_exists_stdpp in E as (x & Hx & Hxt). bool_to_prop. subst x.
    split; [tauto|]. intros [?|[-> _]]; done.
  - rewrite elem_of_app, list_elem_of_singleton. tauto.
Qed.

Lemma NoDup_with_target to l : NoDup l → NoDup (with_target to l).
Proof.
  intros Hl. unfold with_target. destruct (_ && _) eqn:E; [|done].
  apply andb_true_iff in E as [_ E]. apply negb_true_iff in E.
  rewrite existsb_false_stdpp in E. apply NoDup_app. split_and!; [done| |apply NoDup_singleton].
  intros x Hx ->%list_elem_of_singleton. specialize (E to Hx). by rewrite String.eqb_refl in E.
Qed.

Section memory.
Context `{GoEnv} {D R : Type} `{Gorm D} `{Redis R} `{Json}.
Abbreviation World := (SW D R).
Implicit Types (w : World) (d : DW World Recorder).

Lemma on_store_spec {A} (m : M World A) d :
  on_store m d = (eval m (d_store d), mkDW (d_worker d) (exec m (d_store d)) (d_net d)).
Proof. unfold on_store, zoom, eval, exec. by destruct (m (d_store d)). Qed.

Lemma MarkDeliverySent_mem i t err w :
  persistent (sw_mem w) = false →
  ∃ now, sw_mem (exec (MarkDeliverySent i t err) w) =
           update_entry i t (sent_entry now) (sw_mem w).
Proof.
  intros Hp. unfold exec, MarkDeliverySent, get_mem, ext, Now, mem_modify. munfold. cbn.
  destruct (entry_of i t (sw_mem w)) as [e|] eqn:E; cbn; rewrite Hp; cbn.
  - by eexists.
  - exists 0. unfold update_entry, entry_of in *. destruct (deliveries (sw_mem w) !! i); [|done].
    cbn in E. by rewrite E.
Qed.

Lemma ScheduleRetry_missing i t err mx base w :
  persistent (sw_mem w) = false → entry_of i t (sw_mem w) = None ∨ i = "" ∨ t = "" →
  sw_mem (exec (ScheduleRetry i t err mx base) w) = sw_mem w.
Proof.
  intros Hp He. unfold exec, ScheduleRetry, get_mem, ext, Now.
  destruct (String.eqb_spec i "") as [|Hi]; [done|].
  destruct (String.eqb_spec t "") as [|Ht]; [done|]. cbn [orb].
  munfold. cbn. assert (entry_of i t (sw_mem w) = None) as -> by tauto.
  unfold schedule_row, mem. munfold. cbn. by rewrite Hp.
Qed.

(** What an attempt does to the entry of its recipient. *)
Definition attempted (wk : Worker) (online : bool) (e e' : DeliveryEntry) : Prop :=
  if online then ∃ now, e' = sent_entry now e
  else ∃ now, e' = (retry_entry (if maxRetry wk <=? 0 then 5 else maxRetry wk)
                      (if retryBaseDelay wk <=? 0 then 2 * Second else retryBaseDelay wk)
                      now "recipient offline" e).1.

(** What is sent for one recipient. *)
Definition copy_for (id : string) (msg : Message) (om : gmap string (option nat)) (r : string) :
    option (nat * Message) :=
  match om !! r with Some (Some c) => Some (c, deliver_copy id r msg) | _ => None end.

(** Everything but the entry of one recipient is as before. *)
Definition same_but (i : string) (ts : list string) (s s' : InMemoryStore) : Prop :=
  messages s' = messages s ∧ persistent s' = persistent s ∧
  ∀ i' t', ¬ (i' = i ∧ t' ∈ ts) → entry_of i' t' s' = entry_of i' t' s.

Lemma same_but_refl i ts s : same_but i ts s s.
Proof. done. Qed.

Lemma same_but_update i t f s : same_but i [t] s (update_entry i t f s).
Proof.
  destruct (update_entry_other i t f s) as (_ & Hm & _ & Hp). split_and!; [done..|].
  intros i' t' Hne. rewrite entry_of_update. rewrite decide_False; [done|].
  intros [-> ->]. apply Hne. split; [done|by left].
Qed.

Lemma same_but_cons i t ts s1 s2 s3 :
  same_but i [t] s1 s2 → same_but i ts s2 s3 → same_but i (t :: ts) s1 s3.
Proof.
  intros (H1' & H2' & H3) (H4 & H5 & H6). split_and!; [congruence..|].
  intros i' t' Hne. rewrite H6, H3; [done|..]; intros [-> Ht]; apply Hne;
    split; try done; [apply list_elem_of_singleton in Ht as ->; by left|by right].
Qed.

(** One recipient. *)
Lemma deliver_to_mem id msg om r d :
  persistent (sw_mem (d_store d)) = false →
  let d' := exec (deliver_to id msg om r) d in
  d_worker d' = d_worker d ∧ rec_online (d_net d') = rec_online (d_net d) ∧
  rec_sent (d_net d') = rec_sent (d_net d) ++ option_list (copy_for id msg om r) ∧
  same_but id [r] (sw_mem (d_store d)) (sw_mem (d_store d')) ∧
  (∀ e, id ≠ "" → r ≠ "" → entry_of id r (sw_mem (d_store d)) = Some e →
    ∃ e', entry_of id r (sw_mem (d_store d')) = Some e' ∧
          attempted (d_worker d) (bool_decide (is_Some (om !! r))) e e').
Proof.
  intros Hp. cbn. unfold deliver_to, copy_for, attempted, exec.
  destruct (om !! r) as [sender|] eqn:Eo.
  - set (d1 := match sender with
               | Some c => mkDW (d_worker d) (d_store d)
                   (mkRecorder (rec_online (d_net d))
                      (rec_sent (d_net d) ++ [(c, deliver_copy id r msg)]))
               | None => d end).
    assert ((match sender with Some s => on_net (net_SendJSON s (deliver_copy id r msg))
             | None => mret tt end : M (DW World Recorder) unit) d = (tt, d1)) as E1.
    { subst d1. by destruct sender. }
    unfold mbind, M_bind. rewrite E1, on_store_spec. unfold mret, M_ret. cbn.
    assert (d_store d1 = d_store d) as Es by (subst d1; by destruct sender). rewrite Es.
    destruct (MarkDeliverySent_mem id r None (d_store d) Hp) as [now Hs].
    split_and!; [subst d1; by destruct sender..| | |].
    + subst d1. destruct sender; cbn; [done|]. by rewrite app_nil_r.
    + rewrite Hs. apply same_but_update.
    + intros e Hi Hr He. rewrite Hs, entry_of_update, decide_True, He by done.
      eexists. split; [done|]. by eexists.
  - unfold mbind, M_bind, gets. rewrite on_store_spec. unfold mret, M_ret. cbn.
    rewrite app_nil_r.
    destruct (entry_of id r (sw_mem (d_store d))) as [e|] eqn:Ee.
    + destruct (decide (id = "" ∨ r = "")) as [Hne|Hne].
      * rewrite ScheduleRetry_missing by tauto. split_and!; [done..|]. intros. tauto.
      * unfold exec. rewrite (ScheduleRetry_mem _ _ _ _ _ _ e) by tauto. cbn.
        split_and!; [done..|apply same_but_update|]. intros e0 _ _ [= <-].
        rewrite entry_of_update, decide_True, Ee by done. eexists. split; [done|]. by eexists.
    + rewrite ScheduleRetry_missing by tauto. by split_and!.
Qed.
(** All recipients, in order. *)
Lemma deliver_loop_mem id msg om ts d :
  persistent (sw_mem (d_store d)) = false → NoDup ts →
  let d' := exec (forM ts (deliver_to id msg om)) d in
  d_worker d' = d_worker d ∧ rec_online (d_net d') = rec_online (d_net d) ∧
  rec_sent (d_net d') = rec_sent (d_net d) ++ omap (copy_for id msg om) ts ∧
  same_but id ts (sw_mem (d_store d)) (sw_mem (d_store d')) ∧
  (∀ r e, id ≠ "" → r ≠ "" → r ∈ ts → entry_of id r (sw_mem (d_store d)) = Some e →
    ∃ e', entry_of id r (sw_mem (d_store d')) = Some e' ∧
          attempted (d_worker d) (bool_decide (is_Some (om !! r))) e e').
Proof.
  cbn zeta. revert d. induction ts as [|t ts IH]; intros d Hp Hnd.
  { unfold exec. cbn. rewrite app_nil_r. split_and!; [done..|].
    by intros r e _ _ []%not_elem_of_nil. }
  apply NoDup_cons in Hnd as [Ht Hnd]. unfold exec. rewrite forM_cons.
  destruct (deliver_to_mem id msg om t d Hp) as (W1 & O1 & S1 & B1 & A1).
  unfold exec in *. set (d1 := snd (deliver_to id msg om t d)) in *.
  assert (persistent (sw_mem (d_store d1)) = false) as Hp1 by (by rewrite (proj1 (proj2 B1))).
  destruct (IH d1 Hp1 Hnd) as (W2 & O2 & S2 & B2 & A2). split_and!.
  - congruence.
  - congruence.
  - rewrite S2, S1, <- app_assoc. cbn. by destruct (copy_for id msg om t).
  - by eapply same_but_cons.
  - intros r e Hi Hr Hin He. apply elem_of_cons in Hin as [->|Hin].
    + destruct (A1 e Hi Hr He) as (e' & He' & Ha). exists e'. split; [|done].
      destruct B2 as (_ & _ & ->); [done|]. tauto.
    + destruct (A2 r e Hi Hr Hin) as (e' & He' & Ha).
      { destruct B1 as (_ & _ & ->); [done|]. intros [_ ->%list_elem_of_singleton]. done. }
      exists e'. split; [done|]. by rewrite <- W1.
Qed.

(** The recipients of one delivery. *)
Definition targets (id : string) (msg : Message) w : list string :=
  with_target (To msg) (eval (GetRecipients id) w).

Lemma targets_spec id msg w :
  persistent (sw_mem w) = false →
  NoDup (targets id msg w) ∧
  ∀ r, r ∈ targets id msg w ↔
    (∃ e, entry_of id r (sw_mem w) = Some e ∧ pending_entry e = true) ∨
    (r = To msg ∧ To msg ≠ "").
Proof.
  intros Hp. destruct (GetRecipients_mem_spec id w Hp) as (Hnd & Hin & _).
  split; [by apply NoDup_with_target|]. intros r. unfold targets.
  by rewrite elem_of_with_target, Hin.
Qed.

(** One delivery of a message the store holds. *)
Lemma deliver_mem id msg d :
  persistent (sw_mem (d_store d)) = false →
  messages (sw_mem (d_store d)) !! id = Some msg →
  let d' := exec (deliver id) d in
  let ts := targets id msg (d_store d) in
  let om := rec_online (d_net d) in
  d_worker d' = d_worker d ∧ rec_online (d_net d') = rec_online (d_net d) ∧
  rec_sent (d_net d') = rec_sent (d_net d) ++ omap (copy_for id msg om) ts ∧
  same_but id ts (sw_mem (d_store d)) (sw_mem (d_store d')) ∧
  (∀ r e, id ≠ "" → r ≠ "" → r ∈ ts → entry_of id r (sw_mem (d_store d)) = Some e →
    ∃ e', entry_of id r (sw_mem (d_store d')) = Some e' ∧
          attempted (d_worker d) (bool_decide (is_Some (om !! r))) e e').
Proof.
  intros Hp Hm. cbn zeta. unfold exec at 1 2 3 4 5, deliver.
  unfold mbind, M_bind, gets. rewrite on_store_spec. cbn -[forM].
  assert (GetMessageByServerID id (d_store d) = (Some msg, d_store d)) as Eg.
  { unfold GetMessageByServerID, get_mem. munfold. by rewrite Hm. }
  unfold eval, exec. rewrite Eg. cbn -[forM]. rewrite on_store_spec. cbn -[forM].
  destruct (GetRecipients_mem_spec id (d_store d) Hp) as (_ & _ & Hmem).
  destruct (targets_spec id msg (d_store d) Hp) as [Hnd _].
  set (d1 := mkDW (d_worker d) (exec (GetRecipients id) (d_store d)) (d_net d)).
  fold (targets id msg (d_store d)). change (rec_online (d_net d)) with (rec_online (d_net d1)).
  assert (persistent (sw_mem (d_store d1)) = false) as Hp1 by (cbn; by rewrite Hmem).
  pose proof (deliver_loop_mem id msg (rec_online (d_net d1)) _ d1 Hp1 Hnd) as Hloop.
  cbn zeta in Hloop. change (sw_mem (d_store d1)) with
    (sw_mem (exec (GetRecipients id) (d_store d))) in Hloop. rewrite Hmem in Hloop.
  exact Hloop.
Qed.

(** Nothing happens for a message the store does not hold. *)
Lemma deliver_missing id d :
  persistent (sw_mem (d_store d)) = false →
  messages (sw_mem (d_store d)) !! id = None → exec (deliver id) d = d.
Proof.
  intros Hp Hm. unfold exec, deliver, mbind, M_bind. rewrite on_store_spec.
  unfold eval, exec. cbn. unfold GetMessageByServerID, get_mem. munfold.
  rewrite Hm, Hp. cbn. by destruct d.
Qed.

(** ** Draining the queue *)

(** The part of a log that is about one message. *)
Definition sent_for (id : string) (l : list (nat * Message)) : list (nat * Message) :=
  List.filter (λ cm, String.eqb (ServerMsgID cm.2) id) l.

Lemma sent_for_app id l1 l2 : sent_for id (l1 ++ l2) = sent_for id l1 ++ sent_for id l2.
Proof. apply List.filter_app. Qed.

Lemma sent_for_copies id id' msg om ts :
  sent_for id (omap (copy_for id' msg om) ts) =
  if String.eqb id' id then omap (copy_for id' msg om) ts else [].
Proof.
  unfold sent_for. induction ts as [|t ts IH]; cbn; [by destruct (String.eqb id' id)|].
  unfold copy_for at 1 4. destruct (om !! t) as [[c|]|]; cbn; [|done..]. rewrite IH.
  by destruct (String.eqb id' id).
Qed.

(** What the store holds of a delivery decides whom it goes to. *)
Definition is_target (s : InMemoryStore) (id : string) (msg : Message) (r : string) : Prop :=
  (∃ e, entry_of id r s = Some e ∧ pending_entry e = true) ∨ (r = To msg ∧ To msg ≠ "").

(** What a run of the deliver goroutine over the queue [q] leaves behind. *)
Record drained (q : list string) d d' : Prop := {
  dr_queue : deliverQueue (d_worker d') = [];
  dr_inflight : deliverInFlight (d_worker d') =
                deliverInFlight (d_worker d) ∖ list_to_set q;
  dr_online : rec_online (d_net d') = rec_online (d_net d);
  dr_messages : messages (sw_mem (d_store d')) = messages (sw_mem (d_store d));
  dr_mode : persistent (sw_mem (d_store d')) = false;
  dr_entries i t : i ∉ q →
    entry_of i t (sw_mem (d_store d')) = entry_of i t (sw_mem (d_store d));
  dr_sent : ∃ new, rec_sent (d_net d') = rec_sent (d_net d) ++ new ∧
    (∀ id, id ∉ q → sent_for id new = []) ∧
    (∀ id msg, id ∈ q → messages (sw_mem (d_store d)) !! id = Some msg →
       ∃ ts, NoDup ts ∧ (∀ r, r ∈ ts ↔ is_target (sw_mem (d_store d)) id msg r) ∧
             sent_for id new = omap (copy_for id msg (rec_online (d_net d))) ts)
}.

(** The first iteration, up to the deferred unmark. *)
Lemma deliver_once id d :
  persistent (sw_mem (d_store d)) = false →
  let d' := exec (deliver id) d in
  d_worker d' = d_worker d ∧ rec_online (d_net d') = rec_online (d_net d) ∧
  messages (sw_mem (d_store d')) = messages (sw_mem (d_store d)) ∧
  persistent (sw_mem (d_store d')) = false ∧
  (∀ i t, i ≠ id → entry_of i t (sw_mem (d_store d')) = entry_of i t (sw_mem (d_store d))) ∧
  ∃ new, rec_sent (d_net d') = rec_sent (d_net d) ++ new ∧
    (∀ i, i ≠ id → sent_for i new = []) ∧
    (∀ msg, messages (sw_mem (d_store d)) !! id = Some msg →
       ∃ ts, NoDup ts ∧ (∀ r, r ∈ ts ↔ is_target (sw_mem (d_store d)) id msg r) ∧
             sent_for id new = omap (copy_for id msg (rec_online (d_net d))) ts).
Proof.
  intros Hp. cbn zeta. destruct (messages (sw_mem (d_store d)) !! id) as [msg|] eqn:Em.
  - destruct (deliver_mem id msg d Hp Em) as (-> & -> & -> & (-> & -> & He) & _).
    split_and!; try done.
    + intros i t Hi. apply He. tauto.
    + eexists. split; [done|]. destruct (targets_spec id msg (d_store d) Hp) as [Hnd Hts].
      split.
      * intros i Hi. rewrite sent_for_copies. by destruct (String.eqb_spec id i).
      * intros msg' [= <-]. exists (targets id msg (d_store d)). split_and!; [done..|].
        by rewrite sent_for_copies, String.eqb_refl.
  - rewrite deliver_missing by done. split_and!; try done. exists [].
    rewrite app_nil_r. by split_and!.
Qed.

Lemma deliverWorker_drains n d :
  persistent (sw_mem (d_store d)) = false → NoDup (deliverQueue (d_worker d)) →
  (length (deliverQueue (d_worker d)) <= n)%nat →
  drained (deliverQueue (d_worker d)) d (exec (deliverWorker n) d).
Proof.
  remember (deliverQueue (d_worker d)) as q eqn:Eq. symmetry in Eq. revert n d Eq.
  induction q as [|id q IH]; intros n d Eq Hp Hnd Hn.
  { assert (exec (deliverWorker n) d = d) as ->.
    { destruct n; [done|]. cbn. unfold exec, deliver_next, mbind, M_bind, gets. by rewrite Eq. }
    split; try done.
    - apply leibniz_equiv. set_solver.
    - exists []. rewrite app_nil_r. split_and!; [done..|]. by intros i msg []%not_elem_of_nil. }
  destruct n as [|n]; [cbn in Hn; lia|]. cbn in Hn. apply NoDup_cons in Hnd as [Hid Hnd].
  set (d0 := mkDW (set_queue q (d_worker d)) (d_store d) (d_net d)).
  set (d1 := exec (deliver id) d0).
  set (d2 := mkDW (unmark id (d_worker d1)) (d_store d1) (d_net d1)).
  assert (exec (deliverWorker (S n)) d = exec (deliverWorker n) d2) as ->.
  { cbn [deliverWorker]. unfold exec, deliver_next, on_worker, modify, gets, mbind, M_bind.
    rewrite Eq. fold d0. subst d2 d1. unfold exec.
    destruct (deliver id d0) as [[] d1]. done. }
  destruct (deliver_once id d0 Hp) as (W & O & Hm & Hp1 & He & new & Hs & Hs1 & Hs2).
  fold d1 in W, O, Hm, Hp1, He, Hs. cbn in O, Hm, He, Hs, Hs2.
  destruct (IH n d2) as [Q F O2 M2 P2 E2 (new2 & S2 & S3 & S4)]; try done.
  { cbn. by rewrite W. } { lia. }
  cbn in F, O2, M2, E2, S2, S4. rewrite W in F. cbn in F. split.
  - done.
  - rewrite F. apply leibniz_equiv. rewrite list_to_set_cons. set_solver.
  - by rewrite O2.
  - by rewrite M2.
  - done.
  - intros i t Hi. apply not_elem_of_cons in Hi as [Hi1 Hi2]. by rewrite E2, He.
  - exists (new ++ new2). rewrite S2, Hs, app_assoc. split; [done|]. split.
    + intros i [Hi1 Hi2]%not_elem_of_cons. by rewrite sent_for_app, Hs1, S3.
    + intros i msg Hi Hmsg. rewrite sent_for_app. apply elem_of_cons in Hi as [->|Hi].
      * rewrite (S3 id Hid), app_nil_r. by apply Hs2.
      * assert (i ≠ id) as Hne by (intros ->; done). rewrite Hs1 by done. cbn.
        rewrite Hm in S4. destruct (S4 i msg Hi Hmsg) as (ts & Hts & Htg & ->).
        exists ts. rewrite O. split_and!; [done| |done]. intros r. rewrite Htg.
        unfold is_target. by rewrite He.
Qed.

(** ** Enqueueing from the store *)

Lemma enqueue_all_spec ids d :
  exec (enqueue_all ids) d =
    mkDW (foldl (λ wk id, EnqueueServerMsg id wk) (d_worker d) ids) (d_store d) (d_net d).
Proof.
  unfold exec, enqueue_all. revert d. induction ids as [|id ids IH]; intros d.
  { by destruct d. }
  rewrite forM_cons. cbn. by rewrite IH.
Qed.

(** An idle worker that is handed a list of the store. *)
Definition with_queue (ids : list string) (w' : World) d : DW World Recorder :=
  mkDW (mkWorker (named ids) (list_to_set (named ids)) (maxRetry (d_worker d))
          (retryBaseDelay (d_worker d))) w' (d_net d).

Lemma enqueue_run (m : M World (list string)) n d :
  let ids := eval m (d_store d) in
  deliverQueue (d_worker d) = [] → deliverInFlight (d_worker d) = ∅ →
  NoDup ids → (length ids <= queue_cap)%nat →
  exec ((ids ← on_store m; enqueue_all ids);; deliverWorker n) d =
    exec (deliverWorker n) (with_queue ids (exec m (d_store d)) d).
Proof.
  intros ids Hq Hf Hnd Hlen. rewrite exec_bind. f_equal.
  rewrite exec_bind. unfold eval at 1, exec at 2. rewrite on_store_spec. cbn [fst snd].
  rewrite enqueue_all_spec. cbn [d_worker d_store d_net]. fold ids.
  by rewrite enqueue_list; rewrite ?Hq, ?Hf.
Qed.

(** The messages a user has not acknowledged (dead letters among them). *)
Definition unread_ids (u : string) (s : InMemoryStore)
    (l : list (string * gmap string DeliveryEntry)) : list string :=
  (List.filter (λ kv, match kv.2 !! u with Some e => unread_entry e | None => false end) l).*1.

Lemma list_filter_keys_NoDup {A} (p : string * A → bool) (l : list (string * A)) :
  NoDup l.*1 → NoDup (List.filter p l).*1.
Proof.
  induction l as [|[k a] l IH]; cbn; [done|]. intros [Hk Hnd]%NoDup_cons.
  case_match; cbn; [|by apply IH]. constructor; [|by apply IH]. intros Hin. apply Hk.
  apply list_elem_of_fmap in Hin as (kv & -> & Hin).
  apply list_elem_of_In, filter_In in Hin as [Hin _].
  apply list_elem_of_fmap_2. by apply list_elem_of_In.
Qed.

Lemma ListPending_mem u limit w :
  persistent (sw_mem w) = false → u ≠ "" →
  let ids := eval (ListPendingServerMsgIDsByUser u limit) w in
  sw_mem (exec (ListPendingServerMsgIDsByUser u limit) w) = sw_mem w ∧
  ∃ l, l ≡ₚ map_to_list (deliveries (sw_mem w)) ∧
       ids = clip limit (unread_ids u (sw_mem w) l).
Proof.
  intros Hp Hu. unfold eval, exec, ListPendingServerMsgIDsByUser, get_mem, ext, range_map.
  apply String.eqb_neq in Hu. rewrite Hu. munfold. cbn. rewrite Hp. cbn. split; [done|].
  eexists. split; [apply go_order_perm|done].
Qed.

Lemma unread_ids_spec u w l :
  l ≡ₚ map_to_list (deliveries (sw_mem w)) →
  NoDup (unread_ids u (sw_mem w) l) ∧
  ∀ i, i ∈ unread_ids u (sw_mem w) l ↔
    ∃ e, entry_of i u (sw_mem w) = Some e ∧ unread_entry e = true.
Proof.
  intros Hl. split.
  - apply list_filter_keys_NoDup. rewrite Hl. apply NoDup_fst_map_to_list.
  - intros i. unfold unread_ids, entry_of. rewrite list_elem_of_fmap. split.
    + intros ([k m] & -> & Hin). apply list_elem_of_In, filter_In in Hin as [Hin He].
      apply list_elem_of_In in Hin. rewrite Hl in Hin. apply elem_of_map_to_list in Hin.
      cbn in *. rewrite Hin. cbn. destruct (m !! u); [eauto|done].
    + intros (e & He & Hu). apply bind_Some in He as (m & Hm & He).
      exists (i, m). split; [done|]. apply list_elem_of_In, filter_In.
      cbn. rewrite He. split; [|done]. apply list_elem_of_In. rewrite Hl.
      by apply elem_of_map_to_list.
Qed.

(** Of a list of copies to distinct recipients, one is for a given recipient online. *)
Lemma copies_to id msg om ts u c :
  NoDup ts → u ∈ ts → om !! u = Some (Some c) →
  List.filter (λ cm, String.eqb (To cm.2) u) (omap (copy_for id msg om) ts) =
    [(c, deliver_copy id u msg)].
Proof.
  intros Hnd Hu Hc. induction ts as [|t ts IH]; [by apply not_elem_of_nil in Hu|].
  apply NoDup_cons in Hnd as [Ht Hnd].
  assert (u ∉ ts → List.filter (λ cm, String.eqb (To cm.2) u)
    (omap (copy_for id msg om) ts) = []) as Hnone.
  { clear. induction ts as [|t ts IH]; [done|]. intros [Hut Hu]%not_elem_of_cons. cbn.
    unfold copy_for at 1. destruct (om !! t) as [[c|]|]; cbn; [|by apply IH..].
    destruct (String.eqb_spec t u) as [->|]; [done|]. by apply IH. }
  cbn. unfold copy_for at 1. apply elem_of_cons in Hu as [<-|Hu].
  - rewrite Hc. cbn. rewrite String.eqb_refl. by rewrite Hnone.
  - assert (t ≠ u) as Hne by (intros ->; done).
    destruct (om !! t) as [[c'|]|]; cbn; [|by apply IH..].
    destruct (String.eqb_spec t u); [done|]. by apply IH.
Qed.
End memory.
