(* ===== verification/Hub.v ===== *)
(** The state of the running program around store and worker: the sessions
    (src/internal/session/session.go), the users online, groups, limiter and counters
    (src/internal/server/server.go). The whole program is a [DW]: worker, store, [Hub]. *)
From S2P Require Import Prelude GoStr Protocol StoreIface Limiter Logic Worker.
From S2P Require Import Storage Cache Store StoreImpl Group.

(** [session.User]; sessions are shared objects, known by their connection number. *)
Record SUser := mkSUser {
  u_Name : string;
  Addr : string;
  (** The channel [C] of capacity 10. *)
  u_C : list string;
  Authenticated : bool;
  (** [isClosed]; set under [closeOnce] together with closing channel and connection. *)
  isClosed : bool;
  (** [logoutOnce] has run. *)
  loggedOut : bool;
  (** The name whose online key the heartbeat goroutine refreshes, while [heartbeatCancel] is
      set. *)
  heartbeat : option string;
  (** The writer goroutine has not returned. *)
  writing : bool;
  (** What was written to the connection. *)
  u_out : list string
}.

Definition set_Name (n : string) (u : SUser) : SUser :=
  mkSUser n (Addr u) (u_C u) (Authenticated u) (isClosed u) (loggedOut u) (heartbeat u)
    (writing u) (u_out u).
Definition set_C (c : list string) (u : SUser) : SUser :=
  mkSUser (u_Name u) (Addr u) c (Authenticated u) (isClosed u) (loggedOut u) (heartbeat u)
    (writing u) (u_out u).
Definition set_Authenticated (b : bool) (u : SUser) : SUser :=
  mkSUser (u_Name u) (Addr u) (u_C u) b (isClosed u) (loggedOut u) (heartbeat u)
    (writing u) (u_out u).
Definition set_isClosed (u : SUser) : SUser :=
  mkSUser (u_Name u) (Addr u) (u_C u) (Authenticated u) true (loggedOut u) (heartbeat u)
    (writing u) (u_out u).
Definition set_loggedOut (u : SUser) : SUser :=
  mkSUser (u_Name u) (Addr u) (u_C u) (Authenticated u) (isClosed u) true (heartbeat u)
    (writing u) (u_out u).
Definition set_heartbeat (k : option string) (u : SUser) : SUser :=
  mkSUser (u_Name u) (Addr u) (u_C u) (Authenticated u) (isClosed u) (loggedOut u) k
    (writing u) (u_out u).
Definition stop_writing (u : SUser) : SUser :=
  mkSUser (u_Name u) (Addr u) (u_C u) (Authenticated u) (isClosed u) (loggedOut u) (heartbeat u)
    false (u_out u).
(** A write to a connection that was closed writes nothing. *)
Definition write_out (l : list string) (u : SUser) : SUser :=
  mkSUser (u_Name u) (Addr u) (u_C u) (Authenticated u) (isClosed u) (loggedOut u) (heartbeat u)
    (writing u) (if isClosed u then u_out u else u_out u ++ l).
(** The head of the channel is received. *)
Definition drop_first (u : SUser) : SUser := set_C (tail (u_C u)) u.

(** [NewUser]: a session is called by its address until it logs in. *)
Definition NewUser (addr : string) : SUser := mkSUser addr addr [] false false false None true [].

(** [server.OnlineInfo]; the sender is a session. *)
Record OnlineInfo := mkOnline { Sender : nat; o_Addr : string }.

Record Hub := mkHub {
  OnlineMap : gmap string OnlineInfo;
  h_idCounter : Z;
  groupManager : GroupManager;
  security : ConnSecurity;
  startAt : Z;
  totalConnections : Z;
  rejectedConn : Z;
  inboundMessages : Z;
  outboundMessages : Z;
  activeConn : Z;
  (** The sessions, by connection. *)
  sessions : gmap nat SUser;
  (** Connections for which a [go u.Logout()] was started and has not run yet. *)
  logouts : list nat
}.

Definition set_OnlineMap (m : gmap string OnlineInfo) (h : Hub) : Hub :=
  mkHub m (h_idCounter h) (groupManager h) (security h) (startAt h) (totalConnections h)
    (rejectedConn h) (inboundMessages h) (outboundMessages h) (activeConn h) (sessions h)
    (logouts h).
Definition set_idCounter (n : Z) (h : Hub) : Hub :=
  mkHub (OnlineMap h) n (groupManager h) (security h) (startAt h) (totalConnections h)
    (rejectedConn h) (inboundMessages h) (outboundMessages h) (activeConn h) (sessions h)
    (logouts h).
Definition set_groupManager (g : GroupManager) (h : Hub) : Hub :=
  mkHub (OnlineMap h) (h_idCounter h) g (security h) (startAt h) (totalConnections h)
    (rejectedConn h) (inboundMessages h) (outboundMessages h) (activeConn h) (sessions h)
    (logouts h).
Definition set_security (s : ConnSecurity) (h : Hub) : Hub :=
  mkHub (OnlineMap h) (h_idCounter h) (groupManager h) s (startAt h) (totalConnections h)
    (rejectedConn h) (inboundMessages h) (outboundMessages h) (activeConn h) (sessions h)
    (logouts h).
(** The counters: connections seen, refused, lines read, messages queued, connections open. *)
Definition set_counters (total rejected inb outb active : Z) (h : Hub) : Hub :=
  mkHub (OnlineMap h) (h_idCounter h) (groupManager h) (security h) (startAt h) total
    rejected inb outb active (sessions h) (logouts h).
Definition set_sessions (m : gmap nat SUser) (h : Hub) : Hub :=
  mkHub (OnlineMap h) (h_idCounter h) (groupManager h) (security h) (startAt h)
    (totalConnections h) (rejectedConn h) (inboundMessages h) (outboundMessages h)
    (activeConn h) m (logouts h).
Definition set_logouts (l : list nat) (h : Hub) : Hub :=
  mkHub (OnlineMap h) (h_idCounter h) (groupManager h) (security h) (startAt h)
    (totalConnections h) (rejectedConn h) (inboundMessages h) (outboundMessages h)
    (activeConn h) (sessions h) l.

(** A session that exists is changed in place. *)
Definition update_session (c : nat) (f : SUser → SUser) (h : Hub) : Hub :=
  set_sessions (alter f c (sessions h)) h.

(** [markInboundMessage], [markOutboundMessage] and the connection counters. *)
Definition markInboundMessage (h : Hub) : Hub :=
  set_counters (totalConnections h) (rejectedConn h) (wrapu64 (inboundMessages h + 1))
    (outboundMessages h) (activeConn h) h.
Definition markOutboundMessage (h : Hub) : Hub :=
  set_counters (totalConnections h) (rejectedConn h) (inboundMessages h)
    (wrapu64 (outboundMessages h + 1)) (activeConn h) h.

(** * Sending to a session *)

(** [make(chan string, 10)]. *)
Definition chan_cap : nat := 10.

(** [SendMsg]: dropped when closed; a full channel starts a logout. *)
Definition SendMsg (c : nat) (msg : string) (h : Hub) : Hub :=
  match sessions h !! c with
  | None => h
  | Some u =>
    if isClosed u then h
    else if (length (u_C u) <? chan_cap)%nat
         then markOutboundMessage (update_session c (set_C (u_C u ++ [msg])) h)
         else set_logouts (logouts h ++ [c]) h
  end.

(** What [SendMsg] does to the session it is called on. *)
Definition receives (msg : string) (u : SUser) : SUser :=
  if isClosed u then u
  else if (length (u_C u) <? chan_cap)%nat then set_C (u_C u ++ [msg]) u else u.

Lemma SendMsg_sessions c msg h :
  sessions (SendMsg c msg h) = alter (receives msg) c (sessions h) ∧
  OnlineMap (SendMsg c msg h) = OnlineMap h ∧ groupManager (SendMsg c msg h) = groupManager h.
Proof.
  assert (∀ u, sessions h !! c = Some u → receives msg u = u →
    sessions h = alter (receives msg) c (sessions h)) as Hid.
  { intros u Hu Hr. apply map_eq. intros d. destruct (decide (c = d)) as [<-|Hd];
      [by rewrite lookup_alter_eq, Hu; cbn; rewrite Hr|by rewrite lookup_alter_ne]. }
  unfold SendMsg. destruct (sessions h !! c) as [u|] eqn:Hu.
  - destruct (isClosed u) eqn:Hc; [split; [apply (Hid u); [done|]; unfold receives; by rewrite Hc|done]|].
    destruct (length (u_C u) <? chan_cap)%nat eqn:Hl.
    + split; [|done]. cbn. apply map_eq. intros d. destruct (decide (c = d)) as [<-|Hd].
      * rewrite !lookup_alter_eq, Hu. cbn. unfold receives. by rewrite Hc, Hl.
      * by rewrite !lookup_alter_ne.
    + split; [|done]. apply (Hid u); [done|]. unfold receives. by rewrite Hc, Hl.
  - split; [|done]. apply map_eq. intros d. destruct (decide (c = d)) as [<-|Hd];
      [by rewrite lookup_alter_eq, Hu|by rewrite lookup_alter_ne].
Qed.

Definition GetName (c : nat) (h : Hub) : string :=
  match sessions h !! c with Some u => u_Name u | None => "" end.

Section hub.
Context `{Json}.

(** [SendJSON]: one line of JSON. *)
Definition SendJSON (c : nat) (m : option Message) (h : Hub) : Hub :=
  match m with
  | None => h
  | Some m => SendMsg c (json_message m) h
  end.

(** The network as the delivery worker sees it. *)
#[export] Instance hub_net : Net Hub nat := {|
  net_online h := (λ info, Some (Sender info)) <$> OnlineMap h;
  net_SendJSON c m h := (tt, SendJSON c (Some m) h)
|}.
End hub.
