(* ===== verification/SessionSteps.v ===== *)
(** One session under concurrency: any number of goroutines call [SendMsg] and [Close]
    (src/internal/session/session.go), one writes; between their atomic actions - locking
    and unlocking [mu], reading and setting [isClosed], the [select], closing the channel -
    anything may happen. The session itself is the [SUser] of [Hub], whose [SendMsg] and
    [set_isClosed] are the calls run without interruption. *)
From S2P Require Import Prelude GoStr Protocol StoreIface Limiter Logic Worker.
From S2P Require Import Storage Cache Store StoreImpl Group Hub.

(** [closeOnce]: never called, in the hands of a goroutine, done. *)
Inductive once := Fresh | Running (t : nat) | Finished.

(** Where a goroutine stands in [SendMsg], or in [Close] and the function [closeOnce] runs. *)
Inductive pc :=
  | SendLock (msg : string) | SendCheck (msg : string) | SendSelect (msg : string) | SendUnlock
  | CloseEnter | CloseLock | CloseMark | CloseUnlock | CloseChan | CloseExit
  | Returned.

#[global] Instance pc_eq_dec : EqDecision pc.
Proof. solve_decision. Defined.

Record Conc := mkConc {
  s_user : SUser;
  s_mu : option nat;
  s_once : once;
  (** [close(u.C)] was executed. *)
  s_chanClosed : bool;
  (** A send on a closed channel, or closing it again, panics. *)
  s_panic : bool;
  s_threads : gmap nat pc;
  (** How many times [go u.Logout()] was executed. *)
  s_logouts : nat
}.

Definition conc_init (addr : string) : Conc := mkConc (NewUser addr) None Fresh false false ∅ 0.

Definition at_pc (t : nat) (p : pc) (s : Conc) : Conc :=
  mkConc (s_user s) (s_mu s) (s_once s) (s_chanClosed s) (s_panic s) (<[t := p]> (s_threads s))
    (s_logouts s).
Definition with_user (f : SUser → SUser) (s : Conc) : Conc :=
  mkConc (f (s_user s)) (s_mu s) (s_once s) (s_chanClosed s) (s_panic s) (s_threads s)
    (s_logouts s).
Definition with_mu (o : option nat) (s : Conc) : Conc :=
  mkConc (s_user s) o (s_once s) (s_chanClosed s) (s_panic s) (s_threads s) (s_logouts s).
Definition with_once (o : once) (s : Conc) : Conc :=
  mkConc (s_user s) (s_mu s) o (s_chanClosed s) (s_panic s) (s_threads s) (s_logouts s).
Definition close_chan (s : Conc) : Conc :=
  mkConc (s_user s) (s_mu s) (s_once s) true (s_panic s) (s_threads s) (s_logouts s).
Definition panics (s : Conc) : Conc :=
  mkConc (s_user s) (s_mu s) (s_once s) (s_chanClosed s) true (s_threads s) (s_logouts s).
Definition spawn_logout (s : Conc) : Conc :=
  mkConc (s_user s) (s_mu s) (s_once s) (s_chanClosed s) (s_panic s) (s_threads s)
    (S (s_logouts s)).

(** [mu.Lock()]: blocks while another goroutine holds it. *)
Definition lock (t : nat) (p : pc) (s : Conc) : option Conc :=
  match s_mu s with
  | None => Some (at_pc t p (with_mu (Some t) s))
  | Some _ => None
  end.

(** The next atomic action of goroutine [t], which stands at [p]; [None] when it is blocked
    or has returned. *)
Definition act (t : nat) (p : pc) (s : Conc) : option Conc :=
  match p with
  | SendLock msg => lock t (SendCheck msg) s
  | SendCheck msg => Some (at_pc t (if isClosed (s_user s) then SendUnlock else SendSelect msg) s)
  | SendSelect msg =>
    if s_chanClosed s then Some (panics s)
    else if (length (u_C (s_user s)) <? chan_cap)%nat
    then Some (at_pc t SendUnlock (with_user (λ u, set_C (u_C u ++ [msg]) u) s))
    else Some (at_pc t SendUnlock (spawn_logout s))
  | SendUnlock => Some (at_pc t Returned (with_mu None s))
  | CloseEnter =>
    match s_once s with
    | Fresh => Some (at_pc t CloseLock (with_once (Running t) s))
    | Running _ => None
    | Finished => Some (at_pc t Returned s)
    end
  | CloseLock => lock t CloseMark s
  | CloseMark => Some (at_pc t CloseUnlock (with_user set_isClosed s))
  | CloseUnlock => Some (at_pc t CloseChan (with_mu None s))
  | CloseChan =>
    if s_chanClosed s then Some (panics s) else Some (at_pc t CloseExit (close_chan s))
  | CloseExit => Some (at_pc t Returned (with_once Finished s))
  | Returned => None
  end.

(** Nothing moves any more once a goroutine has panicked. *)
Definition advance (t : nat) (s : Conc) : option Conc :=
  if s_panic s then None
  else match s_threads s !! t with Some p => act t p s | None => None end.

Inductive conc_step : relation Conc :=
  (** A goroutine enters a call. *)
  | conc_send t msg s : s_threads s !! t = None → conc_step s (at_pc t (SendLock msg) s)
  | conc_close t s : s_threads s !! t = None → conc_step s (at_pc t CloseEnter s)
  | conc_advance t s s' : advance t s = Some s' → conc_step s s'
  (** The writer receives; a closed channel still hands out what it holds. *)
  | conc_receive s : u_C (s_user s) ≠ [] → conc_step s (with_user drop_first s).

(** * Invariant *)

(** The goroutine holds [mu]. *)
Definition holds (p : pc) : bool :=
  match p with
  | SendCheck _ | SendSelect _ | SendUnlock | CloseMark | CloseUnlock => true
  | _ => false
  end.

(** The goroutine runs the function of [closeOnce]. *)
Definition closing (p : pc) : bool :=
  match p with CloseLock | CloseMark | CloseUnlock | CloseChan | CloseExit => true | _ => false end.

(** How far closing has come: the mark, the channel. *)
Definition stage (p : pc) : bool * bool :=
  match p with
  | CloseUnlock | CloseChan => (true, false)
  | CloseExit => (true, true)
  | _ => (false, false)
  end.

Record conc_inv (s : Conc) : Prop := {
  ci_panic : s_panic s = false;
  ci_mu t : s_mu s = Some t ↔ ∃ p, s_threads s !! t = Some p ∧ holds p = true;
  ci_once t : s_once s = Running t ↔ ∃ p, s_threads s !! t = Some p ∧ closing p = true;
  ci_stage : (isClosed (s_user s), s_chanClosed s) =
    match s_once s with
    | Fresh => (false, false)
    | Running t => stage (default Returned (s_threads s !! t))
    | Finished => (true, true)
    end;
  ci_select t msg : s_threads s !! t = Some (SendSelect msg) → isClosed (s_user s) = false
}.

Lemma conc_inv_init addr : conc_inv (conc_init addr).
Proof.
  split; try done; intros t; cbn; (split; [done|]); by intros (p & Hp & _).
Qed.

(** Moving one goroutine. *)
Lemma owners_move (own : pc → bool) (m : gmap nat pc) t p p' t' :
  m !! t = Some p →
  (∃ q, <[t := p']> m !! t' = Some q ∧ own q = true) ↔
  (if decide (t' = t) then own p' = true else ∃ q, m !! t' = Some q ∧ own q = true).
Proof.
  intros Hp. case_decide as Ht; [subst; rewrite lookup_insert_eq|rewrite lookup_insert_ne by done].
  - split; [by intros (q & [= <-] & ?)|by eexists].
  - done.
Qed.

Lemma holder own (m : gmap nat pc) t p :
  m !! t = Some p → (∃ q, m !! t = Some q ∧ own q = true) ↔ own p = true.
Proof. intros ->. split; [by intros (q & [= <-] & ?)|by eexists]. Qed.

(** A goroutine moves: what has to be checked is its share of the invariant. *)
Lemma conc_inv_move t p p' s u' mu' once' chan' n :
  conc_inv s → s_threads s !! t = Some p →
  (mu' = s_mu s ∧ holds p' = holds p ∨
   mu' = Some t ∧ s_mu s = None ∧ holds p' = true ∨
   mu' = None ∧ holds p = true ∧ holds p' = false) →
  (once' = s_once s ∧ closing p' = closing p ∨
   once' = Running t ∧ s_once s = Fresh ∧ closing p' = true ∨
   once' = Finished ∧ closing p = true ∧ closing p' = false) →
  (isClosed u', chan') =
    match once' with
    | Fresh => (false, false)
    | Running t' => stage (if decide (t' = t) then p' else default Returned (s_threads s !! t'))
    | Finished => (true, true)
    end →
  (∀ msg, p' = SendSelect msg → isClosed u' = false) →
  (isClosed u' = isClosed (s_user s) ∨ holds p = true) →
  conc_inv (at_pc t p' (mkConc u' mu' once' chan' false (s_threads s) n)).
Proof.
  intros [_ Hmu Honce Hst Hsel] Hp HM HO HS HL HU.
  pose proof (Hmu t) as Hmt. pose proof (Honce t) as Hot.
  rewrite (holder holds _ t p) in Hmt by done. rewrite (holder closing _ t p) in Hot by done.
  split; cbn; [done|..].
  - intros t'. rewrite (owners_move holds _ t p) by done. case_decide as Ht.
    + subst t'. destruct HM as [[-> ->]|[(-> & _ & ->)|(-> & _ & ->)]]; [done|done|].
      by split.
    + rewrite <- Hmu. destruct HM as [[-> _]|[(-> & HM & _)|(-> & Hh & _)]]; [done|..].
      * rewrite HM. split; [by intros [= ->]|done].
      * apply Hmt in Hh. rewrite Hh. split; [done|]. by intros [= ->].
  - intros t'. rewrite (owners_move closing _ t p) by done. case_decide as Ht.
    + subst t'. destruct HO as [[-> ->]|[(-> & _ & ->)|(-> & _ & ->)]]; [done|done|].
      by split.
    + rewrite <- Honce. destruct HO as [[-> _]|[(-> & HO & _)|(-> & Hh & _)]]; [done|..].
      * rewrite HO. split; [by intros [= ->]|done].
      * apply Hot in Hh. rewrite Hh. split; [done|]. by intros [= ->].
  - rewrite HS. destruct once' as [|t'|]; [done| |done]. case_decide as Ht.
    + subst. by rewrite lookup_insert_eq.
    + by rewrite lookup_insert_ne.
  - intros t' msg. destruct (decide (t = t')) as [<-|Ht].
    + rewrite lookup_insert_eq. intros [= ->]. by apply (HL msg).
    + rewrite lookup_insert_ne by done. intros Hs'. destruct HU as [->|Hh].
      * by apply (Hsel t' msg).
      * assert (s_mu s = Some t') as E by (apply Hmu; by eexists).
        apply Hmt in Hh. rewrite Hh in E. by injection E.
Qed.

(** The channel is closed after the mark is set. *)
Lemma closed_after_mark s : conc_inv s → s_chanClosed s = true → isClosed (s_user s) = true.
Proof.
  intros [_ _ _ Hst _] Hc. rewrite Hc in Hst.
  destruct (s_once s) as [|t|]; [done| |by injection Hst].
  destruct (default Returned _); by injection Hst.
Qed.

(** Discharge the side conditions of a move: the goroutine keeps, takes or gives up [mu] and
    the function of [closeOnce]; the stage is unchanged. *)
Ltac settle Hmove Hkeep :=
  intros [= <-]; apply Hmove; cbn;
  first [done | by left | by right | by (right; left) | by (right; right) | by apply Hkeep | idtac].

Lemma advance_inv t s s' : conc_inv s → advance t s = Some s' → conc_inv s'.
Proof.
  intros Hinv. pose proof Hinv as [Hpanic Hmu Honce Hst Hsel]. unfold advance, act. rewrite Hpanic.
  destruct (s_threads s !! t) as [p|] eqn:Hp; [|done].
  pose proof (Hmu t) as Hmt. pose proof (Honce t) as Hot.
  rewrite (holder holds _ t p) in Hmt by done. rewrite (holder closing _ t p) in Hot by done.
  destruct s as [u mu once chan panic threads n]. cbn in *. subst panic.
  assert (∀ p' u' mu' once' chan' n',
    (mu' = mu ∧ holds p' = holds p ∨ mu' = Some t ∧ mu = None ∧ holds p' = true ∨
     mu' = None ∧ holds p = true ∧ holds p' = false) →
    (once' = once ∧ closing p' = closing p ∨ once' = Running t ∧ once = Fresh ∧ closing p' = true ∨
     once' = Finished ∧ closing p = true ∧ closing p' = false) →
    (isClosed u', chan') =
      match once' with
      | Fresh => (false, false)
      | Running t' => stage (if decide (t' = t) then p' else default Returned (threads !! t'))
      | Finished => (true, true)
      end →
    (∀ msg, p' = SendSelect msg → isClosed u' = false) →
    (isClosed u' = isClosed u ∨ holds p = true) →
    conc_inv (at_pc t p' (mkConc u' mu' once' chan' false threads n'))) as Hmove
    by (intros; by apply (conc_inv_move t p p' (mkConc u mu once chan false threads n))).
  assert (∀ p', closing p' = closing p → stage p' = stage p →
    (isClosed u, chan) =
      match once with
      | Fresh => (false, false)
      | Running t' => stage (if decide (t' = t) then p' else default Returned (threads !! t'))
      | Finished => (true, true)
      end) as Hkeep.
  { intros p' Hc Hs. rewrite Hst. destruct once; try done. case_decide; [|done]. subst.
    by rewrite Hp, Hs. }
  assert (∀ p', closing p = true → closing p' = true →
    match once with
    | Fresh => (false, false)
    | Running t' => stage (if decide (t' = t) then p' else default Returned (threads !! t'))
    | Finished => (true, true)
    end = stage p' ∧ (isClosed u, chan) = stage p) as Hown.
  { intros p' Hc Hc'. rewrite Hst, (proj2 Hot Hc), Hp. by rewrite decide_True. }
  unfold lock. cbn.
  destruct p as [msg|msg|msg| | | | | | | |]; cbn in Hmt, Hot, Hmove, Hkeep, Hown |- *.
  - destruct mu; [done|]. settle Hmove Hkeep.
  - intros [= <-]. apply Hmove; cbn; [left|left|apply Hkeep|intros m|by left];
      by destruct (isClosed u).
  - assert (isClosed u = false) as Hu by (by apply (Hsel t msg)).
    assert (chan = false) as ->.
    { destruct chan; [|done]. apply closed_after_mark in Hinv; [|done]. cbn in Hinv. congruence. }
    match goal with |- context [if ?b then Some _ else Some _] => destruct b end; settle Hmove Hkeep.
  - settle Hmove Hkeep.
  - destruct once as [|t'|]; [|done|]; settle Hmove Hkeep. by rewrite decide_True.
  - destruct mu; [done|]. settle Hmove Hkeep.
  - destruct (Hown CloseUnlock) as [E [= Hu ->]]; [done..|]. settle Hmove Hkeep.
  - settle Hmove Hkeep.
  - destruct (Hown CloseExit) as [E [= Hu ->]]; [done..|]. settle Hmove Hkeep. by rewrite E, Hu.
  - destruct (Hown CloseExit) as [_ [= Hu ->]]; [done..|]. settle Hmove Hkeep. by rewrite Hu.
  - done.
Qed.

Lemma conc_step_inv s s' : conc_step s s' → conc_inv s → conc_inv s'.
Proof.
  assert (∀ t p u, s_threads s !! t = None → holds p = false → closing p = false →
    (∀ msg, p ≠ SendSelect msg) → isClosed u = isClosed (s_user s) → conc_inv s →
    conc_inv (at_pc t p (with_user (λ _, u) s))) as Hnew.
  { intros t p u Ht Hh Hc Hns Hu [Hp Hmu Honce Hst Hsel].
    assert (∀ own t', own p = false →
      (∃ q, <[t := p]> (s_threads s) !! t' = Some q ∧ own q = true) ↔
      ∃ q, s_threads s !! t' = Some q ∧ own q = true) as Hsame.
    { intros own t' Ho. destruct (decide (t = t')) as [<-|Hne].
      - rewrite lookup_insert_eq, Ht. split; intros (q & E & Hq); [|done].
        injection E as <-. congruence.
      - by rewrite lookup_insert_ne. }
    split; cbn; [done|..].
    - intros t'. by rewrite Hmu, Hsame.
    - intros t'. by rewrite Honce, Hsame.
    - rewrite Hu, Hst. destruct (s_once s) as [|t'|] eqn:E; [done| |done].
      destruct (decide (t = t')) as [<-|Hne]; [|by rewrite lookup_insert_ne].
      destruct (proj1 (Honce t) eq_refl) as (q & Hq & _). congruence.
    - intros t' msg. rewrite Hu. destruct (decide (t = t')) as [<-|Hne].
      + rewrite lookup_insert_eq. intros [= ->]. by destruct (Hns msg).
      + rewrite lookup_insert_ne by done. apply Hsel. }
  destruct 1 as [t msg s Ht|t s Ht|t s s' Ha|s Hc]; intros Hi.
  - by apply (Hnew t (SendLock msg) (s_user s)).
  - by apply (Hnew t CloseEnter (s_user s)).
  - by apply (advance_inv t s).
  - destruct Hi as [? ? ? ? ?]. by split.
Qed.

Lemma conc_reachable_inv addr s : rtc conc_step (conc_init addr) s → conc_inv s.
Proof.
  intros Hr. pose proof (conc_inv_init addr) as Hi. revert Hi.
  induction Hr as [|s1 s2 s3 H12 _ IH]; [done|]. intros Hi. by apply IH, (conc_step_inv s1).
Qed.

(** * The calls are atomic *)

(** The call of a goroutine, run without interruption on the session. *)
Definition call (p : pc) : SUser → SUser :=
  match p with
  | SendLock msg | SendCheck msg | SendSelect msg => receives msg
  | _ => set_isClosed
  end.

(** The call has not taken effect yet. *)
Definition due (p : pc) : bool :=
  match p with
  | SendLock _ | SendCheck _ | SendSelect _ | CloseEnter | CloseLock | CloseMark => true
  | _ => false
  end.

(** C11. A session never panics: however the calls of [SendMsg] and [Close] interleave, nothing
    is ever sent on the closed channel and it is closed once at most; one goroutine at most
    is inside the critical sections; and once the session is marked closed it stays so and its
    channel only drains. *)
Theorem session_never_panics addr s :
  rtc conc_step (conc_init addr) s →
  s_panic s = false ∧
  (∀ t t' p p', s_threads s !! t = Some p → s_threads s !! t' = Some p' →
     holds p = true → holds p' = true → t = t') ∧
  (s_chanClosed s = true → isClosed (s_user s) = true) ∧
  (isClosed (s_user s) = true → ∀ s', conc_step s s' →
     isClosed (s_user s') = true ∧ u_C (s_user s') `suffix_of` u_C (s_user s)).
Proof.
  intros Hr. pose proof (conc_reachable_inv addr s Hr) as Hi. pose proof Hi as [Hp Hmu _ _ Hsel].
  split; [done|]. split; [|split; [by apply closed_after_mark|]].
  - intros t t' p p' Ht Ht' Hh Hh'.
    assert (s_mu s = Some t) as E by (apply Hmu; by eexists).
    assert (s_mu s = Some t') as E' by (apply Hmu; by eexists). congruence.
  - intros Hc s' Hs. destruct Hs as [t msg s Ht|t s Ht|t s s' Ha|s Hne]; cbn; try done.
    + revert Ha. unfold advance, act, lock. rewrite Hp.
      repeat case_match; intros; simplify_eq/=; try done; by rewrite (Hsel t msg) in Hc.
    + split; [done|]. exists (take 1 (u_C (s_user s))). by destruct (u_C (s_user s)).
Qed.

(** C17. The calls on a session are atomic: each call of [SendMsg] or [Close] takes effect at one
    of its atomic actions, between its start and its return - all its other actions leave
    the session alone - and the effect is that of the whole call run without interruption on
    the session as it is then. So the interleaved program is the one of [Hub], one call
    after the other. *)
Theorem session_calls_atomic addr s t p s' :
  rtc conc_step (conc_init addr) s → s_threads s !! t = Some p → advance t s = Some s' →
  ∃ p', s_threads s' !! t = Some p' ∧
    if due p
    then due p' = true ∧ s_user s' = s_user s ∨ due p' = false ∧ s_user s' = call p (s_user s)
    else due p' = false ∧ s_user s' = s_user s.
Proof.
  intros Hr Ht. pose proof (conc_reachable_inv addr s Hr) as Hi.
  pose proof Hi as [Hp _ _ Hst Hsel]. unfold advance, act, lock. rewrite Hp, Ht.
  assert (s_chanClosed s = true → isClosed (s_user s) = true) as Hcl by by apply closed_after_mark.
  assert (∀ q s1, s_threads (at_pc t q s1) !! t = Some q) as Hq
    by (intros; apply lookup_insert_eq).
  destruct p as [msg|msg|msg| | | | | | | |]; cbn [due call].
  - destruct (s_mu s); [done|]. intros [= <-]. eexists. split; [apply Hq|by left].
  - intros [= <-]. eexists. split; [apply Hq|]. destruct (isClosed (s_user s)) eqn:Hc; [right|by left].
    split; [done|]. unfold receives. by rewrite Hc.
  - pose proof (Hsel t msg Ht) as Hc. destruct (s_chanClosed s); [by rewrite Hcl in Hc|].
    unfold receives. rewrite Hc.
    destruct (length _ <? _)%nat; intros [= <-]; (eexists; split; [apply Hq|by right]).
  - intros [= <-]. eexists. by split; [apply Hq|].
  - destruct (s_once s); [|done|]; intros [= <-]; (eexists; split; [apply Hq|]); [by left|right].
    split; [done|]. injection Hst as Hc _. cbn. destruct (s_user s). cbn in *. by subst.
  - destruct (s_mu s); [done|]. intros [= <-]. eexists. split; [apply Hq|by left].
  - intros [= <-]. eexists. split; [apply Hq|by right].
  - intros [= <-]. eexists. by split; [apply Hq|].
  - destruct (s_chanClosed s); intros [= <-]; eexists; (split; [exact Ht || apply Hq|done]).
  - intros [= <-]. eexists. by split; [apply Hq|].
  - done.
Qed.

(** * The calls return *)

(** How many actions a call has left at most. *)
Definition actions_left (p : pc) : nat :=
  match p with
  | SendLock _ => 4 | SendCheck _ => 3 | SendSelect _ => 2 | SendUnlock => 1
  | CloseEnter => 6 | CloseLock => 5 | CloseMark => 4 | CloseUnlock => 3 | CloseChan => 2
  | CloseExit => 1
  | Returned => 0
  end.

Definition total (m : gmap nat pc) : nat := map_fold (λ _ p n, (actions_left p + n)%nat) 0%nat m.
Definition work (s : Conc) : nat := if s_panic s then 0 else total (s_threads s).

Lemma total_delete m t p : m !! t = Some p → total m = (actions_left p + total (delete t m))%nat.
Proof.
  intros Hp. unfold total at 1. rewrite <- (insert_delete_id m t p Hp) at 1.
  rewrite map_fold_insert_L; [done|intros; lia|by rewrite lookup_delete_eq].
Qed.

Lemma total_insert m t p p' :
  m !! t = Some p → (actions_left p' < actions_left p)%nat → (total (<[t := p']> m) < total m)%nat.
Proof.
  intros Hp Hlt. rewrite (total_delete m t p Hp).
  rewrite (total_delete (<[t := p']> m) t p') by apply lookup_insert_eq.
  rewrite delete_insert_eq. lia.
Qed.

(** Some goroutine takes its next action. *)
Definition advances : relation Conc := λ s s', ∃ t, advance t s = Some s'.

Lemma advance_work s s' : advances s s' → s_panic s' = true ∨ (work s' < work s)%nat.
Proof.
  intros [t Ha]. unfold advance, act, lock in Ha. unfold work. destruct (s_panic s); [done|].
  destruct (s_threads s !! t) as [p|] eqn:Hp; [|done].
  assert (∀ p', (actions_left p' < actions_left p)%nat → (total (<[t := p']> (s_threads s)) < total (s_threads s))%nat)
    as Ht by (intros p'; by apply total_insert).
  destruct p; repeat case_match; simplify_eq/=; try done; try (by left); right; apply Ht; cbn; lia.
Qed.

Lemma advances_inv s s' : advances s s' → conc_inv s → conc_inv s'.
Proof. intros [t Ha] Hi. by apply (advance_inv t s). Qed.

Lemma advances_bounded n s s' : conc_inv s → nsteps advances n s s' → (n + work s' <= work s)%nat.
Proof.
  intros Hi Hn. revert Hi. induction Hn as [s|n s1 s2 s3 H12 _ IH]; intros Hi; [lia|].
  pose proof (advances_inv s1 s2 H12 Hi) as Hi2. specialize (IH Hi2).
  destruct (advance_work s1 s2 H12) as [Hp|Hlt]; [|lia]. by rewrite (ci_panic s2 Hi2) in Hp.
Qed.

(** A goroutine that holds [mu], or runs the function of [closeOnce] with [mu] free, is not
    blocked. *)
Lemma holder_advances s t p :
  conc_inv s → s_threads s !! t = Some p → holds p = true → is_Some (advance t s).
Proof.
  intros Hi Ht Hh. unfold advance, act. rewrite (ci_panic s Hi), Ht.
  destruct p; cbn in Hh; try done; repeat case_match; by eexists.
Qed.
Lemma closer_advances s t p :
  conc_inv s → s_threads s !! t = Some p → closing p = true → s_mu s = None →
  is_Some (advance t s).
Proof.
  intros Hi Ht Hc Hmu. unfold advance, act, lock. rewrite (ci_panic s Hi), Ht, Hmu.
  destruct p; cbn in Hc; try done; repeat case_match; by eexists.
Qed.

Lemma not_stuck s t p :
  conc_inv s → s_threads s !! t = Some p → p ≠ Returned → ∃ t', is_Some (advance t' s).
Proof.
  intros Hi Ht Hp. destruct (s_mu s) as [t0|] eqn:Hmu.
  - apply (ci_mu s Hi) in Hmu as (p0 & Ht0 & Hh). exists t0. by apply (holder_advances s t0 p0).
  - destruct (s_once s) as [|t0|] eqn:Ho.
    2: { apply (ci_once s Hi) in Ho as (p0 & Ht0 & Hc). exists t0. by apply (closer_advances s t0 p0). }
    all: exists t; unfold advance, act, lock; rewrite (ci_panic s Hi), Ht, Hmu, Ho;
      destruct p; try done; repeat case_match; by eexists.
Qed.

(** C27. Every call on a session returns: from any state the goroutines can reach, they take at
    most [work s] more actions (six for a [Close], four for a [SendMsg]) whatever the
    scheduling, and when none of them can move - no deadlock - all have returned. *)
Theorem session_calls_return addr s :
  rtc conc_step (conc_init addr) s →
  (∀ n s', nsteps advances n s s' → (n <= work s)%nat) ∧
  (∀ s', rtc advances s s' → (∀ t, advance t s' = None) →
     ∀ t p, s_threads s' !! t = Some p → p = Returned).
Proof.
  intros Hr. pose proof (conc_reachable_inv addr s Hr) as Hi. split.
  - intros n s' Hn. pose proof (advances_bounded n s s' Hi Hn). lia.
  - intros s' Hs Hstuck t p Ht. assert (conc_inv s') as Hi'.
    { clear Hr Hstuck Ht. induction Hs as [|s1 s2 s3 H12 _ IH]; [done|].
      by apply IH, (advances_inv s1). }
    destruct (decide (p = Returned)) as [|Hp]; [done|].
    destruct (not_stuck s' t p Hi' Ht Hp) as [t' [s2 E]]. by rewrite Hstuck in E.
Qed.

(** ** The hub's operations are these calls, run without interruption *)

(** Let goroutine [t] run until it has returned, [n] actions at most. *)
Fixpoint run_thread (n t : nat) (s : Conc) : Conc :=
  match n with
  | O => s
  | S n' => match advance t s with Some s' => run_thread n' t s' | None => s end
  end.

Lemma run_thread_steps n t s : rtc advances s (run_thread n t s).
Proof.
  revert s. induction n as [|n IH]; intros s; cbn; [done|].
  destruct (advance t s) as [s'|] eqn:E; [|done]. eapply rtc_l; [by exists t|apply IH].
Qed.

Lemma run_at n t p s :
  s_panic s = false →
  run_thread (S n) t (at_pc t p s) =
    match act t p (at_pc t p s) with Some s' => run_thread n t s' | None => at_pc t p s end.
Proof.
  intros Hp. cbn [run_thread]. unfold advance. cbn [s_panic s_threads at_pc].
  by rewrite Hp, lookup_insert_eq.
Qed.

Lemma run_in n t p u mu o ch threads k :
  let s := mkConc u mu o ch false (<[t := p]> threads) k in
  run_thread (S n) t s = match act t p s with Some s' => run_thread n t s' | None => s end.
Proof. cbn [run_thread]. unfold advance. cbn [s_panic s_threads]. by rewrite lookup_insert_eq. Qed.

(** [Hub.SendMsg] on the session of a hub, against a goroutine that runs it alone. *)
Lemma SendMsg_thread c msg h u t threads n :
  sessions h !! c = Some u →
  let s := run_thread 4 t (at_pc t (SendLock msg)
             (mkConc u None Fresh (isClosed u) false threads n)) in
  s_threads s !! t = Some Returned ∧ sessions (SendMsg c msg h) !! c = Some (s_user s) ∧
  (s_logouts s + length (logouts h) = n + length (logouts (SendMsg c msg h)))%nat.
Proof.
  intros Hu s. destruct (SendMsg_sessions c msg h) as (-> & _). rewrite lookup_alter_eq, Hu.
  subst s. unfold SendMsg, receives. rewrite Hu.
  rewrite run_at by done. cbn [act lock s_mu at_pc].
  rewrite run_at by done. cbn [act s_user at_pc with_mu].
  destruct (isClosed u) eqn:Hc.
  - rewrite run_at by done. cbn [act]. rewrite run_at by done.
    cbn -[chan_cap Nat.ltb lookup insert]. rewrite lookup_insert_eq, Hc. split_and!; [done..|lia].
  - rewrite run_at by done. cbn [act s_user s_chanClosed at_pc with_mu].
    destruct (length (u_C u) <? chan_cap)%nat eqn:Hl;
      (rewrite run_at by done); cbn -[chan_cap Nat.ltb lookup insert];
      rewrite lookup_insert_eq, Hc, Hl; (split_and!; [done..|]); cbn; rewrite ?length_app; cbn; lia.
Qed.


(** [Close], alone: the mark of [Hub], and the channel is closed. *)
Lemma Close_thread u t threads n :
  let s := run_thread 6 t (at_pc t CloseEnter (mkConc u None Fresh false false threads n)) in
  s_threads s !! t = Some Returned ∧ s_user s = set_isClosed u ∧ s_chanClosed s = true.
Proof.
  intros s. subst s. unfold at_pc. cbn [s_user s_mu s_once s_chanClosed s_panic s_threads s_logouts].
  repeat (rewrite run_in; unfold act, lock, at_pc, with_once, with_mu, with_user, close_chan;
    cbn [s_user s_mu s_once s_chanClosed s_panic s_threads s_logouts]; rewrite ?insert_insert_eq).
  cbn [run_thread s_threads s_user s_chanClosed]. by rewrite lookup_insert_eq.
Qed.

(** * Schedules, and witnesses *)

Inductive event := EvSend (t : nat) (msg : string) | EvClose (t : nat) | EvRun (t : nat) | EvReceive.

Definition perform (e : event) (s : Conc) : option Conc :=
  match e with
  | EvSend t msg =>
    match s_threads s !! t with Some _ => None | None => Some (at_pc t (SendLock msg) s) end
  | EvClose t =>
    match s_threads s !! t with Some _ => None | None => Some (at_pc t CloseEnter s) end
  | EvRun t => advance t s
  | EvReceive =>
    match u_C (s_user s) with [] => None | _ => Some (with_user drop_first s) end
  end.

Fixpoint performs (es : list event) (s : Conc) : option Conc :=
  match es with [] => Some s | e :: es' => s' ← perform e s; performs es' s' end.

Lemma performs_reachable es s s' : performs es s = Some s' → rtc conc_step s s'.
Proof.
  revert s. induction es as [|e es IH]; intros s; cbn; [by intros [= ->]|].
  destruct (perform e s) as [s1|] eqn:E; cbn; [|done]. intros Hs. eapply rtc_l; [|by apply IH].
  revert E. destruct e as [t msg|t|t|]; cbn.
  - destruct (s_threads s !! t) eqn:Et; [done|]. intros [= <-]. by apply conc_send.
  - destruct (s_threads s !! t) eqn:Et; [done|]. intros [= <-]. by apply conc_close.
  - apply conc_advance.
  - destruct (u_C (s_user s)) eqn:Ec; [done|]. intros [= <-]. apply conc_receive. by rewrite Ec.
Qed.

(** Goroutine 0 is about to send into the channel, 1 waits for the mutex to mark the session
    closed, 2 waits for [closeOnce]. *)
Definition busy_events : list event :=
  [EvSend 0 "hi"; EvRun 0; EvClose 1; EvRun 0; EvRun 1; EvClose 2].
Definition busy : Conc := default (conc_init "a") (performs busy_events (conc_init "a")).

Lemma busy_reachable : rtc conc_step (conc_init "a") busy.
Proof. apply (performs_reachable busy_events). by vm_compute. Qed.

Lemma session_never_panics_witness :
  s_threads busy !! 0%nat = Some (SendSelect "hi") ∧
  s_panic busy = false ∧
  (∀ t t' p p', s_threads busy !! t = Some p → s_threads busy !! t' = Some p' →
     holds p = true → holds p' = true → t = t') ∧
  (s_chanClosed busy = true → isClosed (s_user busy) = true) ∧
  (isClosed (s_user busy) = true → ∀ s', conc_step busy s' →
     isClosed (s_user s') = true ∧ u_C (s_user s') `suffix_of` u_C (s_user busy)).
Proof. split; [by vm_compute|]. apply (session_never_panics "a" busy), busy_reachable. Defined.

Definition busy_sent : Conc := default busy (advance 0 busy).

Lemma session_calls_atomic_witness :
  u_C (s_user busy_sent) = ["hi"] ∧
  ∃ p', s_threads busy_sent !! 0%nat = Some p' ∧
    if due (SendSelect "hi")
    then due p' = true ∧ s_user busy_sent = s_user busy ∨
         due p' = false ∧ s_user busy_sent = call (SendSelect "hi") (s_user busy)
    else due p' = false ∧ s_user busy_sent = s_user busy.
Proof.
  split; [by vm_compute|].
  apply (session_calls_atomic "a" busy 0 (SendSelect "hi") busy_sent);
    [apply busy_reachable|by vm_compute..].
Defined.

Lemma session_calls_return_witness :
  work busy = 13%nat ∧
  (∀ n s', nsteps advances n busy s' → (n <= work busy)%nat) ∧
  (∀ s', rtc advances busy s' → (∀ t, advance t s' = None) →
     ∀ t p, s_threads s' !! t = Some p → p = Returned).
Proof. split; [by vm_compute|]. apply (session_calls_return "a" busy), busy_reachable. Defined.


