(* ===== verification/Server.v ===== *)
(** Package [server] (src/internal/server): the interface offered to sessions (api.go, id.go,
    broadcast.go), the messages of clients (messages.go), statistics, bootstrap and the accept
    loop. *)
From S2P Require Import Prelude GoStr Protocol StoreIface Limiter Logic Worker.
From S2P Require Import Storage Cache Store StoreImpl Group Hub.

(** Texts that depend on the time zone of the process, and floating-point ones: a time in the
    layout [2006-01-02 15:04:05] and in RFC 3339, and [%.2f] of a number over a duration. *)
Class GoFmt := {
  fmt_local_time : Z → string;
  fmt_rfc3339 : Z → string;
  fmt_rate : Z → Z → string
}.

(** [Duration.String] of a positive number of whole seconds. *)
Definition duration_text (d : Z) : string :=
  let secs := d / Second in
  let h := secs / 3600 in
  let m := secs / 60 in
  (if 0 <? h then itoa h +:+ "h" else "") +:+
  (if 0 <? m then itoa (m mod 60) +:+ "m" else "") +:+ itoa (secs mod 60) +:+ "s".

(** * The program *)

Section server.
Context `{GoEnv} {D R : Type} `{Gorm D} `{Redis R} `{Json}.

Definition IM : Type := DW (SW D R) Hub.
Abbreviation MI := (M IM).

Definition hub {A} (f : Hub → A) : MI A := gets (λ im, f (d_net im)).
Definition hub_modify (f : Hub → Hub) : MI unit := on_net (modify f).
Definition world {A} (m : M (Ext D R) A) : MI A := on_store (ext m).

(** A call on [s.logic], which shares the store. *)
Definition on_logic {A} (m : M (LogicService (SW D R)) A) : MI A := λ im,
  let (a, l) := m (mkLogic (h_idCounter (d_net im)) (d_store im)) in
  (a, mkDW (d_worker im) (l_store l) (set_idCounter (idCounter l) (d_net im))).

(** * api.go, id.go *)

Definition RegisterOnline (name : string) (sender : option nat) (addr : string) : MI unit :=
  match sender with
  | None => mret tt
  | Some c =>
    if String.eqb name "" then mret tt
    else hub_modify (λ h, set_OnlineMap (<[name := mkOnline c addr]> (OnlineMap h)) h)
  end.

Definition UnregisterOnline (name : string) : MI unit :=
  if String.eqb name "" then mret tt
  else hub_modify (λ h, set_OnlineMap (delete name (OnlineMap h)) h).

Definition srv_ProcessSend (req : option Message) (recipients : option (list string)) :
    MI SendResult := on_logic (ProcessSend req recipients).
Definition srv_HandleDeliverAck (username serverMsgID : string) : MI unit :=
  on_logic (HandleDeliverAck username serverMsgID).
Definition srv_HandleReadAck (username serverMsgID : string) : MI unit :=
  on_logic (HandleReadAck username serverMsgID).
Definition srv_EnqueueServerMsg (serverMsgID : string) : MI unit :=
  on_worker (EnqueueServerMsg serverMsgID).
Definition srv_EnqueuePendingForUser (username : string) (limit : Z) : MI unit :=
  EnqueuePendingForUser username limit.
Definition srv_GetC2CHistory (userA userB : string) (limit : Z) : MI (list Message) :=
  on_store (GetC2CHistory userA userB limit).
Definition MarkOutbound : MI unit := hub_modify markOutboundMessage.

(** The users online, in the order of this iteration over the map. *)
Definition ListOnlineUsers : MI (list (string * string)) :=
  m ← hub OnlineMap;
  kvs ← world (range_map m);
  mret ((λ kv, (kv.1, o_Addr kv.2)) <$> kvs).

Definition srv_GenerateServerMsgID : MI string := on_logic (GenerateServerMsgID "s").
Definition srv_NextSeq (chatID : string) : MI Z := r ← on_store (NextSeq chatID); mret r.1.

(** * broadcast.go *)

(** The users online but one, in the order of this iteration; [None] is the [nil] slice. *)
Definition others_online (exclude : string) : MI (option (list string)) :=
  m ← hub OnlineMap;
  kvs ← world (range_map m);
  mret (match List.filter (λ name, negb (String.eqb name exclude)) kvs.*1 with
        | [] => None
        | l => Some l
        end).

Definition BroadcastSystemEvent (body exclude : string) : MI (string * Z) :=
  r ← on_store (NextSeq "system");
  serverMsgID ← on_logic (GenerateServerMsgID "sys");
  now ← world Now;
  let msg := mkMessage TypeDeliver "" serverMsgID "system" "system" "" r.1 0 body (Unix now) in
  recipients ← others_online exclude;
  on_store (SaveMessageWithRecipients (Some msg) recipients);;
  srv_EnqueueServerMsg serverMsgID;;
  mret (serverMsgID, r.1).

(** * messages.go *)

(** The acknowledgement of a send. *)
Definition send_ack (clientMsgID serverMsgID : string) (seq : Z) : Message :=
  mkMessage TypeSendAck clientMsgID serverMsgID "" "" "" seq 0 "" 0.

Definition user_SendJSON (c : nat) (m : Message) : MI unit := hub_modify (SendJSON c (Some m)).

Definition HandleClientSend (c : nat) (req0 : Message) : MI unit :=
  name ← hub (GetName c);
  let req := if String.eqb (TrimSpace (From req0)) "" then set_From name req0 else req0 in
  req ← (if String.eqb (TrimSpace (ClientMsgID req)) "" then
           now ← world Now;
           mret (set_ClientMsgID ("c-" +:+ itoa (UnixNano now)) req)
         else mret req);
  recipients ← (if negb (String.eqb (To req) "") then mret (Some [To req])
                else others_online name);
  r ← srv_ProcessSend (Some req) recipients;
  let cid := match req_after r with Some q => ClientMsgID q | None => ClientMsgID req end in
  match send_err r, existing r, saved r with
  | Some _, _, _ => user_SendJSON c (send_ack cid "" 0)
  | None, Some ex, _ => user_SendJSON c (send_ack cid (ServerMsgID ex) (Seq ex))
  | None, None, Some msg =>
    user_SendJSON c (send_ack cid (ServerMsgID msg) (Seq msg));;
    srv_EnqueueServerMsg (ServerMsgID msg)
  | None, None, None => mret tt
  end.

Definition HandleMessage (c : nat) (m : Message) : MI unit :=
  name ← hub (GetName c);
  if String.eqb (Type_ m) TypeSend then
    HandleClientSend c (if String.eqb (From m) "" then set_From name m else m)
  else if String.eqb (Type_ m) TypeDeliverAck then
    if negb (String.eqb (ServerMsgID m) "")
    then on_logic (HandleDeliverAck name (ServerMsgID m)) else mret tt
  else if String.eqb (Type_ m) TypeReadAck then
    if negb (String.eqb (ServerMsgID m) "")
    then on_logic (HandleReadAck name (ServerMsgID m)) else mret tt
  else mret tt.

(** * stats.go *)

(** The snapshot; the throughput is [inbound + outbound] over the uptime. *)
Record StatsSnapshot := mkSnapshot {
  st_StartAt : Z; st_Uptime : Z; st_OnlineUsers : Z; st_ActiveConn : Z;
  st_TotalConnections : Z; st_RejectedConn : Z; st_InboundMessages : Z;
  st_OutboundMessages : Z; st_Delivery : DeliveryStatusStats
}.

Definition SnapshotStats : MI StatsSnapshot :=
  now ← world Now;
  h ← hub id;
  let uptime := now - startAt h in
  let uptime := if uptime <? Second then Second else uptime in
  st ← on_store DeliveryStats;
  mret (mkSnapshot (startAt h) uptime (Z.of_nat (size (OnlineMap h))) (activeConn h)
          (totalConnections h) (rejectedConn h) (inboundMessages h) (outboundMessages h) st).
(** [SnapshotStatsText] (api.go). *)
Definition stats_text `{GoFmt} (st : StatsSnapshot) : string :=
  GoStr.Join [
    "Server Stats";
    "start_at: " +:+ fmt_rfc3339 (st_StartAt st);
    "uptime: " +:+ duration_text (st_Uptime st);
    "online_users: " +:+ itoa (st_OnlineUsers st);
    "active_conn: " +:+ itoa (st_ActiveConn st);
    "total_conn: " +:+ itoa (st_TotalConnections st);
    "rejected_conn: " +:+ itoa (st_RejectedConn st);
    "inbound_msgs: " +:+ itoa (st_InboundMessages st);
    "outbound_msgs: " +:+ itoa (st_OutboundMessages st);
    "throughput: " +:+
      fmt_rate (wrapu64 (st_InboundMessages st + st_OutboundMessages st)) (st_Uptime st) +:+ " msg/s";
    "delivery_pending: " +:+ itoa (Pending (st_Delivery st));
    "delivery_delivered: " +:+ itoa (Delivered (st_Delivery st));
    "delivery_read: " +:+ itoa (ReadN (st_Delivery st));
    "dead_letter: " +:+ itoa (DeadN (st_Delivery st))] newline.

Definition SnapshotStatsText `{GoFmt} : MI string := st ← SnapshotStats; mret (stats_text st).
End server.
