(* ===== verification/Session.v ===== *)
(** Package [session] (src/internal/session): the life of a session (session.go), registration
    and login (auth.go). *)
From S2P Require Import Prelude GoStr Protocol StoreIface Limiter Logic Worker.
From S2P Require Import Storage Cache Dao Store StoreImpl Group Hub Server.

(** The password hash of golang.org/x/crypto/bcrypt, a third-party package. [bc_hash] draws
    a salt from its first argument; the law is its documented round trip. *)
Class Bcrypt := {
  bc_hash : nat → string → error + string;
  bc_ok : string → string → bool;
  bc_round n p h : bc_hash n p = inr h → bc_ok h p = true
}.

Section session.
Context `{GoEnv} {D R : Type} `{Gorm D} `{Redis R} `{Json}.
Abbreviation MI := (M (IM (D := D) (R := R))).

Definition the_user (c : nat) : MI SUser :=
  hub (λ h, default (NewUser "") (sessions h !! c)).
Definition on_session (c : nat) (f : SUser → SUser) : MI unit := hub_modify (update_session c f).
Definition send_msg (c : nat) (msg : string) : MI unit := hub_modify (SendMsg c msg).
Definition send_json (c : nat) (m : Message) : MI unit := hub_modify (SendJSON c (Some m)).

(** * session.go *)

(** A message of the system to one session. *)
Definition system_note (serverMsgID : string) (seq : Z) (body : string) : Message :=
  mkMessage TypeDeliver "" serverMsgID "system" "system" "" seq 0 body 0.

Definition startOnlineHeartbeat (c : nat) : MI unit :=
  on_session c (set_heartbeat None);;
  u ← the_user c;
  x ← world (gets id);
  match x_redis x with
  | None => mret tt
  | Some _ =>
    if String.eqb (u_Name u) "" then mret tt
    else
      world (cache_set (OnlineKey (u_Name u)) (GatewayID x) (OnlineTTL x));;
      on_session c (set_heartbeat (Some (u_Name u)))
  end.

(** A tick of the heartbeat goroutine, which keeps the key, and so the name, it was started
    with. *)
Definition heartbeat_tick (c : nat) : MI unit :=
  u ← the_user c;
  x ← world (gets id);
  match heartbeat u with
  | None => mret tt
  | Some name => world (cache_set (OnlineKey name) (GatewayID x) (OnlineTTL x))
  end.

Definition stopOnlineHeartbeat (c : nat) : MI unit :=
  on_session c (set_heartbeat None);;
  u ← the_user c;
  if String.eqb (u_Name u) "" then mret tt else world (cache_del (OnlineKey (u_Name u))).

Definition Online (c : nat) : MI unit :=
  u ← the_user c;
  RegisterOnline (u_Name u) (Some c) (Addr u);;
  srv_EnqueuePendingForUser (u_Name u) 500;;
  r ← BroadcastSystemEvent (u_Name u +:+ " ✅ 已上线！") (u_Name u);
  send_json c (system_note r.1 r.2 "----------------👏欢迎来到 8H-Go 聊天室----------------");;
  startOnlineHeartbeat c.

Definition Offline (c : nat) : MI unit :=
  stopOnlineHeartbeat c;;
  u ← the_user c;
  UnregisterOnline (u_Name u);;
  r ← BroadcastSystemEvent (u_Name u +:+ " ❌ 已下线！") (u_Name u);
  send_json c (system_note r.1 r.2 "你已成功下线，欢迎下次再来。").

(** [closeOnce]: mark closed, close channel and connection. *)
Definition Close (c : nat) : MI unit := on_session c set_isClosed.

(** [logoutOnce]: only the first call does anything. *)
Definition Logout (c : nat) : MI unit :=
  u ← the_user c;
  if loggedOut u then mret tt
  else on_session c set_loggedOut;; Offline c;; Close c.

(** One of the logouts started in the background runs. *)
Definition run_logout : MI unit :=
  l ← hub logouts;
  match l with
  | [] => mret tt
  | c :: l' => hub_modify (set_logouts l');; Logout c
  end.

(** How far the two writes of a message got before the connection failed. *)
Inductive write_outcome := WroteAll | WroteText | WroteNothing.

(** [writeWithPrompt]; [true] when both writes succeeded. *)
Definition writeWithPrompt (c : nat) (msg : string) (o : write_outcome) : MI bool :=
  u ← the_user c;
  match o with
  | WroteAll => on_session c (write_out [msg +:+ newline; u_Name u +:+ "> "]);;
                mret (negb (isClosed u))
  | WroteText => on_session c (write_out [msg +:+ newline]);; mret false
  | WroteNothing => mret false
  end.

(** One turn of [ListenMessage], the writer goroutine: receive a message, if there is one,
    and write it; when that fails, log out and return. *)
Definition ListenMessage (c : nat) (o : write_outcome) : MI unit :=
  u ← the_user c;
  if negb (writing u) then mret tt
  else match u_C u with
       | [] => mret tt
       | msg :: _ =>
         on_session c drop_first;;
         ok ← writeWithPrompt c msg o;
         if ok : bool then mret tt else Logout c;; on_session c stop_writing
       end.

(** * auth.go *)

Context `{Bcrypt}.

Definition name_chars : string := " " +:+ String "009" (String "010" (String "013" "|")).

(** Whether some session is online under a name. *)
Definition name_online (name : string) : MI bool :=
  l ← ListOnlineUsers; mret (existsb (λ i, String.eqb i.1 name) l).

(** What both end with. *)
Definition enter (c : nat) (username : string) : MI unit :=
  on_session c (λ u, set_Authenticated true (set_Name username u));; Online c.

Definition Register (c : nat) (username0 password : string) : MI (option error) :=
  let username := TrimSpace username0 in
  if String.eqb username "" || ContainsAny username name_chars
  then mret (Some (Err "用户名不可为空或包含空格/管道符"))
  else
    taken ← name_online username;
    if taken : bool then mret (Some (Err "该用户名已有人在线"))
    else
      u ← world (GetUserByName username);
      match u with
      | inr _ => mret (Some (Err "用户已存在，请直接登录"))
      | inl _ =>
        x ← world (gets id);
        match bc_hash (x_tick x) password with
        | inl err => mret (Some (Err ("密码加密失败: " +:+ Error err)))
        | inr hash =>
          e ← world (CreateUser (Some (mkUser 0 username hash "" "" 0 0 0)));
          match e with
          | Some err => mret (Some (Err ("创建用户失败: " +:+ Error err)))
          | None => enter c username;; mret None
          end
        end
      end.

Definition Login (c : nat) (username0 password : string) : MI (option error) :=
  let username := TrimSpace username0 in
  if String.eqb username "" then mret (Some (Err "用户名不能为空"))
  else
    su ← world (GetUserByName username);
    match su with
    | inl _ => mret (Some (Err "用户不存在，请先注册"))
    | inr su =>
      if negb (bc_ok (PasswordHash su) password) then mret (Some (Err "密码错误"))
      else
        taken ← name_online username;
        if taken : bool then mret (Some (Err "该用户已在其他连接登录"))
        else
          enter c username;;
          world (UpdateUserStatus username 1);;
          mret None
    end.
End session.
