(* ===== verification/Commands.v ===== *)
(** Package [session]: the text commands (commands.go) and their dispatch (dispatch.go). *)
From S2P Require Import Prelude GoStr Protocol StoreIface Limiter Logic Worker.
From S2P Require Import Storage Cache Store StoreImpl Group Hub Server Session.

Section commands.
Context `{GoEnv} {D R : Type} `{Gorm D} `{Redis R} `{Json} `{GoFmt}.
Abbreviation MI := (M (IM (D := D) (R := R))).

(** [strings.TrimSpace(parts[i])], once the number of parts was checked. *)
Definition part (parts : list string) (i : nat) : string := TrimSpace (default "" (parts !! i)).

Definition line (s : string) : string := s +:+ newline.

Definition help_text : string := GoStr.Join [
    "可用命令:";
    "  help                  查看帮助";
    "  who                   查看在线用户";
    "  rename|新昵称          修改昵称";
    "  to|用户名|消息         发送私聊消息";
    "  gc|群ID                创建群";
    "  gj|群ID                加入群";
    "  gl|群ID                退出群";
    "  gd|群ID                解散群(仅群主)";
    "  gk|群ID|用户名          踢人(管理员/群主)";
    "  ga|群ID|用户名          设管理员(仅群主)";
    "  gr|群ID|用户名          撤管理员(仅群主)";
    "  gm|群ID                查看群成员";
    "  gt|群ID|消息            发送群消息";
    "  history|用户名|条数     查询私聊历史（默认20）";
    "  read|server_msg_id      上报已读回执";
    "  stats                 查看服务端运行指标";
    "  exit                  退出聊天室"] newline.

Definition useHelp (c : nat) : MI unit := send_msg c help_text.

Definition useWho (c : nat) : MI unit :=
  l ← ListOnlineUsers;
  forM l (λ i, send_msg c (line ("[" +:+ i.2 +:+ "]" +:+ i.1 +:+ ":在线中..."))).

Definition useStats (c : nat) : MI unit :=
  st ← SnapshotStatsText; send_msg c st.

Definition useRename (c : nat) (msg : string) : MI unit :=
  let parts := SplitN msg pipe 2 in
  if negb (length parts =? 2)%nat || String.eqb (part parts 1) ""
  then send_msg c (line "命令格式错误，正确用法：rename|新昵称，例如：rename|alice")
  else
    let newName := part parts 1 in
    if (20 <? String.length newName)%nat then send_msg c (line "昵称过长，最多 20 个字符。")
    else if ContainsAny newName name_chars
    then send_msg c (line "昵称包含非法字符，请避免空格或 `|`。")
    else
      u ← the_user c;
      UnregisterOnline (u_Name u);;
      on_session c (set_Name newName);;
      RegisterOnline newName (Some c) (Addr u);;
      send_msg c (line ("已将 " +:+ u_Name u +:+ " 更改为: " +:+ newName)).

(** [fmt.Sprintf(prefix + "%d", time.Now().UnixNano())]. *)
Definition fresh_client_id (prefix : string) : MI string :=
  now ← world Now; mret (prefix +:+ itoa (UnixNano now)).

Definition useChat (c : nat) (msg : string) : MI unit :=
  let parts := SplitN msg pipe 3 in
  if negb (length parts =? 3)%nat || String.eqb (part parts 1) "" || String.eqb (part parts 2) ""
  then send_msg c (line "命令格式错误，正确用法：to|用户名|消息，例如：to|bob|你好")
  else
    let toName := part parts 1 in
    let toMsg := part parts 2 in
    u ← the_user c;
    if String.eqb toName (u_Name u) then send_msg c (line "不能给自己发送私聊消息。")
    else
      cid ← fresh_client_id "c-";
      r ← srv_ProcessSend (Some (mkMessage TypeSend cid "" "" (u_Name u) toName 0 0 toMsg 0))
            (Some [toName]);
      match send_err r, existing r, saved r with
      | Some err, _, _ => send_msg c ("消息发送失败: " +:+ Error err)
      | None, Some ex, _ => send_msg c ("私聊消息幂等命中: " +:+ ServerMsgID ex)
      | None, None, Some m =>
        srv_EnqueueServerMsg (ServerMsgID m);;
        send_msg c (line ("已将'" +:+ toMsg +:+ "' 消息发送 --> " +:+ toName))
      | None, None, None => mret tt
      end.

Definition useRead (c : nat) (msg : string) : MI unit :=
  let parts := SplitN msg pipe 2 in
  if negb (length parts =? 2)%nat || String.eqb (part parts 1) ""
  then send_msg c (line "命令格式错误，正确用法：read|server_msg_id")
  else
    u ← the_user c;
    srv_HandleReadAck (u_Name u) (part parts 1);;
    send_msg c ("已上报 read_ack: " +:+ part parts 1).

Definition useExit (c : nat) : MI unit := send_msg c (line "再见！欢迎下次再来~");; Logout c.

(** The number of messages [history] asks for. *)
Definition history_limit (parts : list string) : Z :=
  if (3 <=? length parts)%nat && negb (String.eqb (part parts 2) "")
  then match Atoi (part parts 2) with
       | Some n => if (0 <? n) && (n <=? 200) then n else 20
       | None => 20
       end
  else 20.

Definition history_line (h : Message) : string :=
  "[" +:+ fmt_local_time (Ts h) +:+ "] " +:+ From h +:+ " -> " +:+ To h +:+ " | seq=" +:+
  itoa (Seq h) +:+ " id=" +:+ ServerMsgID h +:+ " status=" +:+ itoa (Status h) +:+ " | " +:+
  Body h.

Definition useHistory (c : nat) (msg : string) : MI unit :=
  let parts := Split msg pipe in
  if (length parts <? 2)%nat || String.eqb (part parts 1) ""
  then send_msg c (line "命令格式错误，正确用法：history|用户名|条数(可选)")
  else
    let peer := part parts 1 in
    u ← the_user c;
    history ← srv_GetC2CHistory (u_Name u) peer (history_limit parts);
    match history with
    | [] => send_msg c (line "暂无历史消息。")
    | _ =>
      let lines := ("History with " +:+ peer +:+ " (count=" +:+
                    itoa (Z.of_nat (length history)) +:+ ")") :: (history_line <$> history) in
      send_msg c (line (GoStr.Join lines newline))
    end.

(** * Groups *)

(** A call on the group manager. *)
Definition on_groups {A} (m : GroupManager → A * GroupManager) : MI A :=
  on_net (zoom groupManager set_groupManager m).

(** The shape shared by the commands with one argument: check it, call the group manager,
    report. *)
Definition group_command1 (c : nat) (msg usage failed : string)
    (op : string → string → MG) (done : string) : MI unit :=
  let parts := SplitN msg pipe 2 in
  if negb (length parts =? 2)%nat || String.eqb (part parts 1) ""
  then send_msg c (line ("命令格式错误，正确用法：" +:+ usage))
  else
    u ← the_user c;
    r ← on_groups (op (part parts 1) (u_Name u));
    match r with
    | Some err => send_msg c (line (failed +:+ ": " +:+ Error err))
    | None => send_msg c (line (done +:+ ": " +:+ part parts 1))
    end.

(** The same for the commands with a group and a user. *)
Definition group_command2 (c : nat) (msg usage failed : string)
    (op : string → string → string → MG) (done : string) : MI unit :=
  let parts := SplitN msg pipe 3 in
  if negb (length parts =? 3)%nat || String.eqb (part parts 1) "" || String.eqb (part parts 2) ""
  then send_msg c (line ("命令格式错误，正确用法：" +:+ usage))
  else
    u ← the_user c;
    r ← on_groups (op (part parts 1) (u_Name u) (part parts 2));
    match r with
    | Some err => send_msg c (line (failed +:+ ": " +:+ Error err))
    | None => send_msg c (line (done +:+ ": " +:+ part parts 2))
    end.

Definition useGroupCreate (c : nat) (msg : string) : MI unit :=
  group_command1 c msg "gc|群ID" "创建群失败" Create "创建群成功".
Definition useGroupJoin (c : nat) (msg : string) : MI unit :=
  group_command1 c msg "gj|群ID" "加入群失败" Group.Join "加入群成功".
Definition useGroupLeave (c : nat) (msg : string) : MI unit :=
  group_command1 c msg "gl|群ID" "退出群失败" Leave "已退出群".
Definition useGroupDelete (c : nat) (msg : string) : MI unit :=
  group_command1 c msg "gd|群ID" "解散群失败" Delete "已解散群".
Definition useGroupKick (c : nat) (msg : string) : MI unit :=
  group_command2 c msg "gk|群ID|用户名" "踢人失败" Kick "踢人成功".
Definition useGroupGrantAdmin (c : nat) (msg : string) : MI unit :=
  group_command2 c msg "ga|群ID|用户名" "设管理员失败" GrantAdmin "设管理员成功".
Definition useGroupRevokeAdmin (c : nat) (msg : string) : MI unit :=
  group_command2 c msg "gr|群ID|用户名" "撤管理员失败" RevokeAdmin "撤管理员成功".

(** [Members] visits the member map in the order of this iteration. *)
Definition group_members (groupID : string) : MI (list string) := λ im,
  let (l, x) := Members groupID (groupManager (d_net im)) (sw_ext (d_store im)) in
  (l, mkDW (d_worker im) (mkSW (sw_mem (d_store im)) x) (d_net im)).

Definition useGroupMembers (c : nat) (msg : string) : MI unit :=
  let parts := SplitN msg pipe 2 in
  if negb (length parts =? 2)%nat || String.eqb (part parts 1) ""
  then send_msg c (line "命令格式错误，正确用法：gm|群ID")
  else
    let groupID := part parts 1 in
    members ← group_members groupID;
    match members with
    | [] => send_msg c (line ("群不存在或无成员: " +:+ groupID))
    | _ => send_msg c (line ("群成员(" +:+ groupID +:+ "): " +:+ GoStr.Join members ", "))
    end.

Definition useGroupTalk (c : nat) (msg : string) : MI unit :=
  let parts := SplitN msg pipe 3 in
  if negb (length parts =? 3)%nat || String.eqb (part parts 1) "" || String.eqb (part parts 2) ""
  then send_msg c (line "命令格式错误，正确用法：gt|群ID|消息")
  else
    let groupID := part parts 1 in
    let body := part parts 2 in
    u ← the_user c;
    g ← hub groupManager;
    if negb (RoleOf groupID (u_Name u) g).2 then send_msg c (line "发送失败: 你不在该群中。")
    else
      members ← group_members groupID;
      let recipients := List.filter (λ m, negb (String.eqb m (u_Name u))) members in
      cid ← fresh_client_id "gc-";
      r ← srv_ProcessSend
            (Some (mkMessage TypeSend cid "" ("group:" +:+ groupID) (u_Name u) "" 0 0 body 0))
            (Some recipients);
      match send_err r, existing r, saved r with
      | Some err, _, _ => send_msg c (line ("发送群消息失败: " +:+ Error err))
      | None, Some ex, _ => send_msg c (line ("群消息幂等命中: " +:+ ServerMsgID ex))
      | None, None, Some m =>
        srv_EnqueueServerMsg (ServerMsgID m);;
        send_msg c (line ("群消息已入队: " +:+ ServerMsgID m))
      | None, None, None => mret tt
      end.

Definition useIllegal (c : nat) (msg : string) : MI unit :=
  send_msg c (line ("非法指令：(" +:+ TrimSpace msg +:+ ") 命令不可识别!" +:+ newline +:+
                    "请使用 help 查看指令帮助。")).

(** * dispatch.go *)

(** A line that is no command is a message to nobody in particular. *)
Definition say (c : nat) (msg : string) : MI unit :=
  u ← the_user c;
  cid ← fresh_client_id "c-";
  r ← srv_ProcessSend (Some (mkMessage TypeSend cid "" "" (u_Name u) "" 0 0 msg 0)) None;
  match send_err r, existing r, saved r with
  | Some err, _, _ => send_msg c ("消息发送失败: " +:+ Error err)
  | None, Some ex, _ => send_json c (send_ack cid (ServerMsgID ex) (Seq ex))
  | None, None, Some m =>
    send_json c (send_ack cid (ServerMsgID m) (Seq m));; srv_EnqueueServerMsg (ServerMsgID m)
  | None, None, None => mret tt
  end.

(** The commands recognised by their prefix, in the order of the [switch]. *)
Definition prefix_commands : list (string * (nat → string → MI unit)) :=
  [("read|", useRead); ("history|", useHistory); ("gc|", useGroupCreate);
   ("gj|", useGroupJoin); ("gl|", useGroupLeave); ("gd|", useGroupDelete);
   ("gk|", useGroupKick); ("ga|", useGroupGrantAdmin); ("gr|", useGroupRevokeAdmin);
   ("gm|", useGroupMembers); ("gt|", useGroupTalk); ("rename|", useRename); ("to|", useChat)].

Fixpoint dispatch_prefix (cmds : list (string * (nat → string → MI unit))) (c : nat)
    (msg : string) : MI unit :=
  match cmds with
  | [] => if contains_byte pipe msg then useIllegal c msg else say c msg
  | (pre, use) :: cmds' => if HasPrefix msg pre then use c msg else dispatch_prefix cmds' c msg
  end.

Definition DoMessage (c : nat) (msg0 : string) : MI unit :=
  let msg := TrimSpace msg0 in
  if String.eqb msg "" then mret tt
  else if String.eqb msg "exit" then useExit c
  else if String.eqb msg "who" then useWho c
  else if String.eqb msg "help" then useHelp c
  else if String.eqb msg "stats" then useStats c
  else dispatch_prefix prefix_commands c msg.
End commands.
