(* ===== verification/Conn.v ===== *)
(** Connections (src/internal/server/conn.go, accept.go): reading lines off a connection,
    decoding, the authentication gate, and the life of a connection. *)
From S2P Require Import Prelude GoStr Utf8 Protocol StoreIface Limiter Logic Worker.
From S2P Require Import Storage Cache Dao Store StoreImpl Group Hub Server Session Commands.

(** * Reading lines *)

Definition MaxMessageLength : nat := 1024.

(** The default buffer size of [bufio.Reader]. *)
Definition buf_size : nat := 4096.

Definition lf : ascii := "010".
Definition cr : ascii := "013".

(** The first [n] bytes of a string, and the others. *)
Fixpoint split_at (n : nat) (s : string) : string * string :=
  match n, s with
  | S n', String c s' => let (a, b) := split_at n' s' in (String c a, b)
  | _, _ => (EmptyString, s)
  end.

(** A string without a final carriage return. *)
Fixpoint drop_cr (s : string) : string :=
  match s with
  | EmptyString => EmptyString
  | String c EmptyString => if Ascii.eqb c cr then EmptyString else s
  | String c s' => String c (drop_cr s')
  end.

Definition ends_cr (s : string) : bool := negb (String.eqb (drop_cr s) s).

(** [bufio.Reader.ReadLine] over the bytes that remain before the connection fails: the
    line or chunk, [isPrefix], and what remains; [None] is an error. A chunk without line end
    is handed out when it fills the buffer, a final carriage return being put back. *)
Definition ReadLine (s : string) : option (string * bool * string) :=
  let full :=
    if (buf_size <=? String.length s)%nat
    then let (chunk, rest) := split_at buf_size s in
         if ends_cr chunk then Some (drop_cr chunk, true, String cr rest)
         else Some (chunk, true, rest)
    else if String.eqb s "" then None
    else Some (s, false, "")
  in
  match cut lf s with
  | Some (l, rest) =>
    if (String.length l <? buf_size)%nat then Some (drop_cr l, false, rest) else full
  | None => full
  end.

Inductive read_result :=
  | ReadErr
  | ReadTooLong (rest : string)
  | ReadOk (raw rest : string).

(** [for isPrefix { reader.ReadLine() }]. *)
Fixpoint skip_line (fuel : nat) (s : string) : option string :=
  match fuel with
  | O => None
  | S fuel' =>
    match ReadLine s with
    | None => None
    | Some (_, true, rest) => skip_line fuel' rest
    | Some (_, false, rest) => Some rest
    end
  end.

(** The loop of [readRawLine]; [parts] are the chunks so far, joined. *)
Fixpoint read_chunks (fuel : nat) (parts : string) (s : string) : read_result :=
  match fuel with
  | O => ReadErr
  | S fuel' =>
    match ReadLine s with
    | None => ReadErr
    | Some (chunk, isPrefix, rest) =>
      let parts := parts +:+ chunk in
      if (MaxMessageLength <? String.length parts)%nat then
        if isPrefix : bool
        then match skip_line fuel rest with Some rest' => ReadTooLong rest' | None => ReadErr end
        else ReadTooLong rest
      else if isPrefix then read_chunks fuel' parts rest
      else ReadOk parts rest
    end
  end.

(** [readRawLine]: every call of [ReadLine] takes a byte at least, or fails. *)
Definition readRawLine (s : string) : read_result := read_chunks (S (String.length s)) "" s.

(** * Decoding *)

(** The GB18030 decoder of golang.org/x/text, a third-party package. *)
Class Gb18030 := gb_decode : string → option string.

Definition decodeInputText `{Gb18030} (b : string) : string :=
  if utf8_valid b then b
  else match gb_decode b with
       | Some out => if utf8_valid out then out else b
       | None => b
       end.

(** [strings.ToLower], as far as a comparison with an ASCII prefix can see: ASCII letters,
    and U+0130, whose lower case is the letter i. *)
Definition lower_ascii (c : ascii) : ascii :=
  if between 65 90 c then byte_of (code c + 32) else c.

Fixpoint ToLower (s : string) : string :=
  match s with
  | EmptyString => EmptyString
  | String c0 s1 =>
    match s1 with
    | String c1 s2 =>
      if between 196 196 c0 && between 176 176 c1 then String "i" (ToLower s2)
      else String (lower_ascii c0) (ToLower s1)
    | EmptyString => String (lower_ascii c0) EmptyString
    end
  end.

(** * Processing lines *)

Section conn.
Context `{GoEnv} {D R : Type} `{Gorm D} `{Redis R} `{Json} `{GoFmt} `{Bcrypt} `{Gb18030}.
Abbreviation MI := (M (IM (D := D) (R := R))).

(** Whether the line was handled, and whether it counted as a sign of life. *)
Definition handleAuthCommand (c : nat) (msgStr : string) : MI (bool * bool) :=
  let lower := ToLower msgStr in
  let parts := SplitN msgStr pipe 3 in
  if HasPrefix lower "register|" then
    if (length parts <? 3)%nat then
      send_msg c (line "注册格式错误，正确用法：register|用户名|密码");; mret (true, false)
    else
      err ← Register c (TrimSpace (default "" (parts !! 1%nat))) (default "" (parts !! 2%nat));
      match err with
      | Some e => send_msg c (line ("注册失败：" +:+ Error e));; mret (true, false)
      | None =>
        u ← the_user c;
        send_msg c (line ("注册并登录成功，欢迎：" +:+ u_Name u));; mret (true, true)
      end
  else if HasPrefix lower "login|" then
    if (length parts <? 3)%nat || String.eqb (part parts 2) "" then
      send_msg c (line "登录格式错误，正确用法：login|用户名|密码");; mret (true, false)
    else
      err ← Login c (part parts 1) (part parts 2);
      match err with
      | Some e => send_msg c (line ("登录失败：" +:+ Error e));; mret (true, false)
      | None =>
        u ← the_user c;
        send_msg c (line ("登录成功，欢迎回来：" +:+ u_Name u));; mret (true, true)
      end
  else
    send_msg c (line "请先注册或登录。注册: register|用户名|密码  登录: login|用户名|密码");;
    mret (true, false).

(** The line of an authenticated session: a JSON message or a command. *)
Definition process_command (c : nat) (msgStr : string) : MI bool :=
  if HasPrefix msgStr "{" then
    match json_message_parse msgStr with
    | inr pm => HandleMessage c pm;; mret true
    | inl err => send_msg c ("非法 JSON 协议: " +:+ Error err);; mret false
    end
  else DoMessage c msgStr;; mret true.

(** [processRawLine]; the result says whether [isLive] was signalled. *)
Definition processRawLine (c : nat) (raw : string) : MI bool :=
  let msgStr := TrimSpace (decodeInputText raw) in
  if String.eqb msgStr "" then mret false
  else
    hub_modify markInboundMessage;;
    u ← the_user c;
    if negb (Authenticated u) then
      r ← handleAuthCommand c msgStr;
      if r.1 : bool then mret r.2 else process_command c msgStr
    else process_command c msgStr.

Definition too_long_text : string :=
  "消息长度超限，最多 " +:+ itoa (Z.of_nat MaxMessageLength) +:+ " 字节，本条已丢弃。".

(** One turn of [ManagerMessage] over the bytes of the connection: what remains, or [None]
    when the goroutine ends. *)
Definition ManagerMessage_turn (c : nat) (s : string) : MI (option string) :=
  match readRawLine s with
  | ReadErr => Logout c;; mret None
  | ReadTooLong rest => send_msg c (line too_long_text);; mret (Some rest)
  | ReadOk raw rest => processRawLine c raw;; mret (Some rest)
  end.

(** The goroutine over all the bytes a client sends before the connection fails. *)
Fixpoint ManagerMessage (fuel : nat) (c : nat) (s : string) : MI unit :=
  match fuel with
  | O => mret tt
  | S fuel' =>
    r ← ManagerMessage_turn c s;
    match r with Some rest => ManagerMessage fuel' c rest | None => mret tt end
  end.

(** * The life of a connection *)

Definition set_active (delta : Z) (total : Z) (h : Hub) : Hub :=
  set_counters (wrapu64 (totalConnections h + total)) (rejectedConn h) (inboundMessages h)
    (outboundMessages h) (wrap64 (activeConn h + delta)) h.

(** [Handler] up to its loop: a new session is greeted. *)
Definition Handler_start (c : nat) (addr : string) : MI unit :=
  hub_modify (set_active 1 1);;
  hub_modify (λ h, set_sessions (<[c := NewUser addr]> (sessions h)) h);;
  send_msg c (line "欢迎，请先注册：register|用户名|密码 或 登录：login|用户名|密码").

(** The two ways out of its loop: the reader ended, or nothing was read for 300 seconds. *)
Definition Handler_done : MI unit := hub_modify (set_active (-1) 0).
Definition Handler_timeout (c : nat) : MI unit :=
  send_msg c (line "你被踢了!");; Logout c;; Handler_done.

(** One turn of [acceptLoop]: the connection is handed to [Handler], or refused with the
    text written to it. *)
Definition accept (c : nat) (addr : string) : MI (option string) :=
  λ im,
  let ip := parseIP (Some addr) in
  let '(ok, reason, (sec, w)) := allowConnection ip (security (d_net im), d_store im) in
  let im1 := mkDW (d_worker im) w (set_security sec (d_net im)) in
  if ok : bool then (Handler_start c addr;; mret None) im1
  else
    (hub_modify (λ h, set_counters (totalConnections h) (wrapu64 (rejectedConn h + 1))
                        (inboundMessages h) (outboundMessages h) (activeConn h) h);;
     mret (Some (line ("连接被拒绝: " +:+ reason)))) im1.
End conn.
