(* ===== verification/ReadProps.v ===== *)
(** Reading lines off a connection: the length limit and resynchronisation. *)
From S2P Require Import Prelude GoStr Protocol StoreIface Conn.

#[local] Arguments String.append : simpl nomatch.

Lemma split_at_spec n : ∀ s a b,
  split_at n s = (a, b) → s = a +:+ b ∧ String.length a = Nat.min n (String.length s).
Proof.
  induction n as [|n IH]; intros [|c s] a b; cbn; try by intros [= <- <-].
  destruct (split_at n s) as [a' b'] eqn:E. intros [= <- <-].
  destruct (IH s a' b' E) as [-> Hl]. cbn. by rewrite Hl.
Qed.

Lemma string_length_app a b : String.length (a +:+ b) = (String.length a + String.length b)%nat.
Proof. induction a as [|c a IH]; [done|]. cbn. f_equal. exact IH. Qed.

Lemma drop_cr_cons c c' s :
  drop_cr (String c (String c' s)) = String c (drop_cr (String c' s)).
Proof. done. Qed.

Lemma drop_cr_length s :
  (String.length (drop_cr s) <= String.length s <= S (String.length (drop_cr s)))%nat.
Proof.
  induction s as [|c [|c' s] IH]; [cbn; lia| |].
  - cbn. destruct (Ascii.eqb c cr); cbn; lia.
  - rewrite drop_cr_cons. cbn [String.length] in *. lia.
Qed.

Lemma drop_cr_spec s : ends_cr s = true → s = drop_cr s +:+ String cr EmptyString.
Proof.
  unfold ends_cr. induction s as [|c [|c' s] IH]; [done| |].
  - cbn. destruct (Ascii.eqb_spec c cr) as [->|]; [done|]. cbn. by rewrite Ascii.eqb_refl.
  - rewrite drop_cr_cons. cbn [String.eqb]. rewrite Ascii.eqb_refl. intros Hs.
    rewrite app_cons_string. f_equal. by apply IH.
Qed.

(** The line [l] followed by a line end and [rest]. *)
Definition terminated (l rest : string) : string := l +:+ String lf rest.

Lemma ReadLine_short l rest :
  contains_byte lf l = false → (String.length l < buf_size)%nat →
  ReadLine (terminated l rest) = Some (drop_cr l, false, rest).
Proof.
  intros Hl Hn. unfold ReadLine, terminated.
  rewrite (proj2 (cut_Some lf _ l rest)) by done.
  by rewrite (proj2 (Nat.ltb_lt _ _)) by done.
Qed.

(** A chunk of a long line: at least 4095 bytes, and the rest of the line is shorter. *)
Lemma ReadLine_long l rest :
  contains_byte lf l = false → (buf_size <= String.length l)%nat →
  ∃ chunk l', ReadLine (terminated l rest) = Some (chunk, true, terminated l' rest) ∧
    contains_byte lf l' = false ∧ (String.length l' < String.length l)%nat ∧
    (buf_size - 1 <= String.length chunk)%nat.
Proof.
  intros Hl Hn. unfold ReadLine, terminated.
  rewrite (proj2 (cut_Some lf _ l rest)) by done.
  rewrite (proj2 (Nat.ltb_ge _ _)) by done.
  assert (buf_size <=? String.length (l +:+ String lf rest) = true)%nat as ->
    by (apply Nat.leb_le; rewrite string_length_app; lia).
  destruct (split_at buf_size (l +:+ String lf rest)) as [chunk tail] eqn:E.
  assert (∃ l2, l = chunk +:+ l2 ∧ tail = l2 +:+ String lf rest ∧
                String.length chunk = buf_size) as (l2 & -> & -> & Hc).
  { clear Hl. revert l Hn E. generalize buf_size as n. revert tail.
    assert (∀ n l tail chunk, (n <= String.length l)%nat →
      split_at n (l +:+ String lf rest) = (chunk, tail) →
      ∃ l2, l = chunk +:+ l2 ∧ tail = l2 +:+ String lf rest ∧ String.length chunk = n) as Hs.
    { clear. induction n as [|n IH]; intros l tail chunk Hn Hs.
      - exists l. destruct l; cbn in Hs; by injection Hs as <- <-.
      - destruct l as [|c l]; [cbn in Hn; lia|]. cbn in Hn, Hs.
        change (l ++ String lf rest)%string with (l +:+ String lf rest) in Hs.
        destruct (split_at n (l +:+ String lf rest)) as [a b] eqn:E. injection Hs as <- <-.
        destruct (IH l b a ltac:(lia) E) as (l2 & -> & -> & Ha).
        exists l2. cbn. by rewrite Ha. }
    intros tail n l Hn E. by apply (Hs n l tail chunk). }
  rewrite contains_byte_app in Hl. apply orb_false_iff in Hl as [Hl1 Hl2].
  rewrite string_length_app in Hn |- *. pose proof (drop_cr_length chunk).
  assert (0 < buf_size)%nat as Hpos by (unfold buf_size; lia).
  destruct (ends_cr chunk) eqn:Ec.
  - exists (drop_cr chunk), (String cr l2). split; [done|].
    split_and!; [done| |lia]. cbn [String.length].
    pose proof (drop_cr_spec chunk Ec) as Hd. apply (f_equal String.length) in Hd.
    rewrite string_length_app in Hd. cbn in Hd.
    assert (1 < buf_size)%nat by (unfold buf_size; lia). lia.
  - exists chunk, l2. split_and!; [done|done|lia|lia].
Qed.

(** Skipping what remains of a line ends behind its line end. *)
Lemma skip_line_spec fuel l rest :
  contains_byte lf l = false → (String.length l < fuel)%nat →
  skip_line fuel (terminated l rest) = Some rest.
Proof.
  revert l. induction fuel as [|fuel IH]; intros l Hl Hf; [lia|]. cbn [skip_line].
  destruct (decide (String.length l < buf_size)%nat) as [Hn|Hn].
  - by rewrite ReadLine_short.
  - destruct (ReadLine_long l rest Hl ltac:(lia)) as (chunk & l' & -> & Hl' & Hlen & _).
    apply IH; [done|lia].
Qed.

(** A line that ends, and what follows it. *)
Lemma readRawLine_terminated l rest :
  contains_byte lf l = false →
  readRawLine (terminated l rest) =
    if (String.length (drop_cr l) <=? MaxMessageLength)%nat then ReadOk (drop_cr l) rest
    else ReadTooLong rest.
Proof.
  intros Hl. unfold readRawLine.
  assert (String.length l < S (String.length (terminated l rest)))%nat as Hf
    by (unfold terminated; rewrite string_length_app; lia).
  remember (S (String.length (terminated l rest))) as fuel eqn:Efuel. clear Efuel.
  destruct fuel as [|fuel]; [lia|]. cbn [read_chunks].
  destruct (decide (String.length l < buf_size)%nat) as [Hn|Hn].
  - rewrite ReadLine_short by done. change ("" +:+ drop_cr l) with (drop_cr l).
    destruct (Nat.ltb_spec MaxMessageLength (String.length (drop_cr l)));
      destruct (Nat.leb_spec (String.length (drop_cr l)) MaxMessageLength); done || lia.
  - destruct (ReadLine_long l rest Hl ltac:(lia)) as (chunk & l' & -> & Hl' & Hlen & Hc).
    change ("" +:+ chunk) with chunk. pose proof (drop_cr_length l).
    assert (MaxMessageLength < buf_size - 1)%nat by (unfold MaxMessageLength, buf_size; lia).
    rewrite (proj2 (Nat.ltb_lt _ _)) by lia. rewrite (proj2 (Nat.leb_gt _ _)) by lia.
    by rewrite skip_line_spec by (done || lia).
Qed.

(** Every line read takes at least a byte. *)
Lemma ReadLine_shorter s chunk p rest :
  ReadLine s = Some (chunk, p, rest) → (String.length rest < String.length s)%nat.
Proof.
  unfold ReadLine.
  set (full := if (buf_size <=? String.length s)%nat then _ else _).
  assert (full = Some (chunk, p, rest) → (String.length rest < String.length s)%nat) as Hfull.
  { subst full. destruct (Nat.leb_spec buf_size (String.length s)) as [Hb|_].
    - assert (1 < buf_size)%nat by (unfold buf_size; lia).
      destruct (split_at buf_size s) as [a b] eqn:E. apply split_at_spec in E as [-> Ha].
      rewrite string_length_app in *. destruct (ends_cr a); intros [= _ _ <-]; cbn; lia.
    - destruct (String.eqb_spec s "") as [|Hs]; [done|]. intros [= _ _ <-].
      destruct s; [done|cbn; lia]. }
  destruct (cut lf s) as [[l r]|] eqn:E; [|exact Hfull].
  destruct (_ <? _)%nat; [|exact Hfull]. intros [= _ _ <-].
  apply cut_Some in E as [-> _]. rewrite string_length_app. cbn. lia.
Qed.

Lemma skip_line_shorter fuel s rest :
  skip_line fuel s = Some rest → (String.length rest < String.length s)%nat.
Proof.
  revert s. induction fuel as [|fuel IH]; intros s; cbn [skip_line]; [done|].
  destruct (ReadLine s) as [[[chunk [|]] r]|] eqn:E; [|by intros [= <-]; eapply ReadLine_shorter|done].
  apply ReadLine_shorter in E. intros Hr%IH. lia.
Qed.

Lemma readRawLine_shorter s rest :
  readRawLine s = ReadTooLong rest ∨ (∃ raw, readRawLine s = ReadOk raw rest) →
  (String.length rest < String.length s)%nat.
Proof.
  unfold readRawLine. generalize (S (String.length s)) as fuel. generalize "" as parts.
  intros parts fuel. revert parts s. induction fuel as [|fuel IH]; intros parts s; cbn [read_chunks].
  { by intros [?|[? ?]]. }
  destruct (ReadLine s) as [[[chunk p] r]|] eqn:E; [|by intros [?|[? ?]]].
  apply ReadLine_shorter in E. destruct (_ <? _)%nat; destruct p.
  - destruct (skip_line (S fuel) r) as [r'|] eqn:Es; [apply skip_line_shorter in Es|];
      intros [Hr|[? Hr]]; simplify_eq; lia.
  - intros [Hr|[? Hr]]; simplify_eq; lia.
  - intros Hr%IH. lia.
  - intros [Hr|[? Hr]]; simplify_eq; lia.
Qed.

(** C37. The length limit: a line of at most 1024 bytes (without its line end, of either
    kind) is returned whole, a longer one is discarded whole - however long - and in both
    cases the reader stands at the start of the next line. *)
Theorem readRawLine_limits l rest :
  contains_byte lf l = false →
  readRawLine (terminated l rest) =
    if (String.length (drop_cr l) <=? MaxMessageLength)%nat then ReadOk (drop_cr l) rest
    else ReadTooLong rest.
Proof. apply readRawLine_terminated. Qed.

Lemma readRawLine_limits_witness :
  readRawLine (terminated ("hello" +:+ String cr EmptyString) "next") = ReadOk "hello" "next".
Proof. by apply (readRawLine_limits ("hello" +:+ String cr EmptyString) "next"). Defined.
