(* ===== verification/Config.v ===== *)
(** Start-up: environment files (src/internal/utils/env.go), the settings read from the
    environment (main.go, server/bootstrap.go, storage/db.go, cache/redis.go), connecting to
    the database and the cache, listening (server/start.go), and [main] up to the accept
    loop. *)
From S2P Require Import Prelude GoStr Protocol StoreIface Limiter Logic Worker.
From S2P Require Import Storage Cache Store StoreImpl Group Hub Server.

(** * Environment files *)

(** The longest line [bufio.Scanner] returns; a longer one ends the scan. *)
Definition max_token : nat := 65535.

(** The lines of a file: a final line end adds no line. *)
Definition file_lines (content : string) : list string :=
  let l := Split content "010" in
  match rev l with EmptyString :: r => rev r | _ => l end.

(** Lines up to the first that is too long. *)
Fixpoint scan (l : list string) : list string :=
  match l with
  | [] => []
  | x :: l' => if (String.length x <=? max_token)%nat then x :: scan l' else []
  end.

Definition quote_dbl : ascii := "034".
Definition quote_sgl : ascii := "'".

Definition last_char (s : string) : option ascii := String.get (String.length s - 1) s.

(** A value in matching quotes loses them. *)
Definition unquote (value : string) : string :=
  let quoted (q : ascii) :=
    bool_decide (String.get 0 value = Some q) && bool_decide (last_char value = Some q) in
  if (2 <=? String.length value)%nat && (quoted quote_dbl || quoted quote_sgl)
  then String.substring 1 (String.length value - 2) value
  else value.

(** [os.Setenv] fails, without effect, on a NUL byte. *)
Definition Setenv (k v : string) (env : gmap string string) : gmap string string :=
  if contains_byte "000" k || contains_byte "000" v then env else <[k := v]> env.

(** One line of the file. *)
Definition env_line (text : string) (env : gmap string string) : gmap string string :=
  let line := TrimSpace text in
  if String.eqb line "" || HasPrefix line "#" then env
  else
    let line := if HasPrefix line "export " then TrimSpace (TrimPrefix line "export ") else line in
    match SplitN line "=" 2 with
    | [k; v] =>
      let key := TrimSpace k in
      if String.eqb key "" then env
      else match env !! key with
           | Some _ => env
           | None => Setenv key (unquote (TrimSpace v)) env
           end
    | _ => env
    end.

Definition loadOneEnvFileIfUnset (content : option string) (env : gmap string string) :
    gmap string string :=
  match content with
  | None => env
  | Some text => foldl (λ env l, env_line l env) env (scan (file_lines text))
  end.

(** The files in order; [None] is a file that cannot be opened. *)
Definition LoadEnvFilesIfUnset (contents : list (option string)) (env : gmap string string) :
    gmap string string :=
  foldl (λ env c, loadOneEnvFileIfUnset c env) env contents.

(** * Settings *)

Definition env_get (k : string) (env : gmap string string) : string := default "" (env !! k).

(** A positive number, or the default. *)
Definition positive_or (v : string) (dflt : Z) : Z :=
  if String.eqb v "" then dflt
  else match Atoi v with Some n => if 0 <? n then n else dflt | None => dflt end.

(** A positive number of seconds, as a [time.Duration], or the default. *)
Definition seconds_or (v : string) (dflt : Z) : Z :=
  if String.eqb v "" then dflt
  else match Atoi v with
       | Some n => if 0 <? n then wrap64 (n * Second) else dflt
       | None => dflt
       end.

(** main.go. *)
Definition max_retry (env : gmap string string) : Z := positive_or (env_get "IM_MAX_RETRY" env) 5.
Definition retry_delay (env : gmap string string) : Z :=
  seconds_or (env_get "IM_RETRY_DELAY_SEC" env) (2 * Second).

(** bootstrap.go. *)
Definition conn_rate_window (env : gmap string string) : Z :=
  seconds_or (TrimSpace (env_get "IM_CONN_RATE_WINDOW_SEC" env)) (60 * Second).
Definition conn_rate_limit (env : gmap string string) : Z :=
  positive_or (TrimSpace (env_get "IM_CONN_RATE_LIMIT" env)) 30.

Definition default_dsn : string :=
  "root:secret@tcp(127.0.0.1:3306)/goim?charset=utf8mb4&parseTime=True&loc=Local".

(** [main] picks a data source name, and [InitDB] once more. *)
Definition main_dsn (env : gmap string string) : string :=
  let dsn := TrimSpace (env_get "IM_DB_DSN" env) in
  if String.eqb dsn "" then default_dsn else dsn.
Definition init_dsn (dsn : string) (env : gmap string string) : string :=
  let dsn := if String.eqb (TrimSpace dsn) "" then TrimSpace (env_get "IM_DB_DSN" env) else dsn in
  if String.eqb dsn "" then default_dsn else dsn.

(** * The program *)

Section boot.
Context `{GoEnv} {D R : Type} `{Gorm D} `{Redis R} `{Json}.

(** [NewServer], at time [now]. *)
Definition NewServer (env : gmap string string) (now : Z) : Hub :=
  mkHub ∅ 0 NewGroupManager
    (mkSec (loadBlacklist (env_get "IM_BLACKLIST_IPS" env)) (conn_rate_window env)
       (conn_rate_limit env) ∅)
    now 0 0 0 0 0 ∅ [].

(** [main] up to [s.Start()], once [InitDB] succeeded. *)
Definition main_setup (env_file : option string) (x : Ext D R) : IM (D := D) (R := R) :=
  let env := LoadEnvFilesIfUnset [env_file] (x_env x) in
  let x := set_env env x in
  let (now, x) := Now x in
  mkDW (NewWorker (max_retry env) (retry_delay env))
    (mkSW (NewInMemoryStore (x_dbinit x)) x) (NewServer env now).

(** What [Start] does between listening and the accept loop: the goroutines of the worker are
    started (they find nothing to do yet), and what was pending is recovered. *)
Definition Start_recovery : M (IM (D := D) (R := R)) unit := RecoverPendingDeliveries 2000.

(** ** Connecting *)

(** Opening the MySQL connection and migrating the tables, making a Redis client and pinging
    it: third-party code and services. *)
Class Dial := {
  gorm_open : string → error + D;
  auto_migrate : list model → M D (option error);
  redis_new_client : string → R;
  redis_ping : M R (option error)
}.
Context `{Dial}.

Definition AutoMigrate : M D (option error) :=
  auto_migrate [OfUser; OfMessage; OfMessageRecipient; OfRoom; OfGroupMember].

(** [InitDB]; the driver setting is only looked at to log that it is ignored. *)
Definition InitDB (dsn : string) (env : gmap string string) : error + D :=
  match gorm_open (init_dsn dsn env) with
  | inl err => inl err
  | inr d =>
    let (err, d') := AutoMigrate d in
    match err with Some err => inl err | None => inr d' end
  end.

(** [initClient]: [None] is a client left [nil], the error ends the process. *)
Definition initClient (env : gmap string string) : error + option R :=
  let addr := TrimSpace (env_get "IM_REDIS_ADDR" env) in
  if String.eqb addr "" then inr None
  else
    let (err, r) := redis_ping (redis_new_client addr) in
    match err with
    | Some err => inl (Err ("redis connection failed (" +:+ addr +:+ "): " +:+ Error err))
    | None => inr (Some r)
    end.

(** How the process comes out of its start: killed by [log.Fatalf], ended because [main]
    returned after printing a line, or serving. *)
Inductive outcome :=
  | Fatal (err : error)
  | Ended (printed : string)
  | Serving (im : IM (D := D) (R := R)).

Definition set_client (r : option R) (im : IM (D := D) (R := R)) : IM (D := D) (R := R) :=
  mkDW (d_worker im) (mkSW (sw_mem (d_store im)) (set_redis r (sw_ext (d_store im)))) (d_net im).

(** [Start] up to its accept loop; [listen] is the error of [net.Listen], if it fails.
    [cache.Client] runs [initClient] at its first call, which is one of the recovery's (the
    database was opened, so the store is not memory-only); nothing called it before. *)
Definition Start (listen : option error) (im : IM (D := D) (R := R)) : outcome :=
  match listen with
  | Some err => Ended ("启动失败: " +:+ Error err)
  | None =>
    match initClient (x_env (sw_ext (d_store im))) with
    | inl err => Fatal err
    | inr r => Serving (exec Start_recovery (set_client r im))
    end
  end.

(** [main], from the process environment. *)
Definition main (env_file : option string) (env : gmap string string) (listen : option error) :
    outcome :=
  let env1 := LoadEnvFilesIfUnset [env_file] env in
  match InitDB (main_dsn env1) env1 with
  | inl err => Fatal (Err ("init db failed: " +:+ Error err))
  | inr d => Start listen (main_setup env_file (mkExt 0 env true d None))
  end.
End boot.
