(* ===== verification/SessionFacts.v ===== *)
(** Who is online: what the operations of the program do to the online map and to the names
    and rights of the sessions. *)
From S2P Require Import Prelude GoStr Protocol StoreIface Limiter Logic Worker.
From S2P Require Import Storage Cache Dao Store StoreImpl Group Hub Server Session Commands Conn.

(** Name and authentication of every session. *)
Definition who (h : Hub) : gmap nat (string * bool) :=
  (λ u, (u_Name u, Authenticated u)) <$> sessions h.

(** The part of the state that says who is online. *)
Definition roster : Type := gmap string OnlineInfo * gmap nat (string * bool).
Definition roster_of (h : Hub) : roster := (OnlineMap h, who h).

(** Every entry of the online map leads to an authenticated session of that name. *)
Definition sound (r : roster) : Prop :=
  ∀ name info, r.1 !! name = Some info → name ≠ "" ∧ r.2 !! Sender info = Some (name, true).

(** * Changes of the roster *)

Lemma who_update c f h :
  who (update_session c f h) = alter (λ _, (λ u, (u_Name u, Authenticated u))
    (f (default (NewUser "") (sessions h !! c)))) c (who h).
Proof.
  unfold who, update_session. cbn. apply map_eq. intros i. rewrite lookup_fmap.
  destruct (decide (i = c)) as [->|Hi].
  - rewrite !lookup_alter_eq, lookup_fmap. by destruct (sessions h !! c).
  - by rewrite !lookup_alter_ne, lookup_fmap by done.
Qed.

Lemma who_update_same c f h :
  (∀ u, u_Name (f u) = u_Name u ∧ Authenticated (f u) = Authenticated u) →
  who (update_session c f h) = who h.
Proof.
  intros Hf. unfold who, update_session. cbn. apply map_eq. intros i. rewrite !lookup_fmap.
  destruct (decide (i = c)) as [->|Hi]; [|by rewrite lookup_alter_ne].
  rewrite lookup_alter_eq. destruct (sessions h !! c) as [u|]; [|done]. cbn.
  destruct (Hf u) as [-> ->]. done.
Qed.

Lemma SendMsg_roster c msg h : roster_of (SendMsg c msg h) = roster_of h.
Proof.
  unfold SendMsg. destruct (sessions h !! c) as [u|] eqn:E; [|done].
  destruct (isClosed u); [done|]. destruct (_ <? _)%nat; [|done].
  unfold roster_of. cbn. f_equal. unfold who. cbn. apply map_eq. intros i. rewrite !lookup_fmap.
  destruct (decide (i = c)) as [->|Hi]; [|by rewrite lookup_alter_ne].
  by rewrite lookup_alter_eq, E.
Qed.

(** A name leaves the online map; a session gets a name and rights; it enters the map. *)
Lemma sound_delete name om w : sound (om, w) → sound (delete name om, w).
Proof. intros Hs n i Hn. cbn in Hn. apply lookup_delete_Some in Hn as [_ Hn]. by apply Hs. Qed.

Lemma sound_rename c n b om w :
  sound (om, w) → (∀ name info, om !! name = Some info → Sender info ≠ c) →
  sound (om, alter (λ _, (n, b)) c w).
Proof.
  intros Hs Hc name info Hn. cbn. rewrite lookup_alter_ne; [by apply Hs|].
  intros E. by apply (Hc name info Hn).
Qed.

Lemma sound_insert name c addr om w :
  name ≠ "" → sound (om, w) → w !! c = Some (name, true) →
  sound (<[name := mkOnline c addr]> om, w).
Proof.
  intros Hname Hs Hc n i. cbn. rewrite lookup_insert_Some. intros [[<- <-]|[_ Hn]]; [done|].
  by apply Hs.
Qed.

(** No entry leads to a session that is not authenticated. *)
Lemma sound_unauthenticated c n om w :
  sound (om, w) → w !! c = Some (n, false) →
  ∀ name info, om !! name = Some info → Sender info ≠ c.
Proof.
  intros Hs Hc name info Hn <-. destruct (Hs name info Hn) as [_ Hw]. cbn in *. congruence.
Qed.

(** * Calm computations *)

Create HintDb calm discriminated.
#[export] Hint Constants Opaque : calm.

Section calm.
Context `{GoEnv} {D R : Type} `{Gorm D} `{Redis R} `{Json} `{GoFmt} `{Bcrypt} `{Gb18030}.
Abbreviation Prog := (IM (D := D) (R := R)).
Abbreviation MI := (M Prog).

Definition im_roster (im : Prog) : roster := roster_of (d_net im).

(** A computation that leaves the roster alone. *)
Abbreviation calm := (moves (on im_roster eq)).

Lemma calm_store {A} (m : M (SW D R) A) : calm (on_store m : MI A).
Proof. intros im. unfold exec, on_store, zoom, on. by destruct (m (d_store im)). Qed.
Lemma calm_worker f : calm (on_worker f : MI unit).
Proof. done. Qed.
Lemma calm_hub {A} (f : Hub → A) : calm (hub f : MI A).
Proof. done. Qed.
Lemma calm_hub_modify f : (∀ h, roster_of (f h) = roster_of h) → calm (hub_modify f : MI unit).
Proof. intros Hf im. unfold on, im_roster. cbn. by rewrite Hf. Qed.
Lemma calm_logic {A} (m : M (LogicService (SW D R)) A) : calm (on_logic m : MI A).
Proof. intros im. unfold exec, on_logic, on. by destruct (m _) as [a l]. Qed.
Lemma calm_groups {A} (m : GroupManager → A * GroupManager) : calm (on_groups m : MI A).
Proof. intros im. unfold exec, on_groups, on_net, zoom, on. by destruct (m _). Qed.
Lemma calm_members g : calm (group_members g : MI (list string)).
Proof. intros im. unfold exec, group_members, on. by destruct (Members _ _ _). Qed.
Lemma calm_send_msg c msg : calm (send_msg c msg : MI unit).
Proof. apply calm_hub_modify. intros h. apply SendMsg_roster. Qed.
Lemma calm_send_json c m : calm (send_json c m : MI unit).
Proof. apply calm_hub_modify. intros h. apply SendMsg_roster. Qed.
Lemma calm_user_json c m : calm (user_SendJSON c m : MI unit).
Proof. apply calm_hub_modify. intros h. apply SendMsg_roster. Qed.
Lemma calm_session c f :
  (∀ u, u_Name (f u) = u_Name u ∧ Authenticated (f u) = Authenticated u) →
  calm (on_session c f : MI unit).
Proof.
  intros Hf. apply calm_hub_modify. intros h. unfold roster_of. by rewrite who_update_same.
Qed.
Lemma calm_world {A} (m : M (Ext D R) A) : calm (world m : MI A).
Proof. apply calm_store. Qed.
Lemma calm_gets {A} (f : Prog → A) : calm (gets f).
Proof. done. Qed.

Hint Resolve calm_store calm_worker calm_hub calm_logic calm_groups calm_members
  calm_send_msg calm_send_json calm_user_json calm_world calm_gets : calm.

Ltac calm_leaf := eauto with calm; try (by apply calm_session; intros []).
Ltac calm_tac := moves_tac calm_leaf.

Lemma calm_enqueue_all ids : calm (enqueue_all ids : MI unit).
Proof. unfold enqueue_all. calm_tac. Qed.
Hint Resolve calm_enqueue_all : calm.
Lemma calm_enqueue_pending n l : calm (srv_EnqueuePendingForUser n l : MI unit).
Proof. unfold srv_EnqueuePendingForUser, EnqueuePendingForUser. calm_tac. Qed.
Lemma calm_ListOnlineUsers : calm (ListOnlineUsers : MI _).
Proof. unfold ListOnlineUsers. calm_tac. Qed.
Lemma calm_others x : calm (others_online x : MI _).
Proof. unfold others_online. calm_tac. Qed.
Lemma calm_enqueue i : calm (srv_EnqueueServerMsg i : MI unit).
Proof. apply calm_worker. Qed.
Hint Resolve calm_enqueue_pending calm_ListOnlineUsers calm_others calm_enqueue : calm.
Lemma calm_broadcast b e : calm (BroadcastSystemEvent b e : MI _).
Proof. unfold BroadcastSystemEvent. calm_tac. Qed.
Lemma the_user_eval c (im : Prog) u : sessions (d_net im) !! c = Some u →
  the_user c im = (u, im).
Proof. intros Hu. unfold the_user, hub, gets. by rewrite Hu. Qed.

Lemma calm_the_user c : calm (the_user c : MI _).
Proof. done. Qed.
Lemma calm_name_online n : calm (name_online n : MI _).
Proof. unfold name_online. calm_tac. Qed.
Hint Resolve calm_broadcast calm_the_user calm_name_online : calm.
Lemma calm_start_heartbeat c : calm (startOnlineHeartbeat c : MI unit).
Proof. unfold startOnlineHeartbeat. calm_tac. Qed.
Lemma calm_stop_heartbeat c : calm (stopOnlineHeartbeat c : MI unit).
Proof. unfold stopOnlineHeartbeat. calm_tac. Qed.
Hint Resolve calm_start_heartbeat calm_stop_heartbeat : calm.
Lemma calm_process_send q r : calm (srv_ProcessSend q r : MI _).
Proof. apply calm_logic. Qed.
Lemma calm_client_id p : calm (fresh_client_id p : MI _).
Proof. unfold fresh_client_id. calm_tac. Qed.
Lemma calm_history a b n : calm (srv_GetC2CHistory a b n : MI _).
Proof. apply calm_store. Qed.
Lemma calm_read_ack a b : calm (srv_HandleReadAck a b : MI _).
Proof. apply calm_logic. Qed.
Lemma calm_stats : calm (SnapshotStats : MI _).
Proof. unfold SnapshotStats. calm_tac. Qed.
Hint Resolve calm_process_send calm_client_id calm_history calm_read_ack calm_stats : calm.

Lemma calm_HandleMessage c m : calm (HandleMessage c m : MI unit).
Proof. unfold HandleMessage, HandleClientSend. calm_tac. Qed.
Lemma calm_who_cmd c : calm (useWho c : MI unit).
Proof. unfold useWho. calm_tac. Qed.
Lemma calm_useStats c : calm (useStats c : MI unit).
Proof. unfold useStats, SnapshotStatsText. calm_tac. Qed.
Lemma calm_useChat c m : calm (useChat c m : MI unit).
Proof. unfold useChat. calm_tac. Qed.
Lemma calm_useRead c m : calm (useRead c m : MI unit).
Proof. unfold useRead. calm_tac. Qed.
Lemma calm_useHistory c m : calm (useHistory c m : MI unit).
Proof. unfold useHistory. calm_tac. Qed.
Lemma calm_group1 c m a b op d : calm (group_command1 c m a b op d : MI unit).
Proof. unfold group_command1. calm_tac. Qed.
Lemma calm_group2 c m a b op d : calm (group_command2 c m a b op d : MI unit).
Proof. unfold group_command2. calm_tac. Qed.
Lemma calm_useGroupMembers c m : calm (useGroupMembers c m : MI unit).
Proof. unfold useGroupMembers. calm_tac. Qed.
Lemma calm_useGroupTalk c m : calm (useGroupTalk c m : MI unit).
Proof. unfold useGroupTalk. calm_tac. Qed.
Lemma calm_say c m : calm (say c m : MI unit).
Proof. unfold say. calm_tac. Qed.
Hint Resolve calm_HandleMessage calm_who_cmd calm_useStats calm_useChat calm_useRead
  calm_useHistory calm_group1 calm_group2 calm_useGroupMembers calm_useGroupTalk calm_say : calm.

(** * Operations that change the roster *)

(** Assertions about the roster. *)
Definition authenticated (c : nat) (r : roster) : Prop :=
  sound r ∧ ∃ n, r.2 !! c = Some (n, true).
Definition anonymous (c : nat) (r : roster) : Prop :=
  sound r ∧ ∃ n, r.2 !! c = Some (n, false).

Lemma calm_hoare {A} (P : roster → Prop) (m : MI A) :
  calm m → hoare (λ im, P (im_roster im)) m (λ _ im, P (im_roster im)).
Proof. apply hoare_frame. Qed.

(** What a session knows about itself. *)
Lemma the_user_hoare (P : roster → Prop) c :
  hoare (λ im, P (im_roster im)) (the_user c)
    (λ u im, P (im_roster im) ∧
       ∀ n b, (im_roster im).2 !! c = Some (n, b) → u_Name u = n ∧ Authenticated u = b).
Proof.
  intros im HP. split; [done|]. unfold the_user, hub, im_roster, roster_of, who, eval, gets. cbn.
  intros n b Hw. rewrite lookup_fmap in Hw. destruct (sessions (d_net im) !! c); [|done].
  cbn in *. by simplify_eq.
Qed.

Lemma RegisterOnline_hoare name c addr :
  hoare (λ im, sound (im_roster im) ∧ (im_roster im).2 !! c = Some (name, true))
    (RegisterOnline name (Some c) addr) (λ _ im, sound (im_roster im)).
Proof.
  intros im [Hs Hc]. unfold RegisterOnline. destruct (String.eqb_spec name ""); [done|].
  by apply sound_insert.
Qed.

Lemma UnregisterOnline_hoare name :
  hoare (λ im, sound (im_roster im)) (UnregisterOnline name) (λ _ im, sound (im_roster im)).
Proof.
  intros im Hs. unfold UnregisterOnline. destruct (String.eqb name ""); [done|].
  by apply sound_delete.
Qed.

Lemma Online_hoare c :
  hoare (λ im, authenticated c (im_roster im)) (Online c) (λ _ im, sound (im_roster im)).
Proof.
  unfold Online. eapply hoare_bind; [apply the_user_hoare|]. intros u. cbn.
  eapply hoare_bind.
  { eapply hoare_weaken; [apply (RegisterOnline_hoare (u_Name u) c)| |done].
    intros im ([Hs [n Hn]] & Hu). by destruct (Hu n true Hn) as [-> _]. }
  intros ?. apply (calm_hoare sound). calm_tac.
Qed.

Lemma Logout_hoare c :
  hoare (λ im, sound (im_roster im)) (Logout c) (λ _ im, sound (im_roster im)).
Proof.
  unfold Logout, Offline, Close. apply (hoare_frame_bind im_roster sound); [calm_tac|].
  intros u. destruct (loggedOut u); [by apply hoare_ret|].
  apply (hoare_frame_bind im_roster sound); [calm_tac|intros _].
  eapply hoare_bind.
  - apply (hoare_frame_bind im_roster sound); [calm_tac|intros _].
    apply (hoare_frame_bind im_roster sound); [calm_tac|intros v].
    eapply hoare_bind; [apply UnregisterOnline_hoare|intros ?].
    apply (calm_hoare sound). calm_tac.
  - intros ?. apply (calm_hoare sound). calm_tac.
Qed.

Lemma enter_hoare c name :
  hoare (λ im, anonymous c (im_roster im)) (enter c name) (λ _ im, sound (im_roster im)).
Proof.
  unfold enter. eapply hoare_bind; [|intros ?; apply Online_hoare].
  intros im [Hs [n Hn]]. unfold im_roster, roster_of in *. cbn -[update_session] in *.
  rewrite who_update. split.
  - apply sound_rename; [done|]. by eapply sound_unauthenticated.
  - exists name. cbn. rewrite lookup_alter_eq, Hn. done.
Qed.

Lemma Register_hoare c name pw :
  hoare (λ im, anonymous c (im_roster im)) (Register c name pw)
    (λ _ im, sound (im_roster im)).
Proof.
  assert (∀ e : option error, hoare (λ im, anonymous c (im_roster im)) (mret e)
    (λ _ im, sound (im_roster im))) as Hret by (intros e; by apply hoare_ret; intros im []).
  unfold Register. destruct (_ || _); [apply Hret|].
  apply (hoare_frame_bind im_roster (anonymous c)); [calm_tac|intros [|]; [apply Hret|]].
  apply (hoare_frame_bind im_roster (anonymous c)); [calm_tac|intros [_|u]; [|apply Hret]].
  apply (hoare_frame_bind im_roster (anonymous c)); [calm_tac|intros x].
  destruct (bc_hash _ _); [apply Hret|].
  apply (hoare_frame_bind im_roster (anonymous c)); [calm_tac|intros [e|]; [apply Hret|]].
  eapply hoare_bind; [apply enter_hoare|intros ?]. by apply hoare_ret.
Qed.

Lemma Login_hoare c name pw :
  hoare (λ im, anonymous c (im_roster im)) (Login c name pw) (λ _ im, sound (im_roster im)).
Proof.
  assert (∀ e : option error, hoare (λ im, anonymous c (im_roster im)) (mret e)
    (λ _ im, sound (im_roster im))) as Hret by (intros e; by apply hoare_ret; intros im []).
  unfold Login. destruct (String.eqb _ _); [apply Hret|].
  apply (hoare_frame_bind im_roster (anonymous c)); [calm_tac|intros [_|u]; [apply Hret|]].
  destruct (negb _); [apply Hret|].
  apply (hoare_frame_bind im_roster (anonymous c)); [calm_tac|intros [|]; [apply Hret|]].
  eapply hoare_bind; [apply enter_hoare|intros ?]. apply (calm_hoare sound). calm_tac.
Qed.

(** No entry leads to a session. *)
Definition unlisted (c : nat) (r : roster) : Prop :=
  ∀ name info, r.1 !! name = Some info → Sender info ≠ c.

Lemma leave_hoare c u :
  hoare (λ im, authenticated c (im_roster im) ∧
           ∀ n b, (im_roster im).2 !! c = Some (n, b) → u_Name u = n ∧ Authenticated u = b)
    (UnregisterOnline (u_Name u))
    (λ _ im, authenticated c (im_roster im) ∧ unlisted c (im_roster im)).
Proof.
  intros im ([Hs [n Hn]] & Hu). destruct (Hu n true Hn) as [<- _].
  unfold UnregisterOnline, authenticated, unlisted. destruct (String.eqb_spec (u_Name u) "").
  - split; [eauto|]. intros name info Hi <-. destruct (Hs name info Hi). cbn in *. congruence.
  - split; [split; [by apply sound_delete|by eexists]|]. cbn. intros name info Hi <-.
    apply lookup_delete_Some in Hi as [Hne Hi]. destruct (Hs name info Hi). cbn in *. congruence.
Qed.

Lemma set_Name_hoare c new :
  hoare (λ im, authenticated c (im_roster im) ∧ unlisted c (im_roster im))
    (on_session c (set_Name new))
    (λ _ im, sound (im_roster im) ∧ (im_roster im).2 !! c = Some (new, true)).
Proof.
  intros im [[Hs [n Hn]] Hc]. unfold im_roster, roster_of in *. cbn -[update_session] in *.
  rewrite who_update. unfold who in Hn. rewrite lookup_fmap in Hn.
  destruct (sessions (d_net im) !! c) as [u|] eqn:E; [|done]. cbn in *. simplify_eq.
  match goal with E : Authenticated _ = true |- _ => rewrite E end. split; [by apply sound_rename|].
  rewrite lookup_alter_eq. unfold who. by rewrite lookup_fmap, E.
Qed.

(** Renaming: the old entry goes, the session changes its name, the new entry comes. *)
Lemma useRename_hoare c msg :
  hoare (λ im, authenticated c (im_roster im)) (useRename c msg)
    (λ _ im, sound (im_roster im)).
Proof.
  assert (∀ t, hoare (λ im, authenticated c (im_roster im)) (send_msg c t)
    (λ _ im, sound (im_roster im))) as Hsend.
  { intros t. eapply hoare_weaken; [apply (calm_hoare (authenticated c)); calm_tac|done|].
    by intros _ im []. }
  unfold useRename. destruct (_ || _); [apply Hsend|]. destruct (_ <? _)%nat; [apply Hsend|].
  destruct (ContainsAny _ _); [apply Hsend|].
  set (new := part _ 1). eapply hoare_bind; [apply the_user_hoare|intros u]. cbn.
  eapply hoare_bind; [apply leave_hoare|intros ?].
  eapply hoare_bind; [apply set_Name_hoare|intros ?].
  eapply hoare_bind; [apply RegisterOnline_hoare|intros ?].
  apply (calm_hoare sound). calm_tac.
Qed.
End calm.
