(* ===== verification/Program.v ===== *)
(** The running program: its steps, and the elementary changes of the hub every step is made
    of. A step is one handler, one turn of a goroutine's loop or one tick of a timer. *)
From S2P Require Import Prelude GoStr Protocol StoreIface Limiter Logic LogicFacts Worker.
From S2P Require Import Storage Cache Dao Store StoreImpl Group Hub Server Session Commands Conn.
From S2P Require Import Config.

(** * Elementary changes of the hub *)

(** The groups change as [G] allows. *)
Inductive hub_change `{Json} (G : relation GroupManager) : relation Hub :=
  | hc_send c msg h : hub_change G h (SendMsg c msg h)
  | hc_take c h : hub_change G h (update_session c drop_first h)
  | hc_write c l h : hub_change G h (update_session c (write_out l) h)
  | hc_stop c h : hub_change G h (update_session c stop_writing h)
  | hc_heartbeat c k h : hub_change G h (update_session c (set_heartbeat k) h)
  | hc_rename c n h : hub_change G h (update_session c (set_Name n) h)
  | hc_enter c n h : hub_change G h (update_session c (λ u, set_Authenticated true (set_Name n u)) h)
  | hc_loggedOut c h : hub_change G h (update_session c set_loggedOut h)
  | hc_close c h : hub_change G h (update_session c set_isClosed h)
  | hc_connect c addr h : sessions h !! c = None →
      hub_change G h (set_sessions (<[c := NewUser addr]> (sessions h)) h)
  | hc_online name c addr h : name ≠ "" →
      hub_change G h (set_OnlineMap (<[name := mkOnline c addr]> (OnlineMap h)) h)
  | hc_offline name h : hub_change G h (set_OnlineMap (delete name (OnlineMap h)) h)
  | hc_groups g h : G (groupManager h) g → hub_change G h (set_groupManager g h)
  | hc_ids n h : hub_change G h (set_idCounter n h)
  | hc_security s h : hub_change G h (set_security s h)
  | hc_counters a b i o n h : hub_change G h (set_counters a b i o n h)
  | hc_logouts l h : hub_change G h (set_logouts l h).

Create HintDb changes discriminated.
#[export] Hint Constants Opaque : changes.

Section program.
Context `{GoEnv} {D R : Type} `{Gorm D} `{Redis R} `{Json} `{GoFmt} `{Bcrypt} `{Gb18030}.
Abbreviation Prog := (IM (D := D) (R := R)).
Abbreviation MI := (M Prog).

(** * Steps *)

Inductive prog_step : relation Prog :=
  (** A connection arrives; its number is new. *)
  | step_accept c addr im : sessions (d_net im) !! c = None →
      prog_step im (exec (accept c addr) im)
  (** A turn of the reader of a session, over what its connection holds. *)
  | step_read c s im : is_Some (sessions (d_net im) !! c) →
      prog_step im (exec (ManagerMessage_turn c s) im)
  (** A turn of the writer of a session. *)
  | step_write c o im : prog_step im (exec (ListenMessage c o) im)
  (** The main loop of a session ends. *)
  | step_timeout c im : prog_step im (exec (Handler_timeout c) im)
  | step_done im : prog_step im (exec Handler_done im)
  (** Background work: heartbeats, started logouts, delivery and retries. *)
  | step_heartbeat c im : prog_step im (exec (heartbeat_tick c) im)
  | step_logout im : prog_step im (exec run_logout im)
  | step_deliver im : prog_step im (exec deliver_next im)
  | step_retry im : prog_step im (exec retry_tick im).

(** What the program reaches after [main] has set it up. *)
Definition reachable (env_file : option string) (x : Ext D R) (im : Prog) : Prop :=
  rtc prog_step (exec Start_recovery (main_setup env_file x)) im.

(** * Computations made of elementary changes *)

(** A relation on the store and the world it reaches that every call of the program on them
    respects; [ext] marks what goes to the world directly. *)
Class StoreRespects (SR : relation (SW D R)) : Prop := {
  sr_preorder :: PreOrder SR;
  sr_NextSeq c : moves SR (NextSeq c);
  sr_Save m r : moves SR (SaveMessageWithRecipients m r);
  sr_ByClient f c : moves SR (GetMessageByClientID f c);
  sr_ByServer i : moves SR (GetMessageByServerID i);
  sr_Recipients i : moves SR (GetRecipients i);
  sr_Sent i t e : moves SR (MarkDeliverySent i t e);
  sr_Acked i t : moves SR (MarkDeliveryAcked i t);
  sr_Read i t : moves SR (MarkDeliveryRead i t);
  sr_Retry i t e a b : moves SR (ScheduleRetry i t e a b);
  sr_Due n : moves SR (GetDueRetryServerMsgIDs n);
  sr_Stats : moves SR DeliveryStats;
  sr_Recover n : moves SR (RecoverPendingServerMsgIDs n);
  sr_Pending u n : moves SR (ListPendingServerMsgIDsByUser u n);
  sr_History a b n : moves SR (GetC2CHistory a b n);
  sr_gets {A} (f : Ext D R → A) : moves SR (ext (gets f));
  sr_Now : moves SR (ext Now);
  sr_range {V} (m : gmap string V) : moves SR (ext (range_map m));
  sr_set_online n v t : moves SR (ext (cache_set (OnlineKey n) v t));
  sr_del_online n : moves SR (ext (cache_del (OnlineKey n)));
  sr_GetUser n : moves SR (ext (GetUserByName n));
  sr_CreateUser n t pw h : bc_hash t pw = inr h →
    moves SR (ext (CreateUser (Some (mkUser 0 n h "" "" 0 0 0))));
  sr_Status n s : moves SR (ext (UpdateUserStatus n s))
}.

Definition im_hub (im : Prog) : Hub := d_net im.

(** Elementary changes of the hub, and what [SR] allows of the store. *)
Definition im_change (G : relation GroupManager) (SR : relation (SW D R)) : relation Prog :=
  λ im im', rtc (hub_change G) (d_net im) (d_net im') ∧ SR (d_store im) (d_store im').

#[export] Instance im_change_preorder G SR `{!PreOrder SR} : PreOrder (im_change G SR).
Proof.
  split; [intros im; by split|]. intros im1 im2 im3 [Ha Hb] [Hc Hd].
  split; by etrans.
Qed.

Section changes.
Context (G : relation GroupManager) (SR : relation (SW D R)) `{HSR : !StoreRespects SR}.
Abbreviation changes := (moves (im_change G SR)).

(** ** Calls on the store *)

Create HintDb respects discriminated.
#[export] Hint Constants Opaque : respects.
#[local] Hint Resolve sr_NextSeq sr_Save sr_ByClient sr_Sent sr_Stats sr_History sr_gets sr_Now
  sr_range sr_set_online sr_del_online sr_GetUser sr_CreateUser sr_Status : respects.

Lemma st_NextSeq_ok c : moves SR (st_NextSeq c).
Proof. apply sr_NextSeq. Qed.
Lemma st_Save_ok m r : moves SR (st_SaveMessageWithRecipients m r).
Proof. apply sr_Save. Qed.
Lemma st_ByClient_ok f c : moves SR (st_GetMessageByClientID f c).
Proof. apply sr_ByClient. Qed.
Lemma st_ByServer_ok i : moves SR (st_GetMessageByServerID i).
Proof. apply sr_ByServer. Qed.
Lemma st_Recipients_ok i : moves SR (st_GetRecipients i).
Proof. apply sr_Recipients. Qed.
Lemma st_Sent_ok i t e : moves SR (st_MarkDeliverySent i t e).
Proof. apply sr_Sent. Qed.
Lemma st_Acked_ok i t : moves SR (st_MarkDeliveryAcked i t).
Proof. apply sr_Acked. Qed.
Lemma st_Read_ok i t : moves SR (st_MarkDeliveryRead i t).
Proof. apply sr_Read. Qed.
Lemma st_Retry_ok i t e a b : moves SR (st_ScheduleRetry i t e a b).
Proof. apply sr_Retry. Qed.
Lemma st_Due_ok n : moves SR (st_GetDueRetryServerMsgIDs n).
Proof. apply sr_Due. Qed.
Lemma st_Recover_ok n : moves SR (st_RecoverPendingServerMsgIDs n).
Proof. apply sr_Recover. Qed.
Lemma st_Pending_ok u n : moves SR (st_ListPendingServerMsgIDsByUser u n).
Proof. apply sr_Pending. Qed.
Lemma clock_ok : moves SR clock.
Proof. apply sr_Now. Qed.
#[local] Hint Resolve st_NextSeq_ok st_Save_ok st_ByClient_ok st_ByServer_ok st_Recipients_ok
  st_Sent_ok st_Acked_ok st_Read_ok st_Retry_ok st_Due_ok st_Recover_ok st_Pending_ok clock_ok
  : respects.

(** ** Calls on the logic service *)

Abbreviation logic_ok := (moves (on l_store SR)).
Lemma lg_call {A} (m : M (SW D R) A) : moves SR m → logic_ok (l_call m).
Proof. intros Hm l. specialize (Hm (l_store l)). unfold on, exec. by rewrite l_call_spec. Qed.
Lemma lg_id : logic_ok next_id.
Proof. intros l. unfold on, exec, next_id. cbn. reflexivity. Qed.
#[local] Hint Resolve lg_call lg_id : respects.
Ltac lg_tac := moves_tac ltac:(eauto with respects).
Lemma lg_generate p : logic_ok (GenerateServerMsgID p).
Proof. unfold GenerateServerMsgID. lg_tac. Qed.
#[local] Hint Resolve lg_generate : respects.
Lemma lg_send q r : logic_ok (ProcessSend q r).
Proof. unfold ProcessSend, with_client_id, send_new. lg_tac. Qed.
Lemma lg_deliver_ack u i : logic_ok (HandleDeliverAck u i).
Proof. unfold HandleDeliverAck. lg_tac. Qed.
Lemma lg_read_ack u i : logic_ok (HandleReadAck u i).
Proof. unfold HandleReadAck. lg_tac. Qed.
#[local] Hint Resolve lg_send lg_deliver_ack lg_read_ack : respects.

(** ** The pieces of the handlers *)

Lemma ch_store {A} (m : M (SW D R) A) : moves SR m → changes (on_store m : MI A).
Proof.
  intros Hm im. specialize (Hm (d_store im)). revert Hm. unfold im_change, exec, on_store, zoom.
  by destruct (m (d_store im)).
Qed.
Lemma ch_worker f : changes (on_worker f : MI unit).
Proof. intros im. unfold im_change. by cbn. Qed.
Lemma ch_gets {A} (f : Prog → A) : changes (gets f).
Proof. intros im. unfold im_change. by cbn. Qed.
Lemma ch_hub {A} (f : Hub → A) : changes (hub f : MI A).
Proof. apply ch_gets. Qed.
Lemma ch_hub_modify f : (∀ h, hub_change G h (f h)) → changes (hub_modify f : MI unit).
Proof. intros Hf im. split; [apply rtc_once, Hf|by cbn]. Qed.
Lemma ch_world {A} (m : M (Ext D R) A) : moves SR (ext m) → changes (world m : MI A).
Proof. apply ch_store. Qed.
Lemma ch_logic {A} (m : M (LogicService (SW D R)) A) : logic_ok m → changes (on_logic m : MI A).
Proof.
  intros Hm im. specialize (Hm (mkLogic (h_idCounter (d_net im)) (d_store im))). revert Hm.
  unfold im_change, exec, on_logic, on. destruct (m _) as [a l].
  split; [apply rtc_once, hc_ids|done].
Qed.
Lemma ch_groups {A} (m : GroupManager → A * GroupManager) :
  (∀ g, G g (m g).2) → changes (on_groups m : MI A).
Proof.
  intros Hm im. unfold im_change, exec, on_groups, on_net, zoom.
  specialize (Hm (groupManager (d_net im))). destruct (m _) as [a g].
  split; [by apply rtc_once, hc_groups|by cbn].
Qed.
Lemma ch_members g : changes (group_members g : MI (list string)).
Proof.
  intros im. pose proof (sr_range (match groups (groupManager (d_net im)) !! TrimSpace g with
    Some gr => g_Members gr | None => ∅ end) (d_store im)) as Hr. revert Hr.
  unfold im_change, exec, group_members, Members, ext, range_map. munfold.
  destruct (groups _ !! TrimSpace g); cbn; [by split|]. intros _. destruct im as [w [m x] n].
  by cbn.
Qed.
Lemma ch_send c msg : changes (send_msg c msg : MI unit).
Proof. apply ch_hub_modify. intros h. apply hc_send. Qed.
Lemma ch_send_json c m : changes (send_json c m : MI unit).
Proof. apply ch_hub_modify. intros h. apply hc_send. Qed.
Lemma ch_user_json c m : changes (user_SendJSON c m : MI unit).
Proof. apply ch_hub_modify. intros h. apply hc_send. Qed.
Lemma ch_take c : changes (on_session c drop_first : MI unit).
Proof. apply ch_hub_modify. intros h. apply hc_take. Qed.
Lemma ch_write c l : changes (on_session c (write_out l) : MI unit).
Proof. apply ch_hub_modify. intros h. apply hc_write. Qed.
Lemma ch_stop c : changes (on_session c stop_writing : MI unit).
Proof. apply ch_hub_modify. intros h. apply hc_stop. Qed.
Lemma ch_heartbeat c k : changes (on_session c (set_heartbeat k) : MI unit).
Proof. apply ch_hub_modify. intros h. apply hc_heartbeat. Qed.
Lemma ch_rename c n : changes (on_session c (set_Name n) : MI unit).
Proof. apply ch_hub_modify. intros h. apply hc_rename. Qed.
Lemma ch_enter_name c n :
  changes (on_session c (λ u, set_Authenticated true (set_Name n u)) : MI unit).
Proof. apply ch_hub_modify. intros h. apply hc_enter. Qed.
Lemma ch_logged_out c : changes (on_session c set_loggedOut : MI unit).
Proof. apply ch_hub_modify. intros h. apply hc_loggedOut. Qed.
Lemma ch_close c : changes (Close c : MI unit).
Proof. apply ch_hub_modify. intros h. apply hc_close. Qed.
Lemma ch_inbound : changes (hub_modify markInboundMessage : MI unit).
Proof. apply ch_hub_modify. intros h. apply hc_counters. Qed.
Lemma ch_active a b : changes (hub_modify (set_active a b) : MI unit).
Proof. apply ch_hub_modify. intros h. apply hc_counters. Qed.
Lemma ch_logouts l : changes (hub_modify (set_logouts l) : MI unit).
Proof. apply ch_hub_modify. intros h. apply hc_logouts. Qed.
Lemma ch_online name o addr : changes (RegisterOnline name o addr : MI unit).
Proof.
  unfold RegisterOnline. destruct o as [c|]; [|apply moves_ret, _].
  destruct (String.eqb_spec name ""); [apply moves_ret, _|].
  apply ch_hub_modify. intros h. by apply hc_online.
Qed.
Lemma ch_offline name : changes (UnregisterOnline name : MI unit).
Proof.
  unfold UnregisterOnline. destruct (String.eqb name ""); [apply moves_ret, _|].
  apply ch_hub_modify. intros h. apply hc_offline.
Qed.

#[local] Hint Resolve ch_store ch_worker ch_gets ch_hub ch_world ch_logic ch_members
  ch_send ch_send_json ch_user_json ch_take ch_write ch_stop ch_heartbeat ch_rename ch_enter_name ch_logged_out
  ch_close ch_inbound ch_active ch_logouts ch_online ch_offline : changes.

Ltac ch_tac :=
  moves_tac ltac:(first [solve [eauto with changes respects] | solve [apply ch_groups; auto]]).

Lemma ch_enqueue_all ids : changes (enqueue_all ids : MI unit).
Proof. unfold enqueue_all. ch_tac. Qed.
#[local] Hint Resolve ch_enqueue_all : changes.
Lemma ch_broadcast b e : changes (BroadcastSystemEvent b e : MI _).
Proof.
  unfold BroadcastSystemEvent, srv_EnqueueServerMsg, others_online. ch_tac.
Qed.
Lemma ch_name_online n : changes (name_online n : MI _).
Proof. unfold name_online, ListOnlineUsers. ch_tac. Qed.
Lemma ch_the_user c : changes (the_user c : MI _).
Proof. apply ch_hub. Qed.
#[local] Hint Resolve ch_broadcast ch_name_online ch_the_user : changes.
Lemma ch_start_hb c : changes (startOnlineHeartbeat c : MI unit).
Proof. unfold startOnlineHeartbeat. ch_tac. Qed.
Lemma ch_stop_hb c : changes (stopOnlineHeartbeat c : MI unit).
Proof. unfold stopOnlineHeartbeat. ch_tac. Qed.
#[local] Hint Resolve ch_start_hb ch_stop_hb : changes.
Lemma ch_Online c : changes (Online c : MI unit).
Proof. unfold Online, srv_EnqueuePendingForUser, EnqueuePendingForUser. ch_tac. Qed.
Lemma ch_Offline c : changes (Offline c : MI unit).
Proof. unfold Offline. ch_tac. Qed.
#[local] Hint Resolve ch_Online ch_Offline : changes.
Lemma ch_Logout c : changes (Logout c : MI unit).
Proof. unfold Logout. ch_tac. Qed.
Lemma ch_ListenMessage c o : changes (ListenMessage c o : MI unit).
Proof. unfold ListenMessage, writeWithPrompt. pose proof ch_Logout. ch_tac. Qed.
Lemma ch_enter c n : changes (enter c n : MI unit).
Proof. unfold enter. ch_tac. Qed.
#[local] Hint Resolve ch_Logout ch_enter : changes.
Lemma ch_Register c n p : changes (Register c n p : MI _).
Proof. unfold Register. ch_tac. Qed.
Lemma ch_Login c n p : changes (Login c n p : MI _).
Proof. unfold Login. ch_tac. Qed.
#[local] Hint Resolve ch_Register ch_Login : changes.
Lemma ch_HandleMessage c m : changes (HandleMessage c m : MI unit).
Proof.
  unfold HandleMessage, HandleClientSend, srv_ProcessSend, srv_EnqueueServerMsg, others_online.
  ch_tac.
Qed.
Lemma ch_client_id p : changes (fresh_client_id p : MI _).
Proof. unfold fresh_client_id. ch_tac. Qed.
#[local] Hint Resolve ch_HandleMessage ch_client_id : changes.
Lemma ch_who c : changes (useWho c : MI unit).
Proof. unfold useWho, ListOnlineUsers. ch_tac. Qed.
Lemma ch_stats c : changes (useStats c : MI unit).
Proof. unfold useStats, SnapshotStatsText, SnapshotStats. ch_tac. Qed.
Lemma ch_useRename c m : changes (useRename c m : MI unit).
Proof. unfold useRename. ch_tac. Qed.
Lemma ch_chat c m : changes (useChat c m : MI unit).
Proof. unfold useChat, srv_ProcessSend, srv_EnqueueServerMsg. ch_tac. Qed.
Lemma ch_read c m : changes (useRead c m : MI unit).
Proof. unfold useRead, srv_HandleReadAck. ch_tac. Qed.
Lemma ch_history c m : changes (useHistory c m : MI unit).
Proof. unfold useHistory, srv_GetC2CHistory. ch_tac. Qed.
Lemma ch_group1 c m a b op d : (∀ x y g, G g (op x y g).2) →
  changes (group_command1 c m a b op d : MI unit).
Proof. intros Hop. unfold group_command1. ch_tac. Qed.
Lemma ch_group2 c m a b op d : (∀ x y z g, G g (op x y z g).2) →
  changes (group_command2 c m a b op d : MI unit).
Proof. intros Hop. unfold group_command2. ch_tac. Qed.
Lemma ch_gm c m : changes (useGroupMembers c m : MI unit).
Proof. unfold useGroupMembers. ch_tac. Qed.
Lemma ch_gt c m : changes (useGroupTalk c m : MI unit).
Proof. unfold useGroupTalk, srv_ProcessSend, srv_EnqueueServerMsg. ch_tac. Qed.
Lemma ch_say c m : changes (say c m : MI unit).
Proof. unfold say, srv_ProcessSend, srv_EnqueueServerMsg. ch_tac. Qed.
Lemma ch_exit c : changes (useExit c : MI unit).
Proof. unfold useExit. ch_tac. Qed.
#[local] Hint Resolve ch_who ch_stats ch_useRename ch_chat ch_read ch_history ch_gm ch_gt ch_say
  ch_exit : changes.

Lemma ch_prefix cmds c msg :
  (∀ p, p ∈ cmds → ∀ m, changes (p.2 c m : MI unit)) →
  changes (dispatch_prefix cmds c msg : MI unit).
Proof.
  induction cmds as [|[pre use] cmds IH]; intros Hc; cbn.
  - unfold useIllegal. ch_tac.
  - destruct (HasPrefix msg pre).
    + apply (Hc (pre, use)). by left.
    + apply IH. intros p Hp. apply Hc. by right.
Qed.

Lemma ch_auth c msg : changes (handleAuthCommand c msg : MI _).
Proof. unfold handleAuthCommand. ch_tac. Qed.
Lemma ch_run_logout : changes (run_logout : MI unit).
Proof. unfold run_logout. ch_tac. Qed.
Lemma ch_net_send c m : changes (on_net (net_SendJSON c m) : MI unit).
Proof. intros im. split; [apply rtc_once, hc_send|by cbn]. Qed.
#[local] Hint Resolve ch_net_send : changes.
Lemma ch_deliver id : changes (deliver id : MI unit).
Proof. unfold deliver, deliver_to. ch_tac. Qed.
#[local] Hint Resolve ch_deliver : changes.
Lemma ch_deliver_next : changes (deliver_next : MI bool).
Proof. unfold deliver_next. ch_tac. Qed.

Lemma allow_ok ip s w : SR w (exec (allowConnection ip) (s, w)).2.
Proof.
  unfold exec, allowConnection. destruct (String.eqb ip ""); [by cbn|].
  case_bool_decide; [by cbn|]. pose proof (clock_ok w) as Hc. unfold exec in Hc.
  destruct (clock w) as [now w']. by destruct (allow_at now ip s).
Qed.

Lemma ch_accept c addr (im : Prog) : sessions (d_net im) !! c = None →
  im_change G SR im (exec (accept c addr) im).
Proof.
  intros Hc. pose proof (allow_ok (parseIP (Some addr)) (security (d_net im)) (d_store im)) as Hw.
  revert Hw. unfold im_change, accept, exec.
  destruct (allowConnection _ _) as [[ok reason] [sec w]] eqn:E. intros Hw. destruct ok; cbn in Hw.
  - split; [|exact Hw].
    eapply rtc_l; [apply (hc_security _ sec)|].
    eapply rtc_l; [apply hc_counters|]. eapply rtc_l; [by apply (hc_connect _ c addr)|].
    apply rtc_once, hc_send.
  - split; [|exact Hw]. eapply rtc_l; [apply (hc_security _ sec)|]. apply rtc_once, hc_counters.
Qed.

(** A step that is not a turn of a reader is made of elementary changes whatever [G]. *)
Lemma step_cases (im im' : Prog) : prog_step im im' →
  im_change G SR im im' ∨
  ∃ c s, is_Some (sessions (d_net im) !! c) ∧ im' = exec (ManagerMessage_turn c s) im.
Proof.
  destruct 1 as [c addr im Hc|c s im Hc|c o im|c im|im|c im|im|im|im];
    [left|right; by exists c, s|left..].
  - by apply ch_accept.
  - apply ch_ListenMessage.
  - revert im. change (changes (Handler_timeout c : MI unit)).
    unfold Handler_timeout, Handler_done. ch_tac.
  - apply ch_active.
  - revert im. change (changes (heartbeat_tick c : MI unit)).
    unfold heartbeat_tick. ch_tac.
  - apply ch_run_logout.
  - apply ch_deliver_next.
  - revert im. change (changes (retry_tick : MI unit)). unfold retry_tick. ch_tac.
Qed.

Lemma ch_Start : changes (Start_recovery : MI unit).
Proof. unfold Start_recovery, RecoverPendingDeliveries. ch_tac. Qed.
End changes.

(** * Every step is made of elementary changes *)

(** The groups may change in any way. *)
Definition any_groups : relation GroupManager := λ _ _, True.

Section steps.
Context (SR : relation (SW D R)) `{HSR : !StoreRespects SR}.
Abbreviation changes := (moves (im_change any_groups SR)).

Lemma ch_commands p c m : p ∈ prefix_commands → changes (p.2 c m : MI unit).
Proof.
  unfold prefix_commands. rewrite !elem_of_cons.
  intros Hp. repeat destruct Hp as [->|Hp]; cbn;
    [first [ apply (ch_read any_groups SR) | apply (ch_history any_groups SR)
           | apply (ch_gm any_groups SR) | apply (ch_gt any_groups SR)
           | apply (ch_useRename any_groups SR) | apply (ch_chat any_groups SR)
           | apply (ch_group1 any_groups SR); intros; exact I
           | apply (ch_group2 any_groups SR); intros; exact I ]..|].
  by apply not_elem_of_nil in Hp.
Qed.

Lemma ch_DoMessage c m : changes (DoMessage c m : MI unit).
Proof.
  unfold DoMessage, useHelp.
  repeat (case_match;
    [solve [eauto using ch_exit, ch_who, ch_stats, ch_send|apply moves_ret, _]|]).
  apply ch_prefix; [done|]. intros. by apply ch_commands.
Qed.
#[local] Hint Resolve ch_DoMessage ch_auth ch_HandleMessage ch_send ch_inbound ch_the_user
  ch_Logout : changes.
Ltac ch_tac := moves_tac ltac:(eauto with changes).
Lemma ch_processRawLine c raw : changes (processRawLine c raw : MI bool).
Proof. unfold processRawLine, process_command. ch_tac. Qed.
#[local] Hint Resolve ch_processRawLine : changes.
Lemma ch_turn c s : changes (ManagerMessage_turn c s : MI _).
Proof. unfold ManagerMessage_turn. ch_tac. Qed.

Lemma prog_step_change (im im' : Prog) : prog_step im im' → im_change any_groups SR im im'.
Proof.
  intros [Hs|(c & s & _ & ->)]%(step_cases any_groups SR); [done|]. apply ch_turn.
Qed.

(** A relation on the store that its calls respect holds across every step, and from the
    state [main] sets up. *)
Lemma step_respects_store (im im' : Prog) : prog_step im im' → SR (d_store im) (d_store im').
Proof. intros [_ Hs]%prog_step_change. exact Hs. Qed.

Lemma reachable_store file x im : reachable file x im → SR (d_store (main_setup file x)) (d_store im).
Proof.
  intros Hr. destruct (ch_Start any_groups SR (main_setup file x)) as [_ Hstart].
  unfold reachable in Hr. etrans; [exact Hstart|]. clear Hstart.
  induction Hr as [a|a b d Hs _ IH]; [reflexivity|]. etrans; [by apply step_respects_store|done].
Qed.
End steps.

(** The store may change in any way. *)
Definition any_store : relation (SW D R) := λ _ _, True.
#[export] Instance any_store_respects : StoreRespects any_store.
Proof. by repeat split. Qed.

(** Every step of the program changes the hub by elementary changes only. *)
Lemma prog_step_changes (im im' : Prog) :
  prog_step im im' → rtc (hub_change any_groups) (d_net im) (d_net im').
Proof. intros [Hs _]%(prog_step_change any_store). exact Hs. Qed.

(** A relation that every elementary change respects holds across every step; a property
    they keep holds in every reachable state. *)
Lemma step_respects (Rel : relation Hub) `{!PreOrder Rel} (im im' : Prog) :
  (∀ h h', hub_change any_groups h h' → Rel h h') → prog_step im im' → Rel (d_net im) (d_net im').
Proof.
  intros Hr Hs%prog_step_changes. induction Hs as [|h1 h2 h3 Hc _ IH]; [done|].
  etrans; [by apply Hr|done].
Qed.

Lemma Start_hub (im : Prog) : d_net (exec Start_recovery im : Prog) = d_net im.
Proof.
  unfold Start_recovery, RecoverPendingDeliveries, exec. munfold. unfold on_store, zoom.
  destruct (st_RecoverPendingServerMsgIDs 2000 (d_store im)) as [ids w].
  assert (∀ l (d : Prog), d_net (snd (enqueue_all l d)) = d_net d) as Hl.
  { induction l as [|i l IH]; intros d; [done|]. unfold enqueue_all in *.
    rewrite forM_cons. by rewrite IH. }
  by rewrite Hl.
Qed.

Lemma reachable_invariant (P : Hub → Prop) file x im :
  (∀ h h', hub_change any_groups h h' → P h → P h') → P (d_net (main_setup file x)) →
  reachable file x im → P (d_net im).
Proof.
  intros Hc Hstart Hr. unfold reachable in Hr. rewrite <- (Start_hub (main_setup file x)) in Hstart.
  assert (PreOrder (λ h h' : Hub, P h → P h')) as Hpre.
  { split; [by intros h|]. intros h1 h2 h3 Ha Hb Hp. auto. }
  induction Hr as [|a b d Hs _ IH]; [done|]. apply IH. revert Hstart.
  by apply (step_respects (λ h h', P h → P h')).
Qed.
End program.
