(* ===== verification/Demo.v ===== *)
(** A concrete world for the witnesses of the session layer: a clock, an empty database, no
    cache, toy versions of the third-party codecs and of local times, and a program running in it. *)
From S2P Require Import Prelude GoStr Protocol StoreIface Limiter Logic Worker.
From S2P Require Import Storage MemDB Cache Dao Store StoreImpl Group Hub Server Session Commands Conn.
From S2P Require Import GoJson JsonProps Config Program.

Definition demo_env : GoEnv := fixed_env (1700000000 * Second) Second.

Definition demo_json : Json := @go_json number_time.

Definition demo_fmt : GoFmt :=
  {| fmt_local_time := itoa; fmt_rfc3339 := itoa; fmt_rate n d := itoa (n * Second / d) |}.

(** A toy hash that is text for any password: its bytes in hexadecimal. *)
Fixpoint hex_text (p : string) : string :=
  match p with
  | EmptyString => EmptyString
  | String c p' =>
    String (hex_digit (N.shiftr (code c) 4)) (String (hex_digit (N.land (code c) 15)) (hex_text p'))
  end.
Definition demo_hash (p : string) : string := "hash:" +:+ hex_text p.

Definition demo_bcrypt : Bcrypt.
Proof.
  refine {| bc_hash _ p := inr (demo_hash p); bc_ok h p := String.eqb h (demo_hash p) |}.
  intros _ p h [= <-]. apply String.eqb_refl.
Defined.

Definition demo_gb : Gb18030 := λ _, None.

#[local] Existing Instances demo_env demo_json demo_fmt demo_bcrypt demo_gb.

Abbreviation Demo := (IM (D := MemDB) (R := gmap string string)).

Definition demo_ext : Ext MemDB (gmap string string) := mkExt 0 ∅ true empty_db None.

Definition started : Demo := exec Start_recovery (main_setup None demo_ext).

(** A connection arrives; a session sends a line; the worker empties its queue. *)
Definition connect (c : nat) (im : Demo) : Demo := exec (accept c "10.0.0.1:5000") im.
Definition types (c : nat) (s : string) (im : Demo) : Demo :=
  exec (ManagerMessage_turn c (s +:+ newline)) im.
Definition worked (im : Demo) : Demo := exec (deliverWorker 100) im.

(** alice is online on connection 0. *)
Definition alice_online : Demo := types 0 "register|alice|pw" (connect 0 started).
(** So is bob, on connection 1. *)
Definition both_online : Demo := types 1 "register|bob|pw" (connect 1 alice_online).

Definition channel (c : nat) (im : Demo) : list string :=
  match sessions (d_net im) !! c with Some u => u_C u | None => [] end.
Definition online_names (im : Demo) : list string := (map_to_list (OnlineMap (d_net im))).*1.

(** These are steps of the program. *)
Abbreviation demo_reachable := (reachable None demo_ext).

Lemma connect_step c im : sessions (d_net im) !! c = None → prog_step im (connect c im).
Proof. apply (step_accept c "10.0.0.1:5000"). Qed.

Lemma types_step c s im : is_Some (sessions (d_net im) !! c) → prog_step im (types c s im).
Proof. apply (step_read c (s +:+ newline)). Qed.

Lemma connect_reachable {x} c im :
  reachable None x im → sessions (d_net im) !! c = None → reachable None x (connect c im).
Proof. intros Hr Hc. eapply rtc_r; [exact Hr|]. by apply connect_step. Qed.

Lemma types_reachable {x} c s im :
  reachable None x im → is_Some (sessions (d_net im) !! c) → reachable None x (types c s im).
Proof. intros Hr Hc. eapply rtc_r; [exact Hr|]. by apply types_step. Qed.

Lemma worked_reachable {x} im : reachable None x im → reachable None x (worked im).
Proof.
  unfold worked. generalize 100%nat as n. intros n. revert im.
  induction n as [|n IH]; intros im Hr; [done|]. cbn [deliverWorker]. rewrite exec_bind.
  assert (reachable None x (exec deliver_next im)) as Hr1
    by (eapply rtc_r; [exact Hr|apply step_deliver]).
  destruct (eval deliver_next im); [by apply IH|done].
Qed.

Lemma started_reachable : demo_reachable started.
Proof. apply rtc_refl. Qed.

Lemma alice_reachable : demo_reachable alice_online.
Proof.
  apply types_reachable; [apply connect_reachable; [apply started_reachable|by vm_compute]|].
  vm_compute. by eexists.
Qed.

Lemma both_reachable : demo_reachable both_online.
Proof.
  apply types_reachable; [apply connect_reachable; [apply alice_reachable|by vm_compute]|].
  vm_compute. by eexists.
Qed.
