(* ===== verification/OnlineProps.v ===== *)
(** The users online: in every reachable state, every entry of the online map leads to an
    authenticated session that goes by the name of the entry. *)
From S2P Require Import Prelude GoStr Protocol StoreIface Limiter Logic Worker.
From S2P Require Import Storage MemDB Cache Dao Store StoreImpl Group Hub Server Session Commands Conn.
From S2P Require Import Config SessionFacts Program Demo.

Section online.
Context `{GoEnv} {D R : Type} `{Gorm D} `{Redis R} `{Json} `{GoFmt} `{Bcrypt} `{Gb18030}.
Abbreviation Prog := (IM (D := D) (R := R)).
Abbreviation MI := (M Prog).
Abbreviation calm := (moves (on im_roster eq)).

#[local] Hint Resolve calm_store calm_worker calm_hub calm_logic calm_groups calm_members
  calm_send_msg calm_send_json calm_user_json calm_world calm_gets calm_enqueue_all
  calm_the_user calm_HandleMessage calm_who_cmd calm_useStats calm_useChat calm_useRead
  calm_useHistory calm_group1 calm_group2 calm_useGroupMembers calm_useGroupTalk calm_say : calm.
Ltac calm_tac := moves_tac ltac:(eauto with calm).

(** A calm computation of an authenticated, or anonymous, session. *)
Lemma calm_authenticated {A} c (m : MI A) : calm m →
  hoare (λ im, authenticated c (im_roster im)) m (λ _ im, sound (im_roster im)).
Proof.
  intros Hm. eapply hoare_weaken; [by apply (calm_hoare (authenticated c))|done|].
  by intros ? im [].
Qed.

Lemma calm_anonymous {A} c (m : MI A) : calm m →
  hoare (λ im, anonymous c (im_roster im)) m (λ _ im, sound (im_roster im)).
Proof.
  intros Hm. eapply hoare_weaken; [by apply (calm_hoare (anonymous c))|done|].
  by intros ? im [].
Qed.

Lemma useExit_hoare c :
  hoare (λ im, authenticated c (im_roster im)) (useExit c : MI unit)
    (λ _ im, sound (im_roster im)).
Proof.
  unfold useExit. eapply hoare_bind; [apply calm_authenticated; calm_tac|intros ?].
  apply Logout_hoare.
Qed.

Lemma dispatch_hoare cmds c msg :
  (∀ p, p ∈ cmds → ∀ m, hoare (λ im, authenticated c (im_roster im)) (p.2 c m : MI unit)
                          (λ _ im, sound (im_roster im))) →
  hoare (λ im, authenticated c (im_roster im)) (dispatch_prefix cmds c msg : MI unit)
    (λ _ im, sound (im_roster im)).
Proof.
  induction cmds as [|[pre use] cmds IH]; intros Hc; cbn.
  - apply calm_authenticated. unfold useIllegal. calm_tac.
  - destruct (HasPrefix msg pre).
    + apply (Hc (pre, use)). by left.
    + apply IH. intros p Hp. apply Hc. by right.
Qed.

Lemma DoMessage_hoare c msg :
  hoare (λ im, authenticated c (im_roster im)) (DoMessage c msg : MI unit)
    (λ _ im, sound (im_roster im)).
Proof.
  unfold DoMessage, useHelp.
  case_match; [apply calm_authenticated; calm_tac|].
  case_match; [apply useExit_hoare|].
  do 3 (case_match; [apply calm_authenticated; calm_tac|]).
  apply dispatch_hoare. intros p Hp m. unfold prefix_commands in Hp.
  rewrite !elem_of_cons in Hp. repeat destruct Hp as [->|Hp]; cbn;
    [apply calm_authenticated; first [apply calm_group1|apply calm_group2|eauto with calm]..
    |apply useRename_hoare|
     apply calm_authenticated; eauto with calm|by apply not_elem_of_nil in Hp].
Qed.

Lemma process_command_hoare c msg :
  hoare (λ im, authenticated c (im_roster im)) (process_command c msg : MI bool)
    (λ _ im, sound (im_roster im)).
Proof.
  unfold process_command. case_match; [case_match; apply calm_authenticated; calm_tac|].
  eapply hoare_bind; [apply DoMessage_hoare|intros ?]. by apply hoare_ret.
Qed.

(** The answer after an attempt to enter. *)
Lemma answer_hoare {A} (m : MI A) : calm m →
  hoare (λ im, sound (im_roster im)) m (λ _ im, sound (im_roster im)).
Proof. apply (calm_hoare sound). Qed.

Lemma handleAuthCommand_hoare c msg :
  hoare (λ im, anonymous c (im_roster im)) (handleAuthCommand c msg : MI _)
    (λ r im, sound (im_roster im) ∧ r.1 = true).
Proof.
  assert (∀ t b (P : Prog → Prop), (∀ im, P im → sound (im_roster im)) →
    hoare P (send_msg c t;; mret (true, b)) (λ (r : bool * bool) im, sound (im_roster im) ∧ r.1 = true))
    as Hsay.
  { intros t b P HP. eapply hoare_bind.
    - eapply hoare_weaken; [apply (calm_hoare sound); calm_tac|done|]. by intros ? ? Hs.
    - intros ?. by apply hoare_ret. }
  assert (∀ im : Prog, anonymous c (im_roster im) → sound (im_roster im)) as Hs by by intros im [].
  unfold handleAuthCommand. case_match; case_match.
  - by apply Hsay.
  - eapply hoare_bind; [apply Register_hoare|]. intros [e|]; cbn; [by apply Hsay|].
    apply (hoare_frame_bind im_roster sound); [calm_tac|intros u; by apply Hsay].
  - case_match; [by apply Hsay|].
    eapply hoare_bind; [apply Login_hoare|]. intros [e|]; cbn; [by apply Hsay|].
    apply (hoare_frame_bind im_roster sound); [calm_tac|intros u; by apply Hsay].
  - by apply Hsay.
Qed.

(** A session exists. *)
Definition present (c : nat) (r : roster) : Prop := sound r ∧ is_Some (r.2 !! c).

Lemma processRawLine_hoare c raw :
  hoare (λ im, present c (im_roster im)) (processRawLine c raw : MI bool)
    (λ _ im, sound (im_roster im)).
Proof.
  unfold processRawLine. case_match; [by apply hoare_ret; intros im []|].
  apply (hoare_frame_bind im_roster (present c)).
  { apply calm_hub_modify. done. }
  intros _. eapply hoare_bind; [apply the_user_hoare|intros u; cbn].
  destruct (Authenticated u) eqn:E; cbn.
  - eapply hoare_weaken; [apply process_command_hoare| |done].
    intros im ([Hs [[n b] Hn]] & Hu). destruct (Hu n b Hn). split; [done|].
    exists n. congruence.
  - eapply hoare_bind.
    { eapply hoare_weaken; [apply handleAuthCommand_hoare| |done].
      intros im ([Hs [[n b] Hn]] & Hu). destruct (Hu n b Hn). split; [done|].
      exists n. congruence. }
    intros [h l]. destruct h; cbn; [by apply hoare_ret; intros im []|].
    by intros im [_ Hf].
Qed.

Lemma turn_hoare c s :
  hoare (λ im, present c (im_roster im)) (ManagerMessage_turn c s : MI _)
    (λ _ im, sound (im_roster im)).
Proof.
  assert (∀ im : Prog, present c (im_roster im) → sound (im_roster im)) as Hp by by intros im [].
  unfold ManagerMessage_turn. case_match.
  - eapply hoare_bind; [eapply hoare_weaken; [apply Logout_hoare|done|by intros ?]|].
    intros ?. by apply hoare_ret.
  - eapply hoare_weaken; [apply (calm_hoare sound); calm_tac|done|done].
  - eapply hoare_bind; [apply processRawLine_hoare|intros ?]. by apply hoare_ret.
Qed.

(** A number no session has. *)
Definition absent (c : nat) (r : roster) : Prop := sound r ∧ r.2 !! c = None.

Lemma Handler_start_hoare c addr :
  hoare (λ im, absent c (im_roster im)) (Handler_start c addr : MI unit)
    (λ _ im, sound (im_roster im)).
Proof.
  unfold Handler_start. apply (hoare_frame_bind im_roster (absent c)).
  { apply calm_hub_modify. done. }
  intros ?. eapply hoare_bind; [|intros ?; apply (calm_hoare sound); calm_tac].
  intros im [Hs Hc]. unfold im_roster, roster_of, who in *. cbn in *.
  rewrite fmap_insert. intros name info Hn. cbn in *. destruct (Hs name info Hn) as [Hname Hw].
  split; [done|]. cbn in *. rewrite lookup_insert_ne; [done|]. intros ->. congruence.
Qed.

Lemma accept_hoare c addr :
  hoare (λ im, absent c (im_roster im)) (accept c addr : MI _) (λ _ im, sound (im_roster im)).
Proof.
  intros im Ha. unfold accept, exec.
  destruct (allowConnection _ _) as [[ok reason] [sec w]]. destruct ok; [|by destruct Ha].
  exact (Handler_start_hoare c addr
           (mkDW (d_worker im) w (set_security sec (d_net im)) : Prog) Ha).
Qed.

Lemma run_logout_hoare :
  hoare (λ im, sound (im_roster im)) (run_logout : MI unit) (λ _ im, sound (im_roster im)).
Proof.
  unfold run_logout. apply (hoare_frame_bind im_roster sound); [calm_tac|intros [|c l]].
  - by apply hoare_ret.
  - apply (hoare_frame_bind im_roster sound); [by apply calm_hub_modify|intros ?].
    apply Logout_hoare.
Qed.

Lemma calm_deliver_next : calm (deliver_next : MI bool).
Proof.
  assert (∀ c m, calm (on_net (net_SendJSON c m) : MI unit)) as Hn
    by (intros; apply calm_send_json).
  unfold deliver_next, deliver, deliver_to. calm_tac.
Qed.

Lemma ListenMessage_hoare c o :
  hoare (λ im, sound (im_roster im)) (ListenMessage c o : MI unit)
    (λ _ im, sound (im_roster im)).
Proof.
  assert (∀ f, (∀ u, u_Name (f u) = u_Name u ∧ Authenticated (f u) = Authenticated u) →
    calm (on_session c f : MI unit)) as Hs by apply calm_session.
  unfold ListenMessage, writeWithPrompt.
  apply (hoare_frame_bind im_roster sound); [calm_tac|intros u].
  destruct (negb _); [by apply hoare_ret|]. destruct (u_C u) as [|msg l]; [by apply hoare_ret|].
  apply (hoare_frame_bind im_roster sound); [by apply Hs|intros ?].
  apply (hoare_frame_bind im_roster sound).
  { apply moves_bind; [apply _|calm_tac|intros v]. destruct o; try apply moves_ret, _;
      (apply moves_bind; [apply _|by apply Hs|intros ?; apply moves_ret, _]). }
  intros [|]; [by apply hoare_ret|]. eapply hoare_bind; [apply Logout_hoare|intros ?].
  apply (calm_hoare sound). by apply Hs.
Qed.

(** Every step of the program keeps the online map sound. *)
Lemma prog_step_sound (im im' : Prog) :
  prog_step im im' → sound (im_roster im) → sound (im_roster im').
Proof.
  destruct 1 as [c addr im Hc|c s im Hc|c o im|c im|im|c im|im|im|im]; intros Hs.
  - apply (accept_hoare c addr im). split; [done|].
    unfold im_roster, roster_of, who. cbn. by rewrite lookup_fmap, Hc.
  - apply (turn_hoare c s im). split; [done|].
    unfold im_roster, roster_of, who. cbn. rewrite lookup_fmap. by destruct Hc as [u ->].
  - by apply (ListenMessage_hoare c o im).
  - revert im Hs. change (hoare (λ im, sound (im_roster im)) (Handler_timeout c : MI unit)
      (λ _ im, sound (im_roster im))).
    unfold Handler_timeout. apply (hoare_frame_bind im_roster sound); [calm_tac|intros ?].
    eapply hoare_bind; [apply Logout_hoare|intros ?].
    apply (calm_hoare sound). by apply calm_hub_modify.
  - done.
  - apply (calm_hoare sound (heartbeat_tick c : MI unit)); [|done].
    unfold heartbeat_tick. calm_tac.
  - by apply run_logout_hoare.
  - by apply (calm_hoare sound (deliver_next : MI bool)); [apply calm_deliver_next|].
  - apply (calm_hoare sound (retry_tick : MI unit)); [|done]. unfold retry_tick. calm_tac.
Qed.

Lemma reachable_sound file x (im : Prog) : reachable file x im → sound (im_roster im).
Proof.
  intros Hr. unfold reachable in Hr. remember (exec Start_recovery (main_setup file x)) as im0 eqn:E0.
  assert (sound (im_roster im0)) as Hstart.
  { subst. unfold im_roster. rewrite Start_hub. unfold main_setup, Now.
    by intros n i. }
  clear E0. induction Hr as [|a b d Hs _ IH]; [done|]. apply IH.
  by apply (prog_step_sound a).
Qed.

(** C15. In every state the program can reach, each entry of the online map leads to a session
    that exists, is authenticated and bears the name of the entry; the empty name is never
    online. So nobody but its bearer receives what is addressed to a name. *)
Theorem online_map_sound file x (im : Prog) name info :
  reachable file x im → OnlineMap (d_net im) !! name = Some info →
  name ≠ "" ∧ ∃ u, sessions (d_net im) !! Sender info = Some u ∧
    u_Name u = name ∧ Authenticated u = true.
Proof.
  intros Hr Hn. apply reachable_sound in Hr as Hs.
  destruct (Hs name info Hn) as [Hname Hw]. split; [done|].
  unfold im_roster, roster_of, who in Hw. cbn in Hw. rewrite lookup_fmap in Hw.
  destruct (sessions (d_net im) !! Sender info) as [u|]; [|done]. cbn in Hw.
  exists u. by simplify_eq.
Qed.
End online.

#[local] Existing Instances demo_env demo_json demo_fmt demo_bcrypt demo_gb.

Lemma online_map_sound_witness :
  OnlineMap (d_net alice_online) !! "alice" = Some (mkOnline 0 "10.0.0.1:5000") ∧
  "alice" ≠ "" ∧ ∃ u, sessions (d_net alice_online) !! 0%nat = Some u ∧
    u_Name u = "alice" ∧ Authenticated u = true.
Proof.
  split; [by vm_compute|].
  apply (online_map_sound None demo_ext alice_online "alice" (mkOnline 0 "10.0.0.1:5000"));
    [apply alice_reachable|by vm_compute].
Defined.
