(* ===== verification/SessionProps.v ===== *)
(** The properties of sessions and of their lines. *)
From S2P Require Import Prelude GoStr Protocol StoreIface Limiter Logic Worker.
From S2P Require Import Storage MemDB Cache Dao Store StoreImpl Group Hub Server Session Commands Conn.
From S2P Require Import Config SessionFacts Program Demo.

(** * The life of one session *)

(** A session only ever moves forward: it is not renamed back to nobody, closing and logging
    out are final, what was written stays written, and once it is closed its channel only
    drains and nothing more is written to its connection. *)
Record evolves (u u' : SUser) : Prop := {
  ev_addr : Addr u' = Addr u;
  ev_auth : Authenticated u = true → Authenticated u' = true;
  ev_loggedOut : loggedOut u = true → loggedOut u' = true;
  ev_out : u_out u `prefix_of` u_out u';
  ev_closed : isClosed u = true →
    isClosed u' = true ∧ u_out u' = u_out u ∧ ∃ k, u_C u' = drop k (u_C u)
}.

#[local] Instance evolves_preorder : PreOrder evolves.
Proof.
  split.
  - intros u. split; try done. intros Hc. split_and!; [done..|]. by exists 0%nat.
  - intros u1 u2 u3 [A1 B1 C1 D1 E1] [A2 B2 C2 D2 E2]. split; auto.
    + congruence.
    + by etrans.
    + intros Hc. destruct (E1 Hc) as (H2 & Ho2 & k2 & Hk2).
      destruct (E2 H2) as (H3 & Ho3 & k3 & Hk3).
      split_and!; [done|congruence|]. exists (k2 + k3)%nat.
      by rewrite Hk3, Hk2, drop_drop.
Qed.

(** All sessions of a hub. *)
Definition sessions_evolve (h h' : Hub) : Prop :=
  ∀ c u, sessions h !! c = Some u → ∃ u', sessions h' !! c = Some u' ∧ evolves u u'.

#[local] Instance sessions_evolve_preorder : PreOrder sessions_evolve.
Proof.
  split; [by intros h c u Hu; exists u|].
  intros h1 h2 h3 Ha Hb c u Hu. destruct (Ha c u Hu) as (u2 & H2 & E2).
  destruct (Hb c u2 H2) as (u3 & H3 & E3). exists u3. split; [done|by etrans].
Qed.

(** A change inside one session. *)
Lemma update_evolve c f h :
  (∀ u, sessions h !! c = Some u → evolves u (f u)) → sessions_evolve h (update_session c f h).
Proof.
  intros Hf d u Hu. unfold update_session. cbn. destruct (decide (c = d)) as [<-|Hd].
  - rewrite lookup_alter_eq, Hu. eexists. split; [done|]. by apply Hf.
  - rewrite lookup_alter_ne by done. by exists u.
Qed.

(** One that leaves channel, output and the closed mark alone. *)
Lemma evolves_inner (f : SUser → SUser) u :
  Addr (f u) = Addr u → (Authenticated u = true → Authenticated (f u) = true) →
  (loggedOut u = true → loggedOut (f u) = true) → (isClosed u = true → isClosed (f u) = true) →
  u_out (f u) = u_out u → u_C (f u) = u_C u → evolves u (f u).
Proof.
  intros Ha Hb Hl Hc Ho HC. split; auto.
  - by rewrite Ho.
  - intros Hcl. split_and!; [auto..|]. by exists 0%nat.
Qed.

Lemma hub_change_evolve `{Json} G h h' : hub_change G h h' → sessions_evolve h h'.
Proof.
  destruct 1; try (by intros d u Hu; exists u);
    try (by apply update_evolve; intros u _; apply evolves_inner).
  - unfold SendMsg. destruct (sessions h !! c) as [u|] eqn:E; [|done].
    destruct (isClosed u) eqn:Ec; [done|]. destruct (_ <? _)%nat; [|by intros d v Hv; exists v].
    apply (update_evolve c (set_C (u_C u ++ [msg])) h). intros v Hv. simplify_eq.
    split; cbn; try done; intros; congruence.
  - apply update_evolve. intros u _. split; cbn; try done. intros Hc.
    split_and!; [done..|]. exists 1%nat. by destruct (u_C u).
  - apply update_evolve. intros u _. split; cbn; try done.
    + destruct (isClosed u); [done|by apply prefix_app_r].
    + intros Hc. rewrite Hc. split_and!; [done..|]. by exists 0%nat.
  - apply update_evolve. intros u _.
    by apply (evolves_inner (λ u, set_Authenticated true (set_Name n u))).
  - intros d u Hu. cbn. destruct (decide (c = d)) as [<-|Hd]; [congruence|].
    rewrite lookup_insert_ne by done. by exists u.
Qed.

(** Channels hold what [make(chan string, 10)] has room for. *)
Definition channels_fit (h : Hub) : Prop :=
  ∀ c u, sessions h !! c = Some u → (length (u_C u) <= chan_cap)%nat.

Lemma update_fit c f h :
  (∀ u, sessions h !! c = Some u → (length (u_C (f u)) <= chan_cap)%nat) →
  channels_fit h → channels_fit (update_session c f h).
Proof.
  intros Hf Hh d u. unfold update_session. cbn. destruct (decide (c = d)) as [<-|Hd].
  - rewrite lookup_alter_eq. intros (v & Hv & ->)%fmap_Some. by apply Hf.
  - rewrite lookup_alter_ne by done. apply Hh.
Qed.

Lemma hub_change_fit `{Json} G h h' : hub_change G h h' → channels_fit h → channels_fit h'.
Proof.
  intros Hc Hh. destruct Hc; try done; try (apply update_fit; [|done]; intros u Hu; exact (Hh c u Hu)).
  - unfold SendMsg. destruct (sessions h !! c) as [u|] eqn:E; [|done].
    destruct (isClosed u); [done|].
    destruct (Nat.ltb_spec (length (u_C u)) chan_cap) as [Hl|Hl]; [|done].
    apply (update_fit c (set_C (u_C u ++ [msg])) h); [|done].
    intros v Hv. simplify_eq/=. rewrite length_app. cbn. lia.
  - apply update_fit; [|done]. intros u Hu. specialize (Hh c u Hu). cbn.
    destruct (u_C u); cbn in *; lia.
  - intros d u. cbn. destruct (decide (c = d)) as [<-|Hd].
    + rewrite lookup_insert_eq. intros [= <-]. cbn. lia.
    + rewrite lookup_insert_ne by done. apply Hh.
Qed.

(** * Acting on groups *)

(** What the group manager may do at the request of a user. *)
Inductive acts_as (caller : string) : relation GroupManager :=
  | act_create id g : acts_as caller g (Create id caller g).2
  | act_join id g : acts_as caller g (Group.Join id caller g).2
  | act_leave id g : acts_as caller g (Leave id caller g).2
  | act_delete id g : acts_as caller g (Delete id caller g).2
  | act_kick id name g : acts_as caller g (Kick id caller name g).2
  | act_grant id name g : acts_as caller g (GrantAdmin id caller name g).2
  | act_revoke id name g : acts_as caller g (RevokeAdmin id caller name g).2.

Definition same_groups : relation GroupManager := λ g g', g' = g.

Lemma changes_same_groups `{Json} h h' :
  rtc (hub_change same_groups) h h' → groupManager h' = groupManager h.
Proof.
  induction 1 as [|h1 h2 h3 Hc _ IH]; [done|]. rewrite IH.
  destruct Hc; try done.
  - unfold SendMsg. by repeat case_match.
Qed.

Section lines.
Context `{GoEnv} {D R : Type} `{Gorm D} `{Redis R} `{Json} `{GoFmt} `{Bcrypt} `{Gb18030}.
Abbreviation Prog := (IM (D := D) (R := R)).
Abbreviation MI := (M Prog).

Definition groups_of (im : Prog) : GroupManager := groupManager (d_net im).

(** The groups after a computation are those before, or changed by an act of [caller]. *)
Definition group_effect {A} (caller : string) (m : MI A) (im : Prog) : Prop :=
  groups_of (exec m im) = groups_of im ∨ acts_as caller (groups_of im) (groups_of (exec m im)).

Lemma no_effect {A} caller (m : MI A) im :
  moves (im_change same_groups any_store) m → group_effect caller m im.
Proof. intros Hm. left. apply changes_same_groups, (Hm im). Qed.

Lemma SendMsg_groups c msg h : groupManager (SendMsg c msg h) = groupManager h.
Proof. unfold SendMsg. by repeat case_match. Qed.

Lemma group_command1_effect c msg a b op d (im : Prog) u :
  sessions (d_net im) !! c = Some u →
  (∀ id g, acts_as (u_Name u) g (op id (u_Name u) g).2) →
  group_effect (u_Name u) (group_command1 c msg a b op d : MI unit) im.
Proof.
  intros Hu Hop. unfold group_command1.
  destruct (_ || _); [apply no_effect, (ch_send same_groups any_store)|].
  unfold group_effect, exec, mbind, M_bind. rewrite (the_user_eval c im u Hu).
  unfold on_groups, on_net, zoom. specialize (Hop (part (SplitN msg pipe 2) 1) (groups_of im)).
  unfold groups_of in *. destruct (op _ _ _) as [r g]. right.
  destruct r; cbn; rewrite SendMsg_groups; exact Hop.
Qed.

Lemma group_command2_effect c msg a b op d (im : Prog) u :
  sessions (d_net im) !! c = Some u →
  (∀ id name g, acts_as (u_Name u) g (op id (u_Name u) name g).2) →
  group_effect (u_Name u) (group_command2 c msg a b op d : MI unit) im.
Proof.
  intros Hu Hop. unfold group_command2.
  destruct (_ || _); [apply no_effect, (ch_send same_groups any_store)|].
  unfold group_effect, exec, mbind, M_bind. rewrite (the_user_eval c im u Hu).
  unfold on_groups, on_net, zoom.
  specialize (Hop (part (SplitN msg pipe 3) 1) (part (SplitN msg pipe 3) 2) (groups_of im)).
  unfold groups_of in *. destruct (op _ _ _ _) as [r g]. right.
  destruct r; cbn; rewrite SendMsg_groups; exact Hop.
Qed.

Lemma dispatch_effect cmds c msg (im : Prog) caller :
  (∀ p, p ∈ cmds → group_effect caller (p.2 c msg : MI unit) im) →
  group_effect caller (dispatch_prefix cmds c msg : MI unit) im.
Proof.
  induction cmds as [|[pre use] cmds IH]; intros Hc; cbn.
  - apply no_effect. case_match; [apply (ch_send same_groups any_store)|apply (ch_say same_groups any_store)].
  - destruct (HasPrefix msg pre).
    + apply (Hc (pre, use)). by left.
    + apply IH. intros p Hp. apply Hc. by right.
Qed.

Lemma command_effect p c msg (im : Prog) u :
  sessions (d_net im) !! c = Some u → p ∈ prefix_commands →
  group_effect (u_Name u) (p.2 c msg : MI unit) im.
Proof.
  intros Hu Hp. unfold prefix_commands in Hp. rewrite !elem_of_cons in Hp.
  repeat destruct Hp as [->|Hp]; unfold snd.
  - apply no_effect, (ch_read same_groups any_store).
  - apply no_effect, (ch_history same_groups any_store).
  - apply group_command1_effect; [done|apply act_create].
  - apply group_command1_effect; [done|apply act_join].
  - apply group_command1_effect; [done|apply act_leave].
  - apply group_command1_effect; [done|apply act_delete].
  - apply group_command2_effect; [done|apply act_kick].
  - apply group_command2_effect; [done|apply act_grant].
  - apply group_command2_effect; [done|apply act_revoke].
  - apply no_effect, (ch_gm same_groups any_store).
  - apply no_effect, (ch_gt same_groups any_store).
  - apply no_effect, (ch_useRename same_groups any_store).
  - apply no_effect, (ch_chat same_groups any_store).
  - by apply not_elem_of_nil in Hp.
Qed.

Lemma DoMessage_effect c msg (im : Prog) u :
  sessions (d_net im) !! c = Some u → group_effect (u_Name u) (DoMessage c msg : MI unit) im.
Proof.
  intros Hu. unfold DoMessage, useHelp.
  case_match; [by left|]. case_match; [apply no_effect, (ch_exit same_groups any_store)|].
  case_match; [apply no_effect, (ch_who same_groups any_store)|]. case_match; [apply no_effect, (ch_send same_groups any_store)|].
  case_match; [apply no_effect, (ch_stats same_groups any_store)|].
  apply dispatch_effect. intros p. by apply command_effect.
Qed.
(** Whatever an unauthenticated line says, it was handled by the gate. *)
Lemma handled_auth c msg (im : Prog) :
  (eval (handleAuthCommand c msg) im).1 = true.
Proof.
  assert (∀ t b P, hoare P (send_msg c t;; mret (true, b) : MI (bool * bool)) (λ r _, r.1 = true))
    as Hs by (by intros t b P s Hp).
  assert (hoare (λ _, True) (handleAuthCommand c msg : MI _) (λ r _, r.1 = true)) as Hh;
    [|by apply Hh].
  unfold handleAuthCommand.
  case_match; [|case_match; [|apply Hs]]; (case_match; [apply Hs|]);
    (eapply (hoare_bind _ _ (λ _ _, True)); [done|intros [e|]; [apply Hs|]]);
    (eapply (hoare_bind _ _ (λ _ _, True)); [done|intros v; apply Hs]).
Qed.

Lemma turn_effect c s (im : Prog) u :
  sessions (d_net im) !! c = Some u →
  groups_of (exec (ManagerMessage_turn c s) im) = groups_of im ∨
  Authenticated u = true ∧
  acts_as (u_Name u) (groups_of im) (groups_of (exec (ManagerMessage_turn c s) im)).
Proof.
  intros Hu.
  assert (∀ {A} (m : MI A), moves (im_change same_groups any_store) m →
    groups_of (exec m im) = groups_of im) as Hsame
    by (intros A m Hm; apply changes_same_groups, (Hm im)).
  unfold ManagerMessage_turn. destruct (readRawLine s) as [|rest|raw rest].
  - left. apply Hsame. apply moves_bind; [apply _|apply (ch_Logout same_groups any_store)|intros ? ?; done].
  - left. apply Hsame. apply moves_bind; [apply _|apply (ch_send same_groups any_store)|intros ? ?; done].
  - assert (∀ b, groups_of (exec (processRawLine c raw;; mret b : MI (option string)) im)
              = groups_of (exec (processRawLine c raw) im)) as ->.
    { intros b. unfold exec, mbind, M_bind. by destruct (processRawLine c raw im). }
    unfold processRawLine. destruct (String.eqb _ _); [by left|].
    set (msg := TrimSpace _). unfold exec, mbind, M_bind. cbn [fst snd].
    unfold hub_modify, on_net, zoom, modify. cbn [fst snd].
    set (im1 := mkDW _ _ _). rewrite (the_user_eval c im1 u Hu).
    assert (groups_of im1 = groups_of im) as E1 by done.
    destruct (Authenticated u) eqn:Ea; cbn [negb].
    + assert (group_effect (u_Name u) (process_command c msg : MI bool) im1) as [He|He].
      * unfold process_command. case_match.
        -- case_match; apply no_effect; (apply moves_bind; [apply _| |intros ? ?; done]);
             [apply (ch_send same_groups any_store)|apply (ch_HandleMessage same_groups any_store)].
        -- pose proof (DoMessage_effect c msg im1 u Hu) as Hd. revert Hd.
           unfold group_effect, exec, mbind, M_bind. by destruct (DoMessage c msg im1).
      * left. rewrite <- E1. exact He.
      * right. split; [done|]. rewrite <- E1. exact He.
    + left. rewrite <- E1. pose proof (ch_auth same_groups any_store c msg im1) as [Hc _].
      apply changes_same_groups in Hc. revert Hc. unfold exec, groups_of.
      pose proof (handled_auth c msg im1) as Hh. unfold eval in Hh.
      destruct (handleAuthCommand c msg im1) as [[h l] im2]. cbn in Hh |- *. by rewrite Hh.
Qed.

(** C29. Groups change only at the request of an authenticated session, and as if its user had
    called the group manager: reading from the connection of a session leaves the groups as
    they are, or that session is authenticated and one operation of the group manager ran
    with the name of that very session, at that time, as the caller; and no step of the
    program but the reading of a session changes them. With [group_authorisation], a session
    does to a group what the name it carries may do. (The name is no proof of who it is:
    [rename] gives a session any name, and with it the rights of that name in the groups, see
    [AccountProps.rename_takes_name].) *)
Theorem groups_change_as_caller (im : Prog) :
  (∀ c s u, sessions (d_net im) !! c = Some u →
     let im' := exec (ManagerMessage_turn c s) im in
     groups_of im' = groups_of im ∨
     Authenticated u = true ∧ acts_as (u_Name u) (groups_of im) (groups_of im')) ∧
  (∀ im', prog_step im im' → groups_of im' = groups_of im ∨
     ∃ c s, is_Some (sessions (d_net im) !! c) ∧ im' = exec (ManagerMessage_turn c s) im).
Proof.
  split; [intros c s u; apply turn_effect|].
  intros im' [[Hs _]|Hread]%(step_cases same_groups any_store); [left|by right].
  by apply changes_same_groups.
Qed.

Lemma prog_step_evolves (im im' : Prog) :
  prog_step im im' → sessions_evolve (d_net im) (d_net im').
Proof. apply (step_respects sessions_evolve), (hub_change_evolve any_groups). Qed.

(** A session only moves forward: across any step of the program it keeps its address,
    stays authenticated, logged out and closed once it is so, what was written to its
    connection stays; and after it was closed nothing more is written: its channel is only
    drained. *)
Theorem sessions_move_forward (im im' : Prog) c u :
  prog_step im im' → sessions (d_net im) !! c = Some u →
  ∃ u', sessions (d_net im') !! c = Some u' ∧ Addr u' = Addr u ∧
    (Authenticated u = true → Authenticated u' = true) ∧
    (loggedOut u = true → loggedOut u' = true) ∧
    u_out u `prefix_of` u_out u' ∧
    (isClosed u = true →
       isClosed u' = true ∧ u_out u' = u_out u ∧ ∃ k, u_C u' = drop k (u_C u)).
Proof.
  intros Hs Hu. destruct (prog_step_evolves im im' Hs c u Hu) as (u' & Hu' & []). by exists u'.
Qed.

(** In every reachable state the channel of every session holds at most the ten messages it
    was made for. *)
Theorem channels_bounded file x (im : Prog) c u :
  reachable file x im → sessions (d_net im) !! c = Some u → (length (u_C u) <= 10)%nat.
Proof.
  intros Hr. change 10%nat with chan_cap. revert c u.
  apply (reachable_invariant channels_fit file x im (hub_change_fit any_groups)); [|done].
  unfold main_setup, Now. by intros c u.
Qed.

(** C34. The gate: a line of a session that has not authenticated, unless it asks to register
    or to log in, has one effect but for the count of lines read (as every line that is not
    blank): the session is told what to do. It reaches neither store
    nor worker, groups, online map or another session, and does not count as a sign of life. *)
Theorem unauthenticated_gate c raw (im : Prog) u :
  sessions (d_net im) !! c = Some u → Authenticated u = false →
  let msg := TrimSpace (decodeInputText raw) in
  msg ≠ "" → HasPrefix (ToLower msg) "register|" = false →
  HasPrefix (ToLower msg) "login|" = false →
  processRawLine c raw im =
    (false, mkDW (d_worker im) (d_store im)
       (SendMsg c (line "请先注册或登录。注册: register|用户名|密码  登录: login|用户名|密码")
          (markInboundMessage (d_net im)))).
Proof.
  intros Hu Ha msg Hm Hr Hl. unfold processRawLine. fold msg.
  destruct (String.eqb_spec msg ""); [done|].
  unfold mbind, M_bind, hub_modify, on_net, zoom, modify. cbn [fst snd].
  rewrite (the_user_eval c (mkDW _ _ _) u) by exact Hu. rewrite Ha. cbn [negb].
  unfold handleAuthCommand. rewrite Hr, Hl. done.
Qed.

Lemma computation_evolves {A} (m : MI A) (im : Prog) :
  moves (im_change any_groups any_store) m → sessions_evolve (d_net im) (d_net (exec m im)).
Proof.
  intros Hm. specialize (Hm im). destruct Hm as [Hm _].
  induction Hm as [|h1 h2 h3 Hc _ IH]; [done|].
  etrans; [by apply (hub_change_evolve any_groups)|done].
Qed.

Lemma changes_evolve {A} (m : MI A) (im : Prog) c u :
  moves (im_change any_groups any_store) m → sessions (d_net im) !! c = Some u →
  ∃ u', sessions (d_net (exec m im)) !! c = Some u' ∧ evolves u u'.
Proof. intros Hm Hu. by apply (computation_evolves m im Hm). Qed.

(** What going offline does to the roster. *)
Lemma Offline_hoare c n a : n ≠ "" →
  hoare (λ im, (im_roster im).2 !! c = Some (n, a)) (Offline c : MI unit)
    (λ _ im, (im_roster im).2 !! c = Some (n, a) ∧ (im_roster im).1 !! n = None).
Proof.
  intros Hn. unfold Offline.
  apply (hoare_frame_bind im_roster (λ r, r.2 !! c = Some (n, a)));
    [apply calm_stop_heartbeat|intros ?].
  eapply hoare_bind; [apply (the_user_hoare (λ r, r.2 !! c = Some (n, a)))|intros u]. cbn.
  eapply hoare_bind.
  { intros im [Hc Hu]. destruct (Hu n a Hc) as [-> _].
    instantiate (1 := λ _ im, (im_roster im).2 !! c = Some (n, a) ∧
                              (im_roster im).1 !! n = None). cbn.
    unfold UnregisterOnline. rewrite (proj2 (String.eqb_neq n "")) by done.
    split; [exact Hc|]. cbn. apply lookup_delete_eq. }
  intros ?. apply (hoare_frame im_roster (λ r, r.2 !! c = Some (n, a) ∧ r.1 !! n = None)).
  apply moves_bind; [apply _|apply calm_broadcast|intros ?]. apply calm_send_json.
Qed.

(** A logout of a session that was not logged out before. *)
Lemma Logout_done c (im : Prog) u :
  sessions (d_net im) !! c = Some u → loggedOut u = false → u_Name u ≠ "" →
  let im' := exec (Logout c) im in
  Logout c im' = (tt, im') ∧ OnlineMap (d_net im') !! u_Name u = None ∧
  ∃ u', sessions (d_net im') !! c = Some u' ∧ u_Name u' = u_Name u ∧ Authenticated u' = Authenticated u ∧
    Addr u' = Addr u ∧ loggedOut u' = true ∧ isClosed u' = true.
Proof.
  intros Hu Hl Hn im'.
  assert (∃ im2, im2 = exec (Offline c) (exec (on_session c set_loggedOut) im) ∧
                 im' = exec (Close c) im2) as (im2 & E2 & E').
  { eexists. split; [done|]. unfold im', Logout, exec, mbind, M_bind.
    rewrite (the_user_eval c im u Hu), Hl. destruct (on_session c _ im) as [[] im1].
    cbn [snd]. by destruct (Offline c im1) as [[] im2]. }
  set (im1 := exec (on_session c set_loggedOut) im) in E2.
  assert (sessions (d_net im1) !! c = Some (set_loggedOut u)) as Hu1
    by (cbn; by rewrite lookup_alter_eq, Hu).
  destruct (changes_evolve (Offline c) im1 c _ (ch_Offline _ any_store c) Hu1) as (u2 & Hu2 & Hev).
  rewrite <- E2 in Hu2.
  assert (sessions (d_net im') !! c = Some (set_isClosed u2)) as Hu'
    by (rewrite E'; cbn; by rewrite lookup_alter_eq, Hu2).
  destruct (Offline_hoare c (u_Name u) (Authenticated u) Hn im1) as [Hw Ho].
  { unfold im_roster, roster_of, who. cbn. by rewrite lookup_fmap, lookup_alter_eq, Hu. }
  rewrite <- E2 in Hw, Ho. unfold im_roster, roster_of, who in Hw, Ho. cbn in Hw, Ho.
  rewrite lookup_fmap, Hu2 in Hw. cbn in Hw. injection Hw as Hname Hauth.
  assert (loggedOut u2 = true) as Hl2 by (by apply (ev_loggedOut _ _ Hev)).
  split_and!.
  - unfold Logout, mbind, M_bind. rewrite (the_user_eval c im' _ Hu'). cbn. by rewrite Hl2.
  - by rewrite E'.
  - eexists. split_and!; [exact Hu'|done|done|exact (ev_addr _ _ Hev)|done|done].
Qed.

(** Logging out happens once and is complete: afterwards the session is closed and its
    name is not online any more, and every further logout - of the reader, of the time
    limit, of a full channel - does nothing. *)
Theorem logout_once c (im : Prog) u :
  sessions (d_net im) !! c = Some u → loggedOut u = false → u_Name u ≠ "" →
  let im' := exec (Logout c) im in
  Logout c im' = (tt, im') ∧ OnlineMap (d_net im') !! u_Name u = None ∧
  ∃ u', sessions (d_net im') !! c = Some u' ∧ u_Name u' = u_Name u ∧
    loggedOut u' = true ∧ isClosed u' = true.
Proof.
  intros Hu Hl Hn im'. destruct (Logout_done c im u Hu Hl Hn) as (? & ? & u' & ? & ? & _ & _ & ? & ?).
  split_and!; [done..|]. by exists u'.
Qed.
End lines.

(** * Witnesses *)

#[local] Existing Instances demo_env demo_json demo_fmt demo_bcrypt demo_gb.

Lemma channels_bounded_witness :
  (∃ u, sessions (d_net alice_online) !! 0%nat = Some u ∧ length (u_C u) = 3%nat) ∧
  ∀ u, sessions (d_net alice_online) !! 0%nat = Some u → (length (u_C u) <= 10)%nat.
Proof.
  split; [eexists; split; by vm_compute|]. intros u Hu.
  apply (channels_bounded None demo_ext alice_online 0 u); [apply alice_reachable|exact Hu].
Defined.

Lemma logout_once_witness :
  let im' := exec (Logout 0) alice_online in
  OnlineMap (d_net alice_online) !! "alice" = Some (mkOnline 0 "10.0.0.1:5000") ∧
  Logout 0 im' = (tt, im') ∧ OnlineMap (d_net im') !! "alice" = None ∧
  ∃ u', sessions (d_net im') !! 0%nat = Some u' ∧ u_Name u' = "alice" ∧
    loggedOut u' = true ∧ isClosed u' = true.
Proof.
  split; [by vm_compute|].
  apply (logout_once 0 alice_online
    (mkSUser "alice" "10.0.0.1:5000" (channel 0 alice_online) true false false None true []));
    by vm_compute.
Defined.

(** A group of alice; bob asks to delete it. *)
Definition group_world : Demo := types 0 "gc|club" both_online.

Lemma group_deleted : groups_of (types 0 "gd|club" group_world) ≠ groups_of group_world.
Proof. by vm_compute. Qed.

(** Deleting the group ran as alice, whose line it was. *)
Lemma groups_change_as_caller_witness :
  acts_as "alice" (groups_of group_world) (groups_of (types 0 "gd|club" group_world)).
Proof.
  destruct (proj1 (groups_change_as_caller group_world) 0%nat ("gd|club" +:+ newline)
    (default (NewUser "") (sessions (d_net group_world) !! 0%nat))) as [E|[_ Ha]].
  - by vm_compute.
  - by destruct group_deleted.
  - exact Ha.
Defined.

Lemma sessions_move_forward_witness :
  let u := default (NewUser "") (sessions (d_net alice_online) !! 0%nat) in
  ∃ u', sessions (d_net (types 0 "exit" alice_online)) !! 0%nat = Some u' ∧
    Addr u' = Addr u ∧ (Authenticated u = true → Authenticated u' = true) ∧
    (loggedOut u = true → loggedOut u' = true) ∧ u_out u `prefix_of` u_out u' ∧
    (isClosed u = true →
       isClosed u' = true ∧ u_out u' = u_out u ∧ ∃ k, u_C u' = drop k (u_C u)).
Proof.
  apply (sessions_move_forward alice_online); [|by vm_compute].
  apply step_read. vm_compute. by eexists.
Defined.

Lemma unauthenticated_gate_witness :
  let im := connect 0 started in
  processRawLine 0 "to|bob|hi" im =
    (false, mkDW (d_worker im) (d_store im)
       (SendMsg 0 (line "请先注册或登录。注册: register|用户名|密码  登录: login|用户名|密码")
          (markInboundMessage (d_net im)))).
Proof.
  apply (unauthenticated_gate 0 "to|bob|hi" (connect 0 started) (set_C
    [line "欢迎，请先注册：register|用户名|密码 或 登录：login|用户名|密码"]
    (NewUser "10.0.0.1:5000"))); by vm_compute.
Defined.
