(* ===== verification/ConnSteps.v ===== *)
(** One connection under concurrency (src/internal/server/conn.go): the goroutine of [Handler],
    that of [ManagerMessage], and the channel [isLive] between them, in the running program.
    The turns are those of [Conn]; between them, and between a turn and its signal on
    [isLive], anything may happen. *)
From S2P Require Import Prelude GoStr Protocol StoreIface Limiter Logic Worker.
From S2P Require Import Storage MemDB Cache Dao Store StoreImpl Group Hub Server Session Commands Conn.
From S2P Require Import ReadProps Config SessionFacts Program Demo SessionProps.

(** * States *)

(** [ManagerMessage]: at the top of its loop, about to send on [isLive], about to run its
    deferred [close(isLive)], returned. *)
Inductive reader := Reading | Signalling | Closing | ReaderDone.

(** [Handler]: in its [select], or returned. *)
Inductive handler := Waiting | HandlerDone.

Section conn_steps.
Context `{GoEnv} {D R : Type} `{Gorm D} `{Redis R} `{Json} `{GoFmt} `{Bcrypt} `{Gb18030}.
Abbreviation Prog := (IM (D := D) (R := R)).
Abbreviation MI := (M Prog).

Record KConn := mkKConn {
  (** The program around it. *)
  k_im : Prog;
  (** The bytes of the connection not read so far. *)
  k_in : string;
  k_reader : reader;
  k_handler : handler;
  (** [isLive]: whether its one place is taken, and whether it is closed. *)
  k_live : bool;
  k_closed : bool;
  (** A send on the closed channel, or closing it again, panics. *)
  k_panic : bool
}.

(** [Handler] has greeted the client and started [ManagerMessage]. *)
Definition kconn_init (im : Prog) (s : string) : KConn :=
  mkKConn im s Reading Waiting false false false.

(** ** The goroutines *)

(** A turn of the loop of [ManagerMessage], up to the signal: where it stands next, and the
    bytes that remain. *)
Definition reader_turn (c : nat) (s : string) : MI (reader * string) :=
  match readRawLine s with
  | ReadErr => Logout c;; mret (Closing, s)
  | ReadTooLong rest => send_msg c (line too_long_text);; mret (Reading, rest)
  | ReadOk raw rest =>
    alive ← processRawLine c raw; mret (if alive : bool then Signalling else Reading, rest)
  end.

(** The next action of [ManagerMessage]; [None] when it is blocked or has returned. *)
Definition reader_act (c : nat) (k : KConn) : option KConn :=
  match k_reader k with
  | Reading =>
    let (r, im) := reader_turn c (k_in k) (k_im k) in
    Some (mkKConn im r.2 r.1 (k_handler k) (k_live k) (k_closed k) (k_panic k))
  | Signalling =>
    if k_closed k
    then Some (mkKConn (k_im k) (k_in k) Signalling (k_handler k) (k_live k) true true)
    else if k_live k then None
    else Some (mkKConn (k_im k) (k_in k) Reading (k_handler k) true false (k_panic k))
  | Closing =>
    Some (mkKConn (k_im k) (k_in k) ReaderDone (k_handler k) (k_live k) true
            (k_panic k || k_closed k))
  | ReaderDone => None
  end.

(** Reading fails - the client is gone, the deadline passed, the session closed the
    connection - or the turn panics and recovers: the user is logged out. *)
Definition reader_fails (c : nat) (k : KConn) : option KConn :=
  match k_reader k with
  | Reading =>
    Some (mkKConn (exec (Logout c) (k_im k)) (k_in k) Closing (k_handler k) (k_live k) (k_closed k)
            (k_panic k))
  | _ => None
  end.

(** The next action of [Handler]: what [isLive] holds, or its end. *)
Definition handler_act (k : KConn) : option KConn :=
  match k_handler k with
  | Waiting =>
    if k_live k
    then Some (mkKConn (k_im k) (k_in k) (k_reader k) Waiting false (k_closed k) (k_panic k))
    else if k_closed k
    then Some (mkKConn (exec Handler_done (k_im k)) (k_in k) (k_reader k) HandlerDone false true
                 (k_panic k))
    else None
  | HandlerDone => None
  end.

(** The time limit of its [select]. *)
Definition handler_times_out (c : nat) (k : KConn) : option KConn :=
  match k_handler k with
  | Waiting =>
    Some (mkKConn (exec (Handler_timeout c) (k_im k)) (k_in k) (k_reader k) HandlerDone (k_live k)
            (k_closed k) (k_panic k))
  | HandlerDone => None
  end.

(** A step of one of the two goroutines. *)
Inductive kconn_act (c : nat) : relation KConn :=
  | act_reader k k' : reader_act c k = Some k' → kconn_act c k k'
  | act_fails k k' : reader_fails c k = Some k' → kconn_act c k k'
  | act_handler k k' : handler_act k = Some k' → kconn_act c k k'
  | act_timeout k k' : handler_times_out c k = Some k' → kconn_act c k k'.

(** Or of the rest of the program. *)
Inductive kconn_step (c : nat) : relation KConn :=
  | kstep_act k k' : k_panic k = false → kconn_act c k k' → kconn_step c k k'
  | kstep_other k im : prog_step (k_im k) im →
      kconn_step c k (mkKConn im (k_in k) (k_reader k) (k_handler k) (k_live k) (k_closed k) (k_panic k)).

(** ** They run the program *)

(** The turn is the one of [Conn.ManagerMessage_turn]. *)
Lemma reader_turn_exec c s (im : Prog) :
  exec (reader_turn c s) im = exec (ManagerMessage_turn c s) im.
Proof. unfold reader_turn, ManagerMessage_turn. by destruct (readRawLine s); rewrite !exec_bind. Qed.

Lemma failed_turn c (im : Prog) : exec (ManagerMessage_turn c "") im = exec (Logout c) im.
Proof. unfold ManagerMessage_turn. change (readRawLine "") with ReadErr. cbv iota. by rewrite exec_bind. Qed.

(** What the rest of the program sees of an action is one of its steps, or nothing. *)
Lemma kconn_act_program c k k' :
  is_Some (sessions (d_net (k_im k)) !! c) → kconn_act c k k' →
  prog_step (k_im k) (k_im k') ∨ k_im k' = k_im k.
Proof.
  intros Hc Hs. destruct Hs as [k k' Ha|k k' Ha|k k' Ha|k k' Ha].
  - unfold reader_act in Ha. destruct (k_reader k).
    + left. destruct (reader_turn c _ _) as [r im] eqn:E. injection Ha as <-. cbn.
      pose proof (reader_turn_exec c (k_in k) (k_im k)) as He. unfold exec at 1 in He.
      rewrite E in He. cbn in He. rewrite He. by apply step_read.
    + right. by repeat case_match; simplify_eq/=.
    + right. by simplify_eq/=.
    + done.
  - unfold reader_fails in Ha. destruct (k_reader k); try done. injection Ha as <-. left. cbn.
    rewrite <- failed_turn. by apply step_read.
  - unfold handler_act in Ha. repeat case_match; simplify_eq/=; [by right|left; apply step_done].
  - unfold handler_times_out in Ha. case_match; simplify_eq/=. left. apply step_timeout.
Qed.

(** * Invariant *)

(** The user of the session has been logged out. *)
Definition logged_out (c : nat) (im : Prog) : Prop :=
  ∃ u, sessions (d_net im) !! c = Some u ∧ loggedOut u = true.

Lemma Logout_logs_out c im : is_Some (sessions (d_net im) !! c) → logged_out c (exec (Logout c) im).
Proof.
  intros [u Hu]. unfold Logout. rewrite exec_bind. unfold eval at 1, exec at 2.
  rewrite (the_user_eval c im u Hu). cbn [fst snd]. destruct (loggedOut u) eqn:El; [by exists u|].
  rewrite exec_bind. set (im1 := exec (on_session c set_loggedOut) im).
  assert (sessions (d_net im1) !! c = Some (set_loggedOut u)) as Hu1
    by (cbn; by rewrite lookup_alter_eq, Hu).
  destruct (changes_evolve (Offline c;; Close c) im1 c (set_loggedOut u)) as (u' & Hu' & Hev); [|done|].
  { apply moves_bind; [apply _|apply (ch_Offline _ any_store)|intros ?]. apply (ch_close _ any_store). }
  exists u'. split; [done|]. by apply (ev_loggedOut _ _ Hev).
Qed.

(** Once a session exists it stays, and so does its logout. *)
Lemma evolved_session c im im' :
  sessions_evolve (d_net im) (d_net im') →
  (is_Some (sessions (d_net im) !! c) → is_Some (sessions (d_net im') !! c)) ∧
  (logged_out c im → logged_out c im').
Proof.
  intros Hev. split.
  - intros [u Hu]. destruct (Hev c u Hu) as (u' & Hu' & _). by exists u'.
  - intros (u & Hu & Hl). destruct (Hev c u Hu) as (u' & Hu' & He). exists u'.
    split; [done|]. by apply (ev_loggedOut _ _ He).
Qed.

Lemma prog_step_session c im im' :
  prog_step im im' → (is_Some (sessions (d_net im) !! c) → is_Some (sessions (d_net im') !! c)) ∧
  (logged_out c im → logged_out c im').
Proof. intros Hs. apply evolved_session. by apply (prog_step_evolves im). Qed.

Lemma Handler_timeout_logs_out c im :
  is_Some (sessions (d_net im) !! c) → logged_out c (exec (Handler_timeout c) im).
Proof.
  intros Hc. unfold Handler_timeout. rewrite !exec_bind.
  assert (∀ im1, logged_out c im1 → logged_out c (exec Handler_done im1)) as Hd by done.
  apply Hd, Logout_logs_out, (evolved_session c im); [|done].
  apply computation_evolves, (ch_send _ any_store).
Qed.

Record kconn_inv (c : nat) (k : KConn) : Prop := {
  ki_session : is_Some (sessions (d_net (k_im k)) !! c);
  ki_panic : k_panic k = false;
  (** The channel is closed by the reader, as the last thing it does. *)
  ki_closed : k_closed k = true ↔ k_reader k = ReaderDone;
  (** Whoever leaves has logged the user out. *)
  ki_reader : k_reader k = Closing ∨ k_reader k = ReaderDone → logged_out c (k_im k);
  ki_handler : k_handler k = HandlerDone → logged_out c (k_im k)
}.

Lemma kconn_inv_init c im s :
  is_Some (sessions (d_net im) !! c) → kconn_inv c (kconn_init im s).
Proof. intros Hc. split; cbn; try done. by intros [|]. Qed.

Lemma reader_turn_leaves c s im :
  is_Some (sessions (d_net im) !! c) →
  (eval (reader_turn c s) im).1 = Closing ∨ (eval (reader_turn c s) im).1 = ReaderDone →
  logged_out c (exec (reader_turn c s) im).
Proof.
  intros Hc. unfold reader_turn. destruct (readRawLine s) as [|rest|raw rest];
    rewrite eval_bind, exec_bind, eval_ret; cbn [fst].
  - intros _. by apply Logout_logs_out.
  - by intros [|].
  - destruct (eval (processRawLine c raw) im); by intros [|].
Qed.

Lemma reader_turn_running c s im : (eval (reader_turn c s) im).1 ≠ ReaderDone.
Proof.
  unfold reader_turn. destruct (readRawLine s) as [|rest|raw rest]; rewrite eval_bind, eval_ret;
    [done..|]. by destruct (eval (processRawLine c raw) im).
Qed.

Lemma kconn_step_inv c k k' : kconn_step c k k' → kconn_inv c k → kconn_inv c k'.
Proof.
  intros Hs [Hc Hp Hcl Hr Hh].
  destruct Hs as [k k' _ Ha|k im Hs].
  2: { destruct (prog_step_session c _ _ Hs) as [Hc' Hl]. split; cbn; auto. }
  assert (is_Some (sessions (d_net (k_im k')) !! c) ∧ (logged_out c (k_im k) → logged_out c (k_im k')))
    as [Hc' Hl].
  { destruct (kconn_act_program c k k' Hc Ha) as [Hs| ->]; [|done].
    destruct (prog_step_session c _ _ Hs). auto. }
  destruct Ha as [k k' Ha|k k' Ha|k k' Ha|k k' Ha].
  - unfold reader_act in Ha. destruct (k_reader k) eqn:Er.
    + pose proof (reader_turn_leaves c (k_in k) (k_im k) Hc) as Ht. unfold eval, exec in Ht.
      destruct (reader_turn c _ _) as [r im] eqn:E. injection Ha as <-. cbn in *.
      assert (r.1 ≠ ReaderDone) as Hr'.
      { assert (r = eval (reader_turn c (k_in k)) (k_im k)) as -> by (unfold eval; by rewrite E).
        apply reader_turn_running. }
      split; cbn; try done; [|auto]. split; [by intros ?%Hcl|done].
    + assert (k_closed k = false) as Ek by (apply not_true_is_false; by intros ?%Hcl).
      rewrite Ek in Ha. destruct (k_live k); [done|].
      injection Ha as <-. split; cbn; auto; done || by intros [|].
    + assert (k_closed k = false) as Ek
        by (apply not_true_is_false; by intros ?%Hcl).
      injection Ha as <-. rewrite Ek, Hp. split; cbn; auto; done.
    + done.
  - unfold reader_fails in Ha. destruct (k_reader k) eqn:Er; try done. injection Ha as <-.
    split; cbn in *; try done; [|intros _; by apply Logout_logs_out|auto].
    split; [by intros ?%Hcl|done].
  - unfold handler_act in Ha. destruct (k_handler k) eqn:Eh; [|done].
    destruct (k_live k); [|destruct (k_closed k) eqn:Ek; [|done]]; injection Ha as <-;
      split; cbn in *; auto; try done.
    intros _. apply Hl, Hr. right. by apply Hcl.
  - unfold handler_times_out in Ha. destruct (k_handler k) eqn:Eh; [|done]. injection Ha as <-.
    split; cbn in *; auto. intros _. by apply Handler_timeout_logs_out.
Qed.

Lemma kconn_reachable_inv c im s k :
  is_Some (sessions (d_net im) !! c) → rtc (kconn_step c) (kconn_init im s) k → kconn_inv c k.
Proof.
  intros Hc Hr. pose proof (kconn_inv_init c im s Hc) as Hi. revert Hi.
  induction Hr as [|k1 k2 k3 H12 _ IH]; [done|]. intros Hi. by apply IH, (kconn_step_inv c k1).
Qed.

(** C12. A connection is torn down in order, however its two goroutines and the rest of the
    program interleave: nothing is ever sent on the closed [isLive] and it is not closed
    twice, for its reader closes it and only as its last action; and whichever of the two
    goroutines leaves - the client gone, a panic, the time limit - has logged the user out.
    Seen from outside, the two take steps of the program. *)
Theorem connection_torn_down_in_order c im s k :
  is_Some (sessions (d_net im) !! c) → rtc (kconn_step c) (kconn_init im s) k →
  k_panic k = false ∧ (k_closed k = true ↔ k_reader k = ReaderDone) ∧
  (k_reader k = ReaderDone ∨ k_handler k = HandlerDone → logged_out c (k_im k)) ∧
  rtc prog_step im (k_im k).
Proof.
  intros Hc Hr. pose proof (kconn_reachable_inv c im s k Hc Hr) as [_ Hp Hcl Hrd Hh].
  split_and!; [done|done|by intros [?|?]; auto|].
  assert (∀ k0, kconn_inv c k0 → rtc (kconn_step c) k0 k → rtc prog_step (k_im k0) (k_im k)) as Hrun.
  { clear. intros k0 Hi Hr. induction Hr as [|k1 k2 k3 H12 _ IH]; [done|].
    pose proof (kconn_step_inv c k1 k2 H12 Hi) as Hi2. specialize (IH Hi2).
    destruct H12 as [k1 k2 _ Ha|k1 im Hs]; [|by eapply rtc_l].
    destruct (kconn_act_program c k1 k2 (ki_session c k1 Hi) Ha) as [Hs| <-];
      [by eapply rtc_l|done]. }
  by apply (Hrun (kconn_init im s)); [apply kconn_inv_init|].
Qed.

(** * The goroutines end *)

(** How much the two goroutines have left to do at most. *)
Definition kwork (k : KConn) : nat :=
  3 * String.length (k_in k) +
  match k_reader k with Signalling => 4 | Reading => 2 | Closing => 1 | ReaderDone => 0 end +
  (if k_live k then 1 else 0) + match k_handler k with Waiting => 1 | HandlerDone => 0 end.

Lemma reader_turn_work c s im :
  let r := eval (reader_turn c s) im in
  (r.1 = Closing ∧ r.2 = s) ∨
  (r.1 = Reading ∨ r.1 = Signalling) ∧ (String.length r.2 < String.length s)%nat.
Proof.
  unfold reader_turn. pose proof (readRawLine_shorter s) as Hs.
  destruct (readRawLine s) as [|rest|raw rest]; rewrite eval_bind, eval_ret; cbn.
  - by left.
  - right. split; [by left|]. apply Hs. by left.
  - right. split; [destruct (eval (processRawLine c raw) im); auto|]. apply Hs. right. by exists raw.
Qed.

Lemma kconn_act_work c k k' : k_panic k' = false → kconn_act c k k' → (kwork k' < kwork k)%nat.
Proof.
  intros Hp Ha. unfold kwork. destruct Ha as [k k' Ha|k k' Ha|k k' Ha|k k' Ha].
  - unfold reader_act in Ha. destruct (k_reader k) eqn:Er; [|by repeat case_match; simplify_eq/=; lia..|done].
    pose proof (reader_turn_work c (k_in k) (k_im k)) as Hw. unfold eval in Hw.
    destruct (reader_turn c _ _) as [[r rest] im]. cbn in *. injection Ha as <-. cbn.
    destruct Hw as [[-> ->]|[[-> | ->] Hl]]; lia.
  - unfold reader_fails in Ha. destruct (k_reader k); simplify_eq/=; lia.
  - unfold handler_act in Ha. repeat case_match; simplify_eq/=; lia.
  - unfold handler_times_out in Ha. destruct (k_handler k); simplify_eq/=; lia.
Qed.

Lemma kconn_acts_bounded c n k k' :
  kconn_inv c k → nsteps (kconn_act c) n k k' → (n + kwork k' <= kwork k)%nat ∧ kconn_inv c k'.
Proof.
  intros Hi Hn. revert Hi. induction Hn as [k|n k1 k2 k3 H12 _ IH]; intros Hi; [by split; [lia|]|].
  assert (kconn_inv c k2) as Hi2.
  { apply (kconn_step_inv c k1); [|done]. apply kstep_act; [apply (ki_panic c k1 Hi)|done]. }
  destruct (IH Hi2). pose proof (kconn_act_work c k1 k2 (ki_panic c k2 Hi2) H12). split; [lia|done].
Qed.

(** C28. Every connection ends: from any state it can reach, its two goroutines take at most
    [kwork k] more actions, whatever the scheduling (so the time limit and the read deadline,
    which end the waiting on the client, are all that is needed); and when neither can move,
    [Handler] has returned, and so has the reader - or it is stuck sending on an [isLive] that
    is full and that nobody will read again. *)
Theorem connection_ends c im s k :
  is_Some (sessions (d_net im) !! c) → rtc (kconn_step c) (kconn_init im s) k →
  (∀ n k', nsteps (kconn_act c) n k k' → (n <= kwork k)%nat) ∧
  (∀ n k', nsteps (kconn_act c) n k k' → (∀ k'', ¬ kconn_act c k' k'') →
     k_handler k' = HandlerDone ∧
     (k_reader k' = ReaderDone ∨ k_reader k' = Signalling ∧ k_live k' = true)).
Proof.
  intros Hc Hr. pose proof (kconn_reachable_inv c im s k Hc Hr) as Hi. split.
  - intros n k' Hn. pose proof (kconn_acts_bounded c n k k' Hi Hn). lia.
  - intros n k' Hn Hstuck. destruct (kconn_acts_bounded c n k k' Hi Hn) as [_ Hi'].
    assert (k_handler k' = HandlerDone) as Hh.
    { destruct (k_handler k') eqn:E; [|done]. exfalso. eapply Hstuck, act_timeout.
      unfold handler_times_out. by rewrite E. }
    split; [done|]. destruct (k_reader k') eqn:E; [|right|exfalso|by left].
    + exfalso. eapply Hstuck, act_fails. unfold reader_fails. by rewrite E.
    + split; [done|]. destruct (k_live k') eqn:El; [done|]. exfalso.
      assert (is_Some (reader_act c k')) as [k'' Ha].
      { unfold reader_act. rewrite E, El. case_match; by eexists. }
      by eapply Hstuck, act_reader.
    + eapply Hstuck, act_reader. unfold reader_act. by rewrite E.
Qed.

(** A reader stuck on [isLive] stays there. *)
Lemma stuck_reader c k k' :
  k_handler k = HandlerDone → k_reader k = Signalling → k_live k = true → k_closed k = false →
  rtc (kconn_step c) k k' →
  k_handler k' = HandlerDone ∧ k_reader k' = Signalling ∧ k_closed k' = false.
Proof.
  intros Hh Hr Hl Hc Hs. induction Hs as [|k1 k2 k3 H12 _ IH]; [done|].
  destruct H12 as [k1 k2 _ Ha|k1 im _]; [|by apply IH]. exfalso. destruct Ha as [k1 k2 Ha|k1 k2 Ha|k1 k2 Ha|k1 k2 Ha].
  - unfold reader_act in Ha. by rewrite Hr, Hc, Hl in Ha.
  - unfold reader_fails in Ha. by rewrite Hr in Ha.
  - unfold handler_act in Ha. by rewrite Hh in Ha.
  - unfold handler_times_out in Ha. by rewrite Hh in Ha.
Qed.

(** The reader of a user who is kicked can hang for ever: when two lines in a row keep the
    connection alive, and the time limit strikes before [Handler] has received the first
    signal, the user is logged out while the reader is about to send the second one on an
    [isLive] that is full - and whatever happens afterwards it stays there, and never closes
    the channel. *)
Theorem kicked_reader_hangs c im s s1 im1 s2 im2 :
  is_Some (sessions (d_net im) !! c) →
  reader_turn c s im = ((Signalling, s1), im1) →
  reader_turn c s1 im1 = ((Signalling, s2), im2) →
  ∃ k, rtc (kconn_step c) (kconn_init im s) k ∧ logged_out c (k_im k) ∧
    ∀ k', rtc (kconn_step c) k k' →
      k_handler k' = HandlerDone ∧ k_reader k' = Signalling ∧ k_closed k' = false.
Proof.
  intros Hc E1 E2.
  set (k := mkKConn (exec (Handler_timeout c) im2) s2 Signalling HandlerDone true false false).
  assert (rtc (kconn_step c) (kconn_init im s) k) as Hk.
  { eapply rtc_l; [apply kstep_act, act_reader; [done|]; cbn; by rewrite E1|].
    eapply rtc_l; [by apply kstep_act, act_reader|].
    eapply rtc_l; [apply kstep_act, act_reader; [done|]; cbn; by rewrite E2|].
    eapply rtc_l; [by apply kstep_act, act_timeout|]. done. }
  exists k. split_and!; [done| |intros k'; by apply stuck_reader].
  apply (ki_handler c k); [|done]. by eapply kconn_reachable_inv.
Qed.
End conn_steps.

(** * Witnesses *)

#[local] Existing Instances demo_env demo_json demo_fmt demo_bcrypt demo_gb.

(** Schedules of the two goroutines. *)
Inductive kevent := KReader | KFails | KHandler | KTimeout.

Definition kperform (c : nat) (e : kevent) (k : KConn) : option (KConn (D := MemDB) (R := gmap string string)) :=
  match e with
  | KReader => reader_act c k
  | KFails => reader_fails c k
  | KHandler => handler_act k
  | KTimeout => handler_times_out c k
  end.

Fixpoint kperforms (c : nat) (es : list kevent) (k : KConn) : option KConn :=
  match es with [] => Some k | e :: es' => k' ← kperform c e k; kperforms c es' k' end.

Lemma kperforms_reachable c es k k' :
  kconn_inv c k → kperforms c es k = Some k' → rtc (kconn_step c) k k'.
Proof.
  revert k. induction es as [|e es IH]; intros k Hi; cbn; [by intros [= ->]|].
  destruct (kperform c e k) as [k1|] eqn:E; cbn; [|done]. intros Hs.
  assert (kconn_step c k k1) as Hk.
  { apply kstep_act; [apply (ki_panic c k Hi)|]. destruct e; cbn in E; by constructor. }
  eapply rtc_l; [exact Hk|]. apply IH; [|done]. by apply (kconn_step_inv c k).
Qed.

Abbreviation DemoConn := (KConn (D := MemDB) (R := gmap string string)).

(** alice types two commands, on connection 0. *)
Definition two_lines : DemoConn :=
  kconn_init alice_online ("who" +:+ newline +:+ "who" +:+ newline).

(** Both lines are read and signalled, then the client leaves. *)
Definition left_in_time : DemoConn :=
  default two_lines
    (kperforms 0 [KReader; KReader; KHandler; KReader; KReader; KFails; KReader; KHandler; KHandler]
       two_lines).

Lemma alice_present : is_Some (sessions (d_net alice_online) !! 0%nat).
Proof. vm_compute. by eexists. Qed.

Lemma two_lines_reach es k :
  kperforms 0 es two_lines = Some k → rtc (kconn_step 0) two_lines k.
Proof. apply kperforms_reachable, kconn_inv_init, alice_present. Qed.

Lemma performed (o : option DemoConn) (d : DemoConn) :
  match o with Some _ => true | None => false end = true → o = Some (default d o).
Proof. by destruct o. Qed.

Lemma left_reachable : rtc (kconn_step 0) two_lines left_in_time.
Proof.
  apply (two_lines_reach [KReader; KReader; KHandler; KReader; KReader; KFails; KReader; KHandler; KHandler]),
    performed. by vm_compute.
Qed.

Lemma connection_torn_down_in_order_witness :
  (k_reader left_in_time, k_handler left_in_time, k_closed left_in_time) =
    (ReaderDone, HandlerDone, true) ∧
  k_panic left_in_time = false ∧
  (k_closed left_in_time = true ↔ k_reader left_in_time = ReaderDone) ∧
  (k_reader left_in_time = ReaderDone ∨ k_handler left_in_time = HandlerDone →
   logged_out 0 (k_im left_in_time)) ∧
  rtc prog_step alice_online (k_im left_in_time).
Proof.
  split; [by vm_compute|].
  apply (connection_torn_down_in_order 0 alice_online ("who" +:+ newline +:+ "who" +:+ newline)
           left_in_time alice_present left_reachable).
Defined.

Lemma connection_ends_witness :
  kwork two_lines = 27%nat ∧
  (∀ n k', nsteps (kconn_act 0) n two_lines k' → (n <= kwork two_lines)%nat) ∧
  (∀ n k', nsteps (kconn_act 0) n two_lines k' → (∀ k'', ¬ kconn_act 0 k' k'') →
     k_handler k' = HandlerDone ∧
     (k_reader k' = ReaderDone ∨ k_reader k' = Signalling ∧ k_live k' = true)).
Proof.
  split; [by vm_compute|].
  apply (connection_ends 0 alice_online ("who" +:+ newline +:+ "who" +:+ newline) two_lines
           alice_present). apply rtc_refl.
Defined.

Lemma kicked_reader_hangs_witness :
  ∃ k, rtc (kconn_step 0) two_lines k ∧ logged_out 0 (k_im k) ∧
    ∀ k', rtc (kconn_step 0) k k' →
      k_handler k' = HandlerDone ∧ k_reader k' = Signalling ∧ k_closed k' = false.
Proof.
  set (l := "who" +:+ newline). set (r1 := reader_turn 0 (l +:+ l) alice_online).
  set (r2 := reader_turn 0 l r1.2).
  apply (kicked_reader_hangs 0 alice_online (l +:+ l) l r1.2 "" r2.2 alice_present); by vm_compute.
Defined.
