(* ===== verification/ConfigProps.v ===== *)
(** The properties of the start-up: environment files, settings and the outcomes of [main]. *)
From S2P Require Import Prelude GoStr Protocol StoreIface Limiter Logic Worker.
From S2P Require Import Storage MemDB Cache Store StoreImpl Group Hub Server Session Commands Conn.
From S2P Require Import Config Program.

(** One assignment of an environment file, or none. *)
Definition assigns (env env' : gmap string string) : Prop :=
  env' = env ∨ ∃ k v, k ≠ "" ∧ env !! k = None ∧ env' = <[k := v]> env.

Lemma env_line_assigns text env : assigns env (env_line text env).
Proof.
  unfold env_line. destruct (_ || _); [by left|].
  destruct (SplitN _ _ _) as [|k [|v [|? ?]]]; try by left.
  destruct (String.eqb_spec (TrimSpace k) ""); [by left|].
  destruct (env !! TrimSpace k) eqn:E; [by left|]. unfold Setenv.
  case_match; [by left|right]. by eexists _, _.
Qed.

Lemma assigns_subseteq env env' : assigns env env' → env ⊆ env'.
Proof. intros [->|(k & v & _ & Hk & ->)]; [done|]. by apply insert_subseteq. Qed.

Lemma load_one_subseteq content env : env ⊆ loadOneEnvFileIfUnset content env.
Proof.
  destruct content as [text|]; [|done]. cbn. generalize (scan (file_lines text)) as l.
  intros l. revert env. induction l as [|x l IH]; intros env; [done|]. cbn.
  etrans; [apply assigns_subseteq, env_line_assigns|apply IH].
Qed.

(** Environment files only fill in: whatever the files contain, a variable that is set
    when the program starts keeps its value, and so does one set by an earlier file or line. *)
Theorem env_never_overrides contents1 contents2 env :
  env ⊆ LoadEnvFilesIfUnset contents1 env ∧
  LoadEnvFilesIfUnset contents1 env ⊆ LoadEnvFilesIfUnset (contents1 ++ contents2) env.
Proof.
  assert (∀ l e, e ⊆ LoadEnvFilesIfUnset l e) as Hl.
  { unfold LoadEnvFilesIfUnset. induction l as [|c l IH]; intros e; [done|]. cbn.
    etrans; [apply load_one_subseteq|apply IH]. }
  split; [apply Hl|]. unfold LoadEnvFilesIfUnset at 2. rewrite foldl_app. apply Hl.
Qed.

(** * Settings *)

Lemma positive_or_positive v d : 0 < d → 0 < positive_or v d.
Proof. intros Hd. unfold positive_or. repeat case_match; bool_to_prop; done || lia. Qed.

(** The seconds a setting asks for: a positive number, or the default. *)
Definition asked (v : string) (dflt : Z) : Z :=
  match Atoi v with Some n => if 0 <? n then n * Second else dflt | None => dflt end.

Lemma seconds_or_asked v d :
  Atoi "" = None → in_int64 d → seconds_or v d = wrap64 (asked v d).
Proof.
  intros H0 Hd. unfold seconds_or, asked. destruct (String.eqb_spec v "") as [->|].
  - by rewrite H0, wrap64_id.
  - destruct (Atoi v); [|by rewrite wrap64_id]. case_match; [done|by rewrite wrap64_id].
Qed.

(** The settings in force: retry and connection limits are positive whatever the
    environment says, and the durations are what was asked for in seconds as long as that
    fits a [time.Duration]; beyond, the multiplication wraps around, and the window of the
    limiter can become negative. *)
Theorem settings_in_force env :
  0 < max_retry env ∧ 0 < conn_rate_limit env ∧
  retry_delay env = wrap64 (asked (env_get "IM_RETRY_DELAY_SEC" env) (2 * Second)) ∧
  conn_rate_window env =
    wrap64 (asked (TrimSpace (env_get "IM_CONN_RATE_WINDOW_SEC" env)) (60 * Second)) ∧
  conn_rate_window {["IM_CONN_RATE_WINDOW_SEC" := "9223372037"]} < 0.
Proof.
  split_and!; [by apply positive_or_positive..| | |by vm_compute].
  - by apply seconds_or_asked.
  - by apply seconds_or_asked.
Qed.

(** * The start of the process *)



Section start.
Context `{GoEnv} {D R : Type} `{Gorm D} `{Redis R} `{Json} `{GoFmt} `{Bcrypt} `{Gb18030}.
Context `{!Dial (D := D) (R := R)}.




End start.
