(* ===== verification/AccountProps.v ===== *)
(** The properties of login and renaming, and what a registration meets on its way; its
    outcomes are in [AccountsKept]. *)
From S2P Require Import Prelude GoStr Protocol StoreIface Limiter Logic Worker.
From S2P Require Import Storage MemDB Cache Dao Store StoreImpl Group Hub Server Session Commands Conn.
From S2P Require Import Config SessionFacts Program Demo.

Section accounts.
Context `{GoEnv} {D R : Type} `{Gorm D} `{Redis R} `{Json} `{GoFmt} `{Bcrypt} `{Gb18030}.
Abbreviation Prog := (IM (D := D) (R := R)).
Abbreviation MI := (M Prog).
Abbreviation calm := (moves (on im_roster eq)).

(** * Steps *)

(** A call on the outer world. *)
Definition outer (im : Prog) : Ext D R := sw_ext (d_store im).

Lemma world_eval {A} (m : M (Ext D R) A) (im : Prog) :
  eval (world m : MI A) im = eval m (outer im).
Proof.
  unfold eval, world, on_store, zoom, ext, outer. munfold.
  by destruct (m (sw_ext (d_store im))).
Qed.

Lemma world_net {A} (m : M (Ext D R) A) (im : Prog) :
  d_net (exec (world m : MI A) im) = d_net im.
Proof.
  unfold exec, world, on_store, zoom, ext. munfold. by destruct (m (sw_ext (d_store im))).
Qed.

Lemma name_online_eval n (im : Prog) :
  eval (name_online n : MI bool) im = bool_decide (is_Some (OnlineMap (d_net im) !! n)).
Proof.
  unfold name_online, ListOnlineUsers. rewrite !eval_bind, !eval_ret, world_eval.
  unfold range_map. cbn -[go_order].
  set (l := go_order _ _). assert (l ≡ₚ map_to_list (OnlineMap (d_net im))) as Hl
    by apply go_order_perm. clearbody l.
  apply eq_bool_prop_intro. rewrite !Is_true_true, existsb_exists_stdpp, bool_decide_eq_true.
  split.
  - intros ([n' a] & Hin & Heq%String.eqb_eq). cbn in Heq. subst n'. apply list_elem_of_fmap in Hin as ([k i] & [= -> _] & Hin).
    rewrite Hl in Hin. apply elem_of_map_to_list in Hin. by eexists.
  - intros [i Hi]. exists (n, o_Addr i). split; [|apply String.eqb_refl].
    apply list_elem_of_fmap. exists (n, i). split; [done|]. rewrite Hl.
    by apply elem_of_map_to_list.
Qed.

(** What follows the registration in [Online] leaves the roster alone. *)
Lemma Online_rest c name :
  calm (srv_EnqueuePendingForUser name 500;;
        r ← BroadcastSystemEvent (name +:+ " ✅ 已上线！") name;
        send_json c (system_note r.1 r.2 "----------------👏欢迎来到 8H-Go 聊天室----------------");;
        startOnlineHeartbeat c : MI unit).
Proof.
  apply moves_bind; [apply _|apply calm_enqueue_pending|intros ?].
  apply moves_bind; [apply _|apply calm_broadcast|intros ?].
  apply moves_bind; [apply _|apply calm_send_json|intros ?]. apply calm_start_heartbeat.
Qed.

(** Entering: the session gets name and rights, and the map its entry. *)
Lemma enter_roster c name (im : Prog) u :
  sessions (d_net im) !! c = Some u → name ≠ "" →
  im_roster (exec (enter c name) im) =
    (<[name := mkOnline c (Addr u)]> (OnlineMap (d_net im)),
     <[c := (name, true)]> (who (d_net im))).
Proof.
  intros Hu Hn. unfold enter, Online. rewrite exec_bind.
  set (im1 := exec (on_session c _) im).
  assert (sessions (d_net im1) !! c = Some (set_Authenticated true (set_Name name u))) as Hu1
    by (cbn; by rewrite lookup_alter_eq, Hu).
  rewrite exec_bind. replace (eval (the_user c) im1) with (set_Authenticated true (set_Name name u))
    by (unfold the_user, hub, gets, eval; by rewrite Hu1).
  change (exec (the_user c) im1) with im1. rewrite exec_bind.
  etrans; [symmetry; apply (Online_rest c name)|].
  unfold RegisterOnline. cbn [u_Name set_Authenticated set_Name].
  rewrite (proj2 (String.eqb_neq name "")) by done.
  change (im_roster _) with (<[name := mkOnline c (Addr u)]> (OnlineMap (d_net im)),
    who (update_session c (λ u, set_Authenticated true (set_Name name u)) (d_net im))).
  f_equal. rewrite who_update, Hu. cbn. apply map_eq. intros i.
  destruct (decide (c = i)) as [<-|Hi].
  - rewrite lookup_alter_eq, lookup_insert_eq. unfold who. by rewrite lookup_fmap, Hu.
  - by rewrite lookup_alter_ne, lookup_insert_ne.
Qed.
(** * Login and registration *)

(** The roster after a user entered. *)
Definition entered (c : nat) (name addr : string) (im im' : Prog) : Prop :=
  OnlineMap (d_net im') = <[name := mkOnline c addr]> (OnlineMap (d_net im)) ∧
  who (d_net im') = <[c := (name, true)]> (who (d_net im)).

Lemma entered_roster c name addr (im im' : Prog) :
  im_roster im' = (<[name := mkOnline c addr]> (OnlineMap (d_net im)),
                   <[c := (name, true)]> (who (d_net im))) → entered c name addr im im'.
Proof. by intros [= ? ?]. Qed.

(** The outcomes of a login. *)
Lemma Login_cases c name0 pw (im : Prog) u :
  sessions (d_net im) !! c = Some u →
  let name := TrimSpace name0 in
  let im' := exec (Login c name0 pw) im in
  match eval (Login c name0 pw) im with
  | Some _ => im_roster im' = im_roster im
  | None => name ≠ "" ∧ OnlineMap (d_net im) !! name = None ∧
      (∃ su, eval (GetUserByName name) (outer im) = inr su ∧
             bc_ok (PasswordHash su) pw = true) ∧
      entered c name (Addr u) im im'
  end.
Proof.
  intros Hu name im'. unfold im', Login. clear im'. fold name.
  destruct (String.eqb_spec name "") as [|Hn]; [done|].
  rewrite eval_bind, exec_bind, world_eval. set (im1 := exec (world _) im).
  assert (d_net im1 = d_net im) as E1 by apply world_net.
  destruct (eval (GetUserByName name) (outer im)) as [e|su] eqn:Eu.
  { unfold im_roster. cbn. by rewrite E1. }
  destruct (bc_ok (PasswordHash su) pw) eqn:Epw; cbn [negb].
  2: { unfold im_roster. cbn. by rewrite E1. }
  rewrite eval_bind, exec_bind, name_online_eval. set (im2 := exec (name_online name) im1).
  assert (im_roster im2 = im_roster im) as E2.
  { etrans; [symmetry; apply calm_name_online|]. unfold im_roster. by rewrite E1. }
  rewrite E1. destruct (bool_decide_reflect (is_Some (OnlineMap (d_net im) !! name)))
    as [|Hfree]; [done|].
  rewrite !eval_bind, eval_ret.
  split_and!; [done|by apply eq_None_not_Some|by exists su|].
  assert (sessions (d_net im2) !! c = Some u) as Hu2.
  { unfold im2, name_online, ListOnlineUsers. rewrite !exec_bind. cbn [exec mret M_ret snd].
    change (sessions (d_net (exec (world (range_map (OnlineMap (d_net im1)))) im1)) !! c = Some u).
    by rewrite world_net, E1. }
  apply entered_roster. rewrite exec_bind. etrans.
  { symmetry. apply (moves_bind (on im_roster eq)); [apply calm_world|]. intros ?. apply moves_ret, _. }
  rewrite (enter_roster c name im2 u) by done.
  assert (OnlineMap (d_net im2) = OnlineMap (d_net im) ∧ who (d_net im2) = who (d_net im)) as [-> ->]
    by (unfold im_roster, roster_of in E2; by injection E2).
  done.
Qed.

(** The answer of a login, test by test. *)
Lemma Login_answer c name0 pw (im : Prog) :
  let name := TrimSpace name0 in
  eval (Login c name0 pw) im =
    if String.eqb name "" then Some (Err "用户名不能为空")
    else match eval (GetUserByName name) (outer im) with
         | inl _ => Some (Err "用户不存在，请先注册")
         | inr su =>
           if negb (bc_ok (PasswordHash su) pw) then Some (Err "密码错误")
           else if bool_decide (is_Some (OnlineMap (d_net im) !! name))
                then Some (Err "该用户已在其他连接登录") else None
         end.
Proof.
  intros name. unfold Login. fold name. destruct (String.eqb name ""); [done|].
  rewrite eval_bind, world_eval.
  destruct (eval (GetUserByName name) (outer im)) as [e|su]; [done|].
  destruct (negb _); [done|]. rewrite eval_bind, name_online_eval, world_net.
  case_bool_decide; [done|]. by rewrite !eval_bind, eval_ret.
Qed.

(** C32. Login lets in exactly who may come in: it succeeds if and only if the trimmed name is
    not empty and not online, and an account of that name is found (in cache or database)
    whose hash accepts the password - whatever status is stored with it, and whoever the
    session was before; otherwise it answers with the error of the first test that fails, in
    the order name, account, password, online. After a success the session bears that name,
    is authenticated and online under it, and nobody else's name or entry changed; after a
    failure no name, right or entry changed at all. *)
Theorem login_outcomes c name0 pw (im : Prog) u :
  sessions (d_net im) !! c = Some u →
  let name := TrimSpace name0 in
  let im' := exec (Login c name0 pw) im in
  (eval (Login c name0 pw) im = None ↔
     name ≠ "" ∧ OnlineMap (d_net im) !! name = None ∧
     ∃ su, eval (GetUserByName name) (outer im) = inr su ∧ bc_ok (PasswordHash su) pw = true) ∧
  eval (Login c name0 pw) im =
    (if String.eqb name "" then Some (Err "用户名不能为空")
     else match eval (GetUserByName name) (outer im) with
          | inl _ => Some (Err "用户不存在，请先注册")
          | inr su =>
            if negb (bc_ok (PasswordHash su) pw) then Some (Err "密码错误")
            else if bool_decide (is_Some (OnlineMap (d_net im) !! name))
                 then Some (Err "该用户已在其他连接登录") else None
          end) ∧
  match eval (Login c name0 pw) im with
  | Some _ => im_roster im' = im_roster im
  | None => entered c name (Addr u) im im'
  end.
Proof.
  intros Hu name im'. pose proof (Login_cases c name0 pw im u Hu) as Hc. cbv zeta in Hc.
  fold name im' in Hc. split; [|split; [apply Login_answer|destruct (eval (Login c name0 pw) im); apply Hc]].
  split; [intros E; rewrite E in Hc; naive_solver|].
  intros (Hn & Ho & su & Hsu & Hpw). rewrite Login_answer. fold name.
  apply String.eqb_neq in Hn as ->. by rewrite Hsu, Hpw, Ho.
Qed.

Lemma name_online_sessions n (im : Prog) :
  sessions (d_net (exec (name_online n : MI bool) im)) = sessions (d_net im).
Proof.
  unfold name_online, ListOnlineUsers. rewrite !exec_bind. cbn [exec mret M_ret snd].
  change (sessions (d_net (exec (world (range_map (OnlineMap (d_net im))) : MI _) im))
          = sessions (d_net im)).
  by rewrite world_net.
Qed.

(** The world when a registration looks its name up (the check whether it is online took one
    iteration order), and when it creates the account. *)
Definition looking (im : Prog) : Ext D R := set_tick (S (x_tick (outer im))) (outer im).
Definition creating (name : string) (im : Prog) : Ext D R :=
  exec (GetUserByName name) (looking im).

Lemma world_outer {A} (m : M (Ext D R) A) (im : Prog) :
  outer (exec (world m : MI A) im) = exec m (outer im).
Proof.
  unfold exec, world, on_store, zoom, ext, outer. munfold. by destruct (m (sw_ext (d_store im))).
Qed.

Lemma name_online_outer n (im : Prog) :
  outer (exec (name_online n : MI bool) im) = looking im.
Proof.
  unfold name_online, ListOnlineUsers. rewrite !exec_bind. cbn [exec mret M_ret snd].
  change (outer (exec (world (range_map (OnlineMap (d_net im))) : MI _) im) = looking im).
  by rewrite world_outer.
Qed.

(** The outcomes of a registration: which calls it made on accounts, and what became of the
    roster. *)
Lemma Register_cases c name0 pw (im : Prog) u :
  sessions (d_net im) !! c = Some u →
  let name := TrimSpace name0 in
  let im' := exec (Register c name0 pw) im in
  match eval (Register c name0 pw) im with
  | Some _ => im_roster im' = im_roster im ∧
      (outer im' = outer im ∨ outer im' = looking im ∨ outer im' = creating name im ∨
       ∃ v e, eval (CreateUser (Some v)) (creating name im) = Some e ∧
              outer im' = exec (CreateUser (Some v)) (creating name im))
  | None => name ≠ "" ∧ ContainsAny name name_chars = false ∧
      OnlineMap (d_net im) !! name = None ∧
      (∃ e, eval (GetUserByName name) (looking im) = inl e) ∧
      entered c name (Addr u) im im' ∧
      ∃ hash im4, let create := CreateUser (Some (mkUser 0 name hash "" "" 0 0 0)) in
        bc_ok hash pw = true ∧ eval create (creating name im) = None ∧
        outer im4 = exec create (creating name im) ∧ im' = exec (enter c name) im4
  end.
Proof.
  intros Hu name im'. unfold im', Register. clear im'. fold name.
  destruct (String.eqb_spec name "") as [|Hn]; [by split; [|left]|]. cbn [orb].
  destruct (ContainsAny name name_chars) eqn:Echars; [by split; [|left]|].
  rewrite eval_bind, exec_bind, name_online_eval. set (im1 := exec (name_online name) im).
  assert (im_roster im1 = im_roster im) as E1 by (symmetry; apply calm_name_online).
  assert (sessions (d_net im1) = sessions (d_net im)) as S1 by apply name_online_sessions.
  assert (outer im1 = looking im) as O1 by apply name_online_outer.
  destruct (bool_decide_reflect (is_Some (OnlineMap (d_net im) !! name)))
    as [|Hfree]; [by split; [|right; left]|].
  rewrite eval_bind, exec_bind, world_eval, O1. set (im2 := exec (world _) im1).
  assert (d_net im2 = d_net im1) as E2 by apply world_net.
  assert (im_roster im2 = im_roster im) as R2 by (rewrite <- E1; unfold im_roster; by rewrite E2).
  assert (outer im2 = creating name im) as O2 by (unfold im2; by rewrite world_outer, O1).
  destruct (eval (GetUserByName name) (looking im)) as [e|su] eqn:Eu;
    [|by split; [|right; right; left]].
  rewrite eval_bind, exec_bind, world_eval, O2. set (im3 := exec (world (gets id)) im2).
  assert (d_net im3 = d_net im2) as E3 by apply world_net.
  assert (im_roster im3 = im_roster im) as R3 by (rewrite <- R2; unfold im_roster; by rewrite E3).
  assert (outer im3 = creating name im) as O3 by (unfold im3; by rewrite world_outer, O2).
  destruct (bc_hash _ pw) as [e'|hash] eqn:Eh; [by split; [|right; right; left]|].
  rewrite eval_bind, exec_bind, world_eval, O3. set (im4 := exec (world _) im3).
  assert (d_net im4 = d_net im3) as E4 by apply world_net.
  assert (im_roster im4 = im_roster im) as R4 by (rewrite <- R3; unfold im_roster; by rewrite E4).
  assert (outer im4 = exec (CreateUser (Some (mkUser 0 name hash "" "" 0 0 0))) (creating name im))
    as O4 by (unfold im4; by rewrite world_outer, O3).
  destruct (eval (CreateUser _) (creating name im)) as [e'|] eqn:Ec.
  { split; [done|]. do 3 right. by eexists _, _. }
  rewrite eval_bind, eval_ret, exec_bind.
  change (exec (mret None) (exec (enter c name) im4)) with (exec (enter c name) im4).
  split_and!; [done|done|by apply eq_None_not_Some|by exists e| |].
  - apply entered_roster. rewrite (enter_roster c name im4 u) by (done || by rewrite E4, E3, E2, S1).
    assert (OnlineMap (d_net im4) = OnlineMap (d_net im) ∧ who (d_net im4) = who (d_net im))
      as [-> ->] by (unfold im_roster, roster_of in R4; by injection R4).
    done.
  - exists hash, im4. split_and!; [by eapply bc_round|done|done|done].
Qed.

(** * Renaming *)

(** What a well-formed rename does to the roster. *)
Lemma useRename_takes c msg (im : Prog) u :
  sessions (d_net im) !! c = Some u → u_Name u ≠ "" →
  let parts := SplitN msg pipe 2 in
  let new := part parts 1 in
  length parts = 2%nat → new ≠ "" → (String.length new <= 20)%nat →
  ContainsAny new name_chars = false →
  let im' := exec (useRename c msg) im in
  OnlineMap (d_net im') =
    <[new := mkOnline c (Addr u)]> (delete (u_Name u) (OnlineMap (d_net im))) ∧
  who (d_net im') = <[c := (new, Authenticated u)]> (who (d_net im)).
Proof.
  intros Hu Hold parts new Hp Hnew Hlen Hch im'.
  assert (im_roster im' = (<[new := mkOnline c (Addr u)]>
      (delete (u_Name u) (OnlineMap (d_net im))),
      <[c := (new, Authenticated u)]> (who (d_net im)))) as Hr; [|by injection Hr].
  unfold im', useRename. fold parts. fold new. rewrite Hp. cbn [Nat.eqb negb orb].
  rewrite (proj2 (String.eqb_neq new "")) by done.
  rewrite (proj2 (Nat.ltb_ge 20 _)) by done. rewrite Hch.
  rewrite exec_bind. replace (eval (the_user c) im) with u
    by (unfold the_user, hub, gets, eval; by rewrite Hu).
  change (exec (the_user c) im) with im. rewrite !exec_bind.
  etrans; [symmetry; apply calm_send_msg|].
  unfold RegisterOnline, UnregisterOnline.
  rewrite (proj2 (String.eqb_neq new "")), (proj2 (String.eqb_neq (u_Name u) "")) by done.
  change (im_roster _) with (<[new := mkOnline c (Addr u)]>
      (delete (u_Name u) (OnlineMap (d_net im))),
    who (update_session c (set_Name new)
      (set_OnlineMap (delete (u_Name u) (OnlineMap (d_net im))) (d_net im)))).
  f_equal. rewrite who_update. cbn. rewrite Hu. cbn. apply map_eq. intros i.
  change (who (set_OnlineMap _ _)) with (who (d_net im)).
  destruct (decide (c = i)) as [<-|Hi].
  - rewrite lookup_alter_eq, lookup_insert_eq. unfold who. by rewrite lookup_fmap, Hu.
  - by rewrite lookup_alter_ne, lookup_insert_ne.
Qed.

(** Renaming takes the name: an authenticated session that asks for a well-formed name
    gets it, whoever may be online or registered under it: its old entry leaves the map, the
    entry of the new name leads to it from now on, and only its own name changes. *)
Theorem rename_takes_name c msg (im : Prog) u :
  sessions (d_net im) !! c = Some u → u_Name u ≠ "" →
  let parts := SplitN msg pipe 2 in
  let new := part parts 1 in
  length parts = 2%nat → new ≠ "" → (String.length new <= 20)%nat →
  ContainsAny new name_chars = false →
  let im' := exec (useRename c msg) im in
  OnlineMap (d_net im') =
    <[new := mkOnline c (Addr u)]> (delete (u_Name u) (OnlineMap (d_net im))) ∧
  who (d_net im') = <[c := (new, Authenticated u)]> (who (d_net im)).
Proof. apply useRename_takes. Qed.
End accounts.

(** * Witnesses *)

#[local] Existing Instances demo_env demo_json demo_fmt demo_bcrypt demo_gb.

(** alice left; a new connection is waiting at the gate. *)
Definition at_gate : Demo := connect 1 (types 0 "exit" alice_online).

Definition gate_user : SUser :=
  set_C [line "欢迎，请先注册：register|用户名|密码 或 登录：login|用户名|密码"]
    (NewUser "10.0.0.1:5000").

(** alice logged in and left again; the status 1 her account kept does not keep her out. *)
Definition at_gate2 : Demo := connect 2 (types 1 "exit" (types 1 "login|alice|pw" at_gate)).

Lemma login_outcomes_witness :
  (u_Status <$> users_of (x_db (outer at_gate2))) = [1] ∧
  eval (Login 2 " alice " "pw") at_gate2 = None ∧
  entered 2 "alice" "10.0.0.1:5000" at_gate2 (exec (Login 2 " alice " "pw") at_gate2).
Proof.
  assert (eval (Login 2 " alice " "pw") at_gate2 = None) as El by by vm_compute.
  split; [by vm_compute|]. split; [exact El|].
  destruct (login_outcomes 2 " alice " "pw" at_gate2 gate_user ltac:(by vm_compute))
    as (_ & _ & Ho).
  rewrite El in Ho. exact Ho.
Defined.

(** bob takes the name of alice while she is online. *)
Lemma rename_takes_name_witness :
  let im' := exec (useRename 1 "rename|alice") both_online in
  OnlineMap (d_net both_online) !! "alice" = Some (mkOnline 0 "10.0.0.1:5000") ∧
  OnlineMap (d_net im') =
    <["alice" := mkOnline 1 "10.0.0.1:5000"]> (delete "bob" (OnlineMap (d_net both_online))) ∧
  who (d_net im') = <[1%nat := ("alice", true)]> (who (d_net both_online)).
Proof.
  split; [by vm_compute|].
  apply (rename_takes_name 1 "rename|alice" both_online
    (mkSUser "bob" "10.0.0.1:5000" (channel 1 both_online) true false false None true []));
    first [by vm_compute|vm_compute; lia].
Defined.
