(* ===== verification/Races.v ===== *)
(** What another goroutine can do between the checks of a login and its effect: [Login]
    (src/internal/session/auth.go) holds no lock from one to the other. *)
From S2P Require Import Prelude GoStr Protocol StoreIface Limiter Logic Worker.
From S2P Require Import Storage MemDB Cache Dao Store StoreImpl Group Hub Server Session Commands Conn.
From S2P Require Import Config SessionFacts Program Demo AccountProps.

Section race.
Context `{GoEnv} {D R : Type} `{Gorm D} `{Redis R} `{Json} `{GoFmt} `{Bcrypt} `{Gb18030}.
Abbreviation Prog := (IM (D := D) (R := R)).
Abbreviation MI := (M Prog).
Implicit Types im : Prog.

(** [Login] up to the point where all its checks have passed: the name it will enter. *)
Definition login_checks (username0 password : string) : MI (error + string) :=
  let username := TrimSpace username0 in
  if String.eqb username "" then mret (inl (Err "用户名不能为空"))
  else
    su ← world (GetUserByName username);
    match su with
    | inl _ => mret (inl (Err "用户不存在，请先注册"))
    | inr su =>
      if negb (bc_ok (PasswordHash su) password) then mret (inl (Err "密码错误"))
      else
        taken ← name_online username;
        if taken : bool then mret (inl (Err "该用户已在其他连接登录")) else mret (inr username)
    end.

(** The rest of it. *)
Definition login_enters (c : nat) (username : string) : MI unit :=
  enter c username;; world (UpdateUserStatus username 1);; mret tt.

(** The two parts in a row are [Login]. *)
Lemma Login_parts c name0 pw im :
  Login c name0 pw im =
  match eval (login_checks name0 pw) im with
  | inl e => (Some e, exec (login_checks name0 pw) im)
  | inr name => (None, exec (login_enters c name) (exec (login_checks name0 pw) im))
  end.
Proof.
  rewrite (exec_eval (Login c name0 pw)). unfold Login, login_checks.
  destruct (String.eqb (TrimSpace name0) ""); [done|].
  rewrite !eval_bind, !exec_bind. destruct (eval (world (GetUserByName _)) im) as [e|su]; [done|].
  destruct (negb _); [done|]. rewrite !eval_bind, !exec_bind.
  destruct (eval (name_online _) _); [done|]. rewrite !eval_bind, !exec_bind, !eval_ret.
  unfold login_enters. by rewrite !exec_bind.
Qed.

Lemma login_checks_calm name0 pw im : im_roster (exec (login_checks name0 pw) im) = im_roster im.
Proof.
  symmetry. assert (moves (on im_roster eq) (login_checks name0 pw)) as Hm; [|apply Hm].
  unfold login_checks. moves_tac ltac:(eauto using calm_name_online, calm_world).
Qed.

Lemma login_enters_roster c name im n b :
  who (d_net im) !! c = Some (n, b) → name ≠ "" →
  ∃ addr, im_roster (exec (login_enters c name) im) =
    (<[name := mkOnline c addr]> (OnlineMap (d_net im)), <[c := (name, true)]> (who (d_net im))).
Proof.
  unfold who at 1. rewrite lookup_fmap. intros (u & Hu & _)%fmap_Some Hne. exists (Addr u).
  rewrite <- (enter_roster c name im u) by done. unfold login_enters. rewrite exec_bind.
  symmetry. apply (moves_bind (on im_roster eq)); [apply calm_world|]. intros ?. apply moves_ret, _.
Qed.

(** Two logins race: whenever two connections are past the checks of a login under the same
    name - the checks of the second find nobody online, for those of the first changed
    nothing - both logins succeed: both sessions are authenticated under the name, while the
    online map leads to the second only. *)
Theorem logins_race c1 c2 name0 pw1 pw2 name im n1 b1 n2 b2 :
  c1 ≠ c2 → who (d_net im) !! c1 = Some (n1, b1) → who (d_net im) !! c2 = Some (n2, b2) →
  let im1 := exec (login_checks name0 pw1) im in
  eval (login_checks name0 pw1) im = inr name → eval (login_checks name0 pw2) im1 = inr name →
  let im2 := exec (login_checks name0 pw2) im1 in
  let im' := exec (login_enters c2 name) (exec (login_enters c1 name) im2) in
  OnlineMap (d_net im2) !! name = OnlineMap (d_net im) !! name ∧
  who (d_net im') !! c1 = Some (name, true) ∧ who (d_net im') !! c2 = Some (name, true) ∧
  ∃ addr, OnlineMap (d_net im') !! name = Some (mkOnline c2 addr).
Proof.
  intros Hc Hc1 Hc2 im1 Hn1 Hn2 im2 im'.
  assert (im_roster im2 = im_roster im) as Hr by (subst im2 im1; by rewrite !login_checks_calm).
  apply pair_equal_spec in Hr as [Ho Hw].
  assert (name ≠ "") as Hne.
  { revert Hn1. unfold login_checks. destruct (String.eqb_spec (TrimSpace name0) ""); [done|].
    rewrite eval_bind. case_match; [done|]. case_match; [done|]. rewrite eval_bind.
    case_match; [done|]. by intros [= <-]. }
  destruct (login_enters_roster c1 name im2 n1 b1) as (a1 & Hr1); [by rewrite Hw|done|].
  apply pair_equal_spec in Hr1 as [Ho1 Hw1]. set (im3 := exec (login_enters c1 name) im2) in *.
  destruct (login_enters_roster c2 name im3 n2 b2) as (a2 & Hr2);
    [by rewrite Hw1, lookup_insert_ne, Hw|done|].
  apply pair_equal_spec in Hr2 as [Ho2 Hw2]. split; [by rewrite Ho|].
  subst im'. fold im3. rewrite Hw2, Ho2, Hw1.
  rewrite lookup_insert_ne, lookup_insert_eq, lookup_insert_eq by done.
  split; [done|]. split; [done|]. exists a2. apply lookup_insert_eq.
Qed.
End race.

(** * Witness *)

#[local] Existing Instances demo_env demo_json demo_fmt demo_bcrypt demo_gb.

(** alice has left; two connections wait at the gate. *)
Definition two_at_gate : Demo := connect 2 at_gate.

Lemma logins_race_witness :
  let im1 := exec (login_checks "alice" "pw") two_at_gate in
  let im2 := exec (login_checks "alice" "pw") im1 in
  let im' := exec (login_enters 2 "alice") (exec (login_enters 1 "alice") im2) in
  OnlineMap (d_net im2) !! "alice" = OnlineMap (d_net two_at_gate) !! "alice" ∧
  who (d_net im') !! 1%nat = Some ("alice", true) ∧
  who (d_net im') !! 2%nat = Some ("alice", true) ∧
  ∃ addr, OnlineMap (d_net im') !! "alice" = Some (mkOnline 2 addr).
Proof.
  by apply (logins_race 1 2 "alice" "pw" "pw" "alice" two_at_gate "10.0.0.1:5000" false
           "10.0.0.1:5000" false); vm_compute.
Defined.
