(* ===== verification/AccountsKept.v ===== *)
(** Accounts across the life of the program: no step deletes an account or changes its name
    or password, and what the cache says about an account agrees with the database; so a
    login succeeds only with the password of the account. Also the outcomes of a
    registration, with the row it creates. *)
From S2P Require Import Prelude GoStr Utf8 Protocol StoreIface Limiter Logic Worker.
From S2P Require Import Storage MemDB Cache Dao Store StoreImpl Group Hub Server Session Commands Conn.
From S2P Require Import GoJson GoJsonFacts JsonProps Config SessionFacts Program Demo AccountProps.

(** * What the rows and the cache promise *)

(** What the accounts need of the codecs: a user read back from his JSON text has the same
    password hash, and a hash is text. *)
Class AccountText `{Json} `{Bcrypt} := {
  json_user_hash u u' : utf8_valid (PasswordHash u) = true →
    json_user_parse (json_user u) = inr u' → PasswordHash u' = PasswordHash u;
  bc_text n p h : bc_hash n p = inr h → utf8_valid h = true
}.

(** ** The first holds of encoding/json, whatever the other fields contain *)

Lemma store_none {A} (fields : list (field A)) l : foldl (store_member fields) None l = None.
Proof. by induction l. Qed.

(** Members that are stored into other fields leave a field alone. *)
Definition spares {A B} (fields : list (field A)) (proj : A → B) (kv : string * jvalue) : Prop :=
  ∃ f, find_field fields (unquote_json kv.1) = Some f ∧
       ∀ v a a', f.2 v a = Some a' → proj a' = proj a.

Lemma stored_spares {A B} (fields : list (field A)) (proj : A → B) l a a' :
  Forall (spares fields proj) l → foldl (store_member fields) (Some a) l = Some a' →
  proj a' = proj a.
Proof.
  intros Hl. revert a. induction Hl as [|kv l (f & Hf & Hp) _ IH]; intros a.
  - by intros [= ->].
  - change (foldl (store_member fields) (Some a) (kv :: l))
      with (foldl (store_member fields) (store_member fields (Some a) kv) l).
    unfold store_member at 2. cbn [mbind option_bind]. rewrite Hf.
    destruct (f.2 kv.2 a) as [b|] eqn:E; [|by rewrite store_none].
    intros Hs. rewrite (IH b Hs). by apply (Hp kv.2).
Qed.

Lemma user_hash_read `{GoTimeLaws} u u' :
  utf8_valid (PasswordHash u) = true → json_user_parse (json_user u) = inr u' →
  PasswordHash u' = PasswordHash u.
Proof.
  intros Hh. change (json_user_parse (json_user u))
    with (unmarshal (unmarshal_struct user_fields zero_user) (print (user_value u))).
  unfold unmarshal. rewrite parse_print by apply user_printable. cbn [mbind option_bind].
  destruct (unmarshal_struct _ _ _) as [u1|] eqn:E; [|done]. intros [= <-]. revert E.
  unfold user_value, unmarshal_struct.
  set (rest := str_member "NickName" _ ++ _).
  change (?a ++ ?b ++ str_member "PasswordHash" ?h ++ rest)
    with ((a ++ b) ++ str_member "PasswordHash" h ++ rest).
  rewrite foldl_app. destruct (foldl _ (Some zero_user) _) as [u0|]; [|by rewrite store_none].
  rewrite foldl_app. erewrite store_str by (done || reflexivity).
  intros Hr%(stored_spares _ PasswordHash); [done|]. subst rest.
  repeat (apply Forall_app; split); repeat constructor; (eexists; split; [reflexivity|]);
    intros v a a'; cbn [snd]; unfold to_string, to_number, to_time;
    repeat case_match; by intros [= <-].
Qed.

(** The same account: name and password. *)
Definition same_account (u u' : User) : Prop :=
  UserName u' = UserName u ∧ PasswordHash u' = PasswordHash u.

#[export] Instance same_account_preorder : PreOrder same_account.
Proof. split; [by intros u|]. intros u1 u2 u3 [? ?] [? ?]. split; congruence. Qed.

(** All accounts are kept, in their order; new ones may follow. *)
Definition accounts_grow (us us' : list User) : Prop :=
  ∃ old new, us' = old ++ new ∧ Forall2 same_account us old.

#[export] Instance accounts_grow_preorder : PreOrder accounts_grow.
Proof.
  split.
  - intros us. exists us, []. split; [by rewrite app_nil_r|]. by apply Forall_Forall2_diag, Forall_true.
  - intros us1 us2 us3 (o1 & n1 & -> & H1) (o2 & n2 & -> & H2).
    apply Forall2_app_inv_l in H2 as (a & b & Ha & Hb & ->).
    exists a, (b ++ n2). split; [by rewrite app_assoc|]. by etrans.
Qed.

Create HintDb kept discriminated.
#[export] Hint Constants Opaque : kept.

Section kept.
Context `{GoEnv} {D R : Type} `{GL : GormLaws D} `{RL : RedisLaws R} `{AT : AccountText}.
Abbreviation EX := (Ext D R).
Abbreviation users x := (users_of (x_db x)).
Implicit Types x : EX.

(** No two accounts have names the database takes for equal. *)
Definition names_unique (us : list User) : Prop :=
  ∀ i j u v, us !! i = Some u → us !! j = Some v → sql_eq (UserName u) (UserName v) = true → i = j.

(** Hashes are text, and a user in the cache has the hash of an account of that name. *)
Definition coherent x : Prop :=
  Forall (λ u, utf8_valid (PasswordHash u) = true) (users x) ∧
  ∀ r name v u, x_redis x = Some r → redis_view r !! UserKey name = Some v →
    json_user_parse v = inr u →
    ∃ row, row ∈ users x ∧ sql_eq (UserName row) name = true ∧
           PasswordHash u = PasswordHash row.

(** What every call of the program on the world keeps. *)
Definition kept x x' : Prop :=
  x_dbinit x' = x_dbinit x ∧ accounts_grow (users x) (users x') ∧
  (names_unique (users x) → names_unique (users x')) ∧ (coherent x → coherent x').

#[export] Instance kept_preorder : PreOrder kept.
Proof.
  split; [intros x; by split_and!|].
  intros x1 x2 x3 (A1 & B1 & C1 & D1) (A2 & B2 & C2 & D2).
  split_and!; [by rewrite A2|by etrans|auto..].
Qed.

(** ** Calls that leave the accounts alone *)

(** The same users, and no more user keys in the cache. *)
Lemma kept_frame x x' :
  x_dbinit x' = x_dbinit x → users x' = users x →
  (∀ r', x_redis x' = Some r' → ∃ r, x_redis x = Some r ∧
     ∀ name v, redis_view r' !! UserKey name = Some v → redis_view r !! UserKey name = Some v) →
  kept x x'.
Proof.
  intros Hdb Hu Hr. split_and!; [done|by rewrite Hu|by rewrite Hu|].
  intros [Ht Hc]. split; [by rewrite Hu|]. intros r' name v u Hr' Hv Hp. rewrite Hu.
  destruct (Hr r' Hr') as (r & E & Hsub). by apply (Hc r name v u E); [apply Hsub|].
Qed.

Lemma kept_get k : moves kept (cache_get k : M EX _).
Proof.
  intros x. unfold exec, cache_get. destruct (x_redis x) as [r|] eqn:Er; [|by apply kept_preorder].
  pose proof (redis_get_view k r) as Hv. destruct (redis_get k r) as [v r'].
  apply kept_frame; [done..|]. intros ? [= <-]. exists r. split; [done|]. intros name w Hw.
  by eapply lookup_weaken.
Qed.

Lemma kept_del k : moves kept (cache_del k : M EX _).
Proof.
  intros x. unfold exec, cache_del. destruct (x_redis x) as [r|] eqn:Er; [|by apply kept_preorder].
  pose proof (redis_del_view k r) as Hv. apply kept_frame; [done..|].
  intros ? [= <-]. exists r. split; [done|]. intros name w Hw. by eapply lookup_weaken.
Qed.

Lemma kept_set k v t : (∀ name, UserKey name ≠ k) → moves kept (cache_set k v t : M EX _).
Proof.
  intros Hk x. unfold exec, cache_set. destruct (x_redis x) as [r|] eqn:Er; [|by apply kept_preorder].
  apply kept_frame; [done..|]. intros ? [= <-]. exists r. split; [done|].
  intros name w [[E _]|Hw]%redis_set_view; [by destruct (Hk name)|done].
Qed.

Lemma kept_Now : moves kept (Now : M EX _).
Proof. intros x. apply kept_frame; [done..|]. by eauto. Qed.

Lemma kept_range {V} (m : gmap string V) : moves kept (range_map m : M EX _).
Proof. intros x. apply kept_frame; [done..|]. by eauto. Qed.

Lemma kept_sort {A} (key : A → Z) (l : list A) : moves kept (sort_slice key l : M EX _).
Proof. intros x. apply kept_frame; [done..|]. by eauto. Qed.

Abbreviation still := (moves (on (users_of (D := D)) eq)).

Lemma kept_db {A} (m : M D A) : still m → moves kept (on_db m : M EX A).
Proof.
  intros Hm x. specialize (Hm (x_db x)). unfold exec, on_db, zoom, on in *.
  destruct (m (x_db x)) as [a d]. apply kept_frame; [done|done|]. cbn. by eauto.
Qed.

(** ** Accounts *)

Lemma grow_refl us us' : us' = us → accounts_grow us us'.
Proof. intros ->. reflexivity. Qed.

Lemma Forall2_names us us' : Forall2 same_account us us' → names_unique us → names_unique us'.
Proof.
  intros Hf Hn i j u v Hi Hj.
  apply (Forall2_lookup_r _ _ _ _ _ Hf) in Hi as (u0 & Hi & -> & _).
  apply (Forall2_lookup_r _ _ _ _ _ Hf) in Hj as (v0 & Hj & -> & _). by apply Hn.
Qed.

(** The rows change, the accounts do not. *)
Lemma kept_rows x x' :
  x_dbinit x' = x_dbinit x → Forall2 same_account (users x) (users x') →
  x_redis x' = x_redis x → kept x x'.
Proof.
  intros Hdb Hf Hr. split_and!; [done| |by apply Forall2_names|].
  - exists (users x'), []. by rewrite app_nil_r.
  - intros [Ht Hc]. split.
    + apply Forall_lookup. intros i u Hi.
      apply (Forall2_lookup_r _ _ _ _ _ Hf) in Hi as (u0 & Hi & _ & ->).
      by apply (Forall_lookup_1 _ _ _ _ Ht Hi).
    + rewrite Hr. intros r name v u E Hv Hp.
      destruct (Hc r name v u E Hv Hp) as (row & Hrow & Hn & Hh).
      apply list_elem_of_lookup in Hrow as [i Hi].
      apply (Forall2_lookup_l _ _ _ _ _ Hf) in Hi as (row' & Hi & Hn' & Hh').
      exists row'. split; [by apply list_elem_of_lookup; exists i|]. by rewrite Hn', Hh'.
Qed.

Lemma kept_status p s : moves kept (on_db (t_updates Users p (with_status s)) : M EX _).
Proof.
  intros x. unfold exec, on_db, zoom.
  destruct (t_updates Users p (with_status s) (x_db x)) as [[[e|] n] d] eqn:E; apply kept_rows;
    try done; cbn.
  - apply (updates_err _ _ _ _ _ users_laws) in E as ->. reflexivity.
  - apply (updates_ok _ _ _ _ _ users_laws) in E. eapply Forall2_impl; [exact E|].
    intros u u'. cbn. case_match; [|by intros ->]. by intros (? & ? & _).
Qed.

Lemma still_take q : still (t_take Users q).
Proof. intros d. symmetry. apply (take_frame _ _ _ _ _ users_laws q d). Qed.
Hint Resolve kept_get kept_del kept_Now kept_range kept_sort kept_status still_take : kept.

Lemma kept_by_name name s : moves kept (update_by_name name s : M EX _).
Proof. unfold update_by_name. moves_tac ltac:(eauto with kept). Qed.

Lemma kept_GetUserByID id : moves kept (GetUserByID id : M EX _).
Proof.
  intros x. unfold exec, GetUserByID. case_match; [reflexivity|]. apply kept_db, still_take.
Qed.
Hint Resolve kept_GetUserByID kept_by_name : kept.

Lemma kept_by_id id s : moves kept (update_by_id id s : M EX _).
Proof. unfold update_by_id. moves_tac ltac:(eauto with kept). Qed.
Hint Resolve kept_by_id : kept.

Lemma kept_Status n s : moves kept (UpdateUserStatus n s : M EX _).
Proof.
  intros x. unfold exec, UpdateUserStatus.
  repeat case_match; first [reflexivity|apply kept_by_id|apply kept_by_name].
Qed.

(** Putting the JSON text of an account into the cache under its name. *)
Lemma kept_cache_user name u t x :
  (∃ row, row ∈ users x ∧ sql_eq (UserName row) name = true ∧ PasswordHash u = PasswordHash row) →
  kept x (exec (cache_set (UserKey name) (json_user u) t) x).
Proof.
  intros (row & Hrow & Hn & Hh). unfold exec, cache_set.
  destruct (x_redis x) as [r|] eqn:Er; [|reflexivity]. split_and!; [done|reflexivity|done|].
  intros [Ht Hc]. split; [done|]. cbn. intros ? name' v u' [= <-] Hv Hp.
  apply redis_set_view in Hv as [[E ->]|Hv]; [|by apply (Hc r name' v u')].
  exists row. split; [done|].
  apply (inj (String.append "user:byname:")) in E as ->. split; [done|]. rewrite <- Hh.
  apply (json_user_hash u u'); [|done]. rewrite Hh. by apply (proj1 (Forall_forall _ _) Ht).
Qed.

(** Every computation is [kept] at a state when its parts are. *)
Lemma kept_step {A B} (m : M EX A) (f : A → M EX B) x :
  moves kept m → kept (exec m x) (exec (f (eval m x)) (exec m x)) → kept x (exec (m ≫= f) x).
Proof. intros Hm Hf. rewrite exec_bind. etrans; [apply Hm|done]. Qed.

(** The row a lookup by name finds. *)
Lemma take_user name x u :
  let q := mkQuery (λ u, sql_eq (UserName u) name) (Asc u_ID) 0 0 in
  eval (on_db (t_take Users q) : M EX _) x = inr u →
  u ∈ users (exec (on_db (t_take Users q) : M EX _) x) ∧ u ∈ users x ∧
  sql_eq (UserName u) name = true.
Proof.
  intros q. unfold eval, exec, on_db, zoom.
  pose proof (still_take q (x_db x)) as Hs. unfold on, exec in Hs.
  destruct (t_take Users q (x_db x)) as [r d] eqn:E. cbn in *. intros ->. rewrite <- Hs.
  apply (take_ok _ _ _ _ _ users_laws) in E as (l & l0 & Hl & _ & E).
  change (u :: l = l0) in E. assert (u ∈ l0) as Hu by (rewrite <- E; by left).
  rewrite Hl in Hu. by apply elem_of_filter_list in Hu as [? ?].
Qed.

Lemma kept_cached_user n : moves kept (cached_user n : M EX _).
Proof. unfold cached_user. moves_tac ltac:(eauto with kept). Qed.

Lemma kept_GetUser n : moves kept (GetUserByName n : M EX _).
Proof.
  intros x. unfold GetUserByName, exec at 1. destruct (x_dbinit x); cbn [negb]; [|reflexivity].
  apply kept_step; [apply kept_cached_user|]. destruct (eval (cached_user n) x); [reflexivity|].
  set (x1 := exec (cached_user n) x). apply kept_step; [apply kept_db, still_take|].
  destruct (eval (on_db _) x1) as [e|u] eqn:E; [reflexivity|]. apply take_user in E as (E & _ & Hn).
  rewrite exec_bind. apply kept_cache_user. by exists u.
Qed.

(** A new account has a new name. *)
Lemma names_unique_snoc us u v :
  existsb (clash_user sql_eq u) us = false → UserName v = UserName u →
  names_unique us → names_unique (us ++ [v]).
Proof.
  intros Hx Hn Hu. assert (∀ w, w ∈ us → sql_eq (UserName v) (UserName w) = false) as Hnew.
  { intros w Hw. rewrite Hn. by apply (proj1 (existsb_false_stdpp _ _) Hx). }
  intros i j a b Hi Hj E.
  apply lookup_snoc_Some in Hi as [[Hi Ha]|[-> <-]], Hj as [[Hj Hb]|[-> <-]]; [|exfalso..|done].
  - by apply (Hu i j a b).
  - apply sql_eq_sym in E. rewrite Hnew in E; [done|]. by apply list_elem_of_lookup; exists i.
  - rewrite Hnew in E; [done|]. by apply list_elem_of_lookup; exists j.
Qed.

Lemma kept_CreateUser n t pw h : bc_hash t pw = inr h →
  moves kept (CreateUser (Some (mkUser 0 n h "" "" 0 0 0)) : M EX _).
Proof.
  intros Hh x. set (u := mkUser 0 n h "" "" 0 0 0). unfold CreateUser, exec at 1.
  destruct (x_dbinit x); cbn [negb]; [|reflexivity].
  change (kept x (exec (r ← on_db (t_create Users false u); match r with
    | inl err => mret (Some err)
    | inr row => cache_set (UserKey (UserName row)) (json_user row) user_ttl;; mret None
    end) x)).
  rewrite exec_bind. unfold eval, exec at 2, on_db, zoom.
  destruct (t_create Users false u (x_db x)) as [[e|row] d] eqn:E.
  - apply (create_err _ _ _ _ _ users_laws) in E. apply kept_rows; [done| |done]. cbn. rewrite E.
    reflexivity.
  - apply (create_ok _ _ _ _ _ users_laws) in E. destruct (existsb _ _) eqn:Ex; [by destruct E|].
    destruct E as (v & Hv & (Hvn & Hvp & _) & (Hrn & Hrp & _)).
    cbn [fst snd]. rewrite exec_bind.
    transitivity (set_db d x); [|apply kept_cache_user; exists v; cbn; rewrite Hv; split_and!].
    + split_and!; [done|..].
      * cbn. rewrite Hv. exists (users x), [v]. split; [done|reflexivity].
      * cbn. rewrite Hv. by apply (names_unique_snoc (users x) u).
      * intros [Ht Hc]. split.
        -- cbn. rewrite Hv. apply Forall_app. split; [done|]. repeat constructor.
           rewrite Hvp. by apply (bc_text t pw).
        -- cbn. rewrite Hv. intros r name w u' Hr Hw Hp.
           destruct (Hc r name w u' Hr Hw Hp) as (row0 & H0' & ?). exists row0.
           split; [|done]. apply elem_of_app. by left.
    + apply elem_of_app. right. by left.
    + rewrite Hvn, Hrn. apply sql_eq_refl.
    + by rewrite Hvp, Hrp.
Qed.

(** ** The methods of the store *)

(** Calls on the other tables. *)
Lemma still_create_m dn r : still (t_create Messages dn r).
Proof. intros d. symmetry. apply (create_frame _ _ _ _ _ messages_laws dn r d). Qed.
Lemma still_find_m q : still (t_find Messages q).
Proof. intros d. symmetry. apply (find_frame _ _ _ _ _ messages_laws q d). Qed.
Lemma still_take_m q : still (t_take Messages q).
Proof. intros d. symmetry. apply (take_frame _ _ _ _ _ messages_laws q d). Qed.
Lemma still_max_m p k : still (t_max Messages p k).
Proof. intros d. symmetry. apply (max_frame _ _ _ _ _ messages_laws p k d). Qed.
Lemma still_create_r dn r : still (t_create Recipients dn r).
Proof. intros d. symmetry. apply (create_frame _ _ _ _ _ recipients_laws dn r d). Qed.
Lemma still_find_r q : still (t_find Recipients q).
Proof. intros d. symmetry. apply (find_frame _ _ _ _ _ recipients_laws q d). Qed.
Lemma still_take_r q : still (t_take Recipients q).
Proof. intros d. symmetry. apply (take_frame _ _ _ _ _ recipients_laws q d). Qed.
Lemma still_updates_r p f : still (t_updates Recipients p f).
Proof. intros d. symmetry. apply (updates_frame _ _ _ _ _ recipients_laws p f d). Qed.
Lemma still_count_r k : still (t_count_by Recipients k).
Proof. intros d. symmetry. apply (count_frame _ _ _ _ _ recipients_laws k d). Qed.
Hint Resolve still_create_m still_find_m still_take_m still_max_m still_create_r still_find_r
  still_take_r still_updates_r still_count_r kept_db : kept.

Lemma still_save_tx m tos : still (save_tx m tos).
Proof.
  unfold save_tx. assert (∀ i l, still (create_recipients i l)) as Hc.
  { intros i l. induction l as [|to l IH]; cbn [create_recipients]; moves_tac ltac:(eauto with kept). }
  moves_tac ltac:(eauto with kept).
Qed.

Lemma still_transaction m tos : still (Transaction (save_tx m tos)).
Proof.
  intros d. unfold exec, on. destruct (Transaction (save_tx m tos) d) as [[e|] d'] eqn:E; cbn.
  - by apply transaction_err in E as [-> _].
  - apply transaction_ok in E as (d0 & d1 & (E0 & _) & Eb & -> & _). rewrite <- E0.
    pose proof (still_save_tx m tos d0) as Hs. unfold on, exec in Hs. by rewrite Eb in Hs.
Qed.
Hint Resolve still_transaction : kept.

Abbreviation keeps := (moves (on (@sw_ext D R) kept)).

Lemma acc_ext {A} (m : M EX A) : moves kept m → keeps (ext m).
Proof. intros Hm w. specialize (Hm (sw_ext w)). unfold exec, ext, zoom, on in *. by destruct (m (sw_ext w)). Qed.
Lemma acc_mem {A} (f : InMemoryStore → A) : keeps (mem f).
Proof. apply moves_gets, _. Qed.
Lemma acc_get : keeps get_mem.
Proof. apply moves_gets, _. Qed.
Lemma acc_modify f : keeps (mem_modify f).
Proof. intros w. unfold on. reflexivity. Qed.

(** The keys of the store are no user keys. *)
Lemma kept_set_recipients i v t : moves kept (cache_set (RecipientsKey i) v t : M EX _).
Proof. by apply kept_set. Qed.
Lemma kept_set_pending u v t : moves kept (cache_set (PendingUserKey u) v t : M EX _).
Proof. by apply kept_set. Qed.
Lemma kept_set_due v t : moves kept (cache_set PendingDueKey v t : M EX _).
Proof. by apply kept_set. Qed.
Lemma kept_set_recover v t : moves kept (cache_set PendingRecoverKey v t : M EX _).
Proof. by apply kept_set. Qed.
Lemma kept_set_online n v t : moves kept (cache_set (OnlineKey n) v t : M EX _).
Proof. by apply kept_set. Qed.
Hint Resolve kept_set_recipients kept_set_pending kept_set_due kept_set_recover kept_set_online
  acc_ext acc_mem acc_get acc_modify : kept.

Ltac keeps_tac := moves_tac ltac:(eauto with kept).

Lemma acc_NextSeq c : keeps (NextSeq c).
Proof. unfold NextSeq. keeps_tac. Qed.
Lemma acc_remember m tos : keeps (remember_message m tos).
Proof. unfold remember_message. keeps_tac. Qed.
Lemma acc_persist m tos : keeps (persist_message m tos).
Proof. unfold persist_message, cache_message. keeps_tac. Qed.
Hint Resolve acc_remember acc_persist : kept.
Lemma acc_Save m r : keeps (SaveMessageWithRecipients m r).
Proof. unfold SaveMessageWithRecipients. keeps_tac. Qed.
Lemma acc_ByClient f c : keeps (GetMessageByClientID f c).
Proof. unfold GetMessageByClientID. keeps_tac. Qed.
Lemma acc_markDead i r : keeps (markRecipientRowsDeadIfMessageMissing i r).
Proof. unfold markRecipientRowsDeadIfMessageMissing. keeps_tac. Qed.
Hint Resolve acc_markDead : kept.
Lemma acc_ByServer i : keeps (GetMessageByServerID i).
Proof. unfold GetMessageByServerID. keeps_tac. Qed.
Lemma acc_SaveDelivery i t : keeps (SaveDelivery i t).
Proof. unfold SaveDelivery. keeps_tac. Qed.
Lemma acc_Recipients i : keeps (GetRecipients i).
Proof. unfold GetRecipients. keeps_tac. Qed.
Lemma acc_Sent i t e : keeps (MarkDeliverySent i t e).
Proof. unfold MarkDeliverySent. keeps_tac. Qed.
Lemma acc_Acked i t : keeps (MarkDeliveryAcked i t).
Proof. unfold MarkDeliveryAcked, invalidate_delivery. keeps_tac. Qed.
Lemma acc_Read i t : keeps (MarkDeliveryRead i t).
Proof. unfold MarkDeliveryRead, invalidate_delivery. keeps_tac. Qed.
Lemma acc_range_entries l : keeps (range_entries l).
Proof. induction l as [|[? ?] l IH]; cbn [range_entries]; keeps_tac. Qed.
Hint Resolve acc_SaveDelivery acc_range_entries : kept.
Lemma acc_Stats : keeps DeliveryStats.
Proof. unfold DeliveryStats. keeps_tac. Qed.
Lemma acc_dead i t e r : keeps (schedule_dead i t e r).
Proof. unfold schedule_dead, invalidate_dead. keeps_tac. Qed.
Lemma acc_row i t e a b n : keeps (schedule_row i t e a b n).
Proof. unfold schedule_row, invalidate_dead. keeps_tac. Qed.
Hint Resolve acc_dead acc_row : kept.
Lemma acc_Retry i t e a b : keeps (ScheduleRetry i t e a b).
Proof. unfold ScheduleRetry. keeps_tac. Qed.

(** The three listings adopt rows and remember the ids. *)
Lemma acc_adopt k rows :
  (∀ v t, moves kept (cache_set k v t : M EX _)) → keeps (adopt_rows k rows).
Proof. intros Hk. unfold adopt_rows. keeps_tac. Qed.
Lemma acc_cached k : keeps (cached_ids k).
Proof. unfold cached_ids. keeps_tac. Qed.
Hint Resolve acc_adopt acc_cached : kept.
Lemma acc_Due n : keeps (GetDueRetryServerMsgIDs n).
Proof. unfold GetDueRetryServerMsgIDs. keeps_tac. Qed.
Lemma acc_Recover n : keeps (RecoverPendingServerMsgIDs n).
Proof. unfold RecoverPendingServerMsgIDs. keeps_tac. Qed.
Lemma acc_Pending u n : keeps (ListPendingServerMsgIDsByUser u n).
Proof. unfold ListPendingServerMsgIDsByUser. keeps_tac. Qed.
Lemma acc_history_rows a b rows : keeps (history_rows a b rows).
Proof. induction rows as [|r rows IH]; cbn [history_rows]; unfold history_row; keeps_tac. Qed.
Hint Resolve acc_history_rows : kept.
Lemma acc_History a b n : keeps (GetC2CHistory a b n).
Proof. unfold GetC2CHistory, getC2CHistoryFromMemory. keeps_tac. Qed.

#[export] Instance kept_respected : StoreRespects (on (@sw_ext D R) kept).
Proof.
  split; intros; first
    [ apply _ | apply acc_NextSeq | apply acc_Save | apply acc_ByClient | apply acc_ByServer
    | apply acc_Recipients | apply acc_Sent | apply acc_Acked | apply acc_Read
    | apply acc_Retry | apply acc_Due | apply acc_Stats | apply acc_Recover
    | apply acc_Pending | apply acc_History | apply acc_ext ].
  - apply moves_gets, _.
  - apply kept_Now.
  - apply kept_range.
  - apply kept_set_online.
  - apply kept_del.
  - apply kept_GetUser.
  - by eapply kept_CreateUser.
  - apply kept_Status.
Qed.

(** * The program *)

Section program.
Context `{!GoFmt} `{!Gb18030}.
Abbreviation Prog := (IM (D := D) (R := R)).
Implicit Types im : Prog.

(** The rows the program works on. *)
Definition accounts im : list User := users_of (x_db (outer im)).

Lemma setup_kept file x : kept x (outer (main_setup file x)).
Proof. apply kept_frame; [done..|]. cbn. by eauto. Qed.

Lemma reachable_kept file x im : reachable file x im → kept x (outer im).
Proof.
  intros Hr. etrans; [apply (setup_kept file)|].
  apply (reachable_store (on (@sw_ext D R) kept) file x im Hr).
Qed.

Lemma steps_kept im im' : rtc prog_step im im' → kept (outer im) (outer im').
Proof.
  induction 1 as [im|im1 im2 im3 Hs _ IH]; [reflexivity|]. etrans; [|exact IH].
  apply (step_respects_store (on (@sw_ext D R) kept) im1 im2 Hs).
Qed.

(** A login that finds a user is checked against the hash of an account of that name. *)
Lemma GetUserByName_account name x u :
  coherent x → eval (GetUserByName name) x = inr u →
  ∃ row, row ∈ users x ∧ sql_eq (UserName row) name = true ∧ PasswordHash u = PasswordHash row.
Proof.
  intros [Ht Hc]. unfold GetUserByName, eval at 1. destruct (x_dbinit x); cbn [negb]; [|done].
  change (eval (c ← cached_user name; match c with
    | Some u => mret (inr u)
    | None => r ← on_db (t_take Users (mkQuery (λ u, sql_eq (UserName u) name) (Asc u_ID) 0 0));
      match r with
      | inl err => mret (inl err)
      | inr u => cache_set (UserKey name) (json_user u) user_ttl;; mret (inr u)
      end
    end) x = inr u → ∃ row, row ∈ users x ∧ sql_eq (UserName row) name = true ∧
                            PasswordHash u = PasswordHash row).
  rewrite eval_bind. destruct (eval (cached_user name) x) as [u1|] eqn:Ec.
  - rewrite eval_ret. intros [= ->]. revert Ec. unfold cached_user. rewrite eval_bind, eval_ret.
    unfold eval, cache_get. destruct (x_redis x) as [r|] eqn:Er; [|done].
    destruct (redis_get _ r) as [v r'] eqn:Eg. cbn [fst]. intros (w & -> & Hp)%bind_Some.
    apply redis_get_ok in Eg. revert Hp. repeat case_match; [done|done|].
    intros [= ->]. by apply (Hc r name w u).
  - rewrite eval_bind. set (x1 := exec (cached_user name) x).
    assert (users x1 = users x) as Hx1.
    { subst x1. unfold cached_user. rewrite exec_bind. f_equal. apply cache_get_db. }
    destruct (eval (on_db _) x1) as [e|u1] eqn:Et; [done|]. rewrite eval_bind, eval_ret.
    intros [= ->]. apply take_user in Et as (_ & Hu & Hn). exists u. by rewrite <- Hx1.
Qed.

(** ** Registration *)

Abbreviation same_rows := (moves (on (λ x : EX, users x) eq)).

Lemma same_rows_get k : same_rows (cache_get k).
Proof.
  intros x. unfold on, exec, cache_get. destruct (x_redis x); [|done]. by destruct (redis_get _ _).
Qed.
Lemma same_rows_set k v t : same_rows (cache_set k v t).
Proof. intros x. unfold on, exec, cache_set. by destruct (x_redis x). Qed.
Lemma same_rows_db {A} (m : M D A) : still m → same_rows (on_db m).
Proof.
  intros Hm x. specialize (Hm (x_db x)). unfold on, exec, on_db, zoom in *.
  by destruct (m (x_db x)).
Qed.
Hint Resolve same_rows_get same_rows_set same_rows_db : kept.

(** Looking a user up leaves the rows alone, and does not depend on the time. *)
Lemma GetUser_rows n : same_rows (GetUserByName n).
Proof.
  intros x. unfold GetUserByName, exec. destruct (x_dbinit x); cbn [negb]; [|done].
  match goal with |- on _ _ x (?m x).2 => assert (same_rows m) as Hm; [|apply Hm] end.
  unfold cached_user. moves_tac ltac:(eauto with kept).
Qed.

Lemma GetUser_time n k x : eval (GetUserByName n) (set_tick k x) = eval (GetUserByName n) x.
Proof.
  unfold GetUserByName, cached_user, cache_get, on_db, eval. munfold. cbn.
  destruct (x_dbinit x); cbn; [|done]. destruct (x_redis x) as [r|]; cbn.
  - destruct (redis_get _ r) as [v r']. cbn.
    match goal with |- context [match ?h with Some _ => _ | None => _ end] => destruct h; [done|] end.
    change (x_db (set_redis (Some r') (set_tick k x))) with (x_db x).
    change (x_db (set_redis (Some r') x)) with (x_db x).
    destruct (t_take Users _ _) as [[e|u] d]; [done|]. unfold cache_set. by repeat case_match.
  - change (x_db (set_tick k x)) with (x_db x).
    destruct (t_take Users _ _) as [[e|u] d]; [done|]. unfold cache_set. by repeat case_match.
Qed.

(** Creating an account succeeds with a new row, for a name no row has, or leaves the rows. *)
Lemma CreateUser_rows u x :
  let x' := exec (CreateUser (Some u)) x in
  match eval (CreateUser (Some u)) x with
  | Some _ => users x' = users x
  | None => (∀ r, r ∈ users x → sql_eq (UserName u) (UserName r) = false) ∧
      ∃ row, users x' = users x ++ [row] ∧ same_account u row
  end.
Proof.
  unfold CreateUser, eval, exec. destruct (x_dbinit x); cbn [negb]; [|done].
  unfold on_db, zoom, mbind, M_bind.
  destruct (t_create Users false u (x_db x)) as [[e|row] d] eqn:E.
  - by apply (create_err _ _ _ _ _ users_laws) in E.
  - apply (create_ok _ _ _ _ _ users_laws) in E. destruct (existsb _ _) eqn:Ex; [by destruct E|].
    destruct E as (v & Hv & (Hvn & Hvp & _) & _).
    pose proof (same_rows_set (UserKey (UserName row)) (json_user row) user_ttl (set_db d x)) as Hs.
    unfold on, exec in Hs. destruct (cache_set _ _ _ _) as [[] x']. cbn in Hs |- *.
    rewrite <- Hs. split; [|by exists v].
    intros r Hr. by apply (proj1 (existsb_false_stdpp _ _) Ex).
Qed.

(** C33. Registration creates the account it lets in. When it succeeds, the trimmed name is
    neither empty nor contains a blank or a bar, was not online, was not found as an account,
    and no row of the users in the database had that name (or one the database takes for
    equal); afterwards the row behind the last one there was is an account of that name whose
    hash accepts the password as typed, every row before it is kept in its place, and the
    session is authenticated and online under the name while no other name or entry changed.
    When it fails, no account row, name, right or entry changed at all. *)
Theorem register_outcomes c name0 pw im u :
  sessions (d_net im) !! c = Some u →
  let name := TrimSpace name0 in
  let im' := exec (Register c name0 pw) im in
  match eval (Register c name0 pw) im with
  | Some _ => im_roster im' = im_roster im ∧ accounts im' = accounts im
  | None => name ≠ "" ∧ ContainsAny name name_chars = false ∧
      OnlineMap (d_net im) !! name = None ∧
      (∃ e, eval (GetUserByName name) (outer im) = inl e) ∧
      (∀ r, r ∈ accounts im → sql_eq name (UserName r) = false) ∧
      (∃ row, accounts im' !! length (accounts im) = Some row ∧ UserName row = name ∧
              bc_ok (PasswordHash row) pw = true) ∧
      accounts_grow (accounts im) (accounts im') ∧
      entered c name (Addr u) im im'
  end.
Proof.
  intros Hu name im'. pose proof (Register_cases c name0 pw im u Hu) as Hc. cbv zeta in Hc.
  fold name im' in Hc. assert (users (creating name im) = accounts im) as Hcr
    by (symmetry; apply (GetUser_rows name (looking im))).
  destruct (eval (Register c name0 pw) im) as [e|].
  - destruct Hc as [Hr Ho]. split; [done|]. unfold accounts in *.
    destruct Ho as [->|[->|[->|(v & e' & Ev & ->)]]]; [done|done|done|].
    pose proof (CreateUser_rows v (creating name im)) as Hv. cbv zeta in Hv. rewrite Ev in Hv.
    by rewrite Hv.
  - destruct Hc as (Hn & Hch & Ho & (e & Hf) & Hen & hash & im4 & Hok & Hcreate & O4 & ->).
    pose proof (CreateUser_rows (mkUser 0 name hash "" "" 0 0 0) (creating name im)) as Hv.
    cbv zeta in Hv. rewrite Hcreate, Hcr in Hv. destruct Hv as (Hnew & row & Hrow & Hname & Hhash).
    destruct (ch_enter any_groups (on (@sw_ext D R) kept) c name im4) as [_ Hk].
    destruct Hk as (_ & (old & new & E & Hall) & _).
    change (sw_ext (d_store im4)) with (outer im4) in Hall. rewrite O4, Hrow in Hall.
    apply Forall2_app_inv_l in Hall as (old1 & l & F1 & F2 & ->).
    apply Forall2_cons_inv_l in F2 as (row' & l' & [Hn' Hh'] & F2 & ->).
    apply Forall2_nil_inv_l in F2 as ->.
    change (users_of (x_db (sw_ext (d_store (exec (enter c name) im4)))))
      with (accounts (exec (enter c name) im4)) in E.
    split_and!; try done.
    + exists e. rewrite <- Hf. symmetry. apply GetUser_time.
    + exists row'. split; [|split; [by rewrite Hn', Hname|by rewrite Hh', Hhash]].
      rewrite E, (Forall2_length _ _ _ F1), <- !app_assoc. by apply list_lookup_middle.
    + exists old1, ([row'] ++ new). split; [by rewrite E, app_assoc|done].
Qed.

(** C10. Accounts are permanent: whatever connections, commands, failures of database or cache
    and timers come between two states of the program, every account row of the first is
    still there in the second, in its place, with the same name and password hash (new
    accounts follow behind); and if the accounts the program found had different names, so
    have all it ever has. *)
Theorem accounts_permanent file x im im' :
  reachable file x im → rtc prog_step im im' →
  accounts_grow (accounts im) (accounts im') ∧
  (names_unique (users x) → names_unique (accounts im')).
Proof.
  intros Hr Hs. apply steps_kept in Hs as (_ & Hg & Hn & _). split; [done|].
  intros Hx. apply Hn. by apply (reachable_kept file x im Hr).
Qed.

(** C9. Only the password logs in: if the cache agreed with the database when the program
    started, and no two rows there had equal names (the column is unique), then from the moment an account exists no login under its name (any name the
    database takes for equal) ever succeeds but with a password its original hash accepts -
    through the cache or the database, whatever happened in between. *)
Theorem only_the_password_logs_in file x im i u0 im' c u name pw :
  coherent x → names_unique (users x) → reachable file x im →
  accounts im !! i = Some u0 → rtc prog_step im im' →
  sql_eq (UserName u0) (TrimSpace name) = true →
  sessions (d_net im') !! c = Some u → eval (Login c name pw) im' = None →
  bc_ok (PasswordHash u0) pw = true.
Proof.
  intros Hx Hux Hr Hi Hs Hn Hu Hl. pose proof (Login_cases c name pw im' u Hu) as Ho.
  cbv zeta in Ho. rewrite Hl in Ho. destruct Ho as (_ & _ & (su & Hsu & Hpw) & _).
  pose proof (reachable_kept file x im Hr) as (_ & _ & Hn1 & Hc1).
  pose proof (steps_kept im im' Hs) as (_ & (old & new & Hg & Hf) & Hn2 & Hc2).
  apply GetUserByName_account in Hsu as (row & Hrow & Hname & Hhash); [|by auto].
  apply list_elem_of_lookup in Hrow as [j Hj].
  apply (Forall2_lookup_l _ _ _ _ _ Hf) in Hi as (u1 & Hi & Hu1 & Hh1).
  assert (accounts im' !! i = Some u1) as Hi'.
  { unfold accounts. rewrite Hg. apply lookup_app_l_Some, Hi. }
  assert (i = j) as <-.
  { apply (Hn2 (Hn1 Hux) i j u1 row Hi' Hj). rewrite Hu1.
    eapply sql_eq_trans; [exact Hn|]. by apply sql_eq_sym. }
  unfold accounts in Hi'. rewrite Hj in Hi'. injection Hi' as ->. by rewrite <- Hh1, <- Hhash.
Qed.
End program.
End kept.

(** * Witnesses *)

#[local] Existing Instances number_time number_time_laws demo_env demo_json demo_fmt demo_bcrypt
  demo_gb.

Lemma hex_text_safe p : all_safe (hex_text p) = true.
Proof.
  assert (∀ c, all_safe (String (hex_digit (N.shiftr (code c) 4))
    (String (hex_digit (N.land (code c) 15)) "")) = true) as Hc
    by (apply ascii_all; by vm_compute).
  induction p as [|c p IH]; [done|]. specialize (Hc c). cbn [hex_text all_safe] in *.
  apply andb_true_iff in Hc as [-> [-> _]%andb_true_iff]. done.
Qed.

#[local] Instance demo_text : AccountText.
Proof.
  split; [exact user_hash_read|]. intros n p h [= <-]. unfold demo_hash.
  apply escape_safe. apply (hex_text_safe p).
Qed.

Lemma accounts_permanent_witness :
  length (accounts both_online) = 2%nat ∧
  accounts_grow (accounts alice_online) (accounts both_online) ∧
  (names_unique (users_of (x_db demo_ext)) → names_unique (accounts both_online)).
Proof.
  split; [by vm_compute|].
  apply (accounts_permanent None demo_ext alice_online both_online alice_reachable).
  eapply rtc_l; [|apply rtc_once].
  - apply (connect_step 1). by vm_compute.
  - apply (types_step 1 "register|bob|pw"). vm_compute. by eexists.
Defined.

(** With a cache: alice registers and leaves, and is about to log in on another connection. *)
Definition cached_ext : Ext MemDB (gmap string string) := mkExt 0 ∅ true empty_db (Some ∅).
Definition registered : Demo :=
  types 0 "register|alice|pw" (connect 0 (exec Start_recovery (main_setup None cached_ext))).
Definition returning : Demo := connect 1 (types 0 "exit" registered).
Definition alice_row : User := default zero_user (accounts registered !! 0%nat).

Lemma only_the_password_logs_in_witness :
  eval (Login 1 "alice" "guess") returning = Some (Err "密码错误") ∧
  bc_ok (PasswordHash alice_row) "pw" = true.
Proof.
  split; [by vm_compute|].
  apply (only_the_password_logs_in None cached_ext registered 0 alice_row returning 1
           (default (NewUser "") (sessions (d_net returning) !! 1%nat)) "alice" "pw"); [| | |by vm_compute| |by vm_compute..].
  - split; [constructor|]. intros r name v u [= <-] Hv.
    change ((∅ : gmap string string) !! UserKey name = Some v) in Hv. by rewrite lookup_empty in Hv.
  - intros i j u v Hi. change (([] : list User) !! i = Some u) in Hi. by rewrite lookup_nil in Hi.
  - apply types_reachable; [apply connect_reachable; [apply rtc_refl|by vm_compute]|].
    vm_compute. by eexists.
  - eapply rtc_l; [|apply rtc_once].
    + apply (types_step 0 "exit"). vm_compute. by eexists.
    + apply (connect_step 1). by vm_compute.
Defined.

(** bob registers on connection 1, alice having an account. *)
Lemma register_outcomes_witness :
  let im' := exec (Register 1 "bob" "pw") at_gate in
  eval (Register 1 "bob" "pw") at_gate = None ∧
  (∀ r, r ∈ accounts at_gate → String.eqb "bob" (UserName r) = false) ∧
  (∃ row, accounts im' !! 1%nat = Some row ∧ UserName row = "bob" ∧
          bc_ok (PasswordHash row) "pw" = true) ∧
  entered 1 "bob" "10.0.0.1:5000" at_gate im'.
Proof.
  assert (eval (Register 1 "bob" "pw") at_gate = None) as E by by vm_compute.
  pose proof (register_outcomes 1 "bob" "pw" at_gate gate_user ltac:(by vm_compute)) as Ho.
  cbv zeta in Ho. rewrite E in Ho. destruct Ho as (_ & _ & _ & _ & Hnew & Hrow & _ & Hen).
  split; [exact E|]. split; [exact Hnew|]. split; [exact Hrow|exact Hen].
Defined.
