(* ===== verification/StoreProps.v ===== *)
(** The properties of the message store. *)
From S2P Require Import Prelude GoStr Protocol StoreIface Storage MemDB Cache Store.
From S2P Require Import StoreSteps.
From S2P Require Import StoreInv StoreFacts StoreSpec.

(** * Concrete worlds for the witnesses *)

(** A codec for the witnesses: nothing is ever read back from the cache. *)
Definition no_json : Json := {|
  json_strings _ := ""; json_strings_parse _ := inl (Err "");
  json_user _ := ""; json_user_parse _ := inl (Err "");
  json_message _ := ""; json_message_parse _ := inl (Err "")
|}.

Definition t0 : Z := 1700000000 * Second.
Definition env0 : GoEnv := fixed_env t0 Second.
#[local] Existing Instance env0.
#[local] Existing Instance no_json.

Definition ext0 (dbinit : bool) : Ext MemDB (gmap string string) :=
  mkExt 0 ∅ dbinit empty_db None.
(** A fresh store, memory-only or over an empty database. *)
Definition w0 (dbinit : bool) : SW MemDB (gmap string string) :=
  mkSW (NewInMemoryStore dbinit) (ext0 dbinit).

Definition msg1 : Message := mkMessage TypeDeliver "c-1" "s-1" "c2c:alice:bob" "alice" "bob" 1 0
  "hi" 1700000000.

(** * Executions *)

Section executions.
Context `{GoEnv} {D R : Type} `{Gorm D} `{Redis R} `{Json}.
Implicit Types w : SW D R.

(** C21. Every method of the store's interface does to the memory what its contract
    ([StoreSpec.call_spec], one clause per method, about what can be looked up) says, and
    nothing else, in either mode and whatever the database, the cache and the runtime do:
    NextSeq moves the counter of its chat, by one if it had one; a save is refused without
    trace or files that message and opens a delivery for exactly its recipients; sent, acked,
    read and retried change the entry of that recipient of that message, in the fields named,
    and no other; the lookups and listings change nothing in memory-only mode, and otherwise
    add what the memory did not have. *)
Theorem store_calls_meet_contract c w : call_spec c (sw_mem w) (sw_mem (run_call c w)).
Proof. apply run_call_meets. Qed.

(** In every reachable state of a new store the memory is well-formed: counters are
    [uint64] values, each message and each entry sits under its own ids, the idempotency
    index leads to a message of that sender with that client id, read implies
    acknowledged. *)
Theorem store_reachable_wf cs dbinit (x : Ext D R) :
  store_wf (sw_mem (run_calls cs (mkSW (NewInMemoryStore dbinit) x))).
Proof. apply run_calls_wf, NewInMemoryStore_wf. Qed.

(** C22. The delivery entries in memory only move forward, in either mode: no sequence of calls
    of the store drops an entry, or takes back that it was acknowledged, read or declared
    dead. (This is about the memory. The rows of the database do not keep it: there a
    scheduled retry can turn a read delivery into a dead one, see
    [StoreDBProps.retry_overrides_read], and a late read acknowledgement a dead one into a
    read one.) *)
Theorem delivery_states_monotone cs w : deliveries_le (sw_mem w) (sw_mem (run_calls cs w)).
Proof. apply run_calls_deliveries_le. Qed.

(** C23. In memory-only mode an acknowledged delivery is out of the pending set for good:
    after any further calls its recipient is not among the recipients to deliver to. *)
Theorem acked_never_pending cs w i t :
  persistent (sw_mem w) = false → is_Some (entry_of i t (sw_mem w)) →
  t ∉ eval (GetRecipients i) (run_calls cs (exec (MarkDeliveryAcked i t) w)).
Proof.
  intros Hp [e He] Hin. unfold exec in Hin. rewrite MarkDeliveryAcked_mem in Hin by done.
  cbn in Hin. set (w' := with_mem _ w) in Hin.
  assert (persistent (sw_mem w') = false) as Hp'.
  { destruct (update_entry_other i t acked_entry (sw_mem w)) as (_ & _ & _ & E).
    cbn. by rewrite E. }
  assert (entry_of i t (sw_mem w') = Some (acked_entry e)) as He'.
  { cbn. rewrite entry_of_update, decide_True by done. by rewrite He. }
  destruct (run_calls_deliveries_le cs w' i t _ He') as (e2 & He2 & Hle).
  destruct (GetRecipients_mem_spec i (run_calls cs w')) as (_ & Hspec & _).
  { by rewrite run_calls_persistent. }
  apply Hspec in Hin as (e3 & He3 & Hpe). simplify_eq.
  destruct Hle as (_ & Ha & _). unfold pending_entry in Hpe. by rewrite Ha in Hpe.
Qed.

(** The sequence numbers of a chat are consecutive: whatever other calls come in
    between, the next number drawn follows the previous one by the number of draws
    (the empty chat id and "default" share a counter), short of overflow. *)
Theorem NextSeq_consecutive c cs w n :
  eval (NextSeq c) w = (n, None) → n + draws c cs + 1 < 2 ^ 64 →
  eval (NextSeq c) (run_calls cs (exec (NextSeq c) w)) = (n + draws c cs + 1, None).
Proof.
  intros Hn Hb. destruct (NextSeq_spec c w) as (n' & Hn' & [Hpos _] & Hs & _).
  rewrite Hn in Hn'. simplify_eq.
  assert (nextSeq (sw_mem (exec (NextSeq c) w)) !! seq_key c = Some n') as Hk.
  { rewrite Hs. cbn. by rewrite lookup_insert_eq. }
  apply (run_calls_nextSeq cs _ c n') in Hk; [|done|lia].
  destruct (NextSeq_spec c (run_calls cs (exec (NextSeq c) w))) as (m & -> & _ & _ & Hm).
  rewrite (Hm _ Hk), wrapu64_id; [done|]. unfold in_uint64, draws in *. lia.
Qed.

(** C24. Without a database, a failing delivery becomes a dead letter when its count of
    attempts reaches the limit: starting from any count [Retry e], not negative and short
    of overflow (MarkDeliverySent raises it as well), after [k] scheduled retries in a row
    the entry counts [Retry e + k] attempts, and it is dead if and only if it was before, or
    [k] is positive and the count is at least [maxRetries] (5 when that is not positive). *)
Theorem dead_letter_after_max_retries k w i t err mx base e :
  persistent (sw_mem w) = false → i ≠ "" → t ≠ "" →
  entry_of i t (sw_mem w) = Some e → 0 <= Retry e → Retry e + Z.of_nat k < 2 ^ 63 →
  let w' := Nat.iter k (exec (ScheduleRetry i t err mx base)) w in
  ∃ e', entry_of i t (sw_mem w') = Some e' ∧ Retry e' = Retry e + Z.of_nat k ∧
    Acked e' = Acked e ∧ Read e' = Read e ∧
    (Dead e' = true ↔
       Dead e = true ∨ (0 < k)%nat ∧ (if mx <=? 0 then 5 else mx) <= Retry e + Z.of_nat k).
Proof.
  intros Hp Hi Ht He Hr. cbn. set (mx' := if mx <=? 0 then 5 else mx).
  enough (Retry e + Z.of_nat k < 2 ^ 63 →
    persistent (sw_mem (Nat.iter k (exec (ScheduleRetry i t err mx base)) w)) = false ∧
    ∃ e', entry_of i t (sw_mem (Nat.iter k (exec (ScheduleRetry i t err mx base)) w)) = Some e'
      ∧ Retry e' = Retry e + Z.of_nat k ∧ Acked e' = Acked e ∧ Read e' = Read e ∧
      (Dead e' = true ↔ Dead e = true ∨ (0 < k)%nat ∧ mx' <= Retry e + Z.of_nat k)) by tauto.
  induction k as [|k IH]; intros Hk.
  { split; [done|]. exists e. split_and!; try done; [lia|]. split; [by left|].
    intros [?|[? _]]; [done|lia]. }
  destruct IH as (Hpk & ek & Hek & Hrk & Hak & Hdk & Hdead); [lia|].
  rewrite Nat.iter_succ. set (wk := Nat.iter k _ w) in *. unfold exec.
  rewrite (ScheduleRetry_mem i t err mx base wk ek) by done. cbn. split.
  { by rewrite (proj2 (proj2 (proj2 (update_entry_other i t _ (sw_mem wk))))). }
  eexists. rewrite entry_of_update, decide_True, Hek by done. split; [done|].
  fold mx'. unfold retry_entry. rewrite Hrk, wrap64_id by (unfold in_int64; lia).
  replace (Retry e + Z.of_nat k + 1) with (Retry e + Z.of_nat (S k)) by lia.
  destruct (Z.leb_spec mx' (Retry e + Z.of_nat (S k))); cbn; split_and!; try done.
  - split; [|done]. intros _. right. split; [lia|done].
  - rewrite Hdead. split; (intros [?|[? ?]]; [by left|lia]).
Qed.

(** The delay before the [r]-th retry is the base delay doubled at each attempt, at
    most six times: as long as 64 times the base fits a [time.Duration]. *)
Theorem backoff_doubles_six_times base r :
  0 < base → base * 64 < 2 ^ 63 → 1 <= r < 2 ^ 63 →
  backoff base r = base * 2 ^ Z.min (r - 1) 6 ∧ base <= backoff base r <= 64 * base.
Proof.
  intros Hb Hmax Hr. destruct (backoff_power base r Hb Hmax Hr) as [-> ?].
  split; [done|nia].
Qed.

(** In memory-only mode the four counters of the statistics are the numbers of entries
    that are dead, read, delivered and pending, in this order of precedence; together they
    count every delivery once. *)
Theorem DeliveryStats_counts w :
  persistent (sw_mem w) = false →
  Z.of_nat (length (all_entries (sw_mem w))) < 2 ^ 63 →
  let st := eval DeliveryStats w in
  let es := all_entries (sw_mem w) in
  Pending st = count pending_entry es ∧ Delivered st = count is_delivered es ∧
  ReadN st = count is_read es ∧ DeadN st = count is_dead es ∧
  Pending st + Delivered st + ReadN st + DeadN st = Z.of_nat (length es).
Proof.
  intros Hp Hlt st es.
  assert (∃ es', es' ≡ₚ es ∧ st = foldl (λ st e, count_entry e st) (mkStats 0 0 0 0) es')
    as (es' & Hes & ->).
  { subst st es. unfold eval, DeliveryStats, get_mem, ext, range_map. munfold. cbn.
    rewrite Hp. cbn.
    match goal with |- context [range_entries ?l ?x] =>
      destruct (range_entries_perm l x) as [Hr _]; destruct (range_entries l x) as [es' w'] end.
    exists es'. split; [|done]. cbn in Hr. rewrite Hr. unfold all_entries.
    apply concat_permutation, fmap_Permutation, go_order_perm. }
  pose proof (Permutation_length Hes) as Hlen. fold es in Hlt.
  rewrite count_loop by lia. cbn.
  rewrite !(count_permutation _ _ _ Hes). split_and!; [done..|].
  clear. subst es. generalize (all_entries (sw_mem w)) as l.
  induction l as [|e l IH]; [done|]. rewrite !count_cons. cbn [length].
  unfold pending_entry at 1, is_delivered at 1, is_read at 1, is_dead at 1.
  destruct (Dead e), (Read e), (Acked e); cbn; lia.
Qed.

(** The in-memory history of two users is exactly the messages they sent each other,
    in order of sequence number; with a positive limit, the last [limit] of them. *)
Theorem history_from_memory userA userB limit w :
  persistent (sw_mem w) = false → userA ≠ "" → userB ≠ "" →
  ∃ full, full ≡ₚ List.filter (λ m, c2c_between userA userB (From m) (To m))
                    (map_to_list (messages (sw_mem w))).*2 ∧
    StronglySorted (key_le Seq) full ∧
    eval (GetC2CHistory userA userB limit) w =
      (if 0 <? limit then drop (length full - Z.to_nat limit) full else full) ∧
    sw_mem (exec (GetC2CHistory userA userB limit) w) = sw_mem w.
Proof.
  intros Hp Ha Hb. pose proof (range_map_perm (messages (sw_mem w)) (sw_ext w)) as Hkvs.
  destruct (range_map (messages (sw_mem w)) (sw_ext w)) as [kvs x1] eqn:Ek.
  cbn [fst] in Hkvs.
  set (out := List.filter (λ m, c2c_between userA userB (From m) (To m)) kvs.*2).
  pose proof (sort_slice_spec Seq out x1) as [Hfull Hsorted].
  destruct (sort_slice Seq out x1) as [full x2] eqn:Es. cbn [fst] in Hfull, Hsorted.
  exists full.
  assert (GetC2CHistory userA userB limit w =
    (if (0 <? limit) && (limit <? Z.of_nat (length full))
     then drop (length full - Z.to_nat limit) full else full, mkSW (sw_mem w) x2)) as E.
  { apply String.eqb_neq in Ha, Hb.
    unfold GetC2CHistory, getC2CHistoryFromMemory, mem, get_mem, ext. rewrite Ha, Hb. munfold.
    cbn -[range_map sort_slice]. rewrite Hp. cbn -[range_map sort_slice]. rewrite Ek.
    cbn -[sort_slice]. fold out. by rewrite Es. }
  unfold eval, exec. rewrite E. cbn [fst snd sw_mem]. split_and!; [|done| |done].
  - rewrite Hfull. subst out. by apply filter_permutation_list, fmap_Permutation.
  - destruct (0 <? limit) eqn:El; [|done]. cbn.
    destruct (Z.ltb_spec limit (Z.of_nat (length full))); [done|].
    bool_to_prop. by replace (_ - _)%nat with 0%nat by lia.
Qed.

(** Idempotency index: after a message with a sender and a client id is saved, looking
    up that pair gives the message back, without touching database or cache. *)
Theorem saved_message_found_by_client_id msg recipients w w' :
  From msg ≠ "" → ClientMsgID msg ≠ "" →
  SaveMessageWithRecipients (Some msg) recipients w = (None, w') →
  GetMessageByClientID (From msg) (ClientMsgID msg) w' = (Some msg, w').
Proof.
  intros Hf Hc Hs. destruct (save_remembers msg recipients w w' Hs) as (w1 & Hmem).
  destruct (saveMessage_lookup msg (sw_mem w1)) as [_ (m & Hm & Hmc)]; [done..|].
  unfold GetMessageByClientID, get_mem. munfold. cbn. rewrite Hmem.
  destruct (saveDeliveries_other (ServerMsgID msg) (default [] recipients)
    (saveMessageUnsafe msg (sw_mem w1))) as (_ & _ & -> & _).
  apply String.eqb_neq in Hf, Hc. rewrite Hf, Hc. cbn [negb andb]. rewrite Hm. cbn.
  by rewrite Hmc.
Qed.
End executions.

(** [dedupeStrings] keeps each non-empty string once, in the order of the input. *)
Theorem dedupeStrings_spec l :
  NoDup (dedupeStrings l) ∧ sublist (dedupeStrings l) l ∧
  ∀ x, x ∈ dedupeStrings l ↔ x ∈ l ∧ x ≠ "".
Proof.
  split_and!; [apply NoDup_dedupe_loop|apply dedupe_loop_sublist|].
  intros x. unfold dedupeStrings. rewrite elem_of_dedupe_loop. set_solver.
Qed.

(** The in-place swapping loop of [reverseMessages] is list reversal. *)
Theorem reverseMessages_is_reverse l : reverseMessages l = reverse l.
Proof. apply reverseMessages_reverse. Qed.


(** * Witnesses *)

(** The memory-only store after [msg1] was saved for bob. *)
Definition wm : SW MemDB (gmap string string) :=
  exec (SaveMessageWithRecipients (Some msg1) (Some ["bob"])) (w0 false).

Lemma acked_never_pending_witness :
  eval (GetRecipients "s-1") wm = ["bob"] ∧
  "bob" ∉ eval (GetRecipients "s-1")
    (run_calls [CSaveDelivery "s-1" "bob"; CScheduleRetry "s-1" "bob" None 5 1]
      (exec (MarkDeliveryAcked "s-1" "bob") wm)).
Proof.
  split; [by vm_compute|]. apply acked_never_pending; [by vm_compute|].
  vm_compute. by eexists.
Defined.

Lemma NextSeq_consecutive_witness :
  eval (NextSeq "") (w0 false) = (1, None) ∧
  eval (NextSeq "") (run_calls [CNextSeq "default"; CNextSeq "c2c:a:b"]
    (exec (NextSeq "") (w0 false))) = (3, None).
Proof.
  split; [by vm_compute|].
  by apply (NextSeq_consecutive "" [CNextSeq "default"; CNextSeq "c2c:a:b"] (w0 false) 1);
    vm_compute.
Defined.

(** A delivery sent once is dead after two failures when the limit is three. *)
Lemma dead_letter_after_max_retries_witness :
  let ws := exec (MarkDeliverySent "s-1" "bob" None) wm in
  let e := sent_entry (Unix t0) (new_entry "bob") in
  let w' := Nat.iter 2 (exec (ScheduleRetry "s-1" "bob" None 3 Second)) ws in
  ∃ e', entry_of "s-1" "bob" (sw_mem w') = Some e' ∧ Retry e' = 3 ∧ Acked e' = false ∧
    Read e' = false ∧ (Dead e' = true ↔ false = true ∨ (0 < 2)%nat ∧ 3 <= 3).
Proof.
  by apply (dead_letter_after_max_retries 2 (exec (MarkDeliverySent "s-1" "bob" None) wm)
    "s-1" "bob" None 3 Second (sent_entry (Unix t0) (new_entry "bob"))); vm_compute.
Defined.

Lemma backoff_doubles_six_times_witness :
  backoff (2 * Second) 3 = 8 * Second ∧
  backoff (2 * Second) 3 = 2 * Second * 2 ^ Z.min (3 - 1) 6 ∧
  2 * Second <= backoff (2 * Second) 3 <= 64 * (2 * Second).
Proof. split; [by vm_compute|]. by apply backoff_doubles_six_times; vm_compute. Defined.

Lemma DeliveryStats_counts_witness :
  let w := exec (MarkDeliveryAcked "s-1" "bob") wm in
  let st := eval DeliveryStats w in
  let es := all_entries (sw_mem w) in
  Delivered st = 1 ∧
  Pending st = count pending_entry es ∧ Delivered st = count is_delivered es ∧
  ReadN st = count is_read es ∧ DeadN st = count is_dead es ∧
  Pending st + Delivered st + ReadN st + DeadN st = Z.of_nat (length es).
Proof.
  split; [by vm_compute|].
  by apply (DeliveryStats_counts (exec (MarkDeliveryAcked "s-1" "bob") wm)); vm_compute.
Defined.

Lemma history_from_memory_witness :
  eval (GetC2CHistory "bob" "alice" 10) wm = [msg1] ∧
  ∃ full, full ≡ₚ List.filter (λ m, c2c_between "bob" "alice" (From m) (To m))
                    (map_to_list (messages (sw_mem wm))).*2 ∧
    StronglySorted (key_le Seq) full ∧
    eval (GetC2CHistory "bob" "alice" 10) wm = drop (length full - 10) full ∧
    sw_mem (exec (GetC2CHistory "bob" "alice" 10) wm) = sw_mem wm.
Proof.
  split; [by vm_compute|]. by apply (history_from_memory "bob" "alice" 10 wm); vm_compute.
Defined.

Lemma saved_message_found_by_client_id_witness :
  GetMessageByClientID "alice" "c-1" wm = (Some msg1, wm).
Proof.
  by apply (saved_message_found_by_client_id msg1 (Some ["bob"]) (w0 false) wm); vm_compute.
Defined.
