(* ===== verification/ChatFacts.v ===== *)
(** From a send request to the channel of its recipient: what a saved message leaves in the
    store, and what one delivery does to the sessions, in both modes of the store. *)
From S2P Require Import Prelude GoStr Protocol StoreIface Limiter Logic LogicFacts Worker.
From S2P Require Import Storage Cache Store StoreSteps StoreInv StoreFacts StoreImpl WorkerFacts.
From S2P Require Import Group Hub Server Session Commands.

(** * Saving, against the interface of the store *)

Section send.
Context {W : Type} `{Clock W} `{Store W}.
(** What reading the clock, looking for a message and numbering a chat leave alone. *)
Context (Rel : relation W) `{!PreOrder Rel}.
Context (Hclock : moves Rel clock) (Hget : ∀ f c, moves Rel (st_GetMessageByClientID f c))
  (Hseq : ∀ c, moves Rel (st_NextSeq c)).
Implicit Types l : LogicService W.

Lemma with_client_id_rel q l q' l1 :
  with_client_id q l = (q', l1) →
  q' = set_ClientMsgID (ClientMsgID q') q ∧ Rel (l_store l) (l_store l1).
Proof.
  unfold with_client_id. destruct (String.eqb _ ""); munfold.
  - rewrite l_call_spec. intros [= <- <-]. split; [done|apply Hclock].
  - intros [= <- <-]. split; [by destruct q|reflexivity].
Qed.

(** A message [send_new] saved: it carries the request, and the store saved it last. *)
Lemma send_new_saved q tos l r l' m :
  send_new q tos l = (r, l') → saved r = Some m →
  r = mkSent (Some m) None None (Some q) ∧ ClientMsgID m = ClientMsgID q ∧
  From m = From q ∧ To m = To q ∧ Body m = Body q ∧ ServerMsgID m ≠ "" ∧
  ∃ w, Rel (l_store l) w ∧ st_SaveMessageWithRecipients (Some m) tos w = (None, l_store l').
Proof.
  unfold send_new, GenerateServerMsgID, next_id. munfold. rewrite l_call_spec.
  cbn [l_store idCounter]. rewrite l_call_spec. cbn [l_store idCounter].
  rewrite l_call_spec. cbn [l_store idCounter]. rewrite l_call_spec.
  cbn [l_store idCounter].
  set (w := exec clock (exec clock (exec (st_NextSeq (chat_of q)) (l_store l)))).
  set (msg := mkMessage _ _ _ _ _ _ _ _ _ _). intros [= <- <-] Hs.
  unfold eval, exec. destruct (st_SaveMessageWithRecipients (Some msg) tos w) as [[e|] w'] eqn:E;
    unfold eval in Hs; rewrite E in Hs; [done|]. injection Hs as <-.
  do 6 (split; [done|]). exists w. split; [|done].
  etrans; [apply (Hseq (chat_of q))|]. etrans; apply Hclock.
Qed.

Lemma ProcessSend_saved q tos l m :
  let r := eval (ProcessSend (Some q) tos) l in
  saved r = Some m →
  (∃ q', r = mkSent (Some m) None None (Some q') ∧ ClientMsgID m = ClientMsgID q') ∧
  From m = From q ∧ To m = To q ∧ Body m = Body q ∧ ServerMsgID m ≠ "" ∧
  ∃ w, Rel (l_store l) w ∧
    st_SaveMessageWithRecipients (Some m) tos w =
      (None, l_store (exec (ProcessSend (Some q) tos) l)).
Proof.
  cbn zeta. destruct (ProcessSend_cases (Some q) tos l)
    as [e He|q0 q' l1 ex w2 [= <-] _ E1 E2|q0 q' l1 w2 r l' [= <-] _ E1 E2 E3]; [done..|].
  intros Hs. destruct (with_client_id_rel _ _ _ _ E1) as [Hq Hr].
  destruct (send_new_saved _ _ _ _ _ _ E3 Hs) as (-> & Hc & Hf & Ht & Hb & Hi & w & Hw & Hsave).
  split; [by exists q'|]. rewrite Hf, Ht, Hb, Hq. do 4 (split; [done|]). exists w. split; [|done].
  etrans; [exact Hr|]. etrans; [|exact Hw]. cbn.
  specialize (Hget (From q') (ClientMsgID q') (l_store l1)). unfold exec in Hget.
  by rewrite E2 in Hget.
Qed.
End send.

(** * What a save leaves in memory *)

Create HintDb deliveries discriminated.

Section store.
Context `{GoEnv} {D R : Type} `{Gorm D} `{Redis R} `{Json}.
Implicit Types w : SW D R.

(** The deliveries in memory are as before. *)
Definition same_deliveries : relation (SW D R) :=
  on (λ w, deliveries (sw_mem w)) eq.
Abbreviation keeps_deliveries := (moves same_deliveries).
Abbreviation keeps_mem := (moves (on (@sw_mem D R) eq)).

#[export] Instance same_deliveries_preorder : PreOrder same_deliveries.
Proof. unfold same_deliveries. apply _. Qed.

Lemma mem_deliveries {A} (m : M (SW D R) A) : keeps_mem m → keeps_deliveries m.
Proof. intros Hm w. unfold same_deliveries, on. by rewrite (Hm w). Qed.

Lemma ext_keeps_mem {A} (m : M (Ext D R) A) : keeps_mem (ext m).
Proof. intros w. unfold exec, ext, zoom, on. by destruct (m (sw_ext w)). Qed.
Lemma ext_deliveries {A} (m : M (Ext D R) A) : keeps_deliveries (ext m).
Proof. apply mem_deliveries, ext_keeps_mem. Qed.
Lemma message_deliveries msg : keeps_deliveries (mem_modify (saveMessageUnsafe msg)).
Proof. done. Qed.
Lemma seq_deliveries f : keeps_deliveries (mem_modify (λ s, set_nextSeq (f s) s)).
Proof. done. Qed.
#[local] Hint Resolve ext_keeps_mem ext_deliveries message_deliveries seq_deliveries : deliveries.

Lemma persist_keeps_mem msg tos : keeps_mem (persist_message msg tos).
Proof. unfold persist_message, cache_message. moves_tac ltac:(eauto with deliveries). Qed.
Lemma clock_deliveries : keeps_deliveries (clock : M (SW D R) Z).
Proof. apply ext_deliveries. Qed.
Lemma get_deliveries f c : keeps_deliveries (st_GetMessageByClientID f c).
Proof.
  cbn. unfold GetMessageByClientID, get_mem. moves_tac ltac:(eauto with deliveries).
Qed.
Lemma NextSeq_deliveries c : keeps_deliveries (st_NextSeq c).
Proof.
  intros w. destruct (NextSeq_spec c w) as (n & _ & _ & Hs & _).
  unfold same_deliveries, on. cbn. by rewrite Hs.
Qed.

(** Saving a message nobody was to get yet. *)
Lemma save_fresh msg tos w w' :
  SaveMessageWithRecipients (Some msg) tos w = (None, w') →
  deliveries (sw_mem w) !! ServerMsgID msg = None →
  messages (sw_mem w') !! ServerMsgID msg = Some msg ∧
  (∀ t, entry_of (ServerMsgID msg) t (sw_mem w') =
        if decide (t ∈ default [] tos) then Some (new_entry t) else None).
Proof.
  intros Hs Hf. assert (∃ w1, sw_mem w1 = sw_mem w ∧
    remember_message msg (default [] tos) w1 = (None, w')) as (w1 & Hw1 & Hr).
  { revert Hs. unfold SaveMessageWithRecipients, mem. unfold mbind, M_bind, gets.
    case_match; [done|]. destruct (persistent (sw_mem w)); [|by eexists].
    pose proof (persist_keeps_mem msg tos w) as Hm. unfold exec, on in Hm.
    destruct (persist_message msg tos w) as [[e|] w1]; [done|]. exists w1. by split. }
  destruct (remember_message_spec msg (default [] tos) w1) as (_ & _ & Hm).
  rewrite Hr, Hw1 in Hm. cbn in Hm. rewrite Hm.
  destruct (saveDeliveries_other (ServerMsgID msg) (default [] tos)
    (saveMessageUnsafe msg (sw_mem w))) as (_ & -> & _ & _). split.
  - cbn. by rewrite lookup_insert_eq.
  - intros t. rewrite saveDeliveries_entry. unfold entry_of. cbn. rewrite Hf. cbn.
    repeat case_decide; tauto.
Qed.

(** The recipients of such a message, whatever the mode: they are read from memory. *)
Lemma GetRecipients_fresh i ts w :
  ts ≠ [] → (∀ t, entry_of i t (sw_mem w) = if decide (t ∈ ts) then Some (new_entry t) else None) →
  NoDup (eval (GetRecipients i) w) ∧ (∀ t, t ∈ eval (GetRecipients i) w ↔ t ∈ ts) ∧
  sw_mem (exec (GetRecipients i) w) = sw_mem w.
Proof.
  intros Hts He. destruct ts as [|t0 ts]; [done|].
  destruct (GetRecipients_waiting i t0 (new_entry t0) w) as (Hnd & Hin & Hm); [|done|].
  { rewrite He. by rewrite decide_True by by left. }
  split_and!; [done| |done]. intros t. rewrite Hin, He.
  case_decide; split; try done; [by eauto|]. by intros (? & ? & ?).
Qed.
End store.

(** * What one delivery does to the sessions *)

Section delivery.
Context `{GoEnv} {D R : Type} `{Gorm D} `{Redis R} `{Json}.
Implicit Types im : IM (D := D) (R := R).

(** The copy for one recipient reaches the session of its entry in the online map. *)
Definition hand_out (id : string) (msg : Message) (om : gmap string OnlineInfo) (r : string)
    (ss : gmap nat SUser) : gmap nat SUser :=
  match om !! r with
  | Some info => alter (receives (json_message (deliver_copy id r msg))) (Sender info) ss
  | None => ss
  end.

(** Online map and sessions. *)
Definition seats im : gmap string OnlineInfo * gmap nat SUser :=
  (OnlineMap (d_net im), sessions (d_net im)).

Lemma on_store_hub {A} (m : M (SW D R) A) im :
  d_net (exec (on_store m) im) = d_net im ∧ d_worker (exec (on_store m) im) = d_worker im.
Proof. unfold exec. unfold on_store, zoom. by destruct (m (d_store im)). Qed.

Lemma deliver_to_hub id msg om r im :
  let im' := exec (deliver_to id msg ((λ info, Some (Sender info)) <$> om) r) im in
  d_worker im' = d_worker im ∧ OnlineMap (d_net im') = OnlineMap (d_net im) ∧
  sessions (d_net im') = hand_out id msg om r (sessions (d_net im)).
Proof.
  cbn zeta. unfold deliver_to, hand_out. rewrite lookup_fmap.
  destruct (om !! r) as [info|]; cbn [fmap option_fmap option_map].
  - rewrite !exec_bind. change (exec (mret tt) ?s) with s.
    destruct (on_store_hub (st_MarkDeliverySent id r None)
      (exec (on_net (net_SendJSON (Sender info) (deliver_copy id r msg))) im)) as [-> ->].
    destruct (SendMsg_sessions (Sender info) (json_message (deliver_copy id r msg)) (d_net im))
      as (<- & <- & _). done.
  - rewrite !exec_bind. change (exec (mret tt) ?s) with s.
    by match goal with |- context [exec (on_store ?m) ?s] =>
      destruct (on_store_hub m s) as [-> ->] end.
Qed.

Lemma deliver_loop_hub id msg om ts im :
  let im' := exec (forM ts (deliver_to id msg ((λ info, Some (Sender info)) <$> om))) im in
  d_worker im' = d_worker im ∧ OnlineMap (d_net im') = OnlineMap (d_net im) ∧
  sessions (d_net im') = foldl (λ ss r, hand_out id msg om r ss) (sessions (d_net im)) ts.
Proof.
  cbn zeta. rewrite exec_forM. revert im. induction ts as [|t ts IH]; intros im; [done|].
  cbn [foldl]. destruct (deliver_to_hub id msg om t im) as (E1 & E2 & <-).
  rewrite <- E1, <- E2. apply IH.
Qed.

(** One delivery of a message in memory, in both modes of the store. *)
Lemma deliver_hub id msg im :
  messages (sw_mem (d_store im)) !! id = Some msg →
  let im' := exec (deliver id) im in
  d_worker im' = d_worker im ∧ OnlineMap (d_net im') = OnlineMap (d_net im) ∧
  sessions (d_net im') =
    foldl (λ ss r, hand_out id msg (OnlineMap (d_net im)) r ss) (sessions (d_net im))
      (with_target (To msg) (eval (GetRecipients id) (d_store im))).
Proof.
  intros Hm. cbn zeta. unfold deliver. rewrite exec_bind.
  assert (GetMessageByServerID id (d_store im) = (Some msg, d_store im)) as Eg.
  { unfold GetMessageByServerID, get_mem. munfold. by rewrite Hm. }
  assert (on_store (st_GetMessageByServerID id) im = (Some msg, im)) as Eg'.
  { unfold on_store, zoom. cbn. rewrite Eg. by destruct im. }
  assert (eval (on_store (st_GetMessageByServerID id)) im = Some msg) as -> by (unfold eval; by rewrite Eg').
  assert (exec (on_store (st_GetMessageByServerID id)) im = im) as -> by (unfold exec; by rewrite Eg').
  rewrite !exec_bind. set (im1 := exec (on_store (st_GetRecipients id)) im).
  destruct (on_store_hub (st_GetRecipients id) im) as [En Ew]. fold im1 in En, Ew.
  assert (eval (on_store (st_GetRecipients id)) im = eval (GetRecipients id) (d_store im)) as ->.
  { unfold eval, on_store, zoom. cbn. by destruct (GetRecipients id (d_store im)). }
  change (eval (gets ?f) im1) with (f im1). change (exec (gets ?f) im1) with im1.
  cbn [net_online hub_net]. rewrite <- En, <- Ew. apply deliver_loop_hub.
Qed.

(** An idle worker asked to deliver one message does that next. *)
Lemma deliver_next_one id im :
  deliverQueue (d_worker im) = [id] →
  let im' := exec deliver_next im in
  seats im' = seats (exec (deliver id)
    (mkDW (set_queue [] (d_worker im)) (d_store im) (d_net im) : IM (D := D) (R := R))).
Proof.
  intros Hq. cbn zeta. unfold deliver_next. rewrite exec_bind.
  change (eval (gets d_worker) im) with (d_worker im). rewrite Hq, !exec_bind. done.
Qed.
End delivery.

(** * Requests of the text commands *)

Section request.
Context `{GoEnv} {D R : Type} `{Gorm D} `{Redis R} `{Json}.
Abbreviation Prog := (IM (D := D) (R := R)).
Implicit Types im : Prog.

(** A request that was saved: the message is in memory with its recipients waiting. *)
Lemma sent_saved q tos im m :
  let r := eval (srv_ProcessSend (Some q) tos) im in
  let im' := exec (srv_ProcessSend (Some q) tos) im in
  saved r = Some m → deliveries (sw_mem (d_store im)) !! ServerMsgID m = None →
  (∃ q', r = mkSent (Some m) None None (Some q') ∧ ClientMsgID m = ClientMsgID q') ∧
  From m = From q ∧ To m = To q ∧ Body m = Body q ∧ ServerMsgID m ≠ "" ∧
  messages (sw_mem (d_store im')) !! ServerMsgID m = Some m ∧
  (∀ t, entry_of (ServerMsgID m) t (sw_mem (d_store im')) =
        if decide (t ∈ default [] tos) then Some (new_entry t) else None) ∧
  d_worker im' = d_worker im ∧ seats im' = seats im.
Proof.
  cbn zeta. set (l := mkLogic (h_idCounter (d_net im)) (d_store im)).
  assert (eval (srv_ProcessSend (Some q) tos) im = eval (ProcessSend (Some q) tos) l) as ->.
  { unfold eval, srv_ProcessSend, on_logic. fold l. by destruct (ProcessSend _ _ l). }
  assert (exec (srv_ProcessSend (Some q) tos) im =
    let l' := exec (ProcessSend (Some q) tos) l in
    mkDW (d_worker im) (l_store l') (set_idCounter (idCounter l') (d_net im))) as ->.
  { unfold exec, srv_ProcessSend, on_logic. fold l. by destruct (ProcessSend _ _ l). }
  intros Hs Hf. cbn zeta.
  destruct (ProcessSend_saved (W := SW D R) same_deliveries clock_deliveries get_deliveries
    NextSeq_deliveries q tos l m Hs) as (Hr & Hfrom & Hto & Hb & Hi & w & Hw & Hsave).
  destruct (save_fresh m tos w _ Hsave) as [Hm He].
  { unfold same_deliveries, on in Hw. rewrite <- Hw. exact Hf. }
  by split_and!.
Qed.

(** The send request of a command: a client id made of the time, no other field. *)
Definition request (prefix chat from to body : string) (tos : option (list string)) :
    M Prog SendResult :=
  cid ← fresh_client_id prefix;
  srv_ProcessSend (Some (mkMessage TypeSend cid "" chat from to 0 0 body 0)) tos.

Lemma request_saved prefix chat from to body tos im m :
  let r := eval (request prefix chat from to body tos) im in
  let im' := exec (request prefix chat from to body tos) im in
  saved r = Some m → deliveries (sw_mem (d_store im)) !! ServerMsgID m = None →
  r = mkSent (Some m) None None (req_after r) ∧
  From m = from ∧ To m = to ∧ Body m = body ∧ ServerMsgID m ≠ "" ∧
  messages (sw_mem (d_store im')) !! ServerMsgID m = Some m ∧
  (∀ t, entry_of (ServerMsgID m) t (sw_mem (d_store im')) =
        if decide (t ∈ default [] tos) then Some (new_entry t) else None) ∧
  d_worker im' = d_worker im ∧ seats im' = seats im.
Proof.
  cbn zeta. unfold request. rewrite !eval_bind, !exec_bind. cbn beta. intros Hs Hf.
  destruct (sent_saved _ _ (exec (fresh_client_id prefix) im) m Hs Hf) as ((q' & Hr & _) & Hrest).
  split; [by rewrite Hr|exact Hrest].
Qed.
End request.
