(* ===== verification/ChatProps.v ===== *)
(** From a line typed on one connection to the channels of its recipients: private messages
    and group messages, end to end through the reader, the dispatch, the logic service, the
    store (in either mode), the delivery worker and the sessions. *)
From S2P Require Import Prelude GoStr Utf8 Protocol StoreIface Limiter Logic Worker WorkerFacts.
From S2P Require Import Storage MemDB Cache Dao Store StoreImpl Group Hub Server Session Commands Conn.
From S2P Require Import ReadProps Config SessionFacts Program Demo OnlineProps ChatFacts.

(** * Lists *)

Lemma cut_sep c b r : contains_byte c b = false → cut c (b +:+ String c r) = Some (b, r).
Proof. intros Hb. by apply cut_Some. Qed.

(** A command of three parts, the first of them [pre]. *)
Lemma SplitN_three pre b t :
  contains_byte pipe pre = false → contains_byte pipe b = false →
  SplitN (pre +:+ String pipe (b +:+ String pipe t)) pipe 3 = [pre; b; t].
Proof.
  intros Hp Hb. unfold SplitN. rewrite (cut_sep pipe pre) by done. by rewrite (cut_sep pipe b).
Qed.

Lemma NoDup_only {A} (x : A) l : NoDup l → (∀ y, y ∈ l ↔ y ∈ [x]) → l = [x].
Proof.
  intros Hl Hx. apply Permutation_singleton_r, NoDup_Permutation; [done|apply NoDup_singleton|done].
Qed.

(** Evaluate the tests of the goal, as far as they look at known characters only. *)
Ltac decide_ifs :=
  repeat match goal with
  | |- context [HasPrefix ?s ?p] => change (HasPrefix s p) with false
  | |- context [String.eqb ?s ?t] => change (String.eqb s t) with false
  end; cbv iota.

Lemma HasPrefix_app pre s : HasPrefix (pre +:+ s) pre = true.
Proof.
  unfold HasPrefix. induction pre as [|a pre IH]; [by destruct s|].
  change (String.prefix _ _) with
    (if ascii_dec a a then String.prefix pre (pre +:+ s) else false).
  by destruct (ascii_dec a a).
Qed.

Section chat.
Context `{GoEnv} {D R : Type} `{Gorm D} `{Redis R} `{Json} `{GoFmt} `{Bcrypt} `{Gb18030}.
Abbreviation Prog := (IM (D := D) (R := R)).
Abbreviation MI := (M Prog).
Implicit Types im : Prog.

(** * Typing a line *)

(** The client types [raw] and ends the line. *)
Definition typed (raw line : string) : Prop :=
  contains_byte lf raw = false ∧ (String.length (drop_cr raw) <= MaxMessageLength)%nat ∧
  TrimSpace (decodeInputText (drop_cr raw)) = line.

Definition counted im : Prog := exec (hub_modify markInboundMessage) im.

Lemma eval_the_user c im u : sessions (d_net im) !! c = Some u → eval (the_user c : MI _) im = u.
Proof. intros Hu. unfold eval. by rewrite (the_user_eval c im u). Qed.

Lemma turn_command c raw rest cmd im u :
  sessions (d_net im) !! c = Some u → Authenticated u = true → typed raw cmd →
  cmd ≠ "" → HasPrefix cmd "{" = false →
  exec (ManagerMessage_turn c (terminated raw rest)) im = exec (DoMessage c cmd) (counted im).
Proof.
  intros Hu Ha (Hlf & Hlen & Ht) Hne Hj. unfold ManagerMessage_turn.
  rewrite readRawLine_terminated by done. rewrite (proj2 (Nat.leb_le _ _)) by done.
  rewrite exec_bind. change (exec (mret ?a) ?s) with s. unfold processRawLine. rewrite Ht.
  rewrite (proj2 (String.eqb_neq _ _)) by done. rewrite !exec_bind. fold (counted im).
  change (exec (the_user c) ?s) with s. rewrite (eval_the_user c (counted im) u Hu), Ha.
  cbn [negb]. unfold process_command. by rewrite Hj, exec_bind.
Qed.

(** * The private message *)

Definition chat_line (b t : string) : string := "to|" +:+ b +:+ "|" +:+ t.
Definition chat_done (to text : string) : string :=
  line ("已将'" +:+ text +:+ "' 消息发送 --> " +:+ to).

Lemma DoMessage_chat c b t im :
  TrimSpace (chat_line b t) = chat_line b t →
  exec (DoMessage c (chat_line b t)) im = exec (useChat c (chat_line b t)) im.
Proof.
  intros Ht. unfold DoMessage. rewrite Ht. unfold prefix_commands. cbn [dispatch_prefix].
  decide_ifs. unfold chat_line. by rewrite (HasPrefix_app "to|").
Qed.

(** The request of the command, saved: what is left is to enqueue and to tell the sender. *)
Lemma useChat_saved c b t im u m :
  let to := TrimSpace b in let text := TrimSpace t in
  let req := request "c-" "" (u_Name u) to text (Some [to]) : MI SendResult in
  sessions (d_net im) !! c = Some u → contains_byte pipe b = false →
  to ≠ "" → text ≠ "" → to ≠ u_Name u → saved (eval req im) = Some m →
  deliveries (sw_mem (d_store im)) !! ServerMsgID m = None →
  exec (useChat c (chat_line b t)) im =
  exec (send_msg c (chat_done to text))
    (exec (srv_EnqueueServerMsg (ServerMsgID m)) (exec req im)).
Proof.
  intros to text req Hu Hb Hto Htext Hself Hs Hf.
  destruct (request_saved _ _ _ _ _ _ _ _ Hs Hf) as (Hr & _).
  unfold useChat. change (chat_line b t) with ("to" +:+ String pipe (b +:+ String pipe t)).
  rewrite SplitN_three by done. change (part [_; b; t] 1) with to.
  change (part [_; b; t] 2) with text. cbn [length Nat.eqb negb orb].
  rewrite (proj2 (String.eqb_neq to "")), (proj2 (String.eqb_neq text "")) by done. cbn [orb].
  rewrite exec_bind, (eval_the_user c im u Hu). change (exec (the_user c) im) with im.
  rewrite (proj2 (String.eqb_neq to _)) by done.
  assert (∀ k : SendResult → MI unit,
    exec (cid ← fresh_client_id "c-";
          srv_ProcessSend (Some (mkMessage TypeSend cid "" "" (u_Name u) to 0 0 text 0))
            (Some [to]) ≫= k) im = exec (k (eval req im)) (exec req im)) as ->.
  { intros k. subst req. unfold request. by rewrite !exec_bind, !eval_bind. }
  subst req. rewrite Hr. cbn [send_err existing saved]. by rewrite exec_bind.
Qed.

(** * Enqueueing and delivering *)

Lemma enqueue_idle id w :
  deliverQueue w = [] → id ≠ "" → id ∉ deliverInFlight w →
  deliverQueue (EnqueueServerMsg id w) = [id].
Proof.
  intros Hq Hne Hi. unfold EnqueueServerMsg, mark_inflight, try_send.
  rewrite (proj2 (String.eqb_neq id "")), bool_decide_eq_false_2 by done. cbn. by rewrite Hq.
Qed.

(** The turn of the worker that delivers a message just saved for [tos]. *)
Lemma delivered_next id m tos im :
  deliverQueue (d_worker im) = [id] → messages (sw_mem (d_store im)) !! id = Some m →
  tos ≠ [] →
  (∀ t, entry_of id t (sw_mem (d_store im)) =
        if decide (t ∈ tos) then Some (new_entry t) else None) →
  ∃ l, NoDup l ∧ (∀ t, t ∈ l ↔ t ∈ tos) ∧
    seats (exec deliver_next im) =
      (OnlineMap (d_net im),
       foldl (λ ss r, hand_out id m (OnlineMap (d_net im)) r ss) (sessions (d_net im))
         (with_target (To m) l)).
Proof.
  intros Hq Hm Hne He. destruct (GetRecipients_fresh id tos (d_store im) Hne He) as (Hnd & Hin & _).
  eexists. split; [exact Hnd|]. split; [exact Hin|]. rewrite (deliver_next_one id) by done.
  destruct (deliver_hub id m (mkDW (set_queue [] (d_worker im)) (d_store im) (d_net im) : Prog) Hm)
    as (_ & Ho & Hs). unfold seats. by rewrite Ho, Hs.
Qed.

(** A saved request, enqueued by an idle worker while its sender is told, and delivered. *)
Lemma request_delivered c prefix chat from to body tos text im m :
  let req := request prefix chat from to body (Some tos) : MI SendResult in
  deliverQueue (d_worker im) = [] → saved (eval req im) = Some m →
  ServerMsgID m ∉ deliverInFlight (d_worker im) →
  deliveries (sw_mem (d_store im)) !! ServerMsgID m = None → tos ≠ [] →
  ∃ l, NoDup l ∧ (∀ t, t ∈ l ↔ t ∈ tos) ∧
    seats (exec deliver_next (exec (send_msg c text)
      (exec (srv_EnqueueServerMsg (ServerMsgID m)) (exec req im)))) =
      (OnlineMap (d_net im),
       foldl (λ ss r, hand_out (ServerMsgID m) m (OnlineMap (d_net im)) r ss)
         (alter (receives text) c (sessions (d_net im))) (with_target (To m) l)).
Proof.
  intros req Hq Hs Hi Hf Hne.
  destruct (request_saved _ _ _ _ _ _ _ _ Hs Hf) as (_ & _ & _ & _ & Hid & Hm & He & Hw & Hseat).
  set (im1 := exec (send_msg c text) _).
  destruct (delivered_next (ServerMsgID m) m tos im1) as (l & Hnd & Hin & Hl); [|done..|].
  { change (d_worker im1) with (EnqueueServerMsg (ServerMsgID m) (d_worker (exec req im))).
    subst req. rewrite Hw. by apply enqueue_idle. }
  exists l. split; [done|]. split; [done|]. rewrite Hl. injection Hseat as Ho Hss.
  destruct (SendMsg_sessions c text (d_net (exec req im))) as (E1 & E2 & _).
  change (d_net im1) with (SendMsg c text (d_net (exec req im))). rewrite E1, E2.
  subst req. by rewrite Ho, Hss.
Qed.

(** C1. A private message arrives. When an authenticated session types [to|name|text] for
    another user, the store saves the message and the worker is idle, then the reader's turn
    and one turn of the worker put exactly one copy of it, from the typist to that user and
    with that text, into the channel of the session the user is online on (nothing is sent
    when he is not), confirm it to the typist, and touch no other session. Channels that are
    full or closed drop it, as [receives] says. *)
Theorem chat_reaches_recipient file x (im : Prog) c u raw rest b t m :
  reachable file x im → sessions (d_net im) !! c = Some u → Authenticated u = true →
  typed raw (chat_line b t) → contains_byte pipe b = false →
  let to := TrimSpace b in let text := TrimSpace t in
  to ≠ "" → text ≠ "" → to ≠ u_Name u → deliverQueue (d_worker im) = [] →
  saved (eval (request "c-" "" (u_Name u) to text (Some [to]) : MI _) (counted im)) = Some m →
  ServerMsgID m ∉ deliverInFlight (d_worker im) →
  deliveries (sw_mem (d_store im)) !! ServerMsgID m = None →
  let im1 := exec (ManagerMessage_turn c (terminated raw rest)) im in
  let im2 := exec deliver_next im1 in
  let copy := deliver_copy (ServerMsgID m) to m in
  prog_step im im1 ∧ prog_step im1 im2 ∧
  From copy = u_Name u ∧ To copy = to ∧ Body copy = text ∧
  (let told := alter (receives (chat_done to text)) c (sessions (d_net im)) in
   sessions (d_net im2) =
     match OnlineMap (d_net im) !! to with
     | Some info => alter (receives (json_message copy)) (Sender info) told
     | None => told
     end) ∧
  ∀ info, OnlineMap (d_net im) !! to = Some info → Sender info ≠ c.
Proof.
  intros Hr Hu Ha Htyped Hb to text Hto Htext Hself Hq Hs Hi Hf im1 im2 copy.
  assert (TrimSpace (chat_line b t) = chat_line b t) as Htrim
    by (destruct Htyped as (_ & _ & <-); apply TrimSpace_idemp).
  assert (im1 = exec (send_msg c (chat_done to text)) (exec (srv_EnqueueServerMsg (ServerMsgID m))
    (exec (request "c-" "" (u_Name u) to text (Some [to])) (counted im)))) as E1.
  { subst im1. rewrite (turn_command c raw rest (chat_line b t) im u) by done.
    rewrite DoMessage_chat by done. by apply useChat_saved. }
  destruct (request_saved _ _ _ _ _ _ (counted im) m Hs Hf) as (_ & Hfrom & Hmto & Hbody & _).
  split; [apply step_read; by eexists|]. split; [apply step_deliver|].
  split; [exact Hfrom|]. split; [done|]. split; [exact Hbody|]. split.
  - destruct (request_delivered c "c-" "" (u_Name u) to text [to] (chat_done to text)
      (counted im) m Hq Hs Hi Hf) as (l & Hnd & Hin & Hl); [done|].
    apply (NoDup_only to) in Hin as ->; [|done]. rewrite <- E1 in Hl. fold im2 in Hl.
    apply (f_equal snd) in Hl. cbn in Hl. rewrite Hl, Hmto. unfold with_target.
    cbn [existsb]. rewrite String.eqb_refl. cbn [orb negb]. rewrite andb_false_r. done.
  - intros info Hinfo E. destruct (reachable_sound file x im Hr to info Hinfo) as [_ Hw].
    unfold im_roster, roster_of, who in Hw. cbn in Hw. rewrite lookup_fmap, E, Hu in Hw.
    by injection Hw as <- _.
Qed.

(** * The group message *)

(** Copies for several users, on different sessions. *)
Section hand_outs.
Context (id : string) (m : Message) (om : gmap string OnlineInfo).
Abbreviation hands := (foldl (λ ss r, hand_out id m om r ss)).

Lemma hand_outs_none l ss d :
  (∀ r info, r ∈ l → om !! r = Some info → Sender info ≠ d) → hands ss l !! d = ss !! d.
Proof.
  revert ss. induction l as [|r l IH]; intros ss Hl; [done|]. cbn [foldl]. rewrite IH.
  - unfold hand_out. destruct (om !! r) as [info|] eqn:Hr; [|done].
    rewrite lookup_alter_ne; [done|]. apply (Hl r); [by left|done].
  - intros r' info Hin. apply Hl. by right.
Qed.

Lemma hand_outs_one l ss r info :
  (∀ r1 r2 i1 i2, om !! r1 = Some i1 → om !! r2 = Some i2 → Sender i1 = Sender i2 → r1 = r2) →
  NoDup l → r ∈ l → om !! r = Some info →
  hands ss l !! Sender info =
    receives (json_message (deliver_copy id r m)) <$> ss !! Sender info.
Proof.
  intros Hinj Hnd Hin Hr. revert ss. induction Hnd as [|r' l Hr' Hnd IH]; intros ss;
    [by apply not_elem_of_nil in Hin|].
  cbn [foldl]. apply elem_of_cons in Hin as [<-|Hin].
  - rewrite hand_outs_none.
    + unfold hand_out. by rewrite Hr, lookup_alter_eq.
    + intros r2 i2 Hr2 Hi2 E. by rewrite (Hinj r2 r i2 info) in Hr2.
  - rewrite IH by done. unfold hand_out. destruct (om !! r') as [i'|] eqn:Ei'; [|done].
    rewrite lookup_alter_ne; [done|]. intros E. by rewrite (Hinj r' r i' info) in Hr'.
Qed.
End hand_outs.

Definition member (g name : string) im : Prop := (RoleOf g name (groupManager (d_net im))).2 = true.

Lemma group_members_spec g im :
  NoDup (eval (group_members g) im) ∧
  (∀ t, t ∈ eval (group_members g) im ↔ member g t im) ∧
  d_worker (exec (group_members g) im) = d_worker im ∧
  d_net (exec (group_members g) im) = d_net im ∧
  sw_mem (d_store (exec (group_members g) im)) = sw_mem (d_store im).
Proof.
  unfold eval, exec, group_members, member, Members, RoleOf.
  destruct (groups (groupManager (d_net im)) !! TrimSpace g) as [gr|].
  - unfold range_map. munfold. cbn [fst snd]. set (kvs := go_order _ _).
    assert (kvs ≡ₚ map_to_list (g_Members gr)) as Hkvs by apply go_order_perm.
    split; [rewrite Hkvs; apply NoDup_fst_map_to_list|]. split; [|done].
    intros t. rewrite list_elem_of_fmap. split.
    + intros ([k r] & -> & Hin). rewrite Hkvs in Hin. apply elem_of_map_to_list in Hin.
      cbn. rewrite Hin. by destruct r.
    + destruct (g_Members gr !! t) as [r|] eqn:Et; [|done]. intros _. exists (t, r).
      split; [done|]. rewrite Hkvs. by apply elem_of_map_to_list.
  - split; [constructor|]. split; [|done]. intros t. split; [by intros ?%not_elem_of_nil|done].
Qed.

Definition talk_line (g t : string) : string := "gt|" +:+ g +:+ "|" +:+ t.
Definition talk_done (id : string) : string := line ("群消息已入队: " +:+ id).
Definition others (me : string) (l : list string) : list string :=
  List.filter (λ x, negb (String.eqb x me)) l.

(** The request of the command. *)
Definition talk_request (g me text : string) : MI SendResult :=
  members ← group_members g;
  request "gc-" ("group:" +:+ g) me "" text (Some (others me members)).

Lemma DoMessage_talk c g t im :
  TrimSpace (talk_line g t) = talk_line g t →
  exec (DoMessage c (talk_line g t)) im = exec (useGroupTalk c (talk_line g t)) im.
Proof.
  intros Ht. unfold DoMessage. rewrite Ht. unfold prefix_commands. cbn [dispatch_prefix].
  decide_ifs. unfold talk_line. by rewrite (HasPrefix_app "gt|").
Qed.

Lemma useGroupTalk_saved c g t im u m :
  let id := TrimSpace g in let text := TrimSpace t in
  let req := talk_request id (u_Name u) text in
  sessions (d_net im) !! c = Some u → contains_byte pipe g = false →
  id ≠ "" → text ≠ "" → member id (u_Name u) im → saved (eval req im) = Some m →
  deliveries (sw_mem (d_store im)) !! ServerMsgID m = None →
  exec (useGroupTalk c (talk_line g t)) im =
  exec (send_msg c (talk_done (ServerMsgID m)))
    (exec (srv_EnqueueServerMsg (ServerMsgID m)) (exec req im)).
Proof.
  intros id text req Hu Hb Hid Htext Hme Hs Hf.
  destruct (group_members_spec id im) as (_ & _ & _ & _ & Hmem).
  assert (deliveries (sw_mem (d_store (exec (group_members id) im))) !! ServerMsgID m = None)
    as Hf' by (by rewrite Hmem).
  subst req. unfold talk_request in *. rewrite eval_bind in Hs. rewrite exec_bind.
  destruct (request_saved _ _ _ _ _ _ _ _ Hs Hf') as (Hr & _).
  unfold useGroupTalk. change (talk_line g t) with ("gt" +:+ String pipe (g +:+ String pipe t)).
  rewrite SplitN_three by done. change (part [_; g; t] 1) with id.
  change (part [_; g; t] 2) with text. cbn [length Nat.eqb negb orb].
  rewrite (proj2 (String.eqb_neq id "")), (proj2 (String.eqb_neq text "")) by done. cbn [orb].
  rewrite exec_bind, (eval_the_user c im u Hu). change (exec (the_user c) im) with im.
  rewrite exec_bind. change (eval (hub groupManager) im) with (groupManager (d_net im)).
  change (exec (hub groupManager) im) with im. rewrite Hme. cbn [negb].
  rewrite exec_bind. set (im1 := exec (group_members id) im) in *.
  set (tos := others (u_Name u) (eval (group_members id) im)) in *.
  assert (∀ k : SendResult → MI unit,
    exec (cid ← fresh_client_id "gc-";
          srv_ProcessSend (Some (mkMessage TypeSend cid "" ("group:" +:+ id) (u_Name u) "" 0 0
            text 0)) (Some tos) ≫= k) im1 =
    exec (k (eval (request "gc-" ("group:" +:+ id) (u_Name u) "" text (Some tos)) im1))
      (exec (request "gc-" ("group:" +:+ id) (u_Name u) "" text (Some tos)) im1)) as Hk.
  { intros k. unfold request. by rewrite !exec_bind, !eval_bind. }
  rewrite Hk, Hr. cbn [send_err existing saved]. by rewrite exec_bind.
Qed.

(** Different names are online on different sessions. *)
Lemma online_inj file x im r1 r2 i1 i2 :
  reachable file x im → OnlineMap (d_net im) !! r1 = Some i1 →
  OnlineMap (d_net im) !! r2 = Some i2 → Sender i1 = Sender i2 → r1 = r2.
Proof.
  intros Hr Ho1 Ho2 E. pose proof (reachable_sound file x im Hr) as Hs.
  destruct (Hs r1 i1 Ho1) as [_ Hw1]. destruct (Hs r2 i2 Ho2) as [_ Hw2].
  rewrite E, Hw2 in Hw1. by injection Hw1.
Qed.

Lemma online_name file x im r i u :
  reachable file x im → OnlineMap (d_net im) !! r = Some i →
  sessions (d_net im) !! Sender i = Some u → u_Name u = r.
Proof.
  intros Hr Ho Hu. destruct (reachable_sound file x im Hr r i Ho) as [_ Hw].
  unfold im_roster, roster_of, who in Hw. cbn in Hw. rewrite lookup_fmap, Hu in Hw.
  by injection Hw.
Qed.

(** C8. A group message reaches the group. When a member types [gt|group|text], the group has
    another member, the store saves the message and the worker is idle, then the reader's
    turn and one turn of the worker put exactly one copy of it into the channel of every other
    member who is online, confirm it to the typist, and leave every other session - those of
    users outside the group in particular - as it was. *)
Theorem group_talk_reaches_members file x (im : Prog) c u raw rest g t other m :
  reachable file x im → sessions (d_net im) !! c = Some u → Authenticated u = true →
  typed raw (talk_line g t) → contains_byte pipe g = false →
  let id := TrimSpace g in let text := TrimSpace t in
  id ≠ "" → text ≠ "" → member id (u_Name u) im → member id other im → other ≠ u_Name u →
  deliverQueue (d_worker im) = [] →
  saved (eval (talk_request id (u_Name u) text) (counted im)) = Some m →
  ServerMsgID m ∉ deliverInFlight (d_worker im) →
  deliveries (sw_mem (d_store im)) !! ServerMsgID m = None →
  let im1 := exec (ManagerMessage_turn c (terminated raw rest)) im in
  let im2 := exec deliver_next im1 in
  let copy r := deliver_copy (ServerMsgID m) r m in
  let addressed r info := member id r im ∧ r ≠ u_Name u ∧ OnlineMap (d_net im) !! r = Some info in
  prog_step im im1 ∧ prog_step im1 im2 ∧ From m = u_Name u ∧ Body m = text ∧
  (∀ r info, addressed r info →
     sessions (d_net im2) !! Sender info =
       receives (json_message (copy r)) <$> sessions (d_net im) !! Sender info) ∧
  sessions (d_net im2) !! c = Some (receives (talk_done (ServerMsgID m)) u) ∧
  (∀ d, d ≠ c → (∀ r info, addressed r info → Sender info ≠ d) →
     sessions (d_net im2) !! d = sessions (d_net im) !! d).
Proof.
  intros Hr Hu Ha Htyped Hg id text Hid Htext Hme Hother Hne Hq Hs Hi Hf im1 im2 copy addressed.
  assert (TrimSpace (talk_line g t) = talk_line g t) as Htrim
    by (destruct Htyped as (_ & _ & <-); apply TrimSpace_idemp).
  assert (im1 = exec (send_msg c (talk_done (ServerMsgID m))) (exec (srv_EnqueueServerMsg
    (ServerMsgID m)) (exec (talk_request id (u_Name u) text) (counted im)))) as E1.
  { subst im1. rewrite (turn_command c raw rest (talk_line g t) im u) by done.
    rewrite DoMessage_talk by done. by apply useGroupTalk_saved. }
  split; [apply step_read; by eexists|]. split; [apply step_deliver|].
  destruct (group_members_spec id (counted im)) as (Hnd & Hin & Hw & Hn & Hm).
  unfold talk_request in Hs, E1. rewrite eval_bind in Hs. rewrite exec_bind in E1.
  set (im0 := exec (group_members id) (counted im)) in *.
  set (tos := others (u_Name u) (eval (group_members id) (counted im))) in *.
  assert (∀ r, r ∈ tos ↔ member id r im ∧ r ≠ u_Name u) as Htos.
  { intros r. subst tos. unfold others. rewrite elem_of_filter_list, Hin, negb_true_iff.
    rewrite String.eqb_neq. done. }
  assert (tos ≠ []) as Hnil.
  { intros E. assert (other ∈ []) as []%not_elem_of_nil. rewrite <- E. by apply Htos. }
  destruct (request_saved _ _ _ _ _ _ im0 m Hs ltac:(by rewrite Hm))
    as (_ & Hfrom & Hto & Hbody & _).
  split; [exact Hfrom|]. split; [exact Hbody|].
  destruct (request_delivered c "gc-" ("group:" +:+ id) (u_Name u) "" text tos
    (talk_done (ServerMsgID m)) im0 m) as (l & Hndl & Hl & Hseats);
    [by rewrite Hw|done|by rewrite Hw|by rewrite Hm|done|].
  rewrite <- E1 in Hseats. fold im2 in Hseats. rewrite Hto, Hn in Hseats.
  unfold with_target in Hseats. cbn [negb andb String.eqb] in Hseats.
  apply (f_equal snd) in Hseats. cbn [seats snd] in Hseats.
  change (OnlineMap (d_net (counted im))) with (OnlineMap (d_net im)) in Hseats.
  change (sessions (d_net (counted im))) with (sessions (d_net im)) in Hseats.
  assert (∀ r info, r ∈ l → OnlineMap (d_net im) !! r = Some info → Sender info ≠ c) as Hc.
  { intros r info Hin' Ho <-. apply (online_name file x im r info u Hr Ho) in Hu.
    by apply Hl, Htos in Hin' as [_ ?]. }
  rewrite Hseats. split_and!.
  - intros r info (Hmr & Hnr & Ho). assert (r ∈ l) as Hrl by (by apply Hl, Htos).
    rewrite (hand_outs_one _ _ _ _ _ r info); try done.
    + rewrite lookup_alter_ne; [done|]. intros E. by apply (Hc r info).
    + intros r1 r2 i1 i2. by apply (online_inj file x im).
  - rewrite hand_outs_none by done. by rewrite lookup_alter_eq, Hu.
  - intros d Hd Hnone. rewrite hand_outs_none.
    + by rewrite lookup_alter_ne.
    + intros r info Hin' Ho. apply (Hnone r info). apply Hl, Htos in Hin' as [? ?]. done.
Qed.
End chat.

(** * Witnesses *)

#[local] Existing Instances demo_env demo_json demo_fmt demo_bcrypt demo_gb.

(** alice on connection 0 and bob on connection 1, nothing left to deliver; then both in the
    group g1. The store works over its database. *)
Definition lobby : Demo := worked both_online.
Definition club : Demo := worked (types 1 "gj|g1" (types 0 "gc|g1" lobby)).

Lemma lobby_reachable : reachable None demo_ext lobby.
Proof. apply worked_reachable, both_reachable. Qed.

Lemma club_reachable : reachable None demo_ext club.
Proof.
  apply worked_reachable, types_reachable; [|vm_compute; by eexists].
  apply types_reachable; [apply lobby_reachable|vm_compute; by eexists].
Qed.

Definition user_on (c : nat) (im : Demo) : SUser := default (NewUser "") (sessions (d_net im) !! c).

Definition chat_message : Message :=
  mkMessage TypeDeliver "c-1700000014000000000" "s-1700000015000-3" "c2c:alice:bob" "alice" "bob"
    1 0 "hi bob" 1700000016.

Lemma chat_reaches_recipient_witness :
  let im1 := exec (ManagerMessage_turn 0 (terminated "to|bob|hi bob" "")) lobby in
  let im2 := exec deliver_next im1 in
  let copy := deliver_copy "s-1700000015000-3" "bob" chat_message in
  channel 1 im2 = channel 1 lobby ++ [json_message copy] ∧
  prog_step lobby im1 ∧ prog_step im1 im2 ∧
  From copy = "alice" ∧ To copy = "bob" ∧ Body copy = "hi bob" ∧
  (let told := alter (receives (chat_done "bob" "hi bob")) 0%nat (sessions (d_net lobby)) in
   sessions (d_net im2) =
     match OnlineMap (d_net lobby) !! "bob" with
     | Some info => alter (receives (json_message copy)) (Sender info) told
     | None => told
     end) ∧
  ∀ info, OnlineMap (d_net lobby) !! "bob" = Some info → Sender info ≠ 0%nat.
Proof.
  split; [by vm_compute|].
  apply (chat_reaches_recipient None demo_ext lobby 0 (user_on 0 lobby) "to|bob|hi bob" ""
           "bob" "hi bob" chat_message);
    [apply lobby_reachable|by vm_compute|by vm_compute| |by vm_compute..].
  split_and!; [by vm_compute|by apply Nat.leb_le|by vm_compute].
Defined.

Definition talk_message : Message :=
  mkMessage TypeDeliver "gc-1700000015000000000" "s-1700000016000-3" "group:g1" "alice" "" 1 0
    "hello" 1700000017.

Lemma group_talk_reaches_members_witness :
  let im1 := exec (ManagerMessage_turn 0 (terminated "gt|g1|hello" "")) club in
  let im2 := exec deliver_next im1 in
  let copy r := deliver_copy "s-1700000016000-3" r talk_message in
  let addressed r info :=
    member "g1" r club ∧ r ≠ "alice" ∧ OnlineMap (d_net club) !! r = Some info in
  channel 1 im2 = channel 1 club ++ [json_message (copy "bob")] ∧
  prog_step club im1 ∧ prog_step im1 im2 ∧ From talk_message = "alice" ∧
  Body talk_message = "hello" ∧
  (∀ r info, addressed r info →
     sessions (d_net im2) !! Sender info =
       receives (json_message (copy r)) <$> sessions (d_net club) !! Sender info) ∧
  sessions (d_net im2) !! 0%nat = Some (receives (talk_done "s-1700000016000-3") (user_on 0 club)) ∧
  (∀ d, d ≠ 0%nat → (∀ r info, addressed r info → Sender info ≠ d) →
     sessions (d_net im2) !! d = sessions (d_net club) !! d).
Proof.
  split; [by vm_compute|].
  apply (group_talk_reaches_members None demo_ext club 0 (user_on 0 club) "gt|g1|hello" ""
           "g1" "hello" "bob" talk_message);
    [apply club_reachable|by vm_compute|by vm_compute| |by vm_compute..].
  split_and!; [by vm_compute|by apply Nat.leb_le|by vm_compute].
Defined.
