(* ===== verification/JsonChat.v ===== *)
(** A message sent in JSON, from the line of its sender to the channels of its recipients:
    the user it names or, when it names none, everybody else who is online. *)
From S2P Require Import Prelude GoStr Utf8 Protocol StoreIface Limiter Logic Worker WorkerFacts.
From S2P Require Import Storage MemDB Cache Dao Store StoreImpl Group Hub Server Session Commands Conn.
From S2P Require Import ReadProps Config SessionFacts Program Demo OnlineProps ChatFacts ChatProps.

Section json_chat.
Context `{GoEnv} {D R : Type} `{Gorm D} `{Redis R} `{Json} `{GoFmt} `{Bcrypt} `{Gb18030}.
Abbreviation Prog := (IM (D := D) (R := R)).
Abbreviation MI := (M Prog).
Implicit Types im : Prog.

(** * The request *)

(** The message as it is handled: the session stands in for a missing sender. *)
Definition sender_of (me : string) (q : Message) : Message :=
  if String.eqb (TrimSpace (From q)) "" then set_From me q else q.

Definition json_id (q : Message) : MI Message :=
  if String.eqb (TrimSpace (ClientMsgID q)) "" then
    now ← world Now; mret (set_ClientMsgID ("c-" +:+ itoa (UnixNano now)) q)
  else mret q.

Definition json_recipients (me : string) (q : Message) : MI (option (list string)) :=
  if negb (String.eqb (To q) "") then mret (Some [To q]) else others_online me.

Definition json_request (me : string) (q : Message) : MI SendResult :=
  q ← json_id (sender_of me q); tos ← json_recipients me q; srv_ProcessSend (Some q) tos.

Lemma sender_of_twice me q :
  sender_of me (if String.eqb (From q) "" then set_From me q else q) = sender_of me q.
Proof.
  unfold sender_of. destruct (String.eqb_spec (From q) "") as [E|]; [|done]. rewrite E.
  change (TrimSpace "") with "". change (From (set_From me q)) with me.
  by destruct (String.eqb (TrimSpace me) "").
Qed.

Lemma HandleMessage_send c q im u :
  sessions (d_net im) !! c = Some u → Type_ q = TypeSend →
  exec (HandleMessage c q) im = exec (HandleClientSend c (if String.eqb (From q) "" then set_From (u_Name u) q else q)) im.
Proof.
  intros Hu Ht. unfold HandleMessage. rewrite exec_bind.
  change (eval (hub (GetName c)) im) with (GetName c (d_net im)). unfold GetName. rewrite Hu, Ht.
  change (String.eqb TypeSend TypeSend) with true. cbv iota.
  by change (exec (hub (λ h, match sessions h !! c with Some u => u_Name u | None => "" end)) im) with im.
Qed.

Lemma HandleMessage_saved c q im u m :
  sessions (d_net im) !! c = Some u → Type_ q = TypeSend →
  let req := json_request (u_Name u) q : MI SendResult in
  (∃ q', eval req im = mkSent (Some m) None None (Some q') ∧ ClientMsgID m = ClientMsgID q') →
  exec (HandleMessage c q) im =
  exec (srv_EnqueueServerMsg (ServerMsgID m))
    (exec (user_SendJSON c (send_ack (ClientMsgID m) (ServerMsgID m) (Seq m))) (exec req im)).
Proof.
  intros Hu Ht req (q' & Hr & Hc). rewrite (HandleMessage_send c q im u) by done.
  unfold HandleClientSend. rewrite exec_bind.
  assert (eval (hub (GetName c) : MI _) im = u_Name u) as ->
    by (unfold eval, hub, gets, GetName; by rewrite Hu).
  change (exec (hub (GetName c)) im) with im. fold (sender_of (u_Name u)
    (if String.eqb (From q) "" then set_From (u_Name u) q else q)). rewrite sender_of_twice.
  fold (json_id (sender_of (u_Name u) q)). subst req. unfold json_request in *.
  rewrite !exec_bind. rewrite !eval_bind in Hr. unfold json_recipients in Hr |- *. rewrite Hr.
  cbn [req_after send_err existing saved]. by rewrite exec_bind, Hc.
Qed.

(** Whom the message is for. *)
Definition addressed (me : string) (q : Message) im (r : string) : Prop :=
  if String.eqb (To q) "" then r ≠ me ∧ is_Some (OnlineMap (d_net im) !! r) else r = To q.

(** Worker, network and the memory of the store. *)
Definition same_inside im im' : Prop :=
  d_worker im' = d_worker im ∧ d_net im' = d_net im ∧
  sw_mem (d_store im') = sw_mem (d_store im).

Lemma json_id_spec q im :
  let q' := eval (json_id q) im in
  From q' = From q ∧ To q' = To q ∧ Body q' = Body q ∧ same_inside im (exec (json_id q) im).
Proof. unfold json_id. by destruct (String.eqb _ ""). Qed.

Lemma others_online_spec me im :
  let tos := default [] (eval (others_online me) im) in
  NoDup tos ∧ (∀ r, r ∈ tos ↔ r ≠ me ∧ is_Some (OnlineMap (d_net im) !! r)) ∧
  same_inside im (exec (others_online me) im).
Proof.
  unfold eval, exec, others_online, hub, world, on_store, ext, range_map. munfold. cbn [fst snd].
  set (kvs := go_order _ _). assert (kvs ≡ₚ map_to_list (OnlineMap (d_net im))) as Hkvs by apply go_order_perm.
  set (l := List.filter _ kvs.*1).
  assert (default [] (match l with [] => None | a :: l' => Some (a :: l') end) = l) as -> by (by destruct l).
  split_and!; [| |done].
  - apply NoDup_filter_list. rewrite Hkvs. apply NoDup_fst_map_to_list.
  - intros r. unfold l. rewrite elem_of_filter_list, negb_true_iff, String.eqb_neq, Hkvs.
    rewrite list_elem_of_fmap. split.
    + intros [([k i] & -> & Hin) Hne]. split; [done|]. apply elem_of_map_to_list in Hin. by eexists.
    + intros [Hne [i Hi]]. split; [|done]. exists (r, i). split; [done|]. by apply elem_of_map_to_list.
Qed.

Lemma json_recipients_spec me q im :
  let tos := default [] (eval (json_recipients me q) im) in
  NoDup tos ∧ (∀ r, r ∈ tos ↔ addressed me q im r) ∧ same_inside im (exec (json_recipients me q) im).
Proof.
  unfold json_recipients, addressed. destruct (String.eqb_spec (To q) "") as [E|E]; cbn [negb].
  - apply others_online_spec.
  - split_and!; [apply NoDup_singleton| |done]. intros r. apply list_elem_of_singleton.
Qed.

(** A request that was saved. *)
Lemma json_request_saved me q im m :
  let r := eval (json_request me q) im in
  let im' := exec (json_request me q) im in
  saved r = Some m → deliveries (sw_mem (d_store im)) !! ServerMsgID m = None →
  (∃ q', r = mkSent (Some m) None None (Some q') ∧ ClientMsgID m = ClientMsgID q') ∧
  From m = From (sender_of me q) ∧ To m = To q ∧ Body m = Body q ∧ ServerMsgID m ≠ "" ∧
  messages (sw_mem (d_store im')) !! ServerMsgID m = Some m ∧
  (∃ tos : list string, (∀ t, t ∈ tos ↔ addressed me q im t) ∧
     ∀ t, entry_of (ServerMsgID m) t (sw_mem (d_store im')) =
          if decide (t ∈ tos) then Some (new_entry t) else None) ∧
  d_worker im' = d_worker im ∧ seats im' = seats im.
Proof.
  cbn zeta. unfold json_request. rewrite !eval_bind, !exec_bind.
  destruct (json_id_spec (sender_of me q) im) as (Ef & Et & Eb & W1 & N1 & S1).
  set (q1 := eval (json_id _) im) in *. set (im1 := exec (json_id _) im) in *.
  destruct (json_recipients_spec me q1 im1) as (_ & Hin & W2 & N2 & S2).
  set (tos := eval (json_recipients me q1) im1) in *. set (im2 := exec (json_recipients me q1) im1) in *.
  intros Hs Hf. assert (To q1 = To q) as Eto by (rewrite Et; unfold sender_of; by case_match).
  assert (Body q1 = Body q) as Ebo by (rewrite Eb; unfold sender_of; by case_match).
  destruct (sent_saved q1 tos im2 m Hs) as (Hr & Hfrom & Hto & Hbody & Hi & Hm & He & Hw & Hseat); [by rewrite S2, S1|].
  split; [exact Hr|]. split; [congruence|]. split; [congruence|]. split; [congruence|].
  split; [exact Hi|]. split; [exact Hm|]. split; [|split; [congruence|]].
  - exists (default [] tos). split; [|exact He]. intros t. rewrite Hin. unfold addressed.
    by rewrite Eto, N1.
  - rewrite Hseat. unfold seats. by rewrite N2, N1.
Qed.

(** * From line to channel *)

Lemma turn_json c raw rest txt q im u :
  sessions (d_net im) !! c = Some u → Authenticated u = true → typed raw txt →
  HasPrefix txt "{" = true → json_message_parse txt = inr q →
  exec (ManagerMessage_turn c (terminated raw rest)) im = exec (HandleMessage c q) (counted im).
Proof.
  intros Hu Ha (Hlf & Hlen & Ht) Hj Hq. unfold ManagerMessage_turn.
  rewrite readRawLine_terminated by done. rewrite (proj2 (Nat.leb_le _ _)) by done.
  rewrite exec_bind. change (exec (mret ?a) ?s) with s. unfold processRawLine. rewrite Ht.
  assert (txt ≠ "") as Hne by (intros ->; done).
  rewrite (proj2 (String.eqb_neq _ _)) by done. rewrite !exec_bind. fold (counted im).
  change (exec (the_user c) ?s) with s. rewrite (eval_the_user c (counted im) u Hu), Ha.
  cbn [negb]. unfold process_command. by rewrite Hj, Hq, exec_bind.
Qed.

(** C3. A JSON message arrives. When an authenticated session sends a JSON message of type
    [send] that is for somebody, the store saves it and the worker is idle, then the reader's
    turn and one turn of the worker put exactly one copy of it into the channel of each user
    it is for - the one it names or, if it names none, everybody else online -, acknowledge it
    to its session with the id and number it got, and touch no other session. The sender its
    readers see is the one the message claims, whoever sent it: the name of the session only
    stands in when the field is blank. *)
Theorem json_send_arrives file x (im : Prog) c u raw rest txt q m other :
  reachable file x im → sessions (d_net im) !! c = Some u → Authenticated u = true →
  typed raw txt → HasPrefix txt "{" = true → json_message_parse txt = inr q → Type_ q = TypeSend →
  let for_ r info := addressed (u_Name u) q im r ∧ OnlineMap (d_net im) !! r = Some info in
  addressed (u_Name u) q im other → deliverQueue (d_worker im) = [] →
  saved (eval (json_request (u_Name u) q) (counted im)) = Some m →
  ServerMsgID m ∉ deliverInFlight (d_worker im) →
  deliveries (sw_mem (d_store im)) !! ServerMsgID m = None →
  let im1 := exec (ManagerMessage_turn c (terminated raw rest)) im in
  let im2 := exec deliver_next im1 in
  let ack := send_ack (ClientMsgID m) (ServerMsgID m) (Seq m) in
  let told := alter (receives (json_message ack)) c (sessions (d_net im)) in
  prog_step im im1 ∧ prog_step im1 im2 ∧ Body m = Body q ∧
  From m = (if String.eqb (TrimSpace (From q)) "" then u_Name u else From q) ∧
  (∀ r info, for_ r info →
     sessions (d_net im2) !! Sender info =
       receives (json_message (deliver_copy (ServerMsgID m) r m)) <$> told !! Sender info) ∧
  (∀ d, (∀ r info, for_ r info → Sender info ≠ d) → sessions (d_net im2) !! d = told !! d).
Proof.
  intros Hr Hu Ha Htyped Hj Hq Ht for_ Hother Hqueue Hs Hi Hf im1 im2 ack told.
  destruct (json_request_saved (u_Name u) q (counted im) m Hs Hf)
    as (Hres & Hfrom & Hto & Hbody & Hid & Hm & (tos & Htos & He) & Hw & Hseat).
  set (ims := exec (json_request (u_Name u) q) (counted im)) in *.
  assert (im1 = exec (srv_EnqueueServerMsg (ServerMsgID m)) (exec (user_SendJSON c ack) ims)) as E1.
  { subst im1. rewrite (turn_json c raw rest txt q im u) by done.
    by apply (HandleMessage_saved c q (counted im) u m). }
  split; [apply step_read; by eexists|]. split; [apply step_deliver|].
  split; [exact Hbody|]. split; [rewrite Hfrom; unfold sender_of; by case_match|].
  destruct (delivered_next (ServerMsgID m) m tos im1) as (l & Hnd & Hin & Hl).
  - rewrite E1. change (deliverQueue (EnqueueServerMsg (ServerMsgID m) (d_worker ims)) = [ServerMsgID m]).
    rewrite Hw. by apply enqueue_idle.
  - by rewrite E1.
  - intros E. assert (other ∈ []) as []%not_elem_of_nil. rewrite <- E. by apply Htos.
  - by rewrite E1.
  - fold im2 in Hl. set (ts := with_target (To m) l) in Hl.
    assert (∀ r, r ∈ ts ↔ addressed (u_Name u) q im r) as Hts.
    { intros r. unfold ts. rewrite elem_of_with_target, Hin, Htos, Hto. unfold addressed.
      destruct (String.eqb_spec (To q) "") as [E|E];
        (split; [intros [Hc|[Hc Hne]]; [exact Hc|done]|intros Hc; by left]). }
    assert (NoDup ts) as Hndt by by apply NoDup_with_target.
    destruct (SendMsg_sessions c (json_message ack) (d_net ims)) as (E2 & E3 & _).
    injection Hseat as Ho Hss.
    assert (seats im1 = (OnlineMap (d_net im), told)) as Ht1.
    { rewrite E1. change (seats _) with (OnlineMap (SendMsg c (json_message ack) (d_net ims)),
        sessions (SendMsg c (json_message ack) (d_net ims))). rewrite E2, E3. unfold told.
      by rewrite Ho, Hss. }
    injection Ht1 as Ho1 Hs1. apply (f_equal snd) in Hl. cbn [seats snd] in Hl.
    rewrite Ho1, Hs1 in Hl. rewrite Hl. split.
    + intros r info [Hra Hro]. rewrite (hand_outs_one _ _ _ _ _ r info); try done.
      * intros r1 r2 i1 i2. by apply (online_inj file x im).
      * by apply Hts.
    + intros d Hd. apply hand_outs_none. intros r info Hrt Hro. apply (Hd r info).
      split; [by apply Hts|done].
Qed.
End json_chat.

(** * Witness *)

#[local] Existing Instances demo_env demo_json demo_fmt demo_bcrypt demo_gb.

(** alice writes to bob, in the name of carol. *)
Definition as_carol : Message := mkMessage TypeSend "k1" "" "" "carol" "bob" 0 0 "hello" 0.
Definition carol_message : Message :=
  mkMessage TypeDeliver "k1" "s-1700000014000-3" "c2c:bob:carol" "carol" "bob" 1 0 "hello" 1700000015.

Lemma json_send_arrives_witness :
  let txt := json_message as_carol in
  let for_ r info := addressed "alice" as_carol lobby r ∧ OnlineMap (d_net lobby) !! r = Some info in
  let im1 := exec (ManagerMessage_turn 0 (terminated txt "")) lobby in
  let im2 := exec deliver_next im1 in
  let told := alter (receives (json_message (send_ack "k1" "s-1700000014000-3" 1))) 0%nat
                (sessions (d_net lobby)) in
  channel 1 im2 = channel 1 lobby ++
    [json_message (deliver_copy "s-1700000014000-3" "bob" carol_message)] ∧
  prog_step lobby im1 ∧ prog_step im1 im2 ∧ Body carol_message = "hello" ∧
  From carol_message = "carol" ∧
  (∀ r info, for_ r info →
     sessions (d_net im2) !! Sender info =
       receives (json_message (deliver_copy "s-1700000014000-3" r carol_message)) <$>
         told !! Sender info) ∧
  (∀ d, (∀ r info, for_ r info → Sender info ≠ d) → sessions (d_net im2) !! d = told !! d).
Proof.
  split; [by vm_compute|].
  apply (json_send_arrives None demo_ext lobby 0 (user_on 0 lobby) (json_message as_carol) ""
           (json_message as_carol) as_carol carol_message "bob");
    [apply lobby_reachable|by vm_compute|by vm_compute| |by vm_compute..].
  split_and!; [by vm_compute|by apply Nat.leb_le|by vm_compute].
Defined.
