(* ===== verification/Reentry.v ===== *)
(** A session can come back: logging out closes it and takes its name off the online map, once;
    what its reader still holds in its buffer is processed all the same (conn.go), and a
    [rename] there enters the dead session again, which no logout takes off any more. *)
From S2P Require Import Prelude GoStr Utf8 Protocol StoreIface Limiter Logic Worker.
From S2P Require Import Storage MemDB Cache Dao Store StoreImpl Group Hub Server Session Commands Conn.
From S2P Require Import ReadProps Config SessionFacts Program Demo SessionProps AccountProps ChatProps.

Section reentry.
Context `{GoEnv} {D R : Type} `{Gorm D} `{Redis R} `{Json} `{GoFmt} `{Bcrypt} `{Gb18030}.
Abbreviation Prog := (IM (D := D) (R := R)).
Abbreviation MI := (M Prog).
Implicit Types im : Prog.

(** ** [exit] *)

Lemma DoMessage_exit c im : exec (DoMessage c "exit") im = exec (useExit c : MI unit) im.
Proof. done. Qed.

(** Sending to a session leaves who it is alone. *)
Lemma send_msg_session c msg im u :
  sessions (d_net im) !! c = Some u →
  sessions (d_net (exec (send_msg c msg : MI unit) im)) !! c = Some (receives msg u).
Proof.
  intros Hu. change (sessions (SendMsg c msg (d_net im)) !! c = Some (receives msg u)).
  destruct (SendMsg_sessions c msg (d_net im)) as (-> & _). by rewrite lookup_alter_eq, Hu.
Qed.

Lemma receives_who msg u :
  u_Name (receives msg u) = u_Name u ∧ Authenticated (receives msg u) = Authenticated u ∧
  loggedOut (receives msg u) = loggedOut u ∧ Addr (receives msg u) = Addr u.
Proof. unfold receives. by repeat case_match. Qed.

(** A session after [exit]: gone from the map, closed, and still authenticated. *)
Lemma exit_leaves c raw rest im u :
  sessions (d_net im) !! c = Some u → Authenticated u = true → loggedOut u = false →
  u_Name u ≠ "" → typed raw "exit" →
  let im1 := exec (ManagerMessage_turn c (terminated raw rest)) im in
  OnlineMap (d_net im1) !! u_Name u = None ∧
  ∃ u1, sessions (d_net im1) !! c = Some u1 ∧ u_Name u1 = u_Name u ∧ Authenticated u1 = true ∧
    Addr u1 = Addr u ∧ loggedOut u1 = true ∧ isClosed u1 = true.
Proof.
  intros Hu Ha Hl Hn Ht im1. unfold im1. rewrite (turn_command c raw rest "exit" im u) by done.
  rewrite DoMessage_exit. unfold useExit. rewrite exec_bind.
  set (msg := line _). set (im0 := exec (send_msg c msg) (counted im)).
  destruct (receives_who msg u) as (Hn' & Ha' & Hl' & Hd').
  assert (sessions (d_net im0) !! c = Some (receives msg u)) as Hu0 by (by apply send_msg_session).
  destruct (Logout_done c im0 (receives msg u) Hu0) as (_ & Ho & u1 & Hu1 & E1 & E2 & E3 & E4 & E5);
    [congruence..|]. rewrite Hn' in Ho. split; [exact Ho|]. exists u1. split_and!; congruence.
Qed.

(** ** [rename] *)

Definition rename_line (new : string) : string := "rename|" +:+ new.

Lemma DoMessage_rename c new im :
  TrimSpace (rename_line new) = rename_line new →
  exec (DoMessage c (rename_line new)) im = exec (useRename c (rename_line new) : MI unit) im.
Proof.
  intros Ht. unfold DoMessage. rewrite Ht. unfold prefix_commands. cbn [dispatch_prefix].
  decide_ifs. unfold rename_line. by rewrite (HasPrefix_app "rename|").
Qed.

Lemma rename_parts new : TrimSpace new = new →
  length (SplitN (rename_line new) pipe 2) = 2%nat ∧ part (SplitN (rename_line new) pipe 2) 1 = new.
Proof.
  intros Ht. unfold SplitN, rename_line. change ("rename|" +:+ new) with ("rename" +:+ String pipe new).
  rewrite cut_sep by done. split; [done|]. exact Ht.
Qed.

(** A name in the online map is taken: nobody can log in or register under it. *)
Lemma taken_Login c name0 pw im u i :
  sessions (d_net im) !! c = Some u → OnlineMap (d_net im) !! TrimSpace name0 = Some i →
  is_Some (eval (Login c name0 pw : MI _) im).
Proof.
  intros Hu Hi. pose proof (Login_cases c name0 pw im u Hu) as Hc. cbv zeta in Hc.
  destruct (eval (Login c name0 pw) im); [by eexists|]. destruct Hc as (_ & Hf & _). congruence.
Qed.

Lemma taken_Register c name0 pw im i :
  OnlineMap (d_net im) !! TrimSpace name0 = Some i → is_Some (eval (Register c name0 pw : MI _) im).
Proof.
  intros Hi. unfold Register. destruct (_ || _); [by eexists|].
  rewrite eval_bind, name_online_eval, Hi. by eexists.
Qed.

(** What a later state keeps of a session that is logged out and closed. *)
Lemma logged_out_later c im im' u :
  rtc prog_step im im' → sessions (d_net im) !! c = Some u → loggedOut u = true →
  Logout c im' = (tt, im').
Proof.
  intros Hs. revert u. induction Hs as [im|im1 im2 im3 H12 _ IH]; intros u Hu Hl.
  - unfold Logout, mbind, M_bind. rewrite (the_user_eval c im u Hu). by rewrite Hl.
  - destruct (prog_step_evolves im1 im2 H12 c u Hu) as (u2 & Hu2 & Hev).
    apply (IH u2 Hu2). by apply (ev_loggedOut _ _ Hev).
Qed.

(** C25. A session that was logged out can return: when the reader of an authenticated session
    holds an [exit] and after it a [rename] (both are in its buffer, which closing the
    connection does not empty), the session is closed and off the online map after the first
    - and in the map again, under the new name, after the second. In every later state of the
    program the logout of that session does nothing any more, so none takes the entry off
    again, and as long as the name is in the map nobody can log in or register under it.
    (The entry can go by other ways: a further rename in the same buffer, or another session
    of the same name - it had it before, or took it by a rename - that leaves or is renamed.) *)
Theorem logged_out_session_returns c raw1 raw2 rest new im u :
  sessions (d_net im) !! c = Some u → Authenticated u = true → loggedOut u = false →
  u_Name u ≠ "" → typed raw1 "exit" → typed raw2 (rename_line new) →
  TrimSpace new = new → new ≠ "" → (String.length new <= 20)%nat →
  ContainsAny new name_chars = false →
  let im1 := exec (ManagerMessage_turn c (terminated raw1 (terminated raw2 rest))) im in
  let im2 := exec (ManagerMessage_turn c (terminated raw2 rest)) im1 in
  OnlineMap (d_net im1) !! u_Name u = None ∧
  OnlineMap (d_net im2) !! new = Some (mkOnline c (Addr u)) ∧
  (∃ u2, sessions (d_net im2) !! c = Some u2 ∧ u_Name u2 = new ∧ loggedOut u2 = true ∧
         isClosed u2 = true) ∧
  ∀ im3, rtc prog_step im2 im3 →
    Logout c im3 = (tt, im3) ∧
    (is_Some (OnlineMap (d_net im3) !! new) →
     ∀ c' u' pw, sessions (d_net im3) !! c' = Some u' →
       is_Some (eval (Login c' new pw) im3) ∧ is_Some (eval (Register c' new pw) im3)).
Proof.
  intros Hu Ha Hl Hn Ht1 Ht2 Htrim Hnew Hlen Hch im1 im2.
  destruct (exit_leaves c raw1 (terminated raw2 rest) im u) as (Hgone & u1 & Hu1 & E1 & Ea & Ed & El & Ec);
    [done..|]. fold im1 in Hgone, Hu1. split; [done|].
  assert (TrimSpace (rename_line new) = rename_line new) as Htl
    by (destruct Ht2 as (_ & _ & <-); apply TrimSpace_idemp).
  assert (im2 = exec (useRename c (rename_line new)) (counted im1)) as E2.
  { unfold im2. rewrite (turn_command c raw2 rest (rename_line new) im1 u1) by done.
    by apply DoMessage_rename. }
  destruct (rename_parts new Htrim) as [Hp2 Hp].
  pose proof (useRename_takes c (rename_line new) (counted im1) u1 Hu1) as Hr.
  cbv zeta in Hr. rewrite E1, Hp, <- E2 in Hr. destruct Hr as [Ho Hw]; [done..|].
  assert (OnlineMap (d_net im2) !! new = Some (mkOnline c (Addr u))) as Hon
    by (rewrite Ho, lookup_insert_eq; by rewrite Ed).
  split; [done|].
  destruct (prog_step_evolves im1 im2 (step_read c _ im1 (mk_is_Some _ _ Hu1)) c u1 Hu1)
    as (u2 & Hu2 & Hev).
  assert (u_Name u2 = new) as Hname.
  { apply (f_equal (.!! c)) in Hw. rewrite lookup_insert_eq in Hw. unfold who in Hw.
    rewrite lookup_fmap, Hu2 in Hw. by injection Hw. }
  destruct (ev_closed _ _ Hev Ec) as [Hcl _]. pose proof (ev_loggedOut _ _ Hev El) as Hlo.
  split; [by exists u2|]. intros im3 H23. split; [by apply (logged_out_later c im2 im3 u2)|].
  intros [i Hi] c' u' pw Hu'.
  split; [eapply taken_Login; [done|]|eapply taken_Register]; rewrite Htrim; exact Hi.
Qed.
End reentry.

(** * Witness *)

#[local] Existing Instances demo_env demo_json demo_fmt demo_bcrypt demo_gb.

(** alice types [exit] and [rename|bob] at once; nobody called bob can come in while the entry is there. *)
Lemma logged_out_session_returns_witness :
  let im1 := exec (ManagerMessage_turn 0 (terminated "exit" (terminated "rename|bob" ""))) alice_online in
  let im2 := exec (ManagerMessage_turn 0 (terminated "rename|bob" "")) im1 in
  OnlineMap (d_net im1) !! "alice" = None ∧
  OnlineMap (d_net im2) !! "bob" = Some (mkOnline 0 "10.0.0.1:5000") ∧
  (∃ u2, sessions (d_net im2) !! 0%nat = Some u2 ∧ u_Name u2 = "bob" ∧ loggedOut u2 = true ∧
         isClosed u2 = true) ∧
  ∀ im3, rtc prog_step im2 im3 →
    Logout 0 im3 = (tt, im3) ∧
    (is_Some (OnlineMap (d_net im3) !! "bob") →
     ∀ c' u' pw, sessions (d_net im3) !! c' = Some u' →
       is_Some (eval (Login c' "bob" pw) im3) ∧ is_Some (eval (Register c' "bob" pw) im3)).
Proof.
  apply (logged_out_session_returns 0 "exit" "rename|bob" "" "bob" alice_online
    (mkSUser "alice" "10.0.0.1:5000" (channel 0 alice_online) true false false None true []));
    first [by vm_compute|split_and!; first [by vm_compute|vm_compute; lia]|vm_compute; lia].
Defined.
