(* ===== verification/LogicProps.v ===== *)
(** The properties of the logic service, for any store that keeps the laws of
    [StoreIface.StoreLaws]; the witnesses run it on [InMemoryStore]. *)
From S2P Require Import Prelude GoStr Protocol StoreIface Logic LogicFacts Storage MemDB.
From S2P Require Import Cache Store StoreInv StoreSpec StoreImpl Server Worker Hub StoreProps.

Section logic.
Context {W : Type} `{SL : StoreLaws W}.
Implicit Types l : LogicService W.

(** C19. Server message ids are never reused within a run of the service: whatever the clock
    does and whatever else happens in between, the ids given to messages and system events
    are pairwise distinct, as long as fewer than 2^64 were drawn. *)
Theorem server_ids_unique (cs : list LogicCall) l :
  0 <= idCounter l → idCounter l + Z.of_nat (length cs) < 2 ^ 64 →
  NoDup (ids_of cs l) ∧ (∀ m, m ∈ saved_of cs l → ServerMsgID m ∈ ids_of cs l).
Proof. intros Hc Hb. destruct (run_logics_ids cs l Hc Hb) as (? & _ & ?). done. Qed.

(** C2. Sends are idempotent, as long as one request is finished before the next is begun:
    once a request with a client id produced a message, a request with the same sender and
    client id is answered by that very message and changes nothing - at once in any mode, and
    when the store is memory-only also after any further sends, acknowledgements, system
    events and other calls of the store, each run to its end. (Requests that overlap can
    both be saved: C26. With a database the row may be gone or the query fail, so nothing is
    claimed there beyond the immediate resend.) *)
Theorem resend_answers_first_message q tos l r l' m cs q2 tos2 :
  TrimSpace (ClientMsgID q) ≠ "" →
  ProcessSend (Some q) tos l = (r, l') → saved r = Some m →
  respectful cs → volatile (l_store l) ∨ cs = [] →
  From q2 = From q → ClientMsgID q2 = ClientMsgID q →
  ProcessSend (Some q2) tos2 (after cs l') =
    (mkSent None (Some m) None (Some q2), after cs l').
Proof.
  intros Hc Hp Hs Hcs Hv Ef Ec.
  destruct (ProcessSend_saves q tos l r l' m Hc Hp Hs) as (Hf & _ & _ & Hk & Hvol).
  apply ProcessSend_known; rewrite ?Ef, ?Ec; try done.
  destruct Hv as [Hv| ->]; [|done].
  apply run_logics_known; auto.
  - intros E. by rewrite E in Hf.
  - intros E. by rewrite E in Hc.
Qed.

(** C20. Within one run of the process the messages saved in a chat - sent by users or system
    events - carry strictly increasing sequence numbers in the order of their sends, from the
    first message on, whatever calls of the service, the server or the store come in between
    (each run to its end), as long as the numbers stay clear of 2^64. (Across a restart this
    rests on the query for the greatest number, which can fail:
    [StoreDBProps.NextSeq_baseline].) *)
Theorem chat_seqs_increase (cs : list LogicCall) l ch :
  respectful cs → ch ≠ "" →
  (∀ m, m ∈ saved_of cs l → ChatID m = ch → Seq m + Z.of_nat (length cs) < 2 ^ 64) →
  StronglySorted Z.lt (Seq <$> List.filter (λ m, String.eqb (ChatID m) ch) (saved_of cs l)).
Proof.
  intros Hcs Hch Hb. apply run_logics_seq_from; try done.
  unfold seq_key. by apply String.eqb_neq in Hch as ->.
Qed.

(** The outcome of [ProcessSend] on every branch: a missing request or a blank sender is
    an error that touches nothing; otherwise exactly one of three things is returned - the
    message already known, the store's error, or a new message that copies sender, receiver
    and body, belongs to the chat of the request, and is what the store now answers for
    its sender and client id. The request comes back with at most its client id filled in. *)
Theorem ProcessSend_outcomes req tos l :
  let r := eval (ProcessSend req tos) l in
  let l' := exec (ProcessSend req tos) l in
  match req with
  | None => r = mkSent None None (Some (Err "request is nil")) None ∧ l' = l
  | Some q =>
    if String.eqb (TrimSpace (From q)) ""
    then r = mkSent None None (Some (Err "from is empty")) (Some q) ∧ l' = l
    else ∃ q', req_after r = Some q' ∧ q' = set_ClientMsgID (ClientMsgID q') q ∧
      (TrimSpace (ClientMsgID q) ≠ "" → q' = q) ∧
      ((∃ ex, r = mkSent None (Some ex) None (Some q')) ∨
       (∃ e, r = mkSent None None (Some e) (Some q') ∧ ¬ volatile (l_store l)) ∨
       (∃ m, r = mkSent (Some m) None None (Some q') ∧
          Type_ m = TypeDeliver ∧ ClientMsgID m = ClientMsgID q' ∧ From m = From q ∧
          To m = To q ∧ Body m = Body q ∧ Status m = 0 ∧ ChatID m = chat_of q ∧
          last (l_store l') (chat_of q) = Some (Seq m) ∧
          (ClientMsgID q' ≠ "" → known (l_store l') (From q) (ClientMsgID q') = Some m)))
  end.
Proof.
  destruct req as [q|]; [|done]. cbv zeta.
  destruct (String.eqb_spec (TrimSpace (From q)) "") as [Ef|Ef].
  { apply String.eqb_eq in Ef. unfold eval, exec, ProcessSend. by rewrite Ef. }
  pose proof (ProcessSend_cases (Some q) tos l) as Hcase.
  remember (eval (ProcessSend (Some q) tos) l) as r eqn:Er.
  remember (exec (ProcessSend (Some q) tos) l) as l' eqn:El. clear Er El.
  destruct Hcase as [e He|q1 q' l1 ex w2 [= <-] _ E1 E2|q1 q' l1 w2 r l' [= <-] _ E1 E2 E3];
    [done|..];
    destruct (with_client_id_spec q l) as (q2 & l2 & E & _ & (_ & _ & V) & Hq & Hid);
    rewrite E1 in E; injection E as -> ->; exists q2.
  - cbn. split_and!; [done..| |by left; eauto]. intros Hc. by destruct (Hid Hc).
  - destruct (send_new_spec q2 tos (mkLogic (idCounter l2) w2)) as
      (r' & l'' & n & ms & ts & E & _ & _ & Hn & _ & _ & _ & _ & Hr).
    rewrite E3 in E. injection E as <- <-. cbn in Hr.
    assert (From q2 = From q ∧ chat_of q2 = chat_of q ∧ To q2 = To q ∧ Body q2 = Body q)
      as (F1 & F2 & F3 & F4) by by rewrite Hq.
    rewrite F1, F2, F3, F4 in Hr. rewrite F2 in Hn.
    destruct Hr as [[-> Hk]|(e & -> & Hv & _)]; cbn;
      (split_and!; [done..|intros Hc; by destruct (Hid Hc)|right]).
    + right. eexists. split_and!; try done. intros Hc. apply Hk; [|done].
      intros E. by rewrite E in Ef.
    + left. exists e. split; [done|]. intros Hv'. apply Hv.
      specialize (V Hv'). rewrite law_get_volatile in E2 by done. by injection E2 as _ <-.
Qed.
End logic.

(** * Chats *)

(** The chat of a direct message identifies the two users, in either direction, when
    their names contain no colon. *)
Theorem c2c_chat_identifies_pair a b c d :
  contains_byte ":" a = false → contains_byte ":" b = false →
  contains_byte ":" c = false → contains_byte ":" d = false →
  C2CChatID a b = C2CChatID c d ↔ (a = c ∧ b = d) ∨ (a = d ∧ b = c).
Proof.
  intros Ha Hb Hc Hd. split.
  - destruct (C2CChatID_cases a b) as (x & y & -> & Hxy).
    destruct (C2CChatID_cases c d) as (x' & y' & -> & Hxy').
    intros E%string_app_inj_l. apply (sep_inj_l ":") in E;
      destruct Hxy as [[-> ->]|[-> ->]], Hxy' as [[-> ->]|[-> ->]]; tauto.
  - intros [[-> ->]|[-> ->]]; [done|apply C2CChatID_comm_aux].
Qed.

(** With colons, which [Register] accepts in user names, two different pairs of users
    share a chat id, and so its sequence numbers and its counter. *)
Theorem c2c_chat_ambiguous :
  C2CChatID "a:b" "c" = C2CChatID "a" "b:c" ∧
  Forall (λ n, TrimSpace n = n ∧ ContainsAny n (" |" +:+ newline) = false)
    ["a:b"; "c"; "a"; "b:c"].
Proof. split; [by vm_compute|]. repeat constructor. Qed.

(** * What the executions stand for *)

Section grounding.
Context `{GoEnv} {D R : Type} `{Gorm D} `{Redis R} `{Json}.

(** Every method of the store but NextSeq and the two saves, which only the service calls,
    may stand between two calls of the service. *)
Lemma others_calm c (w : SW D R) :
  match c with
  | CNextSeq _ | CSaveMessage _ | CSaveMessageWithRecipients _ _ => True
  | _ => calm w (run_call c w)
  end.
Proof.
  pose proof (run_call_meets c w) as Hc. unfold call_spec in Hc. destruct Hc as [Hp Hc].
  assert (∀ s s' : InMemoryStore, sw_mem w = s → sw_mem (run_call c w) = s' →
    counters_kept s s' → (persistent s = false → messages_kept s s') →
    calm w (run_call c w)) as Hgoal.
  { intros s s' <- <- Hn Hm. split; cbn; [intros ch; apply Hn|]. intros Hv.
    rewrite Hp. split; [done|]. intros f cl. unfold mem_known. destruct (_ && _); [|done].
    apply (proj2 (Hm Hv)). }
  specialize (Hgoal _ _ eq_refl eq_refl).
  destruct c; try done; apply Hgoal;
    solve [by destruct Hc as (? & ? & ?) | rewrite Hc; repeat split
      | destruct Hc as [->|(Ep & Hc)]; [repeat split|destruct_and!; first [done|by rewrite Ep]]
      | destruct (persistent (sw_mem w));
          [by destruct Hc as (? & ? & ?)|rewrite Hc; repeat split]].
Qed.

(** [BroadcastSystemEvent] is the event of the executions, for the users online, and the
    queue. *)
Lemma BroadcastSystemEvent_event body exclude (im : IM (D := D) (R := R)) :
  BroadcastSystemEvent body exclude im =
    let pick := kvs ← ext (range_map (OnlineMap (d_net im)));
                mret (match List.filter (λ name, negb (String.eqb name exclude)) kvs.*1 with
                      | [] => None
                      | l => Some l
                      end) in
    let (r, im1) := on_logic (save_event body pick) im in
    (srv_EnqueueServerMsg (ServerMsgID r.1);; mret (ServerMsgID r.1, Seq r.1)) im1.
Proof.
  unfold BroadcastSystemEvent, save_event, on_logic, on_store, world, others_online, hub.
  unfold GenerateServerMsgID, next_id, l_call, clock, SW_Clock, ext. munfold.
  cbn -[SaveMessageWithRecipients].
  destruct (NextSeq "system" (d_store im)) as [r w1].
  cbn -[SaveMessageWithRecipients].
  match goal with |- context [SaveMessageWithRecipients ?m ?t ?w] =>
    destruct (SaveMessageWithRecipients m t w) as [err w2] end. cbn.
  done.
Qed.
End grounding.

(** * Witnesses *)

#[local] Existing Instance env0.
#[local] Existing Instance no_json.

Definition lw0 : LogicService (SW MemDB (gmap string string)) := newLogicService (w0 false).
Definition req1 (cid : string) : Message := mkMessage TypeSend cid "" "" "alice" "bob" 0 0 "hi" 0.

(** Three sends, the third a resend of the first, with an acknowledgement, a system event, a
    number and a retry in between. *)
Definition calls1 : list (LogicCall (W := SW MemDB (gmap string string))) :=
  [LSend (Some (req1 "c-1")) (Some ["bob"]); LEvent "alice left" (mret (Some ["bob"]));
   LSend (Some (req1 "c-2")) (Some ["bob"]); LDeliverAck "bob" "s-1700000000000-1";
   LNumber "system"; LOther (run_call (CScheduleRetry "s-1700000000001-3" "bob" None 5 1));
   LGenerate " sys "; LSend (Some (req1 "c-1")) (Some ["bob"])].

Lemma server_ids_unique_witness :
  length (ids_of calls1 lw0) = 4%nat ∧ NoDup (ids_of calls1 lw0) ∧
  (∀ m, m ∈ saved_of calls1 lw0 → ServerMsgID m ∈ ids_of calls1 lw0).
Proof. split; [by vm_compute|]. by apply server_ids_unique; vm_compute. Defined.

Lemma respectful_calls1 : respectful calls1.
Proof.
  unfold calls1.
  apply respectful_call; [done|]. apply respectful_call; [by split|].
  do 3 (apply respectful_call; [done|]).
  apply respectful_call; [intros w; apply (others_calm (CScheduleRetry _ _ _ _ _))|].
  do 2 (apply respectful_call; [done|]). apply respectful_nil.
Qed.

Definition msg_sent : Message :=
  mkMessage TypeDeliver "c-1" "s-1700000000000-1" "c2c:alice:bob" "alice" "bob" 1 0 "hi"
    1700000001.

Lemma resend_answers_first_message_witness :
  let l' := exec (ProcessSend (Some (req1 "c-1")) (Some ["bob"])) lw0 in
  ProcessSend (Some (req1 "c-1")) None (after calls1 l') =
    (mkSent None (Some msg_sent) None (Some (req1 "c-1")), after calls1 l').
Proof.
  apply (resend_answers_first_message (req1 "c-1") (Some ["bob"]) lw0
    (mkSent (Some msg_sent) None None (Some (req1 "c-1"))));
    [by vm_compute|by vm_compute|done|apply respectful_calls1|by left|done|done].
Defined.

Lemma seqs_below (ms : list Message) ch n b :
  forallb (λ m, Seq m + n <? b) ms = true → ∀ m, m ∈ ms → ChatID m = ch → Seq m + n < b.
Proof.
  intros Hall m Hm _. rewrite forallb_forall in Hall. apply Z.ltb_lt, Hall.
  by apply list_elem_of_In.
Qed.

(** From the first message of a fresh service on, in the chat of two users and in the chat of
    the system events. *)
Lemma chat_seqs_increase_witness :
  let seqs ch := Seq <$> List.filter (λ m, String.eqb (ChatID m) ch) (saved_of calls1 lw0) in
  seqs "c2c:alice:bob" = [1; 2] ∧ seqs "system" = [1] ∧
  StronglySorted Z.lt (seqs "c2c:alice:bob").
Proof.
  split; [by vm_compute|]. split; [by vm_compute|].
  apply (chat_seqs_increase _ _ "c2c:alice:bob"); [apply respectful_calls1|done|].
  apply seqs_below. by vm_compute.
Defined.

Lemma c2c_chat_identifies_pair_witness :
  C2CChatID "bob" "alice" = C2CChatID "alice" "bob" ↔
  ("bob" = "alice" ∧ "alice" = "bob") ∨ ("bob" = "bob" ∧ "alice" = "alice").
Proof. by apply c2c_chat_identifies_pair; vm_compute. Defined.
