(* ===== verification/LogicSteps.v ===== *)
(** The logic service under concurrency: any number of goroutines run [ProcessSend]
    (src/internal/server/logic.go) - one per connection -, others number and name system
    events; between their calls on the store, on the clock and on the atomic counter, which
    are single actions here, anything may happen. Over any store that keeps the laws of
    [StoreIface.StoreLaws]. *)
From S2P Require Import Prelude GoStr Protocol StoreIface Logic LogicFacts Storage MemDB.
From S2P Require Import Cache Store StoreImpl StoreProps LogicProps.

(** Where a goroutine stands in [ProcessSend]: about to complete the client id, to look the
    message up, to number it, to count its id, to read the clock for the id and for the
    message, to save it; or returned. *)
Inductive send_pc :=
  | SEnter (req : Message) (tos : option (list string))
  | SLookup (req : Message) (tos : option (list string))
  | SNumber (req : Message) (tos : option (list string))
  | SCount (req : Message) (tos : option (list string)) (seq : Z)
  | SName (req : Message) (tos : option (list string)) (seq k : Z)
  | STime (req : Message) (tos : option (list string)) (seq : Z) (id : string)
  | SSave (req msg : Message) (tos : option (list string))
  | SReturned (r : SendResult).

Section steps.
Context {W : Type} `{SL : StoreLaws W}.
Implicit Types (l : LogicService W) (w : W).

(** The next action of a goroutine. *)
Definition send_act (p : send_pc) : M (LogicService W) send_pc :=
  match p with
  | SEnter req tos =>
    if String.eqb (TrimSpace (From req)) ""
    then mret (SReturned (mkSent None None (Some (Err "from is empty")) (Some req)))
    else req ← with_client_id req; mret (SLookup req tos)
  | SLookup req tos =>
    ex ← l_call (st_GetMessageByClientID (From req) (ClientMsgID req));
    mret (match ex with
          | Some ex => SReturned (mkSent None (Some ex) None (Some req))
          | None => SNumber req tos
          end)
  | SNumber req tos => r ← l_call (st_NextSeq (chat_of req)); mret (SCount req tos r.1)
  | SCount req tos seq => k ← next_id; mret (SName req tos seq k)
  | SName req tos seq k =>
    now ← l_call clock; mret (STime req tos seq (format_id "s" (UnixMilli now) k))
  | STime req tos seq id =>
    now ← l_call clock;
    mret (SSave req (mkMessage TypeDeliver (ClientMsgID req) id (chat_of req) (From req) (To req)
                       seq 0 (Body req) (Unix now)) tos)
  | SSave req msg tos =>
    err ← l_call (st_SaveMessageWithRecipients (Some msg) tos);
    mret (SReturned (match err with
                     | Some e => mkSent None None (Some e) (Some req)
                     | None => mkSent (Some msg) None None (Some req)
                     end))
  | SReturned r => mret (SReturned r)
  end.

(** A goroutine that is not interrupted. *)
Fixpoint send_alone (n : nat) (p : send_pc) : M (LogicService W) send_pc :=
  match n with O => mret p | S n' => p' ← send_act p; send_alone n' p' end.

(** The actions, one after the other, are [ProcessSend]. *)
Lemma send_alone_ProcessSend req tos l :
  send_alone 7 (SEnter req tos) l =
    let (r, l') := ProcessSend (Some req) tos l in (SReturned r, l').
Proof.
  cbn [send_alone]. munfold. cbn [send_act]. unfold ProcessSend.
  destruct (String.eqb (TrimSpace (From req)) ""); [done|]. munfold.
  destruct (with_client_id req l) as [req1 l1]. cbn [send_act]. munfold.
  destruct (l_call (st_GetMessageByClientID _ _) l1) as [[ex|] l2]; [done|]. cbn [send_act].
  unfold send_new, GenerateServerMsgID. munfold.
  destruct (l_call (st_NextSeq _) l2) as [r l3]. cbn [send_act fst]. munfold.
  destruct (next_id l3) as [k l4]. cbn [send_act]. munfold.
  destruct (l_call clock l4) as [now l5]. cbn [send_act]. munfold.
  destruct (l_call clock l5) as [now' l6]. cbn [send_act]. munfold.
  by destruct (l_call (st_SaveMessageWithRecipients _ _) l6) as [[e|] l7].
Qed.

(** * The system *)

Record SendSys := mkSendSys {
  ss_logic : LogicService W;
  ss_threads : gmap nat send_pc;
  (** For each chat numbered so far, its first number and how many were drawn; how many ids
      were counted. (Neither influences a step.) *)
  ss_drawn : gmap string (Z * Z);
  ss_counted : Z
}.

(** Draw a number of a chat that got [n]. *)
Definition draw (c : string) (n : Z) (m : gmap string (Z * Z)) : gmap string (Z * Z) :=
  match m !! c with
  | Some (f, k) => <[c := (f, k + 1)]> m
  | None => <[c := (n, 1)]> m
  end.

Definition drawn_after (p : send_pc) (p' : send_pc) (m : gmap string (Z * Z)) : gmap string (Z * Z) :=
  match p, p' with SNumber req _, SCount _ _ n => draw (chat_of req) n m | _, _ => m end.
Definition counted_after (p : send_pc) (k : Z) : Z :=
  match p with SCount _ _ _ => k + 1 | _ => k end.

Inductive send_step : relation SendSys :=
  (** A goroutine calls [ProcessSend], or takes its next action. *)
  | sstep_call t req tos s : ss_threads s !! t = None →
      send_step s (mkSendSys (ss_logic s) (<[t := SEnter req tos]> (ss_threads s)) (ss_drawn s)
                     (ss_counted s))
  | sstep_act t p s : ss_threads s !! t = Some p →
      send_step s
        (mkSendSys (exec (send_act p) (ss_logic s))
           (<[t := eval (send_act p) (ss_logic s)]> (ss_threads s))
           (drawn_after p (eval (send_act p) (ss_logic s)) (ss_drawn s))
           (counted_after p (ss_counted s)))
  (** A system event is numbered, or counted ([BroadcastSystemEvent]). *)
  | sstep_number c s : c ≠ "" →
      send_step s
        (mkSendSys (exec (l_call (st_NextSeq c)) (ss_logic s)) (ss_threads s)
           (draw c (eval (l_call (st_NextSeq c)) (ss_logic s)).1 (ss_drawn s)) (ss_counted s))
  | sstep_count s :
      send_step s (mkSendSys (exec next_id (ss_logic s)) (ss_threads s) (ss_drawn s)
                     (ss_counted s + 1))
  (** Anything a client of the store does not see. *)
  | sstep_other w s : same_view (l_store (ss_logic s)) w →
      send_step s (mkSendSys (mkLogic (idCounter (ss_logic s)) w) (ss_threads s) (ss_drawn s)
                     (ss_counted s)).

Definition send_init (w : W) : SendSys := mkSendSys (newLogicService w) ∅ ∅ 0.

(** The goroutines of a schedule take their next actions. *)
Definition turn (s : SendSys) (t : nat) : SendSys :=
  match ss_threads s !! t with
  | None => s
  | Some p => mkSendSys (exec (send_act p) (ss_logic s))
      (<[t := eval (send_act p) (ss_logic s)]> (ss_threads s))
      (drawn_after p (eval (send_act p) (ss_logic s)) (ss_drawn s))
      (counted_after p (ss_counted s))
  end.

Lemma turns_steps ts s : rtc send_step s (foldl turn s ts).
Proof.
  revert s. induction ts as [|t ts IH]; intros s; [done|]. cbn [foldl]. etrans; [|apply IH].
  unfold turn. destruct (ss_threads s !! t) as [p|] eqn:E; [|done].
  by apply rtc_once, sstep_act.
Qed.

(** * Numbers and ids are kept apart *)

(** The number a goroutine holds, with its chat, and the count in its id. *)
Definition number_of (p : send_pc) : option (string * Z) :=
  match p with
  | SCount req _ n | SName req _ n _ | STime req _ n _ => Some (chat_of req, n)
  | SSave _ msg _ => Some (ChatID msg, Seq msg)
  | SReturned r => (λ m, (ChatID m, Seq m)) <$> saved r
  | _ => None
  end.

Definition named (p : send_pc) : bool :=
  match p with
  | SName _ _ _ _ | STime _ _ _ _ | SSave _ _ _ => true
  | SReturned r => match saved r with Some _ => true | None => false end
  | _ => false
  end.

Definition id_counts (id : string) (k : Z) : Prop := in_uint64 k ∧ ∃ ms, id = format_id "s" ms k.

Definition counter_of (p : send_pc) (k : Z) : Prop :=
  match p with
  | SName _ _ _ k' => k = k'
  | STime _ _ _ id => id_counts id k
  | SSave _ msg _ => id_counts (ServerMsgID msg) k
  | SReturned r => match saved r with Some m => id_counts (ServerMsgID m) k | None => False end
  | _ => False
  end.

(** An id holds one count. *)
Lemma id_counts_one ms k k' : in_uint64 k → id_counts (format_id "s" ms k) k' → k' = k.
Proof. intros [Hk _] [[Hk' _] [ms' E]]. by apply format_id_inj in E as [-> _]. Qed.

(** A call on the store, and what is made of its result. *)
Lemma call_then {A B} (m : M W A) (f : A → B) l :
  eval (a ← l_call m; mret (f a)) l = f (eval m (l_store l)) ∧
  exec (a ← l_call m; mret (f a)) l = mkLogic (idCounter l) (exec m (l_store l)).
Proof. unfold eval, exec, mbind, M_bind. by rewrite (l_call_spec m l). Qed.

(** What an action does to the numbers. *)
Lemma send_act_number p l :
  let p' := eval (send_act p) l in
  let l' := exec (send_act p) l in
  match p with
  | SNumber req tos => ∃ n, p' = SCount req tos n ∧ in_uint64 n ∧
      last (l_store l') (chat_of req) = Some n ∧
      (∀ k, last (l_store l) (chat_of req) = Some k → n = wrapu64 (k + 1)) ∧
      (∀ c, seq_key c ≠ chat_of req → last (l_store l') c = last (l_store l) c)
  | _ => (number_of p' = number_of p ∨ number_of p' = None) ∧
      (∀ c, last (l_store l') c = last (l_store l) c) ∧ (∀ m, drawn_after p p' m = m)
  end.
Proof.
  cbv zeta. unfold send_act.
  destruct p as [req tos|req tos|req tos|req tos n|req tos n k|req tos n id|req msg tos|r];
    try (match goal with |- context [eval (l_call ?m ≫= λ a, mret (@?f a)) l] =>
           destruct (call_then m f l) as [-> ->] end; cbn [l_store]).
  - case_match; [by split_and!; [right|..]|]. rewrite eval_bind, exec_bind, eval_ret.
    destruct (with_client_id_spec req l) as (req' & l' & E & _ & (_ & Hl & _) & _).
    unfold eval, exec. rewrite E. cbn. split_and!; [by right|done|done].
  - split_and!; [right; by case_match|apply law_get_last|by case_match].
  - destruct (law_NextSeq (chat_of req) (l_store l)) as (n & w1 & E & Hn & Hlast & Hk & Ho & _).
    unfold eval, exec. rewrite E. cbn. rewrite seq_key_chat_of in Ho. by exists n.
  - by split_and!; [left|..].
  - split_and!; [by left|apply law_clock|done].
  - split_and!; [by left|apply law_clock|done].
  - unfold eval, exec.
    destruct (st_SaveMessageWithRecipients (Some msg) tos (l_store l)) as [[e|] w'] eqn:E; cbn.
    + split_and!; [by right| |done]. apply (law_save_err _ _ _ _ _ E).
    + split_and!; [by left| |done]. apply (law_save_ok _ _ _ _ E).
  - by split_and!; [left|..].
Qed.

(** And to the counts. *)
Lemma send_act_counter p l :
  (∀ k, counter_of p k → in_uint64 k) →
  let p' := eval (send_act p) l in
  let l' := exec (send_act p) l in
  match p with
  | SCount req tos n => p' = SName req tos n (wrapu64 (idCounter l + 1)) ∧
      idCounter l' = wrapu64 (idCounter l + 1)
  | _ => (∀ k, counter_of p' k → counter_of p k) ∧
      (named p' = true → named p = true ∧ ∀ k, counter_of p k → counter_of p' k) ∧
      idCounter l' = idCounter l ∧ ∀ n, counted_after p n = n
  end.
Proof.
  intros Hp. cbv zeta. unfold send_act.
  destruct p as [req tos|req tos|req tos|req tos n|req tos n k|req tos n id|req msg tos|r];
    try (match goal with |- context [eval (l_call ?m ≫= λ a, mret (@?f a)) l] =>
           destruct (call_then m f l) as [-> ->] end); cbn in Hp |- *.
  - case_match; [by split_and!|]. rewrite eval_bind, exec_bind, eval_ret.
    destruct (with_client_id_spec req l) as (req' & l' & E & Hc & _).
    unfold eval, exec. rewrite E. by split_and!.
  - split_and!; [intros k; by case_match|by case_match|done|done].
  - by split_and!.
  - done.
  - split_and!; [|intros _; split; [done|]|done|done].
    + intros k'. apply id_counts_one. by apply Hp.
    + intros k' ->. split; [by apply Hp|by eexists].
  - by split_and!.
  - split_and!; [intros k; repeat case_match; by simplify_eq/=| |done|done].
    repeat case_match; by simplify_eq/=.
  - by split_and!.
Qed.

(** ** The numbers of a chat *)

(** The numbers drawn of a chat count up from its first, and the store goes on after the
    last; what a goroutine holds was drawn. *)
Record numbers_inv (s : SendSys) : Prop := {
  ni_last c f k : ss_drawn s !! c = Some (f, k) →
    0 < k ∧ seq_key c = c ∧ last (l_store (ss_logic s)) c = Some (wrapu64 (f + (k - 1)));
  ni_held t p c n : ss_threads s !! t = Some p → number_of p = Some (c, n) →
    ∃ f k i, ss_drawn s !! c = Some (f, k) ∧ 0 <= i < k ∧ n = wrapu64 (f + i)
}.

(** No more than 2^64 of them. *)
Definition few_numbers (m : gmap string (Z * Z)) : Prop :=
  ∀ c f k, m !! c = Some (f, k) → k <= 2 ^ 64.

Definition numbers_apart (s : SendSys) : Prop :=
  ∀ t t' p p' c n, t ≠ t' → ss_threads s !! t = Some p → ss_threads s !! t' = Some p' →
    number_of p = Some (c, n) → number_of p' ≠ Some (c, n).

Lemma draw_few c n m : few_numbers (draw c n m) → few_numbers m.
Proof.
  intros Hf c' f k Hc'. unfold draw in Hf. destruct (decide (c = c')) as [<-|Hne].
  - rewrite Hc' in Hf. specialize (Hf c f (k + 1)). rewrite lookup_insert_eq in Hf.
    specialize (Hf eq_refl). lia.
  - apply (Hf c' f). case_match; [case_match|]; by rewrite lookup_insert_ne.
Qed.

(** A number is drawn: the rules for it. *)
Lemma draw_lookup c n m c' f k :
  draw c n m !! c' = Some (f, k) →
  (c' ≠ c ∧ m !! c' = Some (f, k)) ∨
  (c' = c ∧ m !! c = None ∧ f = n ∧ k = 1) ∨ (c' = c ∧ m !! c = Some (f, k - 1)).
Proof.
  unfold draw. destruct (decide (c' = c)) as [->|Hne].
  - destruct (m !! c) as [[f0 k0]|]; rewrite lookup_insert_eq; intros [= <- <-];
      [right; right; by replace (k0 + 1 - 1) with k0 by lia|by right; left].
  - intros Hl. left. split; [done|]. revert Hl.
    destruct (m !! c) as [[f0 k0]|]; by rewrite lookup_insert_ne.
Qed.

Lemma draw_kept c n m c' f k :
  m !! c' = Some (f, k) → ∃ k', draw c n m !! c' = Some (f, k') ∧ k <= k'.
Proof.
  intros Hc. unfold draw. destruct (decide (c' = c)) as [->|Hne].
  - rewrite Hc. exists (k + 1). split; [apply lookup_insert_eq|lia].
  - exists k. split; [|lia]. destruct (m !! c) as [[f0 k0]|]; by rewrite lookup_insert_ne.
Qed.

(** The draw of [law_NextSeq] continues what was drawn. *)
Lemma draw_last c n (m : gmap string (Z * Z)) w w' :
  seq_key c = c → in_uint64 n → last w' c = Some n →
  (∀ k, last w c = Some k → n = wrapu64 (k + 1)) →
  (∀ c', seq_key c' ≠ c → last w' c' = last w c') →
  (∀ c f k, m !! c = Some (f, k) →
     0 < k ∧ seq_key c = c ∧ last w c = Some (wrapu64 (f + (k - 1)))) →
  ∀ c' f k, draw c n m !! c' = Some (f, k) →
    0 < k ∧ seq_key c' = c' ∧ last w' c' = Some (wrapu64 (f + (k - 1))) ∧
    (c' = c → n = wrapu64 (f + (k - 1))).
Proof.
  intros Hkey Hn Hlast Hnext Hother Hm c' f k Hd. apply draw_lookup in Hd as
    [[Hne Hc]|[(-> & _ & -> & ->)|[-> Hc]]].
  - destruct (Hm c' f k Hc) as (Hk & Hkey' & Hl). split_and!; [done|done| |done].
    rewrite Hother by congruence. done.
  - rewrite Z.sub_diag, Z.add_0_r, wrapu64_id by done. by split_and!.
  - destruct (Hm c f (k - 1) Hc) as (Hk & _ & Hl). apply Hnext in Hl as Hn'.
    assert (n = wrapu64 (f + (k - 1))) as E.
    { rewrite Hn'. unfold wrapu64. rewrite Zplus_mod_idemp_l. f_equal. lia. }
    rewrite <- E. by split_and!; [lia|..].
Qed.

(** A step that draws [d], for the goroutine [u] if any: the numbers held afterwards. *)
Definition inherits (d : option (string * Z)) (u : option nat) (s s' : SendSys) : Prop :=
  ∀ t p' x, ss_threads s' !! t = Some p' → number_of p' = Some x →
    (∃ p, ss_threads s !! t = Some p ∧ number_of p = Some x) ∨ (d = Some x ∧ u = Some t).

Lemma numbers_undrawn s s' :
  ss_drawn s' = ss_drawn s →
  (∀ c, last (l_store (ss_logic s')) c = last (l_store (ss_logic s)) c) →
  inherits None None s s' → numbers_inv s →
  numbers_inv s' ∧ (few_numbers (ss_drawn s') → numbers_apart s → numbers_apart s').
Proof.
  intros Hd Hl Hin [Hlast Hheld]. split; [split|].
  - intros c f k. rewrite Hd, Hl. apply Hlast.
  - intros t p c n Ht Hp. rewrite Hd.
    destruct (Hin t p (c, n) Ht Hp) as [(p0 & Ht0 & Hp0)|[? _]]; [by apply (Hheld t p0)|done].
  - intros _ Ha t t' p p' c n Hne Ht Ht' Hp Hp'.
    destruct (Hin t p _ Ht Hp) as [(p0 & Ht0 & Hp0)|[? _]]; [|done].
    destruct (Hin t' p' _ Ht' Hp') as [(p1 & Ht1 & Hp1)|[? _]]; [|done].
    by apply (Ha t t' p0 p1 c n).
Qed.

Lemma wrapu64_apart f i k : 0 <= i < k → k < 2 ^ 64 → wrapu64 (f + i) ≠ wrapu64 (f + k).
Proof.
  intros Hi Hk E. unfold wrapu64 in E. apply (f_equal (λ x, (x - f) mod 2 ^ 64)) in E.
  rewrite !Zminus_mod_idemp_l in E. replace (f + i - f) with i in E by lia.
  replace (f + k - f) with k in E by lia. rewrite !Z.mod_small in E by lia. lia.
Qed.

Lemma numbers_drawn c n u s s' :
  ss_drawn s' = draw c n (ss_drawn s) → seq_key c = c → in_uint64 n →
  last (l_store (ss_logic s')) c = Some n →
  (∀ k, last (l_store (ss_logic s)) c = Some k → n = wrapu64 (k + 1)) →
  (∀ c', seq_key c' ≠ c →
     last (l_store (ss_logic s')) c' = last (l_store (ss_logic s)) c') →
  inherits (Some (c, n)) u s s' → numbers_inv s →
  numbers_inv s' ∧ (few_numbers (ss_drawn s') → numbers_apart s → numbers_apart s').
Proof.
  intros Hd Hkey Hn Hl Hnext Hother Hin [Hlast Hheld].
  pose proof (draw_last c n _ _ _ Hkey Hn Hl Hnext Hother Hlast) as Hdraw. rewrite <- Hd in Hdraw.
  assert (∃ f k, ss_drawn s' !! c = Some (f, k)) as (f & k & Hc).
  { rewrite Hd. unfold draw. destruct (ss_drawn s !! c) as [[f k]|]; rewrite lookup_insert_eq; eauto. }
  destruct (Hdraw c f k Hc) as (Hk & _ & _ & Hnk). specialize (Hnk eq_refl).
  assert (∀ t p, ss_threads s !! t = Some p → few_numbers (ss_drawn s') →
    number_of p ≠ Some (c, n)) as Hfresh.
  { intros t p Ht Hfew Hp. destruct (Hheld t p c n Ht Hp) as (f0 & k0 & i & Hc0 & Hi & E).
    specialize (Hfew c f k Hc). rewrite Hd in Hc. apply draw_lookup in Hc as
      [[? _]|[(_ & Hnone & _)|[_ Hc]]]; [done|congruence|]. rewrite Hc in Hc0. injection Hc0 as <- <-.
    rewrite Hnk in E. symmetry in E. by apply (wrapu64_apart f i (k - 1)) in E; [|lia..]. }
  split; [split|].
  - intros c' f' k' Hc'. destruct (Hdraw c' f' k' Hc') as (? & ? & ? & _). done.
  - intros t p c' n' Ht Hp.
    destruct (Hin t p _ Ht Hp) as [(p0 & Ht0 & Hp0)|[[= <- <-] _]].
    + destruct (Hheld t p0 c' n' Ht0 Hp0) as (f0 & k0 & i & Hc0 & Hi & E).
      apply (draw_kept c n) in Hc0 as (k1 & Hc1 & Hle). rewrite <- Hd in Hc1.
      exists f0, k1, i. split_and!; [done|lia|lia|done].
    + exists f, k, (k - 1). split_and!; [done|lia|lia|done].
  - intros Hfew Ha t t' p p' c' n' Hne Ht Ht' Hp Hp'.
    destruct (Hin t p _ Ht Hp) as [(p0 & Ht0 & Hp0)|[[= <- <-] Hu]];
      destruct (Hin t' p' _ Ht' Hp') as [(p1 & Ht1 & Hp1)|[E Hu']].
    + by apply (Ha t t' p0 p1 c' n').
    + injection E as <- <-. by apply (Hfresh t p0).
    + by apply (Hfresh t' p1).
    + rewrite Hu in Hu'. injection Hu' as <-. done.
Qed.

(** Only one goroutine moves. *)
Lemma inherits_move t p p' s l m k :
  ss_threads s !! t = Some p → (number_of p' = number_of p ∨ number_of p' = None) →
  inherits None None s (mkSendSys l (<[t := p']> (ss_threads s)) m k).
Proof.
  intros Ht Hp t' q x. cbn. destruct (decide (t = t')) as [<-|Hne].
  - rewrite lookup_insert_eq. intros [= <-] Hx. left. exists p. split; [done|].
    destruct Hp as [<-|Hp]; [done|congruence].
  - rewrite lookup_insert_ne by done. intros Hq Hx. left. by exists q.
Qed.

Lemma inherits_same d s l m k : inherits d None s (mkSendSys l (ss_threads s) m k).
Proof. intros t p x Ht Hx. left. by exists p. Qed.

Lemma send_step_numbers s s' :
  send_step s s' → numbers_inv s →
  numbers_inv s' ∧ (few_numbers (ss_drawn s') → numbers_apart s → numbers_apart s').
Proof.
  intros Hs Hi. destruct Hs as [t req tos s Ht|t p s Ht|c s Hc|s|w s Hw].
  - apply (numbers_undrawn s); [done..| |done]. intros t' q x. cbn.
    destruct (decide (t = t')) as [<-|Hne]; [rewrite lookup_insert_eq; by intros [= <-]|].
    rewrite lookup_insert_ne by done. intros Hq Hx. left. by exists q.
  - pose proof (send_act_number p (ss_logic s)) as Ha. cbv zeta in Ha.
    assert ((∃ req tos, p = SNumber req tos) ∨
      (number_of (eval (send_act p) (ss_logic s)) = number_of p ∨
       number_of (eval (send_act p) (ss_logic s)) = None) ∧
      (∀ c, last (l_store (exec (send_act p) (ss_logic s))) c = last (l_store (ss_logic s)) c) ∧
      (∀ m, drawn_after p (eval (send_act p) (ss_logic s)) m = m)) as [(req & tos & ->)|(Hn & Hl & Hd)]
      by (destruct p; eauto).
    + destruct Ha as (n & Ha & Hn & Hl & Hnext & Hother). rewrite Ha. cbn [drawn_after].
      apply (numbers_drawn (chat_of req) n (Some t) s); try done; [apply seq_key_chat_of|].
      intros t' q x. cbn. destruct (decide (t = t')) as [<-|Hne].
      * rewrite lookup_insert_eq. intros [= <-] [= <-]. by right.
      * rewrite lookup_insert_ne by done. intros Hq Hx. left. by exists q.
    + apply (numbers_undrawn s); [apply Hd|exact Hl|by apply (inherits_move t p)|done].
  - destruct (law_NextSeq c (l_store (ss_logic s))) as (n & w1 & E & Hn & Hl & Hnext & Hother & _).
    assert (seq_key c = c) as Hkey
      by (unfold seq_key; by rewrite (proj2 (String.eqb_neq c "")) by done).
    rewrite Hkey in Hother. unfold eval, exec. rewrite l_call_spec. unfold eval, exec. rewrite E.
    cbn [fst snd]. by apply (numbers_drawn c n None s); try done; apply inherits_same.
  - by apply (numbers_undrawn s); try done; apply inherits_same.
  - apply (numbers_undrawn s); [done| |apply inherits_same|done]. apply Hw.
Qed.

Lemma send_step_few s s' : send_step s s' → few_numbers (ss_drawn s') → few_numbers (ss_drawn s).
Proof.
  destruct 1 as [t req tos s Ht|t p s Ht|c s Hc|s|w s Hw]; cbn; try done.
  - destruct p; try done. cbn [drawn_after]. case_match; try done. apply draw_few.
  - apply draw_few.
Qed.

(** ** The counts of the ids *)

Record counters_inv (s : SendSys) : Prop := {
  ci_counter : 0 <= ss_counted s ∧ idCounter (ss_logic s) = wrapu64 (ss_counted s);
  ci_held t p k : ss_threads s !! t = Some p → counter_of p k →
    ∃ i, 0 < i <= ss_counted s ∧ k = wrapu64 i;
  ci_named t p : ss_threads s !! t = Some p → named p = true → ∃ k, counter_of p k
}.

Definition counters_apart (s : SendSys) : Prop :=
  ∀ t t' p p' k, t ≠ t' → ss_threads s !! t = Some p → ss_threads s !! t' = Some p' →
    counter_of p k → ¬ counter_of p' k.

Lemma held_in_uint64 s t p k :
  counters_inv s → ss_threads s !! t = Some p → counter_of p k → in_uint64 k.
Proof. intros [_ Hh _] Ht Hk. destruct (Hh t p k Ht Hk) as (i & _ & ->). apply wrapu64_range. Qed.

(** One goroutine moves, and keeps at most what it held. *)
Lemma counters_move t p p' s l m :
  ss_threads s !! t = Some p → (∀ k, counter_of p' k → counter_of p k) →
  (named p' = true → ∃ k, counter_of p' k) → idCounter l = idCounter (ss_logic s) →
  counters_inv s →
  let s' := mkSendSys l (<[t := p']> (ss_threads s)) m (ss_counted s) in
  counters_inv s' ∧ (counters_apart s → counters_apart s').
Proof.
  intros Ht Hsub Hnm Hl [[Hc Hid] Hh Hn] s'.
  assert (∀ t' q k, ss_threads s' !! t' = Some q → counter_of q k →
    ∃ q0, ss_threads s !! t' = Some q0 ∧ counter_of q0 k) as Hback.
  { intros t' q k. cbn. destruct (decide (t = t')) as [<-|Hne].
    - rewrite lookup_insert_eq. intros [= <-] Hk. exists p. auto.
    - rewrite lookup_insert_ne by done. intros Hq Hk. by exists q. }
  split; [split|].
  - cbn. by rewrite Hl.
  - intros t' q k Hq Hk. destruct (Hback t' q k Hq Hk) as (q0 & Hq0 & Hk0). by apply (Hh t' q0).
  - intros t' q. cbn. destruct (decide (t = t')) as [<-|Hne].
    + rewrite lookup_insert_eq. by intros [= <-].
    + rewrite lookup_insert_ne by done. apply Hn.
  - intros Ha t1 t2 q1 q2 k Hne H1' H2' Hk1 Hk2.
    destruct (Hback t1 q1 k H1' Hk1) as (? & ? & ?). destruct (Hback t2 q2 k H2' Hk2) as (? & ? & ?).
    by eapply (Ha t1 t2).
Qed.

(** A count is drawn. *)
Lemma wrapu64_next n : wrapu64 (wrapu64 n + 1) = wrapu64 (n + 1).
Proof. unfold wrapu64. by rewrite Zplus_mod_idemp_l. Qed.

Lemma fresh_count s t p :
  counters_inv s → ss_counted s + 1 < 2 ^ 64 → ss_threads s !! t = Some p →
  ¬ counter_of p (wrapu64 (ss_counted s + 1)).
Proof.
  intros [[Hc _] Hh _] Hlt Ht Hp. destruct (Hh t p _ Ht Hp) as (i & Hi & E).
  unfold wrapu64 in E. rewrite !Z.mod_small in E by lia. lia.
Qed.

Lemma counters_count req tos n t s l m :
  ss_threads s !! t = Some (SCount req tos n) →
  idCounter l = wrapu64 (idCounter (ss_logic s) + 1) → counters_inv s →
  let s' := mkSendSys l (<[t := SName req tos n (wrapu64 (idCounter (ss_logic s) + 1))]> (ss_threads s)) m
              (ss_counted s + 1) in
  counters_inv s' ∧ (ss_counted s' < 2 ^ 64 → counters_apart s → counters_apart s').
Proof.
  intros Ht Hl Hi s'. pose proof Hi as [[Hc Hid] Hh Hn].
  assert (∀ t' q k, ss_threads s' !! t' = Some q → counter_of q k →
    (ss_threads s !! t' = Some q ∧ t' ≠ t) ∨ (t' = t ∧ k = wrapu64 (ss_counted s + 1))) as Hback.
  { intros t' q k. cbn. destruct (decide (t = t')) as [<-|Hne].
    - rewrite lookup_insert_eq. intros [= <-] ->. right. split; [done|].
      by rewrite Hid, wrapu64_next.
    - rewrite lookup_insert_ne by done. by left. }
  split; [split|].
  - cbn. split; [lia|]. by rewrite Hl, Hid, wrapu64_next.
  - intros t' q k Hq Hk. destruct (Hback t' q k Hq Hk) as [[Hq0 _]|[_ ->]].
    + destruct (Hh t' q k Hq0 Hk) as (i & ? & ->). exists i. cbn. split; [lia|done].
    + exists (ss_counted s + 1). cbn. split; [lia|done].
  - intros t' q. cbn. destruct (decide (t = t')) as [<-|Hne].
    + rewrite lookup_insert_eq. intros [= <-] _. by eexists.
    + rewrite lookup_insert_ne by done. apply Hn.
  - intros Hlt Ha t1 t2 q1 q2 k Hne Hq1 Hq2 Hk1 Hk2.
    destruct (Hback t1 q1 k Hq1 Hk1) as [[Hq1' _]|[E1 E1']];
      destruct (Hback t2 q2 k Hq2 Hk2) as [[Hq2' _]|[E2 E2']].
    + by apply (Ha t1 t2 q1 q2 k).
    + rewrite E2' in Hk1. by apply (fresh_count s t1 q1).
    + rewrite E1' in Hk2. by apply (fresh_count s t2 q2).
    + congruence.
Qed.

Lemma send_step_counters s s' :
  send_step s s' → counters_inv s →
  counters_inv s' ∧ ss_counted s <= ss_counted s' ∧
  (ss_counted s' < 2 ^ 64 → counters_apart s → counters_apart s').
Proof.
  intros Hs Hi. pose proof Hi as [[Hc Hid] Hh Hn].
  destruct Hs as [t req tos s Ht|t p s Ht|c s Hcne|s|w s Hw].
  - assert (∀ t' q, <[t := SEnter req tos]> (ss_threads s) !! t' = Some q →
      q = SEnter req tos ∨ ss_threads s !! t' = Some q) as Hback.
    { intros t' q. destruct (decide (t = t')) as [<-|Hne];
        [rewrite lookup_insert_eq; intros [= <-]; by left|].
      rewrite lookup_insert_ne by done. by right. }
    split; [split|split; [done|]]; cbn.
    + done.
    + intros t' q k [->|Hq]%Hback; [done|by apply (Hh t')].
    + intros t' q [->|Hq]%Hback; [done|by apply (Hn t')].
    + intros _ Ha t1 t2 p1 p2 k Hne H1' H2' Hk1 Hk2.
      destruct (Hback t1 p1 H1') as [->|Hp1]; [done|]. destruct (Hback t2 p2 H2') as [->|Hp2]; [done|].
      by apply (Ha t1 t2 p1 p2 k).
  - pose proof (send_act_counter p (ss_logic s) (λ k, held_in_uint64 s t p k Hi Ht)) as Ha.
    cbv zeta in Ha.
    assert ((∃ req tos n, p = SCount req tos n) ∨
      (∀ k, counter_of (eval (send_act p) (ss_logic s)) k → counter_of p k) ∧
      (named (eval (send_act p) (ss_logic s)) = true →
         named p = true ∧ ∀ k, counter_of p k → counter_of (eval (send_act p) (ss_logic s)) k) ∧
      idCounter (exec (send_act p) (ss_logic s)) = idCounter (ss_logic s) ∧
      ∀ n, counted_after p n = n) as [(req & tos & n & ->)|(Hsub & Hnm & Hl & Hd)]
      by (destruct p; first [by right|left; eauto]).
    + destruct Ha as [-> Hl]. cbn [counted_after drawn_after].
      destruct (counters_count req tos n t s (exec (send_act (SCount req tos n)) (ss_logic s))
        (ss_drawn s) Ht Hl Hi) as [Hi' Ha']. split_and!; [done|cbn; lia|done].
    + rewrite Hd.
      destruct (counters_move t p (eval (send_act p) (ss_logic s)) s (exec (send_act p) (ss_logic s))
        (drawn_after p (eval (send_act p) (ss_logic s)) (ss_drawn s)) Ht Hsub) as [Hi' Ha']; try done.
      intros Hnp. destruct (Hnm Hnp) as [Hnp0 Hkeep]. destruct (Hn t p Ht Hnp0) as [k Hk]. eauto.
  - split; [|by split]. split; [|done..].
    unfold exec. cbn [ss_logic ss_counted]. by rewrite l_call_spec.
  - unfold exec, next_id. cbn. split; [split|split; [lia|done]]; cbn.
    + split; [lia|]. by rewrite Hid, wrapu64_next.
    + intros t p k Ht Hk. destruct (Hh t p k Ht Hk) as (i & ? & ->). exists i. split; [lia|done].
    + done.
  - split; [|done]. by split.
Qed.

(** ** Both *)

Record apart_inv (s : SendSys) : Prop := {
  ai_numbers : numbers_inv s;
  ai_counters : counters_inv s;
  ai_numbers_apart : few_numbers (ss_drawn s) → numbers_apart s;
  ai_counters_apart : ss_counted s < 2 ^ 64 → counters_apart s
}.

Lemma send_init_apart w : apart_inv (send_init w).
Proof. split; [split|split|..]; cbn; try done. Qed.

Lemma send_step_apart s s' : send_step s s' → apart_inv s → apart_inv s'.
Proof.
  intros Hs [Hn Hc Han Hac].
  destruct (send_step_numbers s s' Hs Hn) as [Hn' Han'].
  destruct (send_step_counters s s' Hs Hc) as (Hc' & Hle & Hac').
  split; [done|done| |].
  - intros Hfew. apply Han'; [done|]. by apply Han, (send_step_few s s').
  - intros Hlt. apply Hac'; [done|]. apply Hac. lia.
Qed.

Lemma sends_apart_inv s s' : rtc send_step s s' → apart_inv s → apart_inv s'.
Proof. induction 1; eauto using send_step_apart. Qed.

(** C13. However any number of goroutines running [ProcessSend] and the numbering of system
    events are interleaved, action by action, over any store that keeps its contract: two
    sends that saved their messages got different server ids, and different sequence numbers
    if the messages are of the same chat - as long as fewer than 2^64 ids were counted and at
    most 2^64 numbers drawn in a chat. *)
Theorem sends_kept_apart w s t t' r r' m m' :
  rtc send_step (send_init w) s → ss_counted s < 2 ^ 64 → few_numbers (ss_drawn s) → t ≠ t' →
  ss_threads s !! t = Some (SReturned r) → saved r = Some m →
  ss_threads s !! t' = Some (SReturned r') → saved r' = Some m' →
  ServerMsgID m ≠ ServerMsgID m' ∧ (ChatID m = ChatID m' → Seq m ≠ Seq m').
Proof.
  intros Hs Hlt Hfew Hne Ht Hm Ht' Hm'.
  destruct (sends_apart_inv _ s Hs (send_init_apart w)) as [_ Hc Han Hac]. split.
  - intros E. destruct (ci_named s Hc t _ Ht) as [k Hk]; [cbn; by rewrite Hm|].
    apply (Hac Hlt t t' _ _ k Hne Ht Ht' Hk). cbn in Hk |- *. rewrite Hm in Hk.
    by rewrite Hm', <- E.
  - intros Ec Es. apply (Han Hfew t t' _ _ (ChatID m) (Seq m) Hne Ht Ht'); cbn;
      [by rewrite Hm|by rewrite Hm', Ec, Es].
Qed.

(** * A resend that overtakes *)

(** A goroutine runs for a while, the others stand still. *)
Lemma alone_steps n t p s :
  ss_threads s !! t = Some p →
  ∃ s', rtc send_step s s' ∧ ss_logic s' = exec (send_alone n p) (ss_logic s) ∧
    ss_threads s' = <[t := eval (send_alone n p) (ss_logic s)]> (ss_threads s).
Proof.
  revert p s. induction n as [|n IH]; intros p s Ht.
  - exists s. split_and!; [done..|]. change (ss_threads s = <[t := p]> (ss_threads s)).
    by rewrite insert_id.
  - pose proof (sstep_act t p s Ht) as Hstep.
    match type of Hstep with send_step _ ?s1 =>
      destruct (IH (eval (send_act p) (ss_logic s)) s1) as (s' & Hs & Hl & Hts);
        [apply lookup_insert_eq|] end.
    exists s'. cbn [send_alone]. rewrite exec_bind, eval_bind. split_and!; [|exact Hl|].
    + by eapply rtc_l.
    + rewrite Hts. cbn. apply insert_insert_eq.
Qed.

(** From the lookup that found nothing to the return: [send_new]. *)
Lemma send_alone_new req tos l :
  send_alone 5 (SNumber req tos) l = let (r, l') := send_new req tos l in (SReturned r, l').
Proof.
  cbn [send_alone]. munfold. cbn [send_act]. unfold send_new, GenerateServerMsgID. munfold.
  destruct (l_call (st_NextSeq _) l) as [r l3]. cbn [send_act fst]. munfold.
  destruct (next_id l3) as [k l4]. cbn [send_act]. munfold.
  destruct (l_call clock l4) as [now l5]. cbn [send_act]. munfold.
  destruct (l_call clock l5) as [now' l6]. cbn [send_act]. munfold.
  by destruct (l_call (st_SaveMessageWithRecipients _ _) l6) as [[e|] l7].
Qed.

Lemma send_alone_saves req tos l :
  From req ≠ "" → ClientMsgID req ≠ "" →
  ∃ r l', send_alone 5 (SNumber req tos) l = (SReturned r, l') ∧ existing r = None ∧
    (volatile (l_store l) → volatile (l_store l') ∧ is_Some (saved r)) ∧
    idCounter l' = wrapu64 (idCounter l + 1) ∧
    ∀ m, saved r = Some m →
      From m = From req ∧ ClientMsgID m = ClientMsgID req ∧
      id_counts (ServerMsgID m) (idCounter l') ∧
      known (l_store l') (From req) (ClientMsgID req) = Some m.
Proof.
  intros Hf Hc. rewrite send_alone_new.
  destruct (send_new_spec req tos l) as
    (r & l' & n & ms & ts & E & Hid & _ & _ & _ & _ & Hvol & _ & Hres). rewrite E.
  exists r, l'. split; [done|]. destruct Hres as [[-> Hk]|(e & -> & Hn & _)]; cbn [saved existing].
  - split_and!; [done|by eauto|done|]. intros m [= <-]. split_and!; [done|done| |by apply Hk].
    rewrite Hid. split; [apply wrapu64_range|by eexists].
  - by split_and!.
Qed.

(** To the lookup and past it, when the store does not find the request. *)
Lemma send_alone_unknown q tos l :
  let look := st_GetMessageByClientID (From q) (ClientMsgID q) in
  TrimSpace (From q) ≠ "" → TrimSpace (ClientMsgID q) ≠ "" → eval look (l_store l) = None →
  send_alone 2 (SEnter q tos) l = (SNumber q tos, mkLogic (idCounter l) (exec look (l_store l))).
Proof.
  intros look Hf Hc Hk. cbn [send_alone]. munfold. cbn [send_act].
  apply String.eqb_neq in Hf as ->. munfold. unfold with_client_id.
  apply String.eqb_neq in Hc as ->. munfold. cbn [send_act]. munfold.
  rewrite l_call_spec. fold look. by rewrite Hk.
Qed.

(** C26. The lookup of [ProcessSend] and its save are not one critical section: when a client
    that lost its connection resends a request while the goroutine of its old connection is
    still handling it, and neither of the two finds it in the store, both go on to save it -
    in memory mode always with success. If both succeed, the one request has become two
    messages with two server ids, and only the second answers later resends. *)
Theorem resends_race w q (tos tos' : option (list string)) :
  let look := st_GetMessageByClientID (From q) (ClientMsgID q) in
  TrimSpace (From q) ≠ "" → TrimSpace (ClientMsgID q) ≠ "" →
  eval look w = None → eval look (exec look w) = None →
  ∃ s r r', rtc send_step (send_init w) s ∧
    ss_threads s !! 0%nat = Some (SReturned r) ∧ ss_threads s !! 1%nat = Some (SReturned r') ∧
    existing r = None ∧ existing r' = None ∧
    (volatile w → is_Some (saved r) ∧ is_Some (saved r')) ∧
    ∀ m m', saved r = Some m → saved r' = Some m' →
      From m = From m' ∧ ClientMsgID m = ClientMsgID m' ∧ ServerMsgID m ≠ ServerMsgID m' ∧
      known (l_store (ss_logic s)) (From q) (ClientMsgID q) = Some m'.
Proof.
  intros look Hf Hc Hk Hk'.
  assert (From q ≠ "" ∧ ClientMsgID q ≠ "") as [Hf' Hc'] by (split; intros E; by rewrite E in *).
  set (ths := <[1%nat := SEnter q tos']> (<[0%nat := SEnter q tos]> (∅ : gmap nat send_pc))).
  set (s0 := mkSendSys (newLogicService w) ths ∅ 0).
  assert (rtc send_step (send_init w) s0) as H0'.
  { eapply rtc_l; [by apply (sstep_call 0 q tos)|].
    eapply rtc_l; [by apply (sstep_call 1 q tos')|done]. }
  set (l1 := mkLogic 0 (exec look w)). set (l2 := mkLogic 0 (exec look (exec look w))).
  assert (send_alone 2 (SEnter q tos) (newLogicService w) = (SNumber q tos, l1)) as E1
    by by apply send_alone_unknown.
  assert (send_alone 2 (SEnter q tos') l1 = (SNumber q tos', l2)) as E2
    by by apply send_alone_unknown.
  destruct (send_alone_saves q tos l2 Hf' Hc') as (r & l3 & E3 & Hex & Hv & Hid & Hr).
  destruct (send_alone_saves q tos' l3 Hf' Hc') as (r' & l4 & E4 & Hex' & Hv' & Hid' & Hr').
  destruct (alone_steps 2 0 (SEnter q tos) s0 eq_refl) as (s1 & S1 & L1 & T1).
  unfold eval, exec in L1, T1. cbn [ss_logic s0] in L1, T1. rewrite E1 in L1, T1. cbn [fst snd] in *.
  destruct (alone_steps 2 1 (SEnter q tos') s1) as (s2 & S2 & L2 & T2); [by rewrite T1|].
  unfold eval, exec in L2, T2. rewrite L1, E2 in L2. rewrite L1, E2, T1 in T2. cbn [fst snd] in *.
  destruct (alone_steps 5 0 (SNumber q tos) s2) as (s3 & S3 & L3 & T3); [by rewrite T2|].
  unfold eval, exec in L3, T3. rewrite L2, E3 in L3. rewrite L2, E3, T2 in T3. cbn [fst snd] in *.
  destruct (alone_steps 5 1 (SNumber q tos') s3) as (s4 & S4 & L4 & T4); [by rewrite T3|].
  unfold eval, exec in L4, T4. rewrite L3, E4 in L4. rewrite L3, E4, T3 in T4. cbn [fst snd] in *.
  exists s4, r, r'. split_and!; [|by rewrite T4..|done|done| |].
  - by do 4 (etrans; [eassumption|]).
  - intros Hvw. assert (exec look w = w) as Hw by (unfold exec, look; by rewrite law_get_volatile).
    destruct Hv as [Hv3 Hm]; [cbn; by rewrite !Hw|]. split; [done|]. by apply Hv'.
  - intros m m' Hm Hm'. destruct (Hr m Hm) as (Em & Em' & Hn & _).
    destruct (Hr' m' Hm') as (En & En' & Hn' & Hknown). rewrite L4.
    split_and!; [congruence..| |done].
    intros E. rewrite E in Hn. destruct Hn' as [? [ms E']]. rewrite E' in Hn.
    apply id_counts_one in Hn; [|done]. rewrite Hid', Hid in Hn. by vm_compute in Hn.
Qed.
End steps.

(** * Witnesses *)

#[local] Existing Instance env0.
#[local] Existing Instance no_json.

(** Two sends of alice to bob, in lockstep. *)
Definition two_sends : SendSys (W := SW MemDB (gmap string string)) :=
  mkSendSys (newLogicService (w0 false))
    {[0%nat := SEnter (req1 "c-1") (Some ["bob"]); 1%nat := SEnter (req1 "c-2") (Some ["bob"])]} ∅ 0.
Definition lockstep : list nat := concat (repeat [0; 1]%nat 7).

Lemma two_sends_reached : rtc send_step (send_init (w0 false)) (foldl turn two_sends lockstep).
Proof.
  eapply rtc_l; [by apply (sstep_call 1 (req1 "c-2") (Some ["bob"]))|].
  eapply rtc_l; [by apply (sstep_call 0 (req1 "c-1") (Some ["bob"]))|]. apply turns_steps.
Qed.

Definition sent_as (cid id : string) (n ts : Z) : Message :=
  mkMessage TypeDeliver cid id "c2c:alice:bob" "alice" "bob" n 0 "hi" ts.

Lemma sends_kept_apart_witness :
  let m := sent_as "c-1" "s-1700000000000-1" 1 1700000002 in
  let m' := sent_as "c-2" "s-1700000001000-2" 2 1700000003 in
  ServerMsgID m ≠ ServerMsgID m' ∧ (ChatID m = ChatID m' → Seq m ≠ Seq m').
Proof.
  intros m m'.
  apply (sends_kept_apart (w0 false) (foldl turn two_sends lockstep) 0 1
    (mkSent (Some m) None None (Some (req1 "c-1"))) (mkSent (Some m') None None (Some (req1 "c-2"))));
    [apply two_sends_reached|by vm_compute| |done|by vm_compute..].
  assert (ss_drawn (foldl turn two_sends lockstep) = {["c2c:alice:bob" := (1, 2)]}) as ->
    by by vm_compute.
  intros c f k [_ [= <- <-]]%lookup_singleton_Some. done.
Defined.

(** On an empty database. *)
Lemma resends_race_witness :
  let q := req1 "c-1" in
  ∃ s r r', rtc send_step (send_init (w0 true)) s ∧
    ss_threads s !! 0%nat = Some (SReturned r) ∧ ss_threads s !! 1%nat = Some (SReturned r') ∧
    existing r = None ∧ existing r' = None ∧
    (volatile (w0 true) → is_Some (saved r) ∧ is_Some (saved r')) ∧
    ∀ m m', saved r = Some m → saved r' = Some m' →
      From m = From m' ∧ ClientMsgID m = ClientMsgID m' ∧ ServerMsgID m ≠ ServerMsgID m' ∧
      known (l_store (ss_logic s)) (From q) (ClientMsgID q) = Some m'.
Proof. intros q. by apply (resends_race (w0 true) q (Some ["bob"]) None); vm_compute. Defined.

(** There both succeed. *)
Lemma resends_both_saved :
  let s := foldl turn (mkSendSys (newLogicService (w0 true))
    {[0%nat := SEnter (req1 "c-1") (Some ["bob"]); 1%nat := SEnter (req1 "c-1") (Some ["bob"])]} ∅ 0)
    lockstep in
  (∃ r, ss_threads s !! 0%nat = Some (SReturned r) ∧ is_Some (saved r)) ∧
  (∃ r, ss_threads s !! 1%nat = Some (SReturned r) ∧ is_Some (saved r)).
Proof. vm_compute. eauto 10. Qed.
