(* ===== verification/WorkerProps.v ===== *)
(** The properties of the delivery worker. *)
From S2P Require Import Prelude GoStr Protocol StoreIface Worker WorkerSteps.
From S2P Require Import Storage MemDB Cache Store StoreSteps StoreInv StoreFacts StoreImpl.
From S2P Require Import StoreProps WorkerFacts.

(** C14. Under any interleaving of enqueuers and the deliver goroutine, no id is claimed
    twice (queued twice, or queued while it is being delivered), the in-flight set is
    exactly the claimed ids - so when every goroutine is done it leaks nothing - and the
    queue never exceeds its capacity. *)
Theorem inflight_is_exclusive mx base s :
  rtc sys_step (sys_init (NewWorker mx base)) s →
  NoDup (claimed s) ∧ "" ∉ claimed s ∧
  (∀ id, id ∈ deliverInFlight (s_worker s) ↔ id ∈ claimed s) ∧
  (length (deliverQueue (s_worker s)) <= queue_cap)%nat ∧
  (claimed s = [] → deliverInFlight (s_worker s) = ∅).
Proof.
  intros Hr. destruct (sys_reachable_inv mx base s Hr) as [Hnd Hin Hcap Hne].
  split_and!; try done.
  - intros id. by rewrite Hin, elem_of_list_to_set.
  - intros E. by rewrite Hin, E.
Qed.

(** What [EnqueueServerMsg] does, run without interruption on a worker whose goroutines
    are idle: the empty id, an id in the queue and an id that finds the queue full change
    nothing; any other id joins the end of the queue and the in-flight set. The call is a
    sequence of the interleaved actions. *)
Theorem EnqueueServerMsg_effect id w :
  deliverInFlight w = list_to_set (deliverQueue w) →
  rtc sys_step (sys_init w) (sys_init (EnqueueServerMsg id w)) ∧
  (id = "" ∨ id ∈ deliverQueue w ∨ (queue_cap <= length (deliverQueue w))%nat →
     EnqueueServerMsg id w = w) ∧
  (id ≠ "" → id ∉ deliverQueue w → (length (deliverQueue w) < queue_cap)%nat →
     deliverQueue (EnqueueServerMsg id w) = deliverQueue w ++ [id] ∧
     deliverInFlight (EnqueueServerMsg id w) = list_to_set (deliverQueue w ++ [id])).
Proof.
  intros Hi. split; [apply EnqueueServerMsg_steps|].
  rewrite EnqueueServerMsg_cases by done.
  destruct (String.eqb_spec id "") as [->|Hid]; cbn [orb]; [by split|].
  case_bool_decide; cbn [orb]; [by split|].
  destruct (Nat.ltb_spec (length (deliverQueue w)) queue_cap); cbn [negb].
  - split; [intros [|[|]]; done || lia|]. intros _ _ _. cbn. split; [done|].
    rewrite Hi. apply leibniz_equiv. rewrite list_to_set_app. set_solver.
  - split; [done|]. intros. lia.
Qed.

Section memory.
Context `{GoEnv} {D R : Type} `{Gorm D} `{Redis R} `{Json}.
Implicit Types d : DW (SW D R) Recorder.

(** C16. One delivery on a memory-only store: the recipients are those still pending and the
    addressee, each once; every one of them that is online with a sender gets exactly one
    copy of the message, an offline one has its failure recorded, and nothing else in the
    store changes - no message, and no entry of another message or another user. *)
Theorem deliver_attempts_each_once id msg d :
  persistent (sw_mem (d_store d)) = false → id ≠ "" →
  messages (sw_mem (d_store d)) !! id = Some msg →
  let d' := exec (deliver id) d in
  let om := rec_online (d_net d) in
  ∃ ts, NoDup ts ∧ (∀ r, r ∈ ts ↔ is_target (sw_mem (d_store d)) id msg r) ∧
    rec_sent (d_net d') = rec_sent (d_net d) ++ omap (copy_for id msg om) ts ∧
    messages (sw_mem (d_store d')) = messages (sw_mem (d_store d)) ∧
    (∀ i t, ¬ (i = id ∧ t ∈ ts) →
       entry_of i t (sw_mem (d_store d')) = entry_of i t (sw_mem (d_store d))) ∧
    (∀ r e, r ≠ "" → r ∈ ts → entry_of id r (sw_mem (d_store d)) = Some e →
       ∃ e', entry_of id r (sw_mem (d_store d')) = Some e' ∧
             attempted (d_worker d) (bool_decide (is_Some (om !! r))) e e').
Proof.
  intros Hp Hid Hm. cbn zeta.
  destruct (deliver_mem id msg d Hp Hm) as (_ & _ & Hs & (Hms & _ & He) & Ha).
  destruct (targets_spec id msg (d_store d) Hp) as [Hnd Hts].
  exists (targets id msg (d_store d)). split_and!; try done. intros r e Hr. by apply Ha.
Qed.

(** The deliver goroutine empties its queue: with as many iterations as there are queued
    ids the queue is empty, their claims are released, and for each of them held by the
    store the copies sent are those to its recipients as they were at the start, once each. *)
Theorem deliver_goroutine_drains n d :
  persistent (sw_mem (d_store d)) = false → NoDup (deliverQueue (d_worker d)) →
  (length (deliverQueue (d_worker d)) <= n)%nat →
  drained (deliverQueue (d_worker d)) d (exec (deliverWorker n) d).
Proof. apply deliverWorker_drains. Qed.

(** C7. Messages wait for their recipient: on a memory-only store with an idle worker, when
    a user comes online, enqueueing their pending messages and running the deliver goroutine
    sends them, exactly once, every message they have not acknowledged and that is not a
    dead letter - and even a dead letter when they are its addressee -, provided the store
    keeps deliveries for no more messages than the limit of the listing (500 at a login,
    session.go) and the queue (1024) take; beyond that the list is cut. *)
Theorem login_delivers_pending u c id msg e limit n d :
  persistent (sw_mem (d_store d)) = false →
  deliverQueue (d_worker d) = [] → deliverInFlight (d_worker d) = ∅ →
  u ≠ "" → id ≠ "" → rec_online (d_net d) !! u = Some (Some c) →
  messages (sw_mem (d_store d)) !! id = Some msg →
  entry_of id u (sw_mem (d_store d)) = Some e → unread_entry e = true →
  Dead e = false ∨ To msg = u →
  Z.of_nat (size (deliveries (sw_mem (d_store d)))) <= limit <= 1024 →
  (size (deliveries (sw_mem (d_store d))) <= n)%nat →
  let d' := exec (EnqueuePendingForUser u limit;; deliverWorker n) d in
  deliverQueue (d_worker d') = [] ∧ deliverInFlight (d_worker d') = ∅ ∧
  ∃ new, rec_sent (d_net d') = rec_sent (d_net d) ++ new ∧
    List.filter (λ cm, String.eqb (To cm.2) u) (sent_for id new) =
      [(c, deliver_copy id u msg)].
Proof.
  intros Hp Hq Hf Hu Hid Hc Hm He Hun Hdead Hlim Hn. cbn zeta.
  destruct (ListPending_mem u limit (d_store d) Hp Hu) as (Hmem & l & Hl & Hids).
  destruct (unread_ids_spec u (d_store d) l Hl) as [Hnd Hin].
  set (ids := unread_ids u (sw_mem (d_store d)) l) in *.
  assert (length ids <= size (deliveries (sw_mem (d_store d))))%nat as Hlen.
  { subst ids. unfold unread_ids. rewrite length_fmap.
    etrans; [apply List.filter_length_le|]. by rewrite Hl, length_map_to_list. }
  assert (clip limit ids = ids) as Hclip.
  { unfold clip. destruct (Z.ltb_spec limit (Z.of_nat (length ids))); [lia|].
    by rewrite andb_false_r. }
  rewrite Hclip in Hids.
  change (EnqueuePendingForUser u limit) with
    (ids ← on_store (ListPendingServerMsgIDsByUser u limit); enqueue_all ids : M (DW (SW D R) Recorder) unit).
  rewrite (enqueue_run (ListPendingServerMsgIDsByUser u limit));
    rewrite ?Hids; [|done..|unfold queue_cap; lia].
  set (d1 := with_queue ids _ d).
  assert (deliverQueue (d_worker d1) = named ids) as Hq1 by done.
  assert (length (named ids) <= n)%nat as Hlen1.
  { unfold named. pose proof (List.filter_length_le (λ i, negb (String.eqb i "")) ids). lia. }
  destruct (deliverWorker_drains n d1) as [Q F _ _ _ _ (new & Hs & _ & Hsent)];
    rewrite ?Hq1 in *; try done.
  { cbn. by rewrite Hmem. }
  { by apply NoDup_filter_list. }
  split; [done|]. split; [rewrite F; apply leibniz_equiv; set_solver|].
  exists new. split; [done|]. cbn in Hsent. rewrite Hmem in Hsent.
  destruct (Hsent id msg) as (ts & Hts & Htg & ->); [|done|].
  { apply elem_of_filter_list. split; [apply Hin; eauto|]. by apply String.eqb_neq in Hid as ->. }
  apply copies_to; [done| |done]. apply Htg.
  destruct Hdead as [Hd|Hd]; [|right; split; congruence]. left. exists e. split; [done|].
  unfold pending_entry. unfold unread_entry in Hun. by rewrite Hun, Hd.
Qed.
End memory.

(** * Witnesses *)

#[local] Existing Instance env0.
#[local] Existing Instance no_json.

(** "b" was queued while "a" is being delivered. *)
Definition sys1 : Sys :=
  mkSys (EnqueueServerMsg "b" (set_queue [] (EnqueueServerMsg "a" (NewWorker 5 Second)))) [] []
    (Some "a").

Lemma sys1_reachable : rtc sys_step (sys_init (NewWorker 5 Second)) sys1.
Proof.
  etrans; [apply (EnqueueServerMsg_steps "a")|].
  eapply rtc_l; [by apply (sys_receive "a" [])|]. apply (EnqueueServerMsg_steps "b").
Qed.

Lemma inflight_is_exclusive_witness :
  claimed sys1 = ["b"; "a"] ∧
  NoDup (claimed sys1) ∧ "" ∉ claimed sys1 ∧
  (∀ id, id ∈ deliverInFlight (s_worker sys1) ↔ id ∈ claimed sys1) ∧
  (length (deliverQueue (s_worker sys1)) <= queue_cap)%nat ∧
  (claimed sys1 = [] → deliverInFlight (s_worker sys1) = ∅).
Proof.
  split; [by vm_compute|]. apply (inflight_is_exclusive 5 Second sys1), sys1_reachable.
Defined.

Lemma EnqueueServerMsg_effect_witness :
  let w := EnqueueServerMsg "a" (NewWorker 5 Second) in
  deliverQueue (EnqueueServerMsg "b" w) = ["a"; "b"] ∧
  rtc sys_step (sys_init w) (sys_init (EnqueueServerMsg "b" w)) ∧
  ("b" = "" ∨ "b" ∈ deliverQueue w ∨ (queue_cap <= length (deliverQueue w))%nat →
     EnqueueServerMsg "b" w = w) ∧
  ("b" ≠ "" → "b" ∉ deliverQueue w → (length (deliverQueue w) < queue_cap)%nat →
     deliverQueue (EnqueueServerMsg "b" w) = deliverQueue w ++ ["b"] ∧
     deliverInFlight (EnqueueServerMsg "b" w) = list_to_set (deliverQueue w ++ ["b"])).
Proof.
  split; [by vm_compute|].
  apply (EnqueueServerMsg_effect "b" (EnqueueServerMsg "a" (NewWorker 5 Second))).
  by vm_compute.
Defined.

(** bob is online on connection 7, with [msg1] waiting for him. *)
Definition dw1 : DW (SW MemDB (gmap string string)) Recorder :=
  mkDW (NewWorker 5 (2 * Second)) wm (mkRecorder {["bob" := Some 7%nat]} []).

Definition msg1_copy : Message :=
  mkMessage TypeDeliver "" "s-1" "c2c:alice:bob" "alice" "bob" 1 0 "hi" 1700000000.

Lemma deliver_attempts_each_once_witness :
  let d' := exec (deliver "s-1") dw1 in
  let om := rec_online (d_net dw1) in
  rec_sent (d_net d') = [(7%nat, msg1_copy)] ∧
  ∃ ts, NoDup ts ∧ (∀ r, r ∈ ts ↔ is_target (sw_mem (d_store dw1)) "s-1" msg1 r) ∧
    rec_sent (d_net d') = rec_sent (d_net dw1) ++ omap (copy_for "s-1" msg1 om) ts ∧
    messages (sw_mem (d_store d')) = messages (sw_mem (d_store dw1)) ∧
    (∀ i t, ¬ (i = "s-1" ∧ t ∈ ts) →
       entry_of i t (sw_mem (d_store d')) = entry_of i t (sw_mem (d_store dw1))) ∧
    (∀ r e, r ≠ "" → r ∈ ts → entry_of "s-1" r (sw_mem (d_store dw1)) = Some e →
       ∃ e', entry_of "s-1" r (sw_mem (d_store d')) = Some e' ∧
             attempted (d_worker dw1) (bool_decide (is_Some (om !! r))) e e').
Proof.
  split; [by vm_compute|].
  by apply (deliver_attempts_each_once "s-1" msg1 dw1); vm_compute.
Defined.

Definition dw1_queued : DW (SW MemDB (gmap string string)) Recorder :=
  exec (EnqueuePendingForUser "bob" 500) dw1.

Lemma deliver_goroutine_drains_witness :
  deliverQueue (d_worker dw1_queued) = ["s-1"] ∧
  drained (deliverQueue (d_worker dw1_queued)) dw1_queued
    (exec (deliverWorker 3) dw1_queued).
Proof.
  split; [by vm_compute|]. apply (deliver_goroutine_drains 3 dw1_queued).
  - by vm_compute.
  - change (NoDup ["s-1"]). apply NoDup_singleton.
  - change (length ["s-1"] <= 3)%nat. cbn. lia.
Defined.

(** After five failures [msg1] is a dead letter for bob - who gets it at login. *)
Definition dw_dead : DW (SW MemDB (gmap string string)) Recorder :=
  mkDW (NewWorker 5 (2 * Second))
    (Nat.iter 5 (exec (ScheduleRetry "s-1" "bob" None 5 (2 * Second))) wm)
    (mkRecorder {["bob" := Some 7%nat]} []).

Definition dead_entry : DeliveryEntry :=
  mkEntry "bob" false false true 5 0 1700000019 "delivery failed".

Lemma login_delivers_pending_witness :
  Dead <$> entry_of "s-1" "bob" (sw_mem (d_store dw_dead)) = Some true ∧
  let d' := exec (EnqueuePendingForUser "bob" 500;; deliverWorker 3) dw_dead in
  deliverQueue (d_worker d') = [] ∧ deliverInFlight (d_worker d') = ∅ ∧
  ∃ new, rec_sent (d_net d') = rec_sent (d_net dw_dead) ++ new ∧
    List.filter (λ cm, String.eqb (To cm.2) "bob") (sent_for "s-1" new) =
      [(7%nat, deliver_copy "s-1" "bob" msg1)].
Proof.
  split; [by vm_compute|].
  apply (login_delivers_pending "bob" 7%nat "s-1" msg1 dead_entry 500 3 dw_dead).
  - by vm_compute.
  - by vm_compute.
  - by vm_compute.
  - done.
  - done.
  - by vm_compute.
  - by vm_compute.
  - by vm_compute.
  - by vm_compute.
  - by right.
  - split; by vm_compute.
  - vm_compute. lia.
Defined.
