(* ===== verification/StoreDB.v ===== *)
(** The store over the database: what its methods do to the rows, under the laws of
    [Storage.GormLaws] and for any cache. *)
From S2P Require Import Prelude GoStr Protocol StoreIface Storage Cache Store.
From S2P Require Import StoreSteps StoreInv.
From S2P Require Import StoreFacts.

Create HintDb quiet discriminated.

Section db.
Context `{GoEnv} {D R : Type} `{GL : GormLaws D} `{Redis R} `{Json}.
Implicit Types w : SW D R.

Abbreviation dbof := (λ w : SW D R, x_db (sw_ext w)).

Definition with_db (d : D) w : SW D R := mkSW (sw_mem w) (set_db d (sw_ext w)).

(** A computation that leaves memory and database alone (it may use cache and clock). *)
Abbreviation quiet := (moves (on (λ w : SW D R, (sw_mem w, x_db (sw_ext w))) eq)).

Lemma quiet_cache_set k v t : quiet (ext (cache_set k v t)).
Proof. intros w. unfold exec, ext, cache_set, on. munfold. by destruct (x_redis (sw_ext w)). Qed.
Lemma quiet_cache_del k : quiet (ext (cache_del k)).
Proof. intros w. unfold exec, ext, cache_del, on. munfold. by destruct (x_redis (sw_ext w)). Qed.

(** A tail that only touches cache and clock and returns a constant. *)
Lemma quiet_then {A} (m : M (SW D R) unit) (a : A) w :
  quiet m →
  fst ((m ;; mret a) w) = a ∧ sw_mem (snd ((m ;; mret a) w)) = sw_mem w ∧
  x_db (sw_ext (snd ((m ;; mret a) w))) = x_db (sw_ext w).
Proof.
  intros Hm. injection (Hm w) as H1' H2'. unfold exec in *. munfold.
  by destruct (m w) as [u w'].
Qed.

Hint Resolve quiet_cache_set quiet_cache_del : quiet.

Ltac quiet_tac := moves_tac ltac:(eauto with quiet).

(** ** Rows *)

(** A row for one of the recipients [l], as created. *)
Definition created_for (i : string) (l : list string) (r : MessageRecipient) : Prop :=
  r_ServerMsgID r = i ∧ ToUser r ∈ l ∧ r_Status r = 0.

Lemma create_recipients_laws i l d r d' :
  create_recipients i l d = (r, d') →
  users_of d' = users_of d ∧ messages_of d' = messages_of d ∧
  (∃ new, recipients_of d' = recipients_of d ++ new ∧ Forall (created_for i l) new) ∧
  (r = None → ∀ t, t ∈ l → t ≠ "" →
    ∃ row, row ∈ recipients_of d' ∧ sql_eq i (r_ServerMsgID row) = true ∧
           sql_eq t (ToUser row) = true).
Proof.
  assert (∀ t l new, Forall (created_for i l) new → Forall (created_for i (t :: l)) new) as Hweak.
  { intros t l0 new Hn. apply (Forall_impl _ _ _ Hn). intros x (? & ? & ?).
    split_and!; [done|by right|done]. }
  revert d. induction l as [|t l IH]; intros d; cbn [create_recipients].
  { intros [= <- <-]. split_and!; [done..| |].
    - exists []. by rewrite app_nil_r.
    - by intros _ t []%not_elem_of_nil. }
  destruct (String.eqb t "") eqn:Et; bool_to_prop.
  { intros Hr. destruct (IH d Hr) as (? & ? & (new & ? & ?) & Hrows). split_and!; [done..|by eauto|].
    intros Hn t' [->|Hin]%elem_of_cons Hne; [done|]. by apply Hrows. }
  unfold mbind, M_bind. destruct (t_create Recipients true (new_recipient i t) d)
    as [c d1] eqn:Ec.
  pose proof (create_frame _ _ _ _ _ recipients_laws true (new_recipient i t) d) as Hfr.
  rewrite Ec in Hfr. cbn in Hfr. destruct Hfr as [Hu Hm].
  destruct c as [e|row].
  { intros [= <- <-]. apply (create_err _ _ _ _ _ recipients_laws) in Ec.
    split_and!; [done..| |done]. exists []. by rewrite app_nil_r. }
  apply (create_ok _ _ _ _ _ recipients_laws) in Ec. intros Hr.
  destruct (IH d1 Hr) as (Hu1 & Hm1 & (new & Hnew & Hfor) & Hrows). rewrite Hu1, Hm1, Hu, Hm.
  assert (∃ new1, recipients_of d1 = recipients_of d ++ new1 ∧ Forall (created_for i (t :: l)) new1 ∧
    ∃ row', row' ∈ recipients_of d1 ∧ clash_recipient sql_eq (new_recipient i t) row' = true)
    as (new1 & Hnew1 & Hfor1 & row' & Hin' & Hcl).
  { destruct (existsb _ _) eqn:Ex in Ec.
    - destruct Ec as [_ Ec]. exists []. rewrite app_nil_r. split_and!; [done..|].
      apply existsb_exists_stdpp in Ex as (row' & Hin & Hcl). rewrite Ec. eauto.
    - destruct Ec as (row' & Ec & (E1 & E2 & E3 & _) & _). exists [row']. split_and!; [done| |].
      + apply Forall_singleton. split_and!; [done|rewrite E2; by left|done].
      + exists row'. rewrite Ec. split; [set_solver|]. unfold clash_recipient.
        by rewrite E1, E2, !sql_eq_refl. }
  split_and!; [done..| |].
  - exists (new1 ++ new). rewrite Hnew, Hnew1, app_assoc. split; [done|].
    apply Forall_app. auto.
  - intros Hn t' [->|Hin]%elem_of_cons Hne; [|by apply Hrows].
    apply andb_true_iff in Hcl as [Hc1 Hc2]. exists row'. split; [|done].
    rewrite Hnew. set_solver.
Qed.

(** The transaction of [SaveMessageWithRecipients]: all or nothing. *)
Definition saved_rows (msg : Message) (tos : list string) (d d' : D) : Prop :=
  (if existsb (clash_message sql_eq (toDBMessage msg)) (messages_of d)
   then messages_of d' = messages_of d
   else ∃ row, messages_of d' = messages_of d ++ [row] ∧ same_message (toDBMessage msg) row) ∧
  (∀ t, t ∈ tos → t ≠ "" →
     ∃ row, row ∈ recipients_of d' ∧ sql_eq (ServerMsgID msg) (r_ServerMsgID row) = true ∧
            sql_eq t (ToUser row) = true) ∧
  (∃ new, recipients_of d' = recipients_of d ++ new ∧
     Forall (created_for (ServerMsgID msg) tos) new).

Lemma save_tx_laws msg tos d r d' :
  Transaction (save_tx msg tos) d = (r, d') →
  match r with
  | Some _ => messages_of d' = messages_of d ∧ recipients_of d' = recipients_of d
  | None => saved_rows msg tos d d'
  end.
Proof.
  destruct r as [e|]; intros Ht.
  { by apply transaction_err in Ht as (_ & ? & ?). }
  apply transaction_ok in Ht as (d0 & d1 & (_ & Em & Er) & Hb & _ & Em' & Er').
  unfold save_tx, mbind, M_bind in Hb.
  destruct (t_create Messages true (toDBMessage msg) d0) as [[e|row] d2] eqn:Ec; [done|].
  pose proof (create_frame _ _ _ _ _ messages_laws true (toDBMessage msg) d0) as Hfr.
  rewrite Ec in Hfr. destruct Hfr as [_ Hr2]. cbn in Hr2.
  apply (create_ok _ _ _ _ _ messages_laws) in Ec. rewrite Em in Ec.
  apply create_recipients_laws in Hb as (_ & Hm1 & (new & Hnew & Hfor) & Hrows).
  unfold saved_rows. rewrite Em', Er', Hm1. split_and!.
  - destruct (existsb _ _) in Ec |- *; [by destruct Ec as [_ ->]|].
    destruct Ec as (row' & -> & Hs & _). eauto.
  - by apply Hrows.
  - exists new. by rewrite Hnew, Hr2, Er.
Qed.

Lemma persist_message_spec msg recipients w :
  let (r, d') := Transaction (save_tx msg (default [] recipients)) (x_db (sw_ext w)) in
  eval (persist_message msg recipients) w = r ∧
  sw_mem (exec (persist_message msg recipients) w) = sw_mem w ∧
  x_db (sw_ext (exec (persist_message msg recipients) w)) = d'.
Proof.
  set (d := x_db (sw_ext w)). destruct (Transaction _ d) as [r d'] eqn:Et.
  assert (persist_message msg recipients w =
    match r with
    | Some e => (Some e, with_db d' w)
    | None => (cache_message msg recipients;; mret None) (with_db d' w)
    end) as Hrun.
  { unfold persist_message, ext at 1, on_db. unfold zoom, mbind at 1, M_bind at 1.
    subst d. rewrite Et. by destruct r. }
  unfold eval, exec. rewrite Hrun. destruct r as [e|]; [done|].
  apply (quiet_then (cache_message msg recipients) None (with_db d' w)).
  unfold cache_message. quiet_tac.
Qed.

Lemma save_persistent msg recipients w :
  persistent (sw_mem w) = true → ServerMsgID msg ≠ "" →
  SaveMessageWithRecipients (Some msg) recipients w =
    (let (r, w1) := persist_message msg recipients w in
     match r with
     | Some e => (Some e, w1)
     | None => remember_message msg (default [] recipients) w1
     end).
Proof.
  intros Hp Hi. unfold SaveMessageWithRecipients. apply String.eqb_neq in Hi. rewrite Hi.
  unfold mem, gets, mbind at 1, M_bind at 1. rewrite Hp.
  unfold mbind at 1, M_bind at 1. destruct (persist_message msg recipients w) as [[e|] w1];
    done.
Qed.

(** The rows a successful save leaves. *)
Lemma save_rows msg recipients w w' :
  persistent (sw_mem w) = true → ServerMsgID msg ≠ "" →
  SaveMessageWithRecipients (Some msg) recipients w = (None, w') →
  saved_rows msg (default [] recipients) (x_db (sw_ext w)) (x_db (sw_ext w')).
Proof.
  intros Hp Hi Hsave. rewrite save_persistent in Hsave by done.
  pose proof (persist_message_spec msg recipients w) as Hs.
  destruct (Transaction (save_tx msg (default [] recipients)) (x_db (sw_ext w)))
    as [r d'] eqn:Et.
  apply save_tx_laws in Et. destruct Hs as (E1 & E2 & E3). unfold eval, exec in *.
  destruct (persist_message msg recipients w) as [r' w1]. cbn in E1, E2, E3. subst r' d'.
  destruct r as [e|]; [done|].
  destruct (remember_message_spec msg (default [] recipients) w1) as (_ & R2 & _).
  rewrite Hsave in R2. cbn in R2. by rewrite R2.
Qed.

(** An update of the recipient rows, followed by cache work. *)
Definition updated_rows (p : MessageRecipient → bool) (f : MessageRecipient → MessageRecipient)
    (d d' : D) : Prop :=
  Forall2 (λ r r', if p r then same_recipient (f r) r' else r' = r)
    (recipients_of d) (recipients_of d').

Lemma update_then {A} (ret : option error → A) p f (tail : M (SW D R) unit) w :
  quiet tail →
  let m := (r ← ext (on_db (t_updates Recipients p f));
            match r.1 with
            | Some err => mret (ret (Some err))
            | None => tail;; mret (ret None)
            end) in
  sw_mem (exec m w) = sw_mem w ∧
  messages_of (x_db (sw_ext (exec m w))) = messages_of (x_db (sw_ext w)) ∧
  ∃ o, eval m w = ret o ∧
    match o with
    | Some _ => recipients_of (x_db (sw_ext (exec m w))) = recipients_of (x_db (sw_ext w))
    | None => updated_rows p f (x_db (sw_ext w)) (x_db (sw_ext (exec m w)))
    end.
Proof.
  intros Hq m. set (d := x_db (sw_ext w)).
  destruct (t_updates Recipients p f d) as [[o n] d'] eqn:Eu.
  pose proof (updates_frame _ _ _ _ _ recipients_laws p f d) as [_ Hm].
  rewrite Eu in Hm. cbn in Hm.
  assert (m w = match o with
                | Some err => (ret (Some err), with_db d' w)
                | None => (tail;; mret (ret None)) (with_db d' w)
                end) as Hrun.
  { subst m. unfold ext, on_db, zoom, mbind at 1, M_bind at 1. subst d. rewrite Eu.
    by destruct o. }
  unfold eval, exec. rewrite Hrun. destruct o as [e|].
  - cbn. split_and!; [done..|]. exists (Some e). split; [done|].
    by apply (updates_err _ _ _ _ _ recipients_laws) in Eu.
  - destruct (quiet_then tail (ret None) (with_db d' w) Hq) as (E1 & E2 & E3).
    rewrite E1, E2, E3. split_and!; [done..|]. exists None. split; [done|].
    by apply (updates_ok _ _ _ _ _ recipients_laws) in Eu.
Qed.

Lemma invalidate_delivery_quiet i t : quiet (invalidate_delivery i t).
Proof. unfold invalidate_delivery. quiet_tac. Qed.
Lemma invalidate_dead_quiet i t : quiet (invalidate_dead i t).
Proof. unfold invalidate_dead. quiet_tac. Qed.

(** [MarkDeliveryAcked] and [MarkDeliveryRead] over the database. *)
Lemma MarkDeliveryAcked_db i t w :
  persistent (sw_mem w) = true →
  let w' := exec (MarkDeliveryAcked i t) w in
  sw_mem w' = update_entry i t acked_entry (sw_mem w) ∧
  (eval (MarkDeliveryAcked i t) w = None →
   ∃ now, updated_rows (where_delivery i t) (acked_row now)
            (x_db (sw_ext w)) (x_db (sw_ext w'))).
Proof.
  intros Hp w'. set (now := go_now (x_tick (sw_ext w))).
  set (w1 := mkSW (update_entry i t acked_entry (sw_mem w))
               (set_tick (S (x_tick (sw_ext w))) (sw_ext w)) : SW D R).
  destruct (update_then (λ o, o) (where_delivery i t) (acked_row now)
              (invalidate_delivery i t) w1) as (E1 & _ & o & Eo & Ho).
  { apply invalidate_delivery_quiet. }
  assert (MarkDeliveryAcked i t w =
    (r ← ext (on_db (t_updates Recipients (where_delivery i t) (acked_row now)));
     match r.1 with
     | Some err => mret (Some err)
     | None => invalidate_delivery i t;; mret None
     end) w1) as Hrun.
  { unfold MarkDeliveryAcked, mem_modify, mem, ext at 1, Now. munfold. cbn.
    destruct (update_entry_other i t acked_entry (sw_mem w)) as (_ & _ & _ & ->).
    by rewrite Hp. }
  subst w'. unfold eval, exec in *. rewrite Hrun. split; [by rewrite E1|].
  intros Hn. rewrite Hn in Eo. subst o. by exists now.
Qed.

Lemma MarkDeliveryRead_db i t w :
  persistent (sw_mem w) = true →
  let w' := exec (MarkDeliveryRead i t) w in
  sw_mem w' = update_entry i t read_entry (sw_mem w) ∧
  (eval (MarkDeliveryRead i t) w = None →
   ∃ now, updated_rows (where_delivery i t) (read_row now)
            (x_db (sw_ext w)) (x_db (sw_ext w'))).
Proof.
  intros Hp w'. set (now := go_now (x_tick (sw_ext w))).
  set (w1 := mkSW (update_entry i t read_entry (sw_mem w))
               (set_tick (S (x_tick (sw_ext w))) (sw_ext w)) : SW D R).
  destruct (update_then (λ o, o) (where_delivery i t) (read_row now)
              (invalidate_delivery i t) w1) as (E1 & _ & o & Eo & Ho).
  { apply invalidate_delivery_quiet. }
  assert (MarkDeliveryRead i t w =
    (r ← ext (on_db (t_updates Recipients (where_delivery i t) (read_row now)));
     match r.1 with
     | Some err => mret (Some err)
     | None => invalidate_delivery i t;; mret None
     end) w1) as Hrun.
  { unfold MarkDeliveryRead, mem_modify, mem, ext at 1, Now. munfold. cbn.
    destruct (update_entry_other i t read_entry (sw_mem w)) as (_ & _ & _ & ->).
    by rewrite Hp. }
  subst w'. unfold eval, exec in *. rewrite Hrun. split; [by rewrite E1|].
  intros Hn. rewrite Hn in Eo. subst o. by exists now.
Qed.

(** [ScheduleRetry] on an entry that has used up its attempts. *)
Lemma ScheduleRetry_dead_db i t err mx base w e :
  persistent (sw_mem w) = true → i ≠ "" → t ≠ "" → entry_of i t (sw_mem w) = Some e →
  0 < mx → mx <= wrap64 (Retry e + 1) →
  let w' := exec (ScheduleRetry i t err mx base) w in
  let retry := wrap64 (Retry e + 1) in
  let txt := match err with Some e => Error e | None => "delivery failed" end in
  ∃ o, eval (ScheduleRetry i t err mx base) w = (true, o) ∧
    (o = None → updated_rows (where_delivery i t) (dead_row retry txt)
                  (x_db (sw_ext w)) (x_db (sw_ext w'))).
Proof.
  intros Hp Hi Ht He Hmx Hle w' retry txt.
  assert (∃ e', e' = mkEntry (e_To e) (Acked e) (Read e) true retry (LastSent e)
                       (NextRetryAt e) txt) as [e' Ee'] by eauto.
  set (w1 := mkSW (update_entry i t (λ _, e') (sw_mem w))
               (set_tick (S (x_tick (sw_ext w))) (sw_ext w)) : SW D R).
  destruct (update_then (λ o, (true, o)) (where_delivery i t) (dead_row retry txt)
              (invalidate_dead i t) w1) as (_ & _ & o & Eo & Ho).
  { apply invalidate_dead_quiet. }
  assert (ScheduleRetry i t err mx base w = schedule_dead i t txt retry w1) as Hrun.
  { unfold ScheduleRetry, ext, Now, get_mem, mem_modify.
    apply String.eqb_neq in Hi, Ht. rewrite Hi, Ht. munfold. cbn. rewrite He.
    destruct (Z.leb_spec mx 0); [lia|]. unfold retry_entry. fold retry txt.
    destruct (Z.leb_spec mx retry); [|lia]. cbn. by subst w1 e'. }
  assert (schedule_dead i t txt retry w1 =
    (r ← ext (on_db (t_updates Recipients (where_delivery i t) (dead_row retry txt)));
     match r.1 with
     | Some err => mret (true, Some err)
     | None => invalidate_dead i t;; mret (true, None)
     end) w1) as Hrun2.
  { unfold schedule_dead, mem. unfold gets, mbind at 1, M_bind at 1. cbn.
    destruct (update_entry_other i t (λ _, e') (sw_mem w)) as (_ & _ & _ & ->).
    by rewrite Hp. }
  subst w'. unfold eval, exec in *. rewrite Hrun, Hrun2. exists o. split; [done|].
  intros ->. exact Ho.
Qed.
End db.
