(* ===== verification/StoreDBProps.v ===== *)
(** The properties of the store over the database and the cache. *)
From S2P Require Import Prelude GoStr Protocol StoreIface Storage MemDB Cache Store.
From S2P Require Import StoreSteps.
From S2P Require Import StoreInv StoreFacts StoreDB StoreProps.

Section db_props.
Context `{GoEnv} {D R : Type} `{GL : GormLaws D} `{Redis R} `{Json}.
Implicit Types w : SW D R.

Abbreviation messages_db := (λ w : SW D R, messages_of (x_db (sw_ext w))).
Abbreviation recipients_db := (λ w : SW D R, recipients_of (x_db (sw_ext w))).

(** C4. Saving a message is all or nothing. When the transaction fails, memory, messages
    and recipient rows are as before and the error is reported. When it succeeds, memory
    knows the message and a delivery for each recipient; the message is a new row with the
    same columns unless a row with one of its unique keys was there; and each non-empty
    recipient has a row. *)
Theorem save_message_atomic msg recipients w :
  persistent (sw_mem w) = true → ServerMsgID msg ≠ "" →
  let '(r, w') := SaveMessageWithRecipients (Some msg) recipients w in
  let tos := default [] recipients in
  match r with
  | Some _ => sw_mem w' = sw_mem w ∧ messages_db w' = messages_db w ∧
              recipients_db w' = recipients_db w
  | None => messages (sw_mem w') !! ServerMsgID msg = Some msg ∧
            (∀ t, t ∈ tos → is_Some (entry_of (ServerMsgID msg) t (sw_mem w'))) ∧
            saved_rows msg tos (x_db (sw_ext w)) (x_db (sw_ext w'))
  end.
Proof.
  intros Hp Hi. rewrite save_persistent by done.
  pose proof (persist_message_spec msg recipients w) as Hs.
  destruct (Transaction (save_tx msg (default [] recipients)) (x_db (sw_ext w)))
    as [r d'] eqn:Et.
  apply save_tx_laws in Et. destruct Hs as (E1 & E2 & E3). unfold eval, exec in *.
  destruct (persist_message msg recipients w) as [r' w1]. cbn in E1, E2, E3. subst r' d'.
  destruct r as [e|]; [by destruct Et|].
  destruct (remember_message_spec msg (default [] recipients) w1) as (R1 & R2 & R3).
  destruct (remember_message msg _ w1) as [r2 w2]. cbn in R1, R2, R3. subst r2.
  rewrite R3, R2. split_and!; [| |done].
  - destruct (saveDeliveries_other (ServerMsgID msg) (default [] recipients)
      (saveMessageUnsafe msg (sw_mem w1))) as (_ & -> & _). cbn. by rewrite lookup_insert_eq.
  - intros t Ht. rewrite saveDeliveries_entry, decide_True by done. by eexists.
Qed.

(** A saved message survives a restart: a new store over the same database finds it by
    its server id with all its fields, as a deliverable message stamped by the database,
    unless the lookup itself fails; "not found" cannot be the answer. *)
Theorem saved_message_survives_restart msg recipients w w' :
  persistent (sw_mem w) = true → ServerMsgID msg ≠ "" →
  SaveMessageWithRecipients (Some msg) recipients w = (None, w') →
  existsb (clash_message sql_eq (toDBMessage msg)) (messages_db w) = false →
  match eval (GetMessageByServerID (ServerMsgID msg))
          (mkSW (NewInMemoryStore true) (sw_ext w')) with
  | Some m => m = mkMessage TypeDeliver (ClientMsgID msg) (ServerMsgID msg) (ChatID msg)
                    (From msg) (To msg) (Seq msg) 0 (Body msg) (Ts m)
  | None => ∃ q e, fst (t_take Messages q (x_db (sw_ext w'))) = inl e ∧ e ≠ ErrRecordNotFound
  end.
Proof.
  intros Hp Hi Hsave Hfresh. destruct (save_rows msg recipients w w' Hp Hi Hsave) as [Hrows _].
  rewrite Hfresh in Hrows. destruct Hrows as (row & Hrows & Hsame).
  unfold eval, GetMessageByServerID, get_mem, ext, on_db, mem_modify. munfold. cbn.
  apply String.eqb_neq in Hi. rewrite lookup_empty, Hi. cbn.
  set (q := mkQuery (λ r, sql_eq (m_ServerMsgID r) (ServerMsgID msg)) NoOrder 0 0).
  destruct (t_take Messages q (x_db (sw_ext w'))) as [[e|r] d2] eqn:Eq; cbn.
  - destruct e; cbn.
    + pose proof (take_none _ _ _ _ _ messages_laws q _ _ Eq row) as Hn.
      rewrite Hrows in Hn. cbn in Hn.
      assert (row ∈ messages_db w ++ [row]) as Hin by (apply elem_of_app; right; by left).
      specialize (Hn Hin). by rewrite (proj1 (proj2 Hsame)), sql_eq_refl in Hn.
    + exists q, (Err text). by rewrite Eq.
  - apply (take_ok _ _ _ _ _ messages_laws) in Eq as (l & l0 & Hl0 & _ & Hl).
    change (r :: l = drop (Z.to_nat 0) l0) in Hl. rewrite drop_0 in Hl. subst l0.
    assert (r ∈ List.filter (q_where q) (messages_db w')) as Hin.
    { rewrite <- Hl0. by left. }
    apply elem_of_filter_list in Hin as [Hin Hw]. cbn in Hw. rewrite Hrows in Hin.
    apply elem_of_app in Hin as [Hin|Hin].
    + apply (proj1 (existsb_false_stdpp _ _) Hfresh) in Hin.
      unfold clash_message in Hin. apply orb_false_iff in Hin as [Hin _].
      cbn in Hin. by rewrite (sql_eq_sym _ _ Hw) in Hin.
    + apply list_elem_of_singleton in Hin as ->.
      destruct Hsame as (E1 & E2' & E3' & _ & E4 & E5 & E6 & _ & E7 & _).
      unfold fromDBMessage. cbn in *. congruence.
Qed.

(** The first sequence number a store draws for a chat follows every number of that
    chat in the database (so numbers keep increasing across restarts), provided the query
    for the maximum succeeds; if it fails, numbering silently starts at 1 again. *)
Theorem NextSeq_baseline c w :
  persistent (sw_mem w) = true → nextSeq (sw_mem w) !! seq_key c = None →
  let chat r := sql_eq (m_ChatID r) (seq_key c) in
  ∃ n, eval (NextSeq c) w = (n, None) ∧
    match fst (t_max Messages chat m_Seq (x_db (sw_ext w))) with
    | inr x => n = wrapu64 (x + 1) ∧
        (0 <= x + 1 < 2 ^ 64 →
         ∀ r, r ∈ messages_db w → chat r = true → m_Seq r < n)
    | inl _ => n = 1
    end.
Proof.
  intros Hp Hn chat. destruct (t_max Messages chat m_Seq (x_db (sw_ext w))) as [o d'] eqn:Em.
  assert (eval (NextSeq c) w = (match o with inr x => wrapu64 (x + 1) | inl _ => 1 end, None))
    as Hrun.
  { unfold NextSeq. fold (seq_key c). unfold eval, get_mem, mem_modify, ext, on_db. munfold.
    cbn. rewrite Hn, Hp. fold chat. rewrite Em. cbn. destruct o as [e|x]; cbn.
    - by rewrite Hn.
    - by rewrite lookup_insert_eq. }
  eexists. split; [exact Hrun|]. cbn. destruct o as [e|x]; [done|]. split; [done|].
  intros Hx r Hr Hc. rewrite wrapu64_id by (unfold in_uint64; lia).
  apply (max_ok _ _ _ _ _ messages_laws) in Em as [Hmax _]. specialize (Hmax r Hr Hc). lia.
Qed.

(** A delivery acknowledgement raises the row's status to at least "delivered" and never
    lowers it (a late ack does not undo "read" or "dead"); a read receipt sets "read"; the
    rows of other deliveries are untouched. *)
Theorem acks_update_rows i t w :
  persistent (sw_mem w) = true →
  (eval (MarkDeliveryAcked i t) w = None →
   Forall2 (λ r r', if where_delivery i t r then r_Status r' = Z.max 1 (r_Status r) else r' = r)
     (recipients_db w) (recipients_db (exec (MarkDeliveryAcked i t) w))) ∧
  (eval (MarkDeliveryRead i t) w = None →
   Forall2 (λ r r', if where_delivery i t r then r_Status r' = 2 else r' = r)
     (recipients_db w) (recipients_db (exec (MarkDeliveryRead i t) w))).
Proof.
  intros Hp. split; intros He.
  - destruct (MarkDeliveryAcked_db i t w Hp) as [_ Hu].
    destruct (Hu He) as [now Hrows]. eapply Forall2_impl; [exact Hrows|].
    intros r r'. cbn. destruct (where_delivery i t r); [|done].
    intros (_ & _ & -> & _). cbn. destruct (Z.ltb_spec (r_Status r) 1); lia.
  - destruct (MarkDeliveryRead_db i t w Hp) as [_ Hu].
    destruct (Hu He) as [now Hrows]. eapply Forall2_impl; [exact Hrows|].
    intros r r'. cbn. destruct (where_delivery i t r); [|done].
    by intros (_ & _ & -> & _).
Qed.

(** [ScheduleRetry] does not look at the acknowledgement before it gives a delivery up:
    when the entry in memory has used up its attempts, every row of the delivery becomes a
    dead letter, also one already delivered or read. *)
Theorem retry_overrides_read i t err mx base w e :
  persistent (sw_mem w) = true → i ≠ "" → t ≠ "" → entry_of i t (sw_mem w) = Some e →
  0 < mx → mx <= wrap64 (Retry e + 1) →
  eval (ScheduleRetry i t err mx base) w = (true, None) →
  Forall2 (λ r r', if where_delivery i t r then r_Status r' = 3 else r' = r)
    (recipients_db w) (recipients_db (exec (ScheduleRetry i t err mx base) w)).
Proof.
  intros Hp Hi Ht He Hmx Hle Hev.
  destruct (ScheduleRetry_dead_db i t err mx base w e) as (o & Eo & Ho); try done.
  rewrite Hev in Eo. injection Eo as <-. eapply Forall2_impl; [by apply Ho|].
  intros r r'. cbn. destruct (where_delivery i t r); [|done].
  by intros (_ & _ & -> & _).
Qed.
End db_props.

(** * Witnesses *)

#[local] Existing Instance env0.
#[local] Existing Instance no_json.

(** A database store after [msg1] was saved for bob. *)
Definition w1 : SW MemDB (gmap string string) :=
  exec (SaveMessageWithRecipients (Some msg1) (Some ["bob"])) (w0 true).

Lemma save_message_atomic_witness :
  let '(r, w') := SaveMessageWithRecipients (Some msg1) (Some ["bob"]) (w0 true) in
  r = None ∧
  match r with
  | Some _ => sw_mem w' = sw_mem (w0 true) ∧
      messages_of (x_db (sw_ext w')) = messages_of (x_db (sw_ext (w0 true))) ∧
      recipients_of (x_db (sw_ext w')) = recipients_of (x_db (sw_ext (w0 true)))
  | None => messages (sw_mem w') !! ServerMsgID msg1 = Some msg1 ∧
      (∀ t, t ∈ ["bob"] → is_Some (entry_of (ServerMsgID msg1) t (sw_mem w'))) ∧
      saved_rows msg1 ["bob"] (x_db (sw_ext (w0 true))) (x_db (sw_ext w'))
  end.
Proof.
  pose proof (save_message_atomic msg1 (Some ["bob"]) (w0 true) eq_refl) as Hw.
  specialize (Hw ltac:(done)). vm_compute in Hw |- *. split; [done|exact Hw].
Defined.

Lemma saved_message_survives_restart_witness :
  eval (GetMessageByServerID "s-1") (mkSW (NewInMemoryStore true) (sw_ext w1))
    = Some (mkMessage TypeDeliver "c-1" "s-1" "c2c:alice:bob" "alice" "bob" 1 0 "hi" 0) ∧
  match eval (GetMessageByServerID "s-1") (mkSW (NewInMemoryStore true) (sw_ext w1)) with
  | Some m => m = mkMessage TypeDeliver (ClientMsgID msg1) (ServerMsgID msg1) (ChatID msg1)
                    (From msg1) (To msg1) (Seq msg1) 0 (Body msg1) (Ts m)
  | None => ∃ q e, fst (t_take Messages q (x_db (sw_ext w1))) = inl e ∧ e ≠ ErrRecordNotFound
  end.
Proof.
  split; [by vm_compute|].
  apply (saved_message_survives_restart msg1 (Some ["bob"]) (w0 true) w1); by vm_compute.
Defined.

(** A store restarted over the database of [w1]. *)
Definition w2 : SW MemDB (gmap string string) := mkSW (NewInMemoryStore true) (sw_ext w1).

Lemma NextSeq_baseline_witness :
  eval (NextSeq "c2c:alice:bob") w2 = (2, None) ∧
  ∃ n, eval (NextSeq "c2c:alice:bob") w2 = (n, None) ∧
    match fst (t_max Messages (λ r, sql_eq (m_ChatID r) (seq_key "c2c:alice:bob")) m_Seq
                 (x_db (sw_ext w2))) with
    | inr x => n = wrapu64 (x + 1) ∧
        (0 <= x + 1 < 2 ^ 64 → ∀ r, r ∈ messages_of (x_db (sw_ext w2)) →
           sql_eq (m_ChatID r) (seq_key "c2c:alice:bob") = true → m_Seq r < n)
    | inl _ => n = 1
    end.
Proof.
  split; [by vm_compute|]. apply (NextSeq_baseline "c2c:alice:bob" w2); by vm_compute.
Defined.

Lemma acks_update_rows_witness :
  r_Status <$> recipients_of (x_db (sw_ext (exec (MarkDeliveryAcked "s-1" "bob") w1))) = [1] ∧
  Forall2 (λ r r', if where_delivery "s-1" "bob" r then r_Status r' = Z.max 1 (r_Status r)
                   else r' = r)
    (recipients_of (x_db (sw_ext w1)))
    (recipients_of (x_db (sw_ext (exec (MarkDeliveryAcked "s-1" "bob") w1)))).
Proof.
  split; [by vm_compute|]. apply (acks_update_rows "s-1" "bob" w1); by vm_compute.
Defined.

(** bob read the message; a retry of the last attempt then declares it dead. *)
Definition w_read : SW MemDB (gmap string string) := exec (MarkDeliveryRead "s-1" "bob") w1.

Lemma retry_overrides_read_witness :
  r_Status <$> recipients_of (x_db (sw_ext w_read)) = [2] ∧
  Forall2 (λ r r', if where_delivery "s-1" "bob" r then r_Status r' = 3 else r' = r)
    (recipients_of (x_db (sw_ext w_read)))
    (recipients_of (x_db (sw_ext
       (exec (ScheduleRetry "s-1" "bob" (Some (Err "recipient offline")) 1 Second) w_read)))).
Proof.
  split; [by vm_compute|].
  apply (retry_overrides_read "s-1" "bob" (Some (Err "recipient offline")) 1 Second w_read
           (read_entry (new_entry "bob"))); try (by vm_compute); discriminate.
Defined.
