(* ===== verification/Stored.v ===== *)
(** A saved message stays in the database: whatever calls of the store follow, in this process
    or in the next one over the same database, the row of the message and the rows of its
    recipients are there ([run_calls_stored]); what changes is how far a delivery is. *)
From S2P Require Import Prelude GoStr Protocol StoreIface Storage Cache Store.
From S2P Require Import StoreInv StoreFacts StoreDB.

Create HintDb stored discriminated.

Section stored.
Context `{GoEnv} {D R : Type} `{GL : GormLaws D} `{Redis R} `{Json}.
Implicit Types w : SW D R.

(** What a lookup takes is a row of the table. *)
Lemma take_in q d (r : DBMessage) d' :
  t_take Messages q d = (inr r, d') → r ∈ messages_of d ∧ q_where q r = true.
Proof.
  intros Ht. apply (take_ok _ _ _ _ _ messages_laws) in Ht as (l & l0 & Hp & _ & Hl).
  assert (r ∈ l0) as Hin.
  { cbn in Hl. unfold limited in Hl. cbn in Hl. rewrite <- (take_drop (Z.to_nat (q_offset q)) l0).
    apply elem_of_app. right. rewrite <- Hl. by left. }
  rewrite Hp in Hin. by apply elem_of_filter_list in Hin.
Qed.

(** A message, its row, and somebody it is for. *)
Context (id u : string) (row : DBMessage).

(** The row of the message, the only one of its id, and the row of the recipient. *)
Definition stored_db (d : D) : Prop :=
  row ∈ messages_of d ∧
  (∀ r, r ∈ messages_of d → sql_eq (m_ServerMsgID r) id = true → r = row) ∧
  ∃ r, r ∈ recipients_of d ∧ r_ServerMsgID r = id ∧ ToUser r = u.

(** The memory holds under the id what [P] says, if anything. *)
Context (P : Message → Prop) (HP : P (fromDBMessage row)).

Definition stored w : Prop :=
  stored_db (x_db (sw_ext w)) ∧ ∀ m, messages (sw_mem w) !! id = Some m → P m.
Definition keeps_stored : relation (SW D R) := λ w w', stored w → stored w'.
Abbreviation keeps := (moves keeps_stored).

#[export] Instance keeps_stored_preorder : PreOrder keeps_stored.
Proof. split; unfold keeps_stored; [by intros w|]. intros w1 w2 w3. auto. Qed.

Lemma stored_ext {A} (m : M (Ext D R) A) :
  (∀ x, stored_db (x_db x) → stored_db (x_db (exec m x))) → keeps (ext m).
Proof.
  intros Hm w [Hd Hw]. specialize (Hm (sw_ext w) Hd). unfold stored, exec, ext, zoom in *.
  by destruct (m (sw_ext w)).
Qed.

Lemma stored_quiet {A} (m : M (Ext D R) A) :
  (∀ x, x_db (exec m x) = x_db x) → keeps (ext m).
Proof. intros Hm. apply stored_ext. intros x Hx. by rewrite Hm. Qed.

Lemma stored_Now : keeps (ext Now).
Proof. by apply stored_quiet. Qed.
Lemma stored_range {V} (m : gmap string V) : keeps (ext (range_map m)).
Proof. by apply stored_quiet. Qed.
Lemma stored_sort {A} (key : A → Z) (l : list A) : keeps (ext (sort_slice key l)).
Proof. by apply stored_quiet. Qed.
Lemma stored_cache_get k : keeps (ext (cache_get k)).
Proof.
  apply stored_quiet. intros x. unfold exec, cache_get. destruct (x_redis x); [|done].
  by destruct (redis_get k _).
Qed.
Lemma stored_cache_set k v t : keeps (ext (cache_set k v t)).
Proof. apply stored_quiet. intros x. unfold exec, cache_set. by destruct (x_redis x). Qed.
Lemma stored_cache_del k : keeps (ext (cache_del k)).
Proof. apply stored_quiet. intros x. unfold exec, cache_del. by destruct (x_redis x). Qed.

Lemma stored_on_db {A} (m : M D A) :
  (∀ d, stored_db d → stored_db (exec m d)) → keeps (ext (on_db m)).
Proof.
  intros Hm. apply stored_ext. intros x Hx. specialize (Hm (x_db x) Hx).
  unfold exec, on_db, zoom in *. by destruct (m (x_db x)).
Qed.

(** The rows are the same. *)
Lemma stored_same {A} (m : M D A) :
  (∀ d, messages_of (exec m d) = messages_of d ∧ recipients_of (exec m d) = recipients_of d) →
  keeps (ext (on_db m)).
Proof.
  intros Hm. apply stored_on_db. intros d. unfold stored_db. by destruct (Hm d) as [-> ->].
Qed.

Lemma stored_find q : keeps (ext (on_db (t_find Recipients q))).
Proof.
  apply stored_same. intros d. by destruct (find_frame _ _ _ _ _ recipients_laws q d) as [[? ?] ?].
Qed.
Lemma stored_find_messages q : keeps (ext (on_db (t_find Messages q))).
Proof.
  apply stored_same. intros d. by destruct (find_frame _ _ _ _ _ messages_laws q d) as [[? ?] ?].
Qed.
Lemma stored_take q : keeps (ext (on_db (t_take Recipients q))).
Proof.
  apply stored_same. intros d. by destruct (take_frame _ _ _ _ _ recipients_laws q d) as [[? ?] ?].
Qed.
Lemma stored_take_message q : keeps (ext (on_db (t_take Messages q))).
Proof.
  apply stored_same. intros d. by destruct (take_frame _ _ _ _ _ messages_laws q d) as [[? ?] ?].
Qed.
Lemma stored_max p k : keeps (ext (on_db (t_max Messages p k))).
Proof.
  apply stored_same. intros d. by destruct (max_frame _ _ _ _ _ messages_laws p k d) as [[? ?] ?].
Qed.
Lemma stored_count k : keeps (ext (on_db (t_count_by Recipients k))).
Proof.
  apply stored_same. intros d. by destruct (count_frame _ _ _ _ _ recipients_laws k d) as [[? ?] ?].
Qed.

(** More rows of recipients. *)
Lemma stored_db_more d d' (new : list MessageRecipient) :
  messages_of d' = messages_of d → recipients_of d' = recipients_of d ++ new →
  stored_db d → stored_db d'.
Proof.
  intros Em Er (Hrow & Honly & r & Hin & Hr). unfold stored_db. rewrite Em, Er.
  split_and!; try done. exists r. split; [apply elem_of_app; by left|done].
Qed.

Lemma stored_create r : keeps (ext (on_db (t_create Recipients true r))).
Proof.
  apply stored_on_db. intros d Hd. unfold exec.
  destruct (create_frame _ _ _ _ _ recipients_laws true r d) as [_ Em].
  destruct (t_create Recipients true r d) as [[e|r'] d'] eqn:Ec; cbn in *.
  - apply (create_err _ _ _ _ _ recipients_laws) in Ec.
    apply (stored_db_more d d' []); [done|by rewrite app_nil_r|done].
  - apply (create_ok _ _ _ _ _ recipients_laws) in Ec. case_match.
    + destruct Ec as [_ Ec]. apply (stored_db_more d d' []); [done|by rewrite app_nil_r|done].
    + destruct Ec as (r'' & Ec & _). by apply (stored_db_more d d' [r'']).
Qed.

(** An update of other columns. *)
Lemma stored_updates p f :
  (∀ r, r_ServerMsgID (f r) = r_ServerMsgID r ∧ ToUser (f r) = ToUser r) →
  keeps (ext (on_db (t_updates Recipients p f))).
Proof.
  intros Hf. apply stored_on_db. intros d Hd. unfold exec.
  destruct (updates_frame _ _ _ _ _ recipients_laws p f d) as [_ Em].
  destruct (t_updates Recipients p f d) as [[[e|] n] d'] eqn:Eu; cbn in *.
  - apply (updates_err _ _ _ _ _ recipients_laws) in Eu.
    apply (stored_db_more d d' []); [done|by rewrite app_nil_r|done].
  - apply (updates_ok _ _ _ _ _ recipients_laws) in Eu.
    destruct Hd as (Hrow & Honly & r & Hin & Hr). unfold stored_db. rewrite Em.
    split_and!; try done. apply list_elem_of_lookup in Hin as [k Hk].
    destruct (Forall2_lookup_l _ _ _ _ _ Eu Hk) as (r' & Hk' & Hrr).
    exists r'. split; [by apply list_elem_of_lookup_2 in Hk'|].
    destruct (p r); [|by subst]. destruct (Hf r) as [F1 F2].
    destruct Hrr as (E1 & E2 & _). by rewrite E1, E2, F1, F2.
Qed.

Lemma stored_mem f :
  (∀ s, messages (f s) = messages s) → keeps (mem_modify f).
Proof. intros Hf w [Hd Hw]. split; [done|]. cbn. by rewrite Hf. Qed.

Lemma stored_save_delivery i t : keeps (mem_modify (saveDeliveryUnsafe i t)).
Proof. by apply stored_mem. Qed.
Lemma stored_update i t f : keeps (mem_modify (update_entry i t f)).
Proof. apply stored_mem. intros s. apply update_entry_other. Qed.
Lemma stored_next f : keeps (mem_modify (λ s, set_nextSeq (f s) s)).
Proof. by apply stored_mem. Qed.
Lemma stored_next' f : keeps (mem_modify (set_nextSeq f)).
Proof. by apply stored_mem. Qed.
Lemma stored_save_message m :
  (ServerMsgID m = id → P m) → keeps (mem_modify (saveMessageUnsafe m)).
Proof.
  intros Hm w [Hd Hw]. split; [done|]. cbn.
  intros m' [[Ei <-]|[_ Hm']]%lookup_insert_Some; auto.
Qed.

Hint Resolve stored_Now stored_range stored_sort stored_cache_get stored_cache_set stored_cache_del
  stored_find stored_find_messages stored_take stored_max stored_count stored_create
  stored_save_delivery stored_update stored_next stored_next' : stored.
Hint Extern 4 (moves _ (ext (on_db (t_updates _ _ _)))) =>
  apply stored_updates; by split : stored.
#[local] Hint Constants Opaque : stored.
Ltac stored_tac := moves_tac ltac:(eauto with stored).

(** ** The methods *)

Lemma stored_SaveDelivery i t : keeps (SaveDelivery i t).
Proof. unfold SaveDelivery, mem. stored_tac. Qed.
Lemma stored_NextSeq c : keeps (NextSeq c).
Proof. unfold NextSeq, get_mem. stored_tac. Qed.
Lemma stored_recipients i : keeps (GetRecipients i).
Proof. unfold GetRecipients, get_mem. stored_tac. Qed.
Lemma stored_sent i t e : keeps (MarkDeliverySent i t e).
Proof. unfold MarkDeliverySent, get_mem. stored_tac. Qed.
Lemma stored_acked i t : keeps (MarkDeliveryAcked i t).
Proof. unfold MarkDeliveryAcked, invalidate_delivery, mem. stored_tac. Qed.
Lemma stored_read i t : keeps (MarkDeliveryRead i t).
Proof. unfold MarkDeliveryRead, invalidate_delivery, mem. stored_tac. Qed.
Lemma stored_retry i t e mx base : keeps (ScheduleRetry i t e mx base).
Proof.
  unfold ScheduleRetry, schedule_dead, schedule_row, invalidate_dead, get_mem, mem. stored_tac.
Qed.
Lemma stored_missing i r : keeps (markRecipientRowsDeadIfMessageMissing i r).
Proof. unfold markRecipientRowsDeadIfMessageMissing, mem. stored_tac. Qed.
Lemma stored_cached_ids k : keeps (cached_ids k).
Proof. unfold cached_ids. stored_tac. Qed.
Hint Resolve stored_SaveDelivery stored_missing stored_cached_ids : stored.
Lemma stored_adopt k rs : keeps (adopt_rows k rs).
Proof. unfold adopt_rows. stored_tac. Qed.
Hint Resolve stored_adopt : stored.
Lemma stored_due n : keeps (GetDueRetryServerMsgIDs n).
Proof. unfold GetDueRetryServerMsgIDs, get_mem. stored_tac. Qed.
Lemma stored_recover n : keeps (RecoverPendingServerMsgIDs n).
Proof. unfold RecoverPendingServerMsgIDs, get_mem. stored_tac. Qed.
Lemma stored_pending v n : keeps (ListPendingServerMsgIDsByUser v n).
Proof. unfold ListPendingServerMsgIDsByUser, get_mem. stored_tac. Qed.
Lemma stored_entries l : keeps (range_entries l).
Proof. induction l as [|[? ?] l IH]; cbn [range_entries]; stored_tac. Qed.
Hint Resolve stored_entries : stored.
Lemma stored_stats : keeps DeliveryStats.
Proof. unfold DeliveryStats, get_mem. stored_tac. Qed.
Lemma stored_rows a b rs : keeps (history_rows a b rs).
Proof. induction rs; cbn [history_rows]; unfold history_row; stored_tac. Qed.
Hint Resolve stored_rows : stored.
Lemma stored_history a b n : keeps (GetC2CHistory a b n).
Proof. unfold GetC2CHistory, getC2CHistoryFromMemory, mem, get_mem. stored_tac. Qed.

(** A lookup adopts the row it found, under its id. *)
Lemma stored_adopted q w r :
  stored w → eval (ext (on_db (t_take Messages q))) w = inr r →
  ServerMsgID (fromDBMessage r) = id → P (fromDBMessage r).
Proof.
  intros [(_ & Honly & _) _] E Hi. unfold eval, ext, on_db, zoom in E.
  destruct (t_take Messages q (x_db (sw_ext w))) as [a d'] eqn:Et. cbn in E. subst a.
  apply take_in in Et as [Hr _]. rewrite (Honly r); [apply HP|done|].
  change (m_ServerMsgID r = id) in Hi. rewrite Hi. apply sql_eq_refl.
Qed.

Lemma stored_by_server i : keeps (GetMessageByServerID i).
Proof.
  intros w Hw. unfold GetMessageByServerID, get_mem. rewrite exec_bind.
  change (eval (gets sw_mem) w) with (sw_mem w). change (exec (gets sw_mem) w) with w.
  destruct (messages (sw_mem w) !! i); [done|]. destruct (_ || _); [done|].
  set (q := mkQuery _ _ _ _). pose proof (stored_take_message q w Hw) as Hw1.
  rewrite exec_bind. set (w1 := exec (ext (on_db (t_take Messages q))) w) in *.
  destruct (eval (ext (on_db (t_take Messages q))) w) as [[|e]|r] eqn:E; [|done|].
  - rewrite exec_bind. by apply stored_missing.
  - apply (stored_save_message (fromDBMessage r)); [|done]. exact (stored_adopted q w r Hw E).
Qed.

Lemma stored_by_client f c : keeps (GetMessageByClientID f c).
Proof.
  intros w Hw. unfold GetMessageByClientID, get_mem. rewrite exec_bind.
  change (eval (gets sw_mem) w) with (sw_mem w). change (exec (gets sw_mem) w) with w.
  match goal with |- context [match ?h with Some _ => _ | None => _ end] => destruct h; [done|] end.
  destruct (negb _ || _); [done|].
  set (q := mkQuery _ _ _ _). pose proof (stored_take_message q w Hw) as Hw1.
  rewrite exec_bind. set (w1 := exec (ext (on_db (t_take Messages q))) w) in *.
  destruct (eval (ext (on_db (t_take Messages q))) w) as [e|r] eqn:E; [done|].
  apply (stored_save_message (fromDBMessage r)); [|done]. exact (stored_adopted q w r Hw E).
Qed.

Lemma stored_remember m tos w :
  ServerMsgID m ≠ id → stored w → stored (exec (remember_message m tos) w).
Proof.
  intros Hi [Hd Hw]. destruct (remember_message_spec m tos w) as (_ & Ex & Em).
  unfold stored, exec. rewrite Ex, Em. split; [done|].
  destruct (saveDeliveries_other (ServerMsgID m) tos (saveMessageUnsafe m (sw_mem w)))
    as (_ & -> & _). cbn. by rewrite lookup_insert_ne.
Qed.

(** The save of another message. *)
Lemma stored_save m tos :
  sql_eq (ServerMsgID m) id = false → keeps (SaveMessageWithRecipients (Some m) tos).
Proof.
  intros Heq w Hw. assert (ServerMsgID m ≠ id) as Hne.
  { intros E. by rewrite E, sql_eq_refl in Heq. }
  destruct (String.eqb_spec (ServerMsgID m) "") as [Ei|Ei].
  { unfold exec, SaveMessageWithRecipients. by rewrite Ei. }
  destruct (persistent (sw_mem w)) eqn:Ep.
  - unfold exec. rewrite save_persistent by done.
    pose proof (persist_message_spec m tos w) as Hs.
    destruct (Transaction _ _) as [r d'] eqn:Et. destruct Hs as (_ & E2 & E3).
    apply save_tx_laws in Et. unfold exec in E2, E3.
    destruct (persist_message m tos w) as [o w1] eqn:Epm. cbn in E2, E3.
    assert (stored w1) as Hw1.
    { destruct Hw as [Hd Hm]. split; [|by rewrite E2]. rewrite E3.
      destruct r as [e|].
      { destruct Et as [E1 E4].
        apply (stored_db_more (x_db (sw_ext w)) d' []); [done|by rewrite app_nil_r|done]. }
      destruct Et as (Hrows & _ & new & Hnew & _).
      destruct Hd as (Hrow & Honly & r & Hin & Hr). split_and!.
      - destruct (existsb _ _) in Hrows; [by rewrite Hrows|].
        destruct Hrows as (row' & -> & _). apply elem_of_app. by left.
      - destruct (existsb _ _) in Hrows; [by rewrite Hrows|].
        destruct Hrows as (row' & -> & _ & Es & _).
        intros r' [Hr'| ->%list_elem_of_singleton]%elem_of_app; [by apply Honly|].
        rewrite Es. cbn. by rewrite Heq.
      - exists r. split; [|done]. rewrite Hnew. apply elem_of_app. by left. }
    destruct o as [e|]; [done|]. by apply stored_remember.
  - assert (exec (SaveMessageWithRecipients (Some m) tos) w =
      exec (remember_message m (default [] tos)) w) as ->; [|by apply stored_remember].
    unfold exec, SaveMessageWithRecipients, mem. apply String.eqb_neq in Ei. rewrite Ei.
    munfold. by rewrite Ep.
Qed.

(** A call that does not save a message under this id. *)
Definition not_saving (c : StoreCall) : Prop :=
  match c with
  | CSaveMessage (Some m) | CSaveMessageWithRecipients (Some m) _ =>
    sql_eq (ServerMsgID m) id = false
  | _ => True
  end.

Lemma run_call_stored c w : not_saving c → stored w → stored (run_call c w).
Proof.
  intros Hc Hw. destruct c; cbn [run_call].
  - by apply stored_NextSeq.
  - destruct msg as [m|]; [by apply (stored_save m None)|done].
  - destruct msg as [m|]; [by apply stored_save|done].
  - by apply stored_by_client.
  - by apply stored_by_server.
  - by apply stored_SaveDelivery.
  - by apply stored_recipients.
  - by apply stored_sent.
  - by apply stored_acked.
  - by apply stored_read.
  - by apply stored_retry.
  - by apply stored_due.
  - by apply stored_stats.
  - by apply stored_recover.
  - by apply stored_pending.
  - by apply stored_history.
Qed.

Lemma run_calls_stored cs w :
  Forall not_saving cs → stored w → stored (run_calls cs w).
Proof.
  unfold run_calls. intros Hcs. revert w.
  induction Hcs as [|c cs Hc _ IH]; intros w Hw; [done|]. by apply IH, run_call_stored.
Qed.
End stored.
