(* ===== verification/Pending.v ===== *)
(** Messages that wait in the database: what a login sends of them, also after the process
    was restarted with an empty memory. (In memory-only mode: [WorkerProps].) *)
From S2P Require Import Prelude GoStr Protocol StoreIface Worker WorkerSteps.
From S2P Require Import Storage MemDB Cache Store StoreSteps StoreInv StoreFacts StoreImpl.
From S2P Require Import WorkerFacts StoreDB Stored StoreProps.

Create HintDb held discriminated.

(** * The store *)

Section store.
Context `{GoEnv} {D R : Type} `{GL : GormLaws D} `{Redis R} `{Json}.
Implicit Types w : SW D R.

(** A message, the row it has in the database, and somebody it is for. *)
Context (id u : string) (rows : list DBMessage) (row : DBMessage).
Context (Hid : m_ServerMsgID row = id) (Hrow : row ∈ rows)
  (Honly : ∀ r, r ∈ rows → sql_eq (m_ServerMsgID r) id = true → r = row).

(** The store works over a database with these messages, and its memory agrees with it: it
    holds this message if any under the id, and no delivery to [u] that is settled. *)
Record held (w : SW D R) : Prop := {
  h_mode : persistent (sw_mem w) = true;
  h_rows : messages_of (x_db (sw_ext w)) = rows;
  h_message m : messages (sw_mem w) !! id = Some m → m = fromDBMessage row;
  h_entry e : entry_of id u (sw_mem w) = Some e → pending_entry e = true
}.

(** The memory knows that [u] waits for it. *)
Definition waits w : Prop := is_Some (entry_of id u (sw_mem w)).

Definition keeps_held : relation (SW D R) := λ w w',
  held w → held w' ∧ (waits w → waits w').
Abbreviation keeps := (moves keeps_held).

#[export] Instance keeps_held_preorder : PreOrder keeps_held.
Proof.
  split; [by intros w; split|]. intros w1 w2 w3 H12 H23 Hw.
  destruct (H12 Hw) as [Hw2 H2']. destruct (H23 Hw2) as [Hw3 H3']. auto.
Qed.

(** What leaves memory and messages alone. *)
Lemma held_ext {A} (m : M (Ext D R) A) :
  (∀ x, messages_of (x_db (exec m x)) = messages_of (x_db x)) → keeps (ext m).
Proof.
  intros Hm w [Hp Hr Hmsg He].
  assert (sw_mem (exec (ext m) w) = sw_mem w ∧
    messages_of (x_db (sw_ext (exec (ext m) w))) = messages_of (x_db (sw_ext w))) as [E1 E2].
  { specialize (Hm (sw_ext w)). unfold exec, ext, zoom in *. by destruct (m (sw_ext w)). }
  unfold waits. split; [split|]; rewrite ?E1, ?E2; done.
Qed.

Lemma held_Now : keeps (ext Now).
Proof. by apply held_ext. Qed.
Lemma held_range {V} (m : gmap string V) : keeps (ext (range_map m)).
Proof. by apply held_ext. Qed.
Lemma held_cache_get k : keeps (ext (cache_get k)).
Proof.
  apply held_ext. intros x. unfold exec, cache_get. destruct (x_redis x); [|done].
  by destruct (redis_get k _).
Qed.
Lemma held_cache_set k v t : keeps (ext (cache_set k v t)).
Proof. apply held_ext. intros x. unfold exec, cache_set. by destruct (x_redis x). Qed.
Lemma held_cache_del k : keeps (ext (cache_del k)).
Proof. apply held_ext. intros x. unfold exec, cache_del. by destruct (x_redis x). Qed.

Lemma held_db {A} (m : M D A) :
  (∀ d, messages_of (exec m d) = messages_of d) → keeps (ext (on_db m)).
Proof.
  intros Hm. apply held_ext. intros x. specialize (Hm (x_db x)). unfold exec, on_db, zoom in *.
  by destruct (m (x_db x)).
Qed.
Lemma held_find q : keeps (ext (on_db (t_find Recipients q))).
Proof. apply held_db. intros d. apply (find_frame _ _ _ _ _ recipients_laws q d). Qed.
Lemma held_take_recipient q : keeps (ext (on_db (t_take Recipients q))).
Proof. apply held_db. intros d. apply (take_frame _ _ _ _ _ recipients_laws q d). Qed.
Lemma held_take_message q : keeps (ext (on_db (t_take Messages q))).
Proof. apply held_db. intros d. apply (take_frame _ _ _ _ _ messages_laws q d). Qed.
Lemma held_updates p f : keeps (ext (on_db (t_updates Recipients p f))).
Proof. apply held_db. intros d. apply (updates_frame _ _ _ _ _ recipients_laws p f d). Qed.
Lemma held_create b r : keeps (ext (on_db (t_create Recipients b r))).
Proof. apply held_db. intros d. apply (create_frame _ _ _ _ _ recipients_laws b r d). Qed.

(** Memory: a delivery is added, or one of another message changes. *)
Lemma held_save_delivery i t : keeps (mem_modify (saveDeliveryUnsafe i t)).
Proof.
  intros w [Hp Hr Hmsg He]. pose proof (saveDeliveries_entry i [t] (sw_mem w) id u) as E.
  cbn [foldl] in E. unfold waits, exec, mem_modify, modify. cbn. rewrite E.
  split; [split; cbn; try done|].
  - rewrite E. case_decide as Hd; [|apply He]. destruct Hd as [<- _]. intros e [= <-].
    destruct (entry_of id u (sw_mem w)) as [e|]; [by apply He|done].
  - intros ?. by case_decide.
Qed.

Lemma held_update i t f : i ≠ id → keeps (mem_modify (update_entry i t f)).
Proof.
  intros Hi w [Hp Hr Hmsg He]. destruct (update_entry_other i t f (sw_mem w)) as (_ & Em & _ & Ep).
  assert (entry_of id u (update_entry i t f (sw_mem w)) = entry_of id u (sw_mem w)) as E.
  { rewrite entry_of_update, decide_False; [done|]. by intros [-> _]. }
  unfold waits, exec, mem_modify, modify. cbn. rewrite E.
  split; [split; cbn; rewrite ?Em, ?Ep, ?E; done|done].
Qed.

Lemma held_save_message m :
  (ServerMsgID m = id → m = fromDBMessage row) → keeps (mem_modify (saveMessageUnsafe m)).
Proof.
  intros Hm w [Hp Hr Hmsg He]. split; [split; cbn; try done|done].
  intros m' [[Ei <-]|[_ Hm']]%lookup_insert_Some; [by apply Hm|by apply Hmsg].
Qed.

Hint Resolve held_Now held_range held_cache_get held_cache_set held_cache_del held_find
  held_take_recipient held_updates held_create held_save_delivery held_update : held.
#[local] Hint Constants Opaque : held.
Ltac held_tac := moves_tac ltac:(eauto with held).

(** The methods the worker calls, for another message. *)
Lemma held_mark_dead i r : keeps (markRecipientRowsDeadIfMessageMissing i r).
Proof. unfold markRecipientRowsDeadIfMessageMissing, mem. held_tac. Qed.

Lemma held_sent i t e : i ≠ id → keeps (MarkDeliverySent i t e).
Proof. intros Hi. unfold MarkDeliverySent, get_mem. held_tac. Qed.

Lemma held_retry i t e mx base : i ≠ id → keeps (ScheduleRetry i t e mx base).
Proof.
  intros Hi. unfold ScheduleRetry, schedule_dead, schedule_row, invalidate_dead, get_mem, mem.
  held_tac.
Qed.

Lemma held_recipients i : keeps (GetRecipients i).
Proof. unfold GetRecipients, get_mem. held_tac. Qed.

Lemma held_SaveDelivery i t : keeps (SaveDelivery i t).
Proof. unfold SaveDelivery, mem. held_tac. Qed.

(** The row of the message, found by its id. *)
Lemma take_row i d r d' :
  messages_of d = rows →
  t_take Messages (mkQuery (λ r, sql_eq (m_ServerMsgID r) i) NoOrder 0 0) d = (inr r, d') →
  r ∈ rows ∧ sql_eq (m_ServerMsgID r) i = true.
Proof.
  intros Hr Ht. rewrite <- Hr. by apply take_in in Ht.
Qed.

Lemma held_get i : keeps (GetMessageByServerID i).
Proof.
  intros w Hw. unfold GetMessageByServerID, get_mem. rewrite exec_bind.
  change (eval (gets sw_mem) w) with (sw_mem w). change (exec (gets sw_mem) w) with w.
  destruct (messages (sw_mem w) !! i); [by split|]. destruct (_ || _); [by split|].
  set (q := mkQuery _ _ _ _). pose proof (held_take_message q w Hw) as [Hw1 Hwt].
  rewrite exec_bind. set (w1 := exec (ext (on_db (t_take Messages q))) w) in *.
  destruct (eval (ext (on_db (t_take Messages q))) w) as [[|e]|r] eqn:E.
  - destruct (held_mark_dead i "message not found" w1 Hw1) as [Hw2 Hwt2]. rewrite exec_bind. auto.
  - by split.
  - destruct (held_save_message (fromDBMessage r)) with (s := w1) as [Hw2 Hwt2]; [|done|auto].
    cbn. intros Hi. f_equal. unfold eval, ext, on_db, zoom in E.
    destruct (t_take Messages q (x_db (sw_ext w))) as [a d'] eqn:Et. cbn in E. subst a.
    apply take_row in Et as [Hr _]; [|apply Hw]. apply Honly; [done|]. rewrite Hi. apply sql_eq_refl.
Qed.

(** The database answers: nothing but "not found" goes wrong with a lookup. *)
Definition lookups_answer : Prop :=
  ∀ p d e d', t_take Messages (mkQuery p NoOrder 0 0) d = (inl e, d') → e = ErrRecordNotFound.

Lemma get_found w :
  lookups_answer → id ≠ "" → held w →
  eval (GetMessageByServerID id) w = Some (fromDBMessage row).
Proof.
  intros Hdb Hne Hw. unfold GetMessageByServerID, get_mem. rewrite eval_bind.
  change (eval (gets sw_mem) w) with (sw_mem w). change (exec (gets sw_mem) w) with w.
  destruct (messages (sw_mem w) !! id) as [m|] eqn:Em.
  { apply (h_message w Hw) in Em as ->. by rewrite eval_ret. }
  rewrite (h_mode w Hw), (proj2 (String.eqb_neq id "") Hne). cbn [negb orb].
  set (q := mkQuery _ _ _ _). rewrite eval_bind.
  set (w1 := exec _ w). unfold eval at 2, ext, on_db, zoom. pose proof (h_rows w Hw) as Hr.
  destruct (t_take Messages q (x_db (sw_ext w))) as [[e|r] d'] eqn:Et; cbn [fst].
  - apply Hdb in Et as E. subst e. exfalso.
    pose proof (take_none _ _ _ _ _ messages_laws q _ _ Et row) as Hn. rewrite Hr in Hn.
    specialize (Hn Hrow). cbn in Hn. by rewrite Hid, sql_eq_refl in Hn.
  - destruct (take_row id _ r d' Hr Et) as [Hin Heq]. by rewrite (Honly r Hin Heq).
Qed.

(** The recipients of the message: [u] is one of them. *)
Lemma recipients_wait w :
  held w → waits w →
  NoDup (eval (GetRecipients id) w) ∧ u ∈ eval (GetRecipients id) w.
Proof.
  intros Hw [e He]. pose proof (h_entry w Hw e He) as Hp.
  destruct (GetRecipients_waiting id u e w He Hp) as (Hnd & Hin & _). split; [done|].
  apply Hin. by exists e.
Qed.

(** ** The list of a login *)

Lemma SaveDelivery_waits w : held w → id ≠ "" → u ≠ "" → waits (exec (SaveDelivery id u) w).
Proof.
  intros Hw Hi Hu. unfold SaveDelivery.
  rewrite (proj2 (String.eqb_neq id "") Hi), (proj2 (String.eqb_neq u "") Hu). cbn [orb].
  rewrite exec_bind. destruct (held_save_delivery id u w Hw) as [Hw1 _].
  match goal with |- waits (exec ?m ?w1) =>
    assert (keeps m) as Hk by (unfold mem; held_tac); apply (Hk w1 Hw1) end.
  pose proof (saveDeliveries_entry id [u] (sw_mem w) id u) as E.
  rewrite decide_True in E by (split; [done|by left]).
  unfold waits, exec, mem_modify, modify. cbn in E |- *. rewrite E. by eexists.
Qed.

(** Adopting rows, [u] waits for the message of a row of his. *)
Lemma adopt_waits key rs w :
  held w → id ≠ "" → u ≠ "" →
  (∃ r, r ∈ rs ∧ r_ServerMsgID r = id ∧ ToUser r = u) →
  let w' := exec (adopt_rows key rs) w in
  eval (adopt_rows key rs) w = r_ServerMsgID <$> rs ∧ held w' ∧ waits w'.
Proof.
  intros Hw Hi Hu (r & Hin & Er & Eu) w'. split.
  { unfold adopt_rows. by rewrite !eval_bind. }
  assert (∀ l w, held w → (waits w ∨ r ∈ l) →
    let w1 := exec (forM l (λ row, SaveDelivery (r_ServerMsgID row) (ToUser row);; mret tt)) w in
    held w1 ∧ waits w1) as Hl.
  { clear w Hw w' Hin. induction l as [|x l IH]; intros w Hw Hc; cbn zeta.
    - split; [done|]. destruct Hc as [?|[]%not_elem_of_nil]; done.
    - cbn [forM]. rewrite exec_bind. rewrite exec_bind.
      set (w1 := exec (SaveDelivery (r_ServerMsgID x) (ToUser x)) w).
      destruct (held_SaveDelivery (r_ServerMsgID x) (ToUser x) w Hw) as [Hw1 Hwt].
      apply IH; [exact Hw1|]. destruct Hc as [Hc|[->|Hc]%elem_of_cons]; [left; by apply Hwt| |by right].
      left. change (waits w1). unfold w1. rewrite Er, Eu. by apply SaveDelivery_waits. }
  unfold w', adopt_rows. rewrite exec_bind.
  destruct (Hl rs w Hw (or_intror Hin)) as [Hw1 Hwt]. rewrite exec_bind.
  match goal with |- held (exec _ (exec ?m ?w1)) ∧ _ =>
    assert (keeps m) as Hk by held_tac; destruct (Hk w1 Hw1) as [Hw2 Hwt2] end.
  split; [exact Hw2|by apply Hwt2].
Qed.

(** The database answers listings. *)
Definition listings_answer : Prop := ∀ q d e d', t_find Recipients q d ≠ (inl e, d').

(** The rows a query looks for. *)
Definition rows_found (p : MessageRecipient → bool) (d : D) : list MessageRecipient :=
  List.filter p (recipients_of d).

Lemma find_rows p o limit d rs d' :
  Z.of_nat (length (rows_found p d)) <= limit →
  t_find Recipients (mkQuery p o limit 0) d = (inr rs, d') → rs ≡ₚ rows_found p d.
Proof.
  intros Hlim Hf. apply (find_ok _ _ _ _ _ recipients_laws) in Hf as (l & Hp & _ & ->).
  cbn in Hp |- *. fold (rows_found p d) in Hp. change (drop (Z.to_nat 0) l) with l.
  unfold limited. destruct (Z.ltb_spec 0 limit); [|done].
  rewrite take_ge; [done|]. rewrite Hp. lia.
Qed.

(** A list the cache does not know is made of the rows found, which the memory adopts. *)
Definition list_rows (key : string) (q : query MessageRecipient) : M (SW D R) (list string) :=
  r ← ext (on_db (t_find Recipients q));
  match r with
  | inl _ => mret []
  | inr rows => out ← adopt_rows key rows; mret (dedupeStrings out)
  end.

(** What is listed: each message once, this one among them, and [u] waits for it. *)
Definition listed (p : MessageRecipient → bool) w (ids : list string) w' : Prop :=
  NoDup ids ∧ id ∈ ids ∧ (length ids <= length (rows_found p (x_db (sw_ext w))))%nat ∧
  held w' ∧ waits w'.

Lemma list_rows_listed key p o limit w r :
  listings_answer → held w → id ≠ "" → u ≠ "" →
  r ∈ recipients_of (x_db (sw_ext w)) → r_ServerMsgID r = id → ToUser r = u → p r = true →
  Z.of_nat (length (rows_found p (x_db (sw_ext w)))) <= limit →
  let m := list_rows key (mkQuery p o limit 0) in listed p w (eval m w) (exec m w).
Proof.
  intros Hdb Hw Hi Hu Hin Er Eu Hp Hlim m. subst m. unfold list_rows, listed.
  rewrite eval_bind, exec_bind. set (q := mkQuery _ _ _ _).
  destruct (held_find q w Hw) as [Hw2 _]. set (w2 := exec (ext _) w) in *.
  destruct (t_find Recipients q (x_db (sw_ext w))) as [[e|rs] d'] eqn:Ef; [by apply Hdb in Ef|].
  assert (eval (ext (on_db (t_find Recipients q))) w = inr rs) as ->.
  { unfold eval, ext, on_db, zoom. by rewrite Ef. }
  apply find_rows in Ef; [|done]. rewrite eval_bind, exec_bind.
  assert (r ∈ rs) as Hrs by (rewrite Ef; by apply elem_of_filter_list).
  destruct (adopt_waits key rs w2) as (-> & Hw3 & Hwt); [done..|by exists r|].
  rewrite eval_ret. unfold dedupeStrings. split_and!; [apply NoDup_dedupe_loop| | |done|done].
  - apply elem_of_dedupe_loop. split_and!; [|done|set_solver]. rewrite <- Er.
    by apply list_elem_of_fmap_2.
  - rewrite <- Ef. etrans; [apply sublist_length, dedupe_loop_sublist|]. by rewrite length_fmap.
Qed.

(** ** The three occasions *)

Lemma cached_ids_miss key w :
  eval (cache_get key) (sw_ext w) = None →
  eval (cached_ids key) w = None ∧ x_db (sw_ext (exec (cached_ids key) w)) = x_db (sw_ext w) ∧
  (held w → held (exec (cached_ids key) w)).
Proof.
  intros Hmiss. unfold cached_ids. rewrite eval_bind, exec_bind. split_and!.
  - assert (eval (ext (cache_get key)) w = None) as ->; [|done].
    revert Hmiss. unfold eval, ext, zoom. by destruct (cache_get key (sw_ext w)).
  - unfold exec, ext, zoom, cache_get. destruct (x_redis (sw_ext w)) as [rd|]; [|done].
    by destruct (redis_get key rd).
  - intros Hw. by apply held_cache_get.
Qed.

(** A login of [u], a tick of the retry worker, the recovery at start. *)
Inductive occasion := AtLogin (limit : Z) | AtTick | AtStart (limit : Z).

Definition list_of (o : occasion) : M (SW D R) (list string) :=
  match o with
  | AtLogin limit => ListPendingServerMsgIDsByUser u limit
  | AtTick => GetDueRetryServerMsgIDs 500
  | AtStart limit => RecoverPendingServerMsgIDs limit
  end.
Definition key_of (o : occasion) : string :=
  match o with
  | AtLogin _ => PendingUserKey u | AtTick => PendingDueKey | AtStart _ => PendingRecoverKey
  end.
Definition limit_of (o : occasion) : Z :=
  match o with AtLogin limit | AtStart limit => limit | AtTick => 500 end.

(** The rows it picks, at a time. *)
Definition picks (o : occasion) (now : Z) (r : MessageRecipient) : bool :=
  match o with
  | AtLogin _ => sql_eq (ToUser r) u && (r_Status r =? 0)
  | AtTick => (r_Status r =? 0) && match r_NextRetryAt r with Some t => t <=? now | None => false end
  | AtStart _ => r_Status r =? 0
  end.

Lemma occasion_listed o w r :
  let now := eval Now (sw_ext w) in
  listings_answer → held w → id ≠ "" → u ≠ "" →
  eval (cache_get (key_of o)) (sw_ext w) = None →
  r ∈ recipients_of (x_db (sw_ext w)) → r_ServerMsgID r = id → ToUser r = u →
  picks o now r = true →
  Z.of_nat (length (rows_found (picks o now) (x_db (sw_ext w)))) <= limit_of o →
  listed (picks o now) w (eval (list_of o) w) (exec (list_of o) w).
Proof.
  intros now Hdb Hw Hi Hu Hmiss Hin Er Eu Hp Hlim.
  assert (∀ ord w1, x_db (sw_ext w1) = x_db (sw_ext w) → held w1 →
    eval (cache_get (key_of o)) (sw_ext w1) = None →
    let m := (c ← cached_ids (key_of o);
              match c with
              | Some out => mret (match o with AtLogin l => clip l out | _ => dedupeStrings out end)
              | None => list_rows (key_of o) (mkQuery (picks o now) ord (limit_of o) 0)
              end) in
    listed (picks o now) w (eval m w1) (exec m w1)) as Hm.
  { intros ord w1 Ed Hw1 Hmiss1 m. subst m. rewrite eval_bind, exec_bind.
    destruct (cached_ids_miss _ w1 Hmiss1) as (-> & Ed1 & Hheld).
    pose proof (list_rows_listed (key_of o) (picks o now) ord (limit_of o)
      (exec (cached_ids (key_of o)) w1) r Hdb (Hheld Hw1) Hi Hu) as Hl.
    unfold listed in *. rewrite Ed1, Ed in Hl. by apply Hl. }
  destruct o as [limit| |limit]; cbn [list_of].
  - unfold ListPendingServerMsgIDsByUser, get_mem. rewrite (proj2 (String.eqb_neq u "") Hu).
    rewrite eval_bind, exec_bind.
    change (eval (gets sw_mem) w) with (sw_mem w). change (exec (gets sw_mem) w) with w.
    rewrite (h_mode w Hw). cbn [negb]. by apply (Hm (Asc r_ID) w).
  - unfold GetDueRetryServerMsgIDs, get_mem. rewrite !eval_bind, !exec_bind.
    set (w1 := exec (ext Now) w). change (eval (gets sw_mem) w1) with (sw_mem w).
    change (exec (gets sw_mem) w1) with w1. rewrite (h_mode w Hw). cbn [negb].
    destruct (held_Now w Hw) as [Hw1 _].
    apply (Hm (Asc (λ r, default 0 (r_NextRetryAt r))) w1); [done|done|].
    rewrite <- Hmiss. unfold eval, cache_get. cbn [w1]. change (x_redis (sw_ext w1)) with (x_redis (sw_ext w)).
    destruct (x_redis (sw_ext w)) as [rd|]; [|done]. by destruct (redis_get _ rd).
  - unfold RecoverPendingServerMsgIDs, get_mem. rewrite eval_bind, exec_bind.
    change (eval (gets sw_mem) w) with (sw_mem w). change (exec (gets sw_mem) w) with w.
    rewrite (h_mode w Hw). cbn [negb]. by apply (Hm (Asc r_ID) w).
Qed.
End store.

(** * The worker *)

Section worker.
Context `{GoEnv} {D R : Type} `{GL : GormLaws D} `{Redis R} `{Json}.
Context (id u : string) (rows : list DBMessage) (row : DBMessage).
Context (Hid : m_ServerMsgID row = id) (Hrow : row ∈ rows)
  (Honly : ∀ r, r ∈ rows → sql_eq (m_ServerMsgID r) id = true → r = row).
Abbreviation held := (held (D := D) (R := R) id u rows row).
Abbreviation waits := (waits (D := D) (R := R) id u).
Implicit Types d : DW (SW D R) Recorder.

(** What is sent of the message to [u]. *)
Definition to_u (cm : nat * Message) : bool :=
  String.eqb (ServerMsgID cm.2) id && String.eqb (To cm.2) u.

Definition logs (l : list (nat * Message)) d d' : Prop :=
  rec_online (d_net d') = rec_online (d_net d) ∧
  ∃ new, rec_sent (d_net d') = rec_sent (d_net d) ++ new ∧ List.filter to_u new = l.

Lemma logs_same d d' : d_net d' = d_net d → logs [] d d'.
Proof. intros E. unfold logs. rewrite E. split; [done|]. exists []. by rewrite app_nil_r. Qed.

Lemma logs_trans l1 l2 d1 d2 d3 : logs l1 d1 d2 → logs l2 d2 d3 → logs (l1 ++ l2) d1 d3.
Proof.
  intros (O1 & n1 & S1 & F1) (O2 & n2 & S2 & F2). split; [congruence|].
  exists (n1 ++ n2). rewrite S2, S1, app_assoc, List.filter_app. by rewrite F1, F2.
Qed.

#[export] Instance logs_preorder : PreOrder (logs []).
Proof.
  split; [intros d; by apply logs_same|]. intros d1 d2 d3 H12 H23.
  by apply (logs_trans [] [] d1 d2 d3).
Qed.

Lemma logs_store {A} (m : M (SW D R) A) : moves (logs []) (on_store m).
Proof. intros d. apply logs_same. unfold exec. by rewrite on_store_spec. Qed.

(** One recipient: [u] gets his copy, and another one, or another message, is not it. *)
Lemma deliver_to_others i msg om r : (i = id → r ≠ u) → moves (logs []) (deliver_to i msg om r).
Proof.
  intros Hne. unfold deliver_to. destruct (om !! r) as [[c|]|];
    repeat (apply moves_bind; [apply _| |intros ?]);
    try apply logs_store; try (apply moves_ret; apply _); try (apply moves_gets; apply _).
  intros d. split; [done|]. eexists. split; [done|]. cbn. unfold to_u. cbn.
  destruct (String.eqb_spec i id) as [->|]; [|done].
  by rewrite (proj2 (String.eqb_neq r u)) by auto.
Qed.

Lemma deliver_to_u msg om c d :
  om !! u = Some (Some c) →
  logs [(c, deliver_copy id u msg)] d (exec (deliver_to id msg om u) d).
Proof.
  intros Hc. unfold deliver_to. rewrite Hc, exec_bind.
  match goal with |- logs _ _ (exec _ ?d1) => apply (logs_trans [(c, deliver_copy id u msg)] [] d d1) end.
  - split; [done|]. eexists. split; [done|]. cbn. unfold to_u. cbn. by rewrite !String.eqb_refl.
  - apply moves_bind; [apply _|apply logs_store|intros ?]. apply moves_ret, _.
Qed.

Lemma deliver_loop_u msg om c ts d :
  om !! u = Some (Some c) → NoDup ts → u ∈ ts →
  logs [(c, deliver_copy id u msg)] d (exec (forM ts (deliver_to id msg om)) d).
Proof.
  intros Hc Hnd. revert d. induction Hnd as [|t ts Ht Hnd IH]; intros d;
    [by intros []%not_elem_of_nil|]. cbn [forM]. rewrite exec_bind.
  intros [<-|Hu]%elem_of_cons.
  - eapply (logs_trans [(c, deliver_copy id u msg)] []); [by apply deliver_to_u|].
    clear IH Hnd. generalize (exec (deliver_to id msg om u) d). clear d.
    induction ts as [|t ts IH]; intros d; [by apply logs_same|].
    apply not_elem_of_cons in Ht as [Hne Ht]. cbn [forM]. rewrite exec_bind.
    eapply (logs_trans [] []); [by apply deliver_to_others|by apply IH].
  - eapply (logs_trans [] [(c, deliver_copy id u msg)]); [|by apply IH]. apply deliver_to_others. intros _ ->. done.
Qed.

(** One message: another one leaves this one alone. *)
Lemma deliver_others i : i ≠ id → moves (logs []) (deliver i).
Proof.
  intros Hi. unfold deliver. apply moves_bind; [apply _|apply logs_store|intros [m|]];
    [|apply moves_ret, _]. apply moves_bind; [apply _|apply logs_store|intros ts].
  apply moves_bind; [apply _|apply moves_gets, _|intros om]. apply moves_forM; [apply _|intros r].
  by apply deliver_to_others.
Qed.

Lemma on_store_moves {A} Rel (m : M (SW D R) A) :
  moves Rel m → moves (on d_store Rel) (on_store (N := Recorder) m).
Proof. intros Hm d. unfold on, exec. rewrite on_store_spec. apply Hm. Qed.

Lemma deliver_keeps i : i ≠ id → moves (on d_store (keeps_held id u rows row)) (deliver i).
Proof.
  intros Hi. unfold deliver, deliver_to. repeat first
    [ apply on_store_moves; cbn; first [by apply held_get|by apply held_recipients
        |by apply held_sent|by apply held_retry]
    | moves_step idtac | done ].
Qed.

Lemma deliver_worker i : moves (on d_worker eq) (deliver i : M (DW (SW D R) Recorder) unit).
Proof.
  assert (∀ A (m : M (SW D R) A), moves (on d_worker eq) (on_store (N := Recorder) m)) as Hs.
  { intros A m d. unfold on, exec. by rewrite on_store_spec. }
  unfold deliver, deliver_to. repeat first [apply Hs | moves_step idtac | done].
Qed.

(** This one goes to [u]. *)
Lemma deliver_u c d :
  lookups_answer (D := D) → id ≠ "" → held (d_store d) → waits (d_store d) →
  rec_online (d_net d) !! u = Some (Some c) →
  logs [(c, deliver_copy id u (fromDBMessage row))] d (exec (deliver id) d).
Proof.
  intros Hdb Hne Hw Hwt Hc. unfold deliver. rewrite exec_bind.
  set (d1 := exec (on_store _) d).
  assert (d_store d1 = exec (GetMessageByServerID id) (d_store d) ∧ d_net d1 = d_net d) as [Es En].
  { unfold d1, exec. by rewrite on_store_spec. }
  assert (eval (on_store (st_GetMessageByServerID id)) d = Some (fromDBMessage row)) as ->.
  { unfold eval at 1. rewrite on_store_spec. by apply (get_found id u rows row). }
  destruct (held_get id u rows row Honly id (d_store d) Hw) as [Hw1 Hwt1].
  rewrite <- Es in Hw1, Hwt1. specialize (Hwt1 Hwt).
  destruct (recipients_wait id u rows row (d_store d1) Hw1 Hwt1) as [Hnd Hu].
  rewrite exec_bind. set (d2 := exec (on_store _) d1).
  assert (d_net d2 = d_net d) as En2 by (unfold d2, exec; by rewrite on_store_spec).
  assert (eval (on_store (st_GetRecipients id)) d1 = eval (GetRecipients id) (d_store d1)) as ->
    by (unfold eval at 1; by rewrite on_store_spec).
  rewrite exec_bind. change (exec (gets _) d2) with d2.
  change (eval (gets (λ d, net_online (d_net d))) d2) with (rec_online (d_net d2)).
  apply (logs_trans [] _ d d2); [by apply logs_same|].
  apply deliver_loop_u; [by rewrite En2|by apply NoDup_with_target|].
  apply elem_of_with_target. by left.
Qed.

(** ** The queue *)

(** The deliver goroutine with the queue [q]: what [u] gets of the message. *)
Lemma drain_logs c q n d :
  deliverQueue (d_worker d) = q → NoDup q → (length q <= n)%nat →
  let d' := exec (deliverWorker n) d in
  deliverQueue (d_worker d') = [] ∧
  deliverInFlight (d_worker d') = deliverInFlight (d_worker d) ∖ list_to_set q ∧
  (id ∉ q → logs [] d d') ∧
  (lookups_answer (D := D) → id ≠ "" → held (d_store d) → waits (d_store d) →
   rec_online (d_net d) !! u = Some (Some c) →
   id ∈ q → logs [(c, deliver_copy id u (fromDBMessage row))] d d').
Proof.
  revert n d. induction q as [|i q IH]; intros n d Eq Hnd Hn d'.
  { assert (d' = d) as ->.
    { subst d'. destruct n; [done|]. cbn. unfold exec, deliver_next, mbind, M_bind, gets. by rewrite Eq. }
    split_and!; [done|apply leibniz_equiv; set_solver|by intros _; apply logs_same|].
    by intros _ _ _ _ _ []%not_elem_of_nil. }
  destruct n as [|n]; [cbn in Hn; lia|]. cbn in Hn. apply NoDup_cons in Hnd as [Hi Hnd].
  set (d0 := mkDW (set_queue q (d_worker d)) (d_store d) (d_net d)).
  set (d1 := exec (deliver i) d0).
  set (d2 := mkDW (unmark i (d_worker d1)) (d_store d1) (d_net d1)).
  assert (d' = exec (deliverWorker n) d2) as ->.
  { subst d'. cbn [deliverWorker]. unfold exec, deliver_next, on_worker, modify, gets, mbind, M_bind.
    rewrite Eq. fold d0. subst d2 d1. unfold exec. by destruct (deliver i d0) as [[] d1]. }
  assert (d_worker d1 = set_queue q (d_worker d)) as Ew by (symmetry; apply (deliver_worker i d0)).
  destruct (IH n d2) as (Q & F & Hout & Hin); [cbn; by rewrite Ew|done|lia|].
  split_and!; [done| | |].
  - rewrite F. cbn. rewrite Ew. apply leibniz_equiv. set_solver.
  - intros [Hne Hq]%not_elem_of_cons. apply (logs_trans [] [] d d2); [|by apply Hout].
    by apply (deliver_others i (not_eq_sym Hne) d0).
  - intros Hdb Hne Hw Hwt Hc [E|Hq]%elem_of_cons.
    + subst i. apply (logs_trans [(c, deliver_copy id u (fromDBMessage row))] [] d d2); [|by apply Hout].
      by apply (deliver_u c d0).
    + assert (i ≠ id) as Hii by by intros ->.
      destruct (deliver_keeps i Hii d0 Hw) as [Hw1 Hwt1].
      assert (logs [] d d2) as Hlog by by apply (deliver_others i Hii d0).
      apply (logs_trans [] _ d d2 _ Hlog). apply Hin; [done..|by apply Hwt1| |done].
      destruct Hlog as [-> _]. done.
Qed.
End worker.

(** * Handing over *)

Section hand_over.
Context `{GoEnv} {D R : Type} `{GL : GormLaws D} `{Redis R} `{Json}.
Implicit Types d : DW (SW D R) Recorder.

(** What the worker does on each occasion. *)
Definition hand_over (u : string) (o : occasion) : M (DW (SW D R) Recorder) unit :=
  match o with
  | AtLogin limit => EnqueuePendingForUser u limit
  | AtTick => retry_tick
  | AtStart limit => RecoverPendingDeliveries limit
  end.

Lemma hand_over_list u o : hand_over u o = (ids ← on_store (list_of u o); enqueue_all ids).
Proof. by destruct o. Qed.

(** What it finds: a row that waits for [u] and the row of its message; the queue has room. *)
Record found (u : string) (o : occasion) (r : MessageRecipient) (row : DBMessage) (n : nat) d : Prop := {
  fd_row : r ∈ recipients_of (x_db (sw_ext (d_store d)));
  fd_user : ToUser r = u ∧ u ≠ "";
  fd_picked : picks u o (eval Now (sw_ext (d_store d))) r = true;
  fd_id : r_ServerMsgID r ≠ "" ∧ m_ServerMsgID row = r_ServerMsgID r;
  fd_message : row ∈ messages_of (x_db (sw_ext (d_store d)));
  fd_only r' : r' ∈ messages_of (x_db (sw_ext (d_store d))) →
    sql_eq (m_ServerMsgID r') (r_ServerMsgID r) = true → r' = row;
  fd_miss : eval (cache_get (key_of u o)) (sw_ext (d_store d)) = None;
  fd_room : Z.of_nat (length (rows_found (picks u o (eval Now (sw_ext (d_store d))))
                                (x_db (sw_ext (d_store d))))) <= Z.min (limit_of o) 1024;
  fd_turns : (length (rows_found (picks u o (eval Now (sw_ext (d_store d))))
                        (x_db (sw_ext (d_store d)))) <= n)%nat
}.

Lemma found_sent u o c r row n d :
  let id := r_ServerMsgID r in
  held id u (messages_of (x_db (sw_ext (d_store d)))) row (d_store d) →
  lookups_answer (D := D) → listings_answer (D := D) → found u o r row n d →
  deliverQueue (d_worker d) = [] → deliverInFlight (d_worker d) = ∅ →
  rec_online (d_net d) !! u = Some (Some c) →
  let d' := exec (hand_over u o;; deliverWorker n) d in
  deliverQueue (d_worker d') = [] ∧ deliverInFlight (d_worker d') = ∅ ∧
  logs id u [(c, deliver_copy id u (fromDBMessage row))] d d'.
Proof.
  intros id Hw Hl Hf [Hr [Hto Hu] Hpick [Hi Hid] Hin Honly Hmiss Hroom Hn] Hq Hfl Hc d'.
  destruct (occasion_listed id u _ row Hid Hin Honly o _ r Hf Hw Hi Hu Hmiss Hr eq_refl Hto Hpick)
    as (Hnd & Hids & Hlen & Hw1 & Hwt1); [lia|].
  set (ids := eval _ (d_store d)) in *.
  assert (length ids <= queue_cap)%nat as Hcap by (unfold queue_cap; lia).
  subst d'. rewrite hand_over_list, enqueue_run by done. fold ids.
  set (d1 := with_queue ids (exec _ (d_store d)) d).
  destruct (drain_logs id u _ row Hid Hin Honly c (named ids) n d1) as (Q & F & _ & Hlog).
  - done.
  - by apply NoDup_filter_list.
  - unfold named. pose proof (List.filter_length_le (λ i, negb (String.eqb i "")) ids). lia.
  - split; [done|]. split; [rewrite F; apply leibniz_equiv; set_solver|].
    apply (logs_trans id u [] _ d d1); [by apply logs_same|].
    apply Hlog; try done. apply elem_of_filter_list. split; [done|].
    by rewrite (proj2 (String.eqb_neq id "") Hi).
Qed.


(** What a save of a new message leaves in the database for one of its recipients. *)
Definition new_for (msg : Message) (tos : list string) (u : string) (db : D) : Prop :=
  existsb (clash_message sql_eq (toDBMessage msg)) (messages_of db) = false ∧
  existsb (λ r, sql_eq (ServerMsgID msg) (r_ServerMsgID r)) (recipients_of db) = false ∧
  ∀ t, t ∈ tos → sql_eq u t = true → t = u.

Lemma saved_rows_new msg tos u db db' :
  new_for msg tos u db → saved_rows msg tos db db' → u ∈ tos → u ≠ "" →
  ∃ row r, row ∈ messages_of db' ∧ same_message (toDBMessage msg) row ∧
    (∀ r', r' ∈ messages_of db' → sql_eq (m_ServerMsgID r') (ServerMsgID msg) = true → r' = row) ∧
    r ∈ recipients_of db' ∧ created_for (ServerMsgID msg) tos r ∧ ToUser r = u.
Proof.
  intros (Hm & Hr & Heq) (Hrows & Hrec & (new & Hnew & Hfor)) Hu Hne.
  rewrite Hm in Hrows. destruct Hrows as (row & Hrow & Hsame).
  destruct (Hrec u Hu Hne) as (r & Hin & Hid & Hto). exists row, r.
  assert (created_for (ServerMsgID msg) tos r) as Hcr.
  { rewrite Hnew in Hin. apply elem_of_app in Hin as [Hin|Hin].
    - rewrite existsb_false_stdpp in Hr. by rewrite (Hr r Hin) in Hid.
    - by apply (proj1 (Forall_forall _ _) Hfor). }
  split_and!; [rewrite Hrow; set_solver|done| |done|done|].
  - intros r'. rewrite Hrow. intros [Hr'| ->%list_elem_of_singleton]%elem_of_app Heq'; [|done].
    rewrite existsb_false_stdpp in Hm. specialize (Hm r' Hr'). unfold clash_message in Hm. cbn in Hm.
    apply sql_eq_sym in Heq'. by rewrite Heq' in Hm.
  - apply Heq; [apply Hcr|done].
Qed.

(** Nothing settled the delivery: its row is pending, and so is what the memory knows of it. *)
Definition unsettled (id u : string) (w : SW D R) : Prop :=
  (∀ r, r ∈ recipients_of (x_db (sw_ext w)) → r_ServerMsgID r = id → ToUser r = u →
     r_Status r = 0) ∧
  (∀ e, entry_of id u (sw_mem w) = Some e → pending_entry e = true).

(** C6. A saved message outlives its process until its delivery is settled. A new message (no
    row has its id, or its sender and client id) was saved for a user; then the store was
    called in any way - attempts to deliver it that failed, retries, other messages, anything
    but a save under its id -; then the process was restarted, that is, the memory is empty
    and the database the same; then the store was called in any way again, the recovery at
    start among it. If the delivery is not settled by then - its row is not marked
    acknowledged, read, or dead, which it becomes after the maximum number of attempts
    (retry.go:70), and the new memory does not hold it as settled -, then the user's next login
    sends him the message, exactly once and with its sender, chat, number and text, among
    whatever else is waiting for him, and the worker is idle again. (While the database
    answers, no list of his is in the cache, the worker was idle, and the limit and the queue
    leave room for his pending rows.) *)
Theorem saved_message_outlives_process msg tos u c limit n w w' cs x cs' d :
  persistent (sw_mem w) = true → ServerMsgID msg ≠ "" → u ∈ tos → u ≠ "" →
  SaveMessageWithRecipients (Some msg) (Some tos) w = (None, w') →
  new_for msg tos u (x_db (sw_ext w)) →
  Forall (not_saving (ServerMsgID msg)) (cs ++ cs') →
  x_db x = x_db (sw_ext (run_calls cs w')) →
  d_store d = run_calls cs' (mkSW (NewInMemoryStore true) x) →
  unsettled (ServerMsgID msg) u (d_store d) →
  lookups_answer (D := D) → listings_answer (D := D) →
  eval (cache_get (PendingUserKey u)) (sw_ext (d_store d)) = None →
  deliverQueue (d_worker d) = [] → deliverInFlight (d_worker d) = ∅ →
  rec_online (d_net d) !! u = Some (Some c) →
  let rows := rows_found (λ r, sql_eq (ToUser r) u && (r_Status r =? 0))
                (x_db (sw_ext (d_store d))) in
  Z.of_nat (length rows) <= Z.min limit 1024 → (length rows <= n)%nat →
  let d' := exec (EnqueuePendingForUser u limit;; deliverWorker n) d in
  deliverQueue (d_worker d') = [] ∧ deliverInFlight (d_worker d') = ∅ ∧
  ∃ new ts, rec_sent (d_net d') = rec_sent (d_net d) ++ new ∧
    List.filter (to_u (ServerMsgID msg) u) new =
      [(c, mkMessage TypeDeliver "" (ServerMsgID msg) (ChatID msg) (From msg) u (Seq msg) 0
             (Body msg) ts)].
Proof.
  intros Hp Hi Hin Hu Hsave Hnew Hcs Hx Hd [Hrows Hent] Hl Hf Hmiss Hq Hfl Hc rows Hlim Hn d'.
  apply save_rows in Hsave; [|done..]. apply Forall_app in Hcs as [Hcs Hcs'].
  destruct (saved_rows_new msg tos u _ _ Hnew Hsave Hin Hu)
    as (row & r & Hrow & Hsame & Honly & Hr & (Eid & _ & Est) & Eto).
  assert (stored_db (ServerMsgID msg) u row (x_db x)) as Hsx.
  { rewrite Hx. apply (run_calls_stored (ServerMsgID msg) u row (λ _, True) I cs w' Hcs).
    split; [|done]. split_and!; [done|done|]. by exists r. }
  destruct (run_calls_stored (ServerMsgID msg) u row (λ m, m = fromDBMessage row) eq_refl cs'
    (mkSW (NewInMemoryStore true) x) Hcs') as [(Hrow' & Honly' & r' & Hr' & Eid' & Eto') Hmem].
  { split; [done|]. intros m. cbn. by rewrite lookup_empty. }
  pose proof (run_calls_persistent cs' (mkSW (NewInMemoryStore true) x)) as Hp'. cbn in Hp'.
  rewrite <- Hd in Hrow', Honly', Hr', Hmem, Hp'. subst rows. rewrite <- Eid' in *.
  destruct (found_sent u (AtLogin limit) c r' row n d) as (Q & F & _ & new & Es & Ef); try done.
  - split; try done.
    + cbn. by rewrite Eto', sql_eq_refl, (Hrows r').
    + split; [done|]. destruct Hsame as (_ & Em & _). by rewrite Em.
  - split; [done|]. split; [done|]. exists new, (Unix (m_CreateTime row)). split; [done|].
    rewrite Ef. unfold deliver_copy, fromDBMessage. cbn.
    destruct Hsame as (_ & _ & -> & _ & -> & -> & _ & _ & -> & _). done.
Qed.
End hand_over.

(** * Witnesses *)

#[local] Existing Instance env0.
#[local] Existing Instance no_json.

(** alice's message to bob is saved; the worker attempts it, bob being offline; the process
    restarts and attempts it again; bob logs in on connection 7. *)
Definition saved1 : SW MemDB (gmap string string) :=
  exec (SaveMessageWithRecipients (Some msg1) (Some ["carol"; "bob"])) (w0 true).
Definition attempt1 : list StoreCall :=
  [CGetMessageByServerID "s-1"; CGetRecipients "s-1";
   CScheduleRetry "s-1" "bob" (Some (Err "recipient offline")) 5 (2 * Second);
   CMarkDeliverySent "s-1" "carol" None; CMarkDeliveryAcked "s-1" "carol"].
Definition tried_again : DW (SW MemDB (gmap string string)) Recorder :=
  mkDW (NewWorker 5 (2 * Second))
    (run_calls (CRecoverPendingServerMsgIDs 500 :: attempt1)
      (mkSW (NewInMemoryStore true) (sw_ext (run_calls attempt1 saved1))))
    (mkRecorder {["bob" := Some 7%nat]} []).

Lemma MemDB_lookups : lookups_answer (D := MemDB).
Proof.
  intros p d e d'. cbn. unfold lt_take, lt_select. cbn -[List.filter existsb].
  change (drop (Z.to_nat 0) ?l) with l. unfold limited. cbn -[List.filter existsb].
  destruct (List.filter p (mem_messages d)) as [|r l] eqn:E; [|congruence].
  destruct (existsb p (mem_messages d)) eqn:Ex; [|congruence]. exfalso.
  apply existsb_exists_stdpp in Ex as (r & Hr & Hp).
  assert (r ∈ List.filter p (mem_messages d)) as Hin by by apply elem_of_filter_list.
  rewrite E in Hin. by apply not_elem_of_nil in Hin.
Qed.
Lemma MemDB_listings : listings_answer (D := MemDB).
Proof. done. Qed.

Lemma saved_message_outlives_process_witness :
  let d' := exec (EnqueuePendingForUser "bob" 200;; deliverWorker 3) tried_again in
  deliverQueue (d_worker d') = [] ∧ deliverInFlight (d_worker d') = ∅ ∧
  ∃ new ts, rec_sent (d_net d') = rec_sent (d_net tried_again) ++ new ∧
    List.filter (to_u "s-1" "bob") new =
      [(7%nat, mkMessage TypeDeliver "" "s-1" "c2c:alice:bob" "alice" "bob" 1 0 "hi" ts)].
Proof.
  apply (saved_message_outlives_process msg1 ["carol"; "bob"] "bob" 7 200 3 (w0 true) saved1
    attempt1 (sw_ext (run_calls attempt1 saved1)) (CRecoverPendingServerMsgIDs 500 :: attempt1)
    tried_again).
  - by vm_compute.
  - done.
  - set_solver.
  - done.
  - by vm_compute.
  - split_and!; [by vm_compute|by vm_compute|]. intros t Ht.
    apply elem_of_cons in Ht as [->|Ht]; [by vm_compute|].
    apply elem_of_cons in Ht as [->|Ht]; [done|]. by apply not_elem_of_nil in Ht.
  - unfold attempt1. cbn [app]. repeat constructor.
  - done.
  - done.
  - split.
    + assert (forallb (λ r, negb (String.eqb (ToUser r) "bob") || (r_Status r =? 0))
        (recipients_of (x_db (sw_ext (d_store tried_again)))) = true) as Hall by by vm_compute.
      intros r Hr _ Et. rewrite forallb_forall in Hall. apply list_elem_of_In in Hr.
      specialize (Hall r Hr). rewrite Et in Hall. cbn in Hall. lia.
    + intros e. vm_compute. by intros [= <-].
  - apply MemDB_lookups.
  - apply MemDB_listings.
  - by vm_compute.
  - done.
  - done.
  - by vm_compute.
  - by vm_compute.
  - vm_compute. lia.
Defined.



