(* ===== verification/DaoProps.v ===== *)
(** The properties of the rows behind accounts and notices: users, sequence numbers, and the
    messages of the system. *)
From S2P Require Import Prelude GoStr Protocol StoreIface Limiter Logic Worker.
From S2P Require Import Storage MemDB Cache Dao Store StoreSteps StoreInv StoreFacts StoreDB StoreProps.
From S2P Require Import StoreImpl Group Hub Server Session Commands Conn Config Program Demo.

Section dao_props.
Context `{GoEnv} {D R : Type} `{GL : GormLaws D} `{Redis R} `{Json}.
Implicit Types x : Ext D R.

Abbreviation users x := (users_of (x_db x)).

(** * Users *)

(** Accounts are unique and kept as created: creating a user either fails and leaves
    the table as it was, or adds one row with the given name and hash, and no row had an
    equal name before. *)
Theorem CreateUser_unique u x :
  let '(r, x') := CreateUser (Some u) x in
  match r with
  | Some _ => users x' = users x
  | None => (∀ v, v ∈ users x → sql_eq (UserName u) (UserName v) = false) ∧
            ∃ v, users x' = users x ++ [v] ∧ same_user u v
  end.
Proof.
  unfold CreateUser. destruct (x_dbinit x); cbn [negb]; [|done].
  unfold on_db, zoom, mbind, M_bind.
  destruct (t_create Users false u (x_db x)) as [[e|row] d'] eqn:Ec.
  - by apply (create_err _ _ _ _ _ users_laws) in Ec.
  - apply (create_ok _ _ _ _ _ users_laws) in Ec.
    pose proof (cache_set_db (UserKey (UserName row)) (json_user row) user_ttl (set_db d' x)) as Hc.
    destruct (cache_set _ _ _ _) as [[] x']. cbn in Hc |- *. rewrite Hc.
    destruct (existsb _ _) eqn:Ex; [by destruct Ec|].
    destruct Ec as (v & Hv & Hsame & _). split; [|by exists v].
    intros w Hw. by apply (proj1 (existsb_false_stdpp _ _) Ex).
Qed.

(** A name that reads as a number is taken for an id: updating the status "of a user"
    called by such a name never looks at the name; it touches at most the row of that id. *)
Theorem numeric_name_is_an_id name id status x :
  ParseUint name = Some id →
  Forall2 (λ u u', if u_ID u =? id then u' = u ∨ same_user (with_status status u) u' else u' = u)
    (users x) (users (exec (UpdateUserStatus name status) x)).
Proof.
  intros Hid.
  assert (∀ l, Forall2 (λ u u', if u_ID u =? id then u' = u ∨ same_user (with_status status u) u'
    else u' = u) l l) as Hrefl.
  { induction l as [|u l IH]; constructor; [|done]. case_match; auto. }
  unfold UpdateUserStatus, exec. destruct (x_dbinit x) eqn:Edb; cbn [negb]; [|apply Hrefl].
  destruct (String.eqb name ""); [apply Hrefl|]. rewrite Hid.
  unfold update_by_id, on_db, zoom, mbind, M_bind.
  destruct (t_updates Users _ _ (x_db x)) as [[[e|] n] d'] eqn:Eu; cbn -[GetUserByID].
  { apply (updates_err _ _ _ _ _ users_laws) in Eu. rewrite Eu. apply Hrefl. }
  apply (updates_ok _ _ _ _ _ users_laws) in Eu.
  assert (∀ d2, users_of d2 = users_of d' → Forall2 (λ u u', if u_ID u =? id
    then u' = u ∨ same_user (with_status status u) u' else u' = u) (users x) (users_of d2)) as Hd.
  { intros d2 ->. eapply Forall2_impl; [exact Eu|]. cbn. intros u u'. case_match; auto. }
  destruct (n =? 0); [by apply Hd|]. cbn -[GetUserByID].
  destruct (x_redis x); [|by apply Hd].
  unfold GetUserByID. cbn. rewrite Edb. cbn. unfold on_db, zoom. cbn.
  set (q := mkQuery _ _ _ _). pose proof (take_frame _ _ _ _ _ users_laws q d') as [_ Hf].
  destruct (t_take Users q d') as [[e|u] d2]; cbn in Hf |- *; [apply Hd; exact Hf|].
  unfold cache_del. cbn. munfold.
  apply Hd. rewrite <- Hf. by destruct (x_redis x).
Qed.

(** * Sequence numbers *)

Lemma sorted_head_max {Row} (k : Row → Z) r l :
  StronglySorted (key_ge k) (r :: l) → ∀ r', r' ∈ r :: l → k r' <= k r.
Proof.
  intros [_ Hr]%StronglySorted_inv r' [->|Hin]%elem_of_cons; [lia|].
  rewrite Forall_forall in Hr. by apply Hr.
Qed.

(** The latest sequence number of a chat is the greatest in its rows, and 0 only when it
    has none; any other failure is reported. *)
Theorem latest_seq_is_max chat n x :
  eval (GetLatestSeq chat) x = (n, None) →
  let mine m := sql_eq (m_ChatID m) chat in
  (n = 0 ∧ (∀ m, m ∈ messages_of (x_db x) → mine m = false)) ∨
  ((∃ m, m ∈ messages_of (x_db x) ∧ mine m = true ∧ m_Seq m = n) ∧
   ∀ m, m ∈ messages_of (x_db x) → mine m = true → m_Seq m <= n).
Proof.
  unfold GetLatestSeq, eval. destruct (x_dbinit x); cbn [negb]; [|done].
  unfold on_db, zoom, mbind, M_bind. set (q := mkQuery _ _ _ _).
  destruct (t_take Messages q (x_db x)) as [[e|r] d'] eqn:Et; cbn.
  - destruct e; [|done]. intros [= <-]. left. split; [done|].
    exact (take_none _ _ _ _ _ messages_laws q _ _ Et).
  - intros [= <-]. right.
    apply (take_ok _ _ _ _ _ messages_laws) in Et as (l & l0 & Hp & Hs & Hl).
    change (r :: l = drop (Z.to_nat 0) l0) in Hl. rewrite drop_0 in Hl. subst l0. cbn in Hp, Hs.
    assert (∀ m, m ∈ r :: l ↔ m ∈ messages_of (x_db x) ∧ sql_eq (m_ChatID m) chat = true) as Hin
      by (intros m; by rewrite Hp, elem_of_filter_list).
    split.
    + exists r. assert (r ∈ r :: l) as Hr%Hin by left. by destruct Hr.
    + intros m Hm Hc. apply (sorted_head_max m_Seq r l Hs). by apply Hin.
Qed.

(** * Notices of the system *)

(** What the database part of the store says: its mode and the message rows. *)
Definition rows_view (im : IM (D := D) (R := R)) : bool * list DBMessage :=
  (persistent (sw_mem (d_store im)), messages_of (x_db (sw_ext (d_store im)))).

Abbreviation keeps := (moves (on rows_view eq)).
Abbreviation MI := (M (IM (D := D) (R := R))).

Lemma NextSeq_keeps c : keeps (on_store (NextSeq c) : MI _).
Proof.
  intros im. unfold on, exec, on_store, zoom, rows_view, NextSeq.
  unfold get_mem, mem_modify, ext, on_db. munfold. cbn.
  destruct (_ !! _); [done|]. destruct (persistent _) eqn:Ep; [|cbn; by rewrite Ep].
  set (p := λ r, _). pose proof (max_frame _ _ _ _ _ messages_laws p m_Seq
    (x_db (sw_ext (d_store im)))) as [_ Hf].
  destruct (t_max Messages p m_Seq _) as [[e|n] d']; cbn in Hf |- *; by rewrite Ep, Hf.
Qed.

Lemma id_keeps p : keeps (on_logic (GenerateServerMsgID p) : MI _).
Proof. done. Qed.

(** Saving a message whose sender and client id are taken adds no row. *)
Lemma save_duplicate_keeps msg recipients (im : IM (D := D) (R := R)) :
  (rows_view im).1 = true →
  existsb (clash_message sql_eq (toDBMessage msg)) (rows_view im).2 = true →
  rows_view (exec (on_store (SaveMessageWithRecipients (Some msg) recipients)) im) = rows_view im.
Proof.
  intros Hp Hc. unfold exec, on_store, zoom, rows_view in *. cbn in Hp, Hc.
  unfold SaveMessageWithRecipients. destruct (String.eqb _ _); [done|].
  unfold mem, gets, mbind, M_bind. rewrite Hp.
  pose proof (persist_message_spec msg recipients (d_store im)) as Hs.
  destruct (Transaction _ _) as [r d'] eqn:Et. apply save_tx_laws in Et.
  destruct Hs as (E1 & E2 & E3). unfold eval, exec in *.
  destruct (persist_message msg recipients (d_store im)) as [r' w1]. cbn in E1, E2, E3. subst r' d'.
  destruct r as [e|]; cbn.
  - destruct Et as [-> _]. by rewrite E2, Hp.
  - destruct Et as [Hrows _]. rewrite Hc in Hrows.
    destruct (remember_message_spec msg (default [] recipients) w1) as (_ & R2 & R3).
    destruct (remember_message _ _ w1) as [r2 w2]. cbn in R2, R3 |- *.
    rewrite R2, Hrows, R3. f_equal.
    destruct (saveDeliveries_other (ServerMsgID msg) (default [] recipients)
      (saveMessageUnsafe msg (sw_mem w1))) as (_ & _ & _ & ->). cbn. by rewrite E2, Hp.
Qed.
Lemma world_keeps {A} (m : M (Ext D R) A) :
  (∀ x, x_db (exec m x) = x_db x) → keeps (world m : MI A).
Proof.
  intros Hm im. unfold on, exec, world, on_store, zoom, rows_view, ext. munfold.
  specialize (Hm (sw_ext (d_store im))). unfold exec in Hm.
  destruct (m (sw_ext (d_store im))) as [a x']. cbn in *. by rewrite Hm.
Qed.

(** Only the first notice of the system is ever stored. Notices have the sender "system"
    and no client id, and the pair is a unique key whose conflicts are ignored: once the
    table has such a row, a broadcast reports its new id and number, but adds no message
    row, so that after a restart nobody can be sent that notice. *)
Theorem later_system_events_not_stored body exclude (im : IM (D := D) (R := R)) r :
  persistent (sw_mem (d_store im)) = true →
  r ∈ messages_of (x_db (sw_ext (d_store im))) → SendID r = "system" → m_ClientMsgID r = "" →
  messages_of (x_db (sw_ext (d_store (exec (BroadcastSystemEvent body exclude) im)))) =
    messages_of (x_db (sw_ext (d_store im))).
Proof.
  intros Hp Hr Hs Hc.
  set (P := λ v : bool * list DBMessage, v = rows_view im).
  assert (hoare (λ i, P (rows_view i)) (BroadcastSystemEvent body exclude)
            (λ _ i, P (rows_view i))) as Hh.
  { unfold BroadcastSystemEvent.
    apply (hoare_frame_bind rows_view P); [apply NextSeq_keeps|intros n].
    apply (hoare_frame_bind rows_view P); [apply id_keeps|intros id].
    apply (hoare_frame_bind rows_view P); [by apply world_keeps|intros now].
    apply (hoare_frame_bind rows_view P).
    { unfold others_online. apply moves_bind; [apply _|done|intros m].
      apply moves_bind; [apply _|by apply world_keeps|done]. }
    intros recips. eapply hoare_bind.
    - instantiate (1 := λ _ i, P (rows_view i)). intros i Hi. unfold P in *.
      rewrite save_duplicate_keeps; [done|by rewrite Hi|]. rewrite Hi.
      apply existsb_exists_stdpp. exists r. split; [done|]. unfold clash_message. cbn.
      by rewrite Hs, Hc, !sql_eq_refl, orb_true_r.
    - intros e. by apply (hoare_frame rows_view P). }
  specialize (Hh im eq_refl). unfold P, rows_view in Hh. by injection Hh.
Qed.
End dao_props.

(** * Witnesses *)

#[local] Existing Instances demo_env demo_json demo_fmt demo_bcrypt demo_gb.

(** The world outside the program. *)
Definition outer_ext (im : Demo) : Ext MemDB (gmap string string) := sw_ext (d_store im).

(** Two accounts; the second is called by the id of the first. *)
Definition two_users : Ext MemDB (gmap string string) :=
  let account name := exec (CreateUser (Some (mkUser 0 name "hash" "" "" 0 0 0))) in
  account "1" (account "alice" demo_ext).

Lemma numeric_name_is_an_id_witness :
  let x' := exec (UpdateUserStatus "1" 1) two_users in
  u_Status <$> users_of (x_db x') = [1; 0] ∧
  Forall2 (λ u u', if u_ID u =? 1 then u' = u ∨ same_user (with_status 1 u) u' else u' = u)
    (users_of (x_db two_users)) (users_of (x_db x')).
Proof.
  split; [by vm_compute|]. apply (numeric_name_is_an_id "1" 1 1 two_users). by vm_compute.
Defined.

Lemma latest_seq_is_max_witness :
  let x := outer_ext (types 0 "to|bob|two" (types 0 "to|bob|one" both_online)) in
  eval (GetLatestSeq "c2c:alice:bob") x = (2, None) ∧
  ((2 = 0 ∧ (∀ m, m ∈ messages_of (x_db x) → sql_eq (m_ChatID m) "c2c:alice:bob" = false)) ∨
   ((∃ m, m ∈ messages_of (x_db x) ∧ sql_eq (m_ChatID m) "c2c:alice:bob" = true ∧ m_Seq m = 2) ∧
    ∀ m, m ∈ messages_of (x_db x) → sql_eq (m_ChatID m) "c2c:alice:bob" = true → m_Seq m <= 2)).
Proof.
  split; [by vm_compute|].
  apply (latest_seq_is_max "c2c:alice:bob" 2). by vm_compute.
Defined.

(** The row of the first notice, in the world where alice just registered. *)
Definition first_notice : DBMessage :=
  mkDBMessage 1 "" "sys-1700000003000-1" 1 1 "system" "system" "" 1 "alice ✅ 已上线！" 0 0.

Lemma later_system_events_not_stored_witness :
  (mem_messages (x_db (outer_ext alice_online)) = [first_notice]) ∧
  messages_of (x_db (outer_ext (exec (BroadcastSystemEvent "second" "") alice_online))) =
    messages_of (x_db (outer_ext alice_online)).
Proof.
  split; [by vm_compute|].
  apply (later_system_events_not_stored "second" "" alice_online first_notice); try by vm_compute.
  assert (mem_messages (x_db (outer_ext alice_online)) = [first_notice]) as E by by vm_compute.
  change (first_notice ∈ mem_messages (x_db (outer_ext alice_online))). rewrite E. by left.
Defined.
